(* ===== verification/_CoqProject ===== *)
-Q . S2P
Prelude.v
GoStrings.v
GoNet.v
GoIO.v
GoBase64.v
Iface.v
Idns.v
Filter.v
BasicAuth.v
Binding.v
Sni.v
Enet.v
Captain.v
Socks5.v
LoadBalance.v
Shadowsocks.v
Outil.v
Httpc.v
Cs.v
UdpRelay.v
TcpSvc.v
Through.v
Mux.v
MuxServer.v
MuxClient.v
Route.v
HttpSvc.v
SocksSvc.v
SocksStart.v
SocksUdp.v
Sps.v
SpsUdp.v
