(* ===== verification/Prelude.v ===== *)
(** A verification of jocasta, a set of proxy services written in Go.

    * The program

    jocasta runs one of several services: an HTTP proxy (services/http), a SOCKS5
    proxy (services/socks), a proxy that takes HTTP, SOCKS5 and shadowsocks clients
    on one port (services/sps), a TCP and a UDP forwarder that can be put in front
    of each other (services/tcp, services/udp), and a tunnel (services/mux) made of
    a bridge, server nodes and client nodes.  A service accepts connections, reads a
    request in one of the wire formats, asks an authentication center, decides where
    the connection goes (directly, to one of the parents that a load balancer picks,
    through an upstream proxy) and then joins two connections, or relays datagrams
    between sockets.  The parts below the services (core/, pkg/, connection/, cs/)
    are the wire formats, the balancer, the domain filter, the resolver, the
    authentication center and the wrappers of connections.

    * The files, and the code they model

    The language and its library:
    - [Prelude]: bytes, the error type, the outcome of a call (a value, an error or
      a panic), the monad [io] of calls that change a state, slices with their
      bounds checks, concurrent maps as a class, tactics and hints;
    - [GoStrings], [GoNet], [GoBase64]: what the code uses of strings, bytes,
      strconv, net and encoding/base64;
    - [GoIO]: readers as lists of segments and errors, [Read], [ReadFull],
      connections, and what it means that a parser reads a message.

    The parts ([Iface] holds the classes through which they meet):
    - [Captain]: core/captain (datalen.go, addr.go, stream.go, datagram.go,
      stream_datagram.go);
    - [Socks5]: core/socks5 (structs.go, server.go, client.go);
    - [LoadBalance]: core/loadbalance (upstream.go, selector.go, loadbalance.go,
      option.go);
    - [Filter]: core/filter; [Idns]: core/idns; [BasicAuth]: core/basicAuth;
    - [Binding]: core/binding and pkg/bpool;
    - [Shadowsocks]: connection/shadowsocks; [Sni]: connection/sni with the reader
      of connection/cbuffered;
    - [Enet], [Outil], [Httpc], [Through]: pkg/enet, pkg/outil, pkg/httpc and
      pkg/through; [Cs]: cs/proxy.go and cs/proxy_forward.go.

    The services:
    - [UdpRelay]: services/udp; [TcpSvc]: services/tcp, both with the collector of
      connection/manager.go;
    - [Mux]: services/mux/bridge.go, and of server.go and client.go the negotiation,
      the handshakes and the routes; [MuxServer]: the session of a server node
      (server.go) and the datagrams of its local sources; [MuxClient]: the attempts
      of a client node (client.go) and the datagrams of its streams;
    - [Route]: the decisions that services/http and services/socks share;
    - [HttpSvc]: services/http/http.go;
    - [SocksSvc]: services/socks/socks.go and the CONNECT; [SocksStart]: its start
      and stop; [SocksUdp]: services/socks/udp.go;
    - [Sps]: services/sps/sps.go; [SpsUdp]: services/sps/socksudp.go and ssudp.go.

    * How state and operations correspond

    A Go function is a definition of its name.  One that fails returns an [outcome];
    one that changes a state is a computation in [io] over a record of that state,
    with a constructor for each early return.  A connection is a record of what will
    be read from it, what was written, how coming writes end, and whether it was
    closed.  Goroutines that share a state are the events of a step function [step]:
    an event is the stretch of one goroutine between two points at which another may
    run (a read or write of a socket, a dial, a lock), and [run] folds a list of
    events, so a theorem about every [run] is one about every interleaving.  Objects
    that goroutines share through pointers (sessions, buffers) are entries of a heap
    that tables refer to.  Integers of a fixed width wrap where the code computes
    with them; [int] is 64 bits wide.

    * What the theorems show

    - Wire formats: encoders and parsers are inverse on exactly the messages stated
      ([Captain.StreamDatagram_roundtrip], [Captain.Datagram_roundtrip],
      [Socks5.PacketUDP_roundtrip]), parsed lengths are bounded, what is read does
      not depend on how it was cut into segments, and client and server of a
      handshake or negotiation end with the same view ([Socks5.handshake_completes],
      [Mux.negotiation], [Mux.tunnel_handshake], [Shadowsocks.Dial_request],
      [Cs.connect_through_proxy]).
    - Admission: what the authentication center is asked before anything is dialed.
      The HTTP proxy dials only for credentials that the center accepts
      ([HttpSvc.dials_authorised]).  The smart proxy service does so for HTTP clients;
      for a SOCKS5 client the center is shown the empty pair whatever the client sent,
      and for a shadowsocks client it is not asked ([Sps.admission]): the server side
      of the SOCKS5 handshake submits its own pair ([Socks5.Handshake_authenticated]).
      The center is a finite map ([BasicAuth.Verify_refines_map]).
    - Relaying: what is dialed and what each end is sent
      ([HttpSvc.joins], [SocksSvc.proxyTCP_replies], [Sps.http_parent],
      [Sps.ss_accepts]); in every interleaving a relay keeps the sources of what it
      sends apart ([UdpRelay.relay_sound], [TcpSvc.tcp_sound], [SpsUdp.assoc_sound],
      [MuxServer.node_sound], [Mux.bridge_routes]), every packet is accounted for
      ([UdpRelay.stream_parent_reads]), and two services composed pass a datagram and
      its reply ([TcpSvc.udp_over_tcp], [MuxClient.tunnel_datagrams],
      [SpsUdp.datagrams_pass]).  Where goroutines share a variable or a buffer the
      strong form holds only of the runs that do not race on it, which a predicate on
      runs singles out ([TcpSvc.prompt], [MuxClient.c_prompt],
      [SpsUdp.prompt]); what holds of every run is stated beside it
      ([MuxClient.client_sound]), and a theorem gives a run in which the race shows
      ([TcpSvc.replies_share_buffer], [MuxClient.write_follows_item],
      [SpsUdp.replies_cross]).  A table that all associations of a service share
      changes by events of the others.
    - Shared parts: invariants of the balancer, of the prober and of the buffer
      pool, fairness of the weighted policy, the copying of a stream.
    - Behaviour that the code has and its comments or its purpose deny is stated as
      theorems too: sessions that a collector takes from live clients, copiers that
      start too late, buffers that are put back before they are used, panics on
      messages that end early.  The doc comment of the theorem says what happens.

    Theorems named [X_witness] apply [X] at a concrete input that meets its
    hypotheses.

    * Bounds and fuel

    Recursion is structural wherever the code's is bounded by its data.  Fuel is used
    for: the data length (three rounds more than there is input, and a theorem that
    they are never used up), splitting and
    replacing strings and decoding runes (the length of the input, of which every
    round takes at least one byte), selections by weight (a cycle of the policy has
    finitely many weights, and the theorems give the number of rounds), copying
    ([Binding.copy_loop]: each round takes a segment or an error, and [Copy] gives it
    the number of bytes and events that are left) and the loop that waits for a
    client ([SocksUdp.watch], whose theorem says when some fuel is enough).  Where a
    function has fuel a theorem states that it ends with the result.  [Binding.Copy]
    takes the copying methods that its ends may bring along as an argument, since
    io.CopyBuffer prefers them to the buffer.  Time is an
    integer that events move forward.

    * Conventions

    Of an error only the literal part of its text and the errors it wraps are kept.
    The capacity of a slice that a function is given is its length.  Upper and lower
    case and white space are those of ASCII.  Deadlines, logging and the pool of
    goroutines are no state: a deadline that passes is an error of a read or a write,
    and what runs in a goroutine is a step of its own.  A write that fails sends
    nothing.  The connections of a service are seen
    behind their encryption and compression.

    * Inputs

    Code that is not part of the repository is a parameter with the laws it
    documents: stream ciphers, AES and MD5, protocol buffer marshalling, url.Parse,
    the DNS exchange, the classification of hosts of extnet, the datagrams and
    replies of go-socks5, smux sessions, the retries of backoff.  Dials, listeners,
    certificates, random numbers, the clock, and the moments at which goroutines run
    are arguments or events.

    * Not modelled

    - the transports (pkg/ccs, cs/tcp, kcp and udp clients and servers): calls of
      the operating system, TLS and KCP libraries;
    - the wrappers of connections other than those of sni and shadowsocks:
      compression and encryption streams of libraries, counters and rate limits;
    - of the tunnel the smux library and the dialers;
    - [Forward.Proxy], which runs two copies and waits for the first to end: the
      services' theorems end where it begins or take its effect as a function;
    - key generation, the ssh client, the command line and process supervision,
      logging, generated code: files, libraries and output. *)
From Stdlib Require Export ZArith Lia.
From Stdlib Require Export Ascii String.
From stdpp Require Export base decidable list strings gmap.

Open Scope Z_scope.

(** * Bytes, byte slices and Go strings *)

(** A Go [byte] is 8 bits wide by construction; a [[]byte] and a [string] are
    both finite sequences of bytes. *)
Abbreviation byte := ascii (only parsing).
Abbreviation bytes := (list ascii) (only parsing).

Definition b2z (b : byte) : Z := Z.of_N (N_of_ascii b).

(** Go's conversion [byte(x)] of an integer keeps the low eight bits. *)
Definition z2b (z : Z) : byte := ascii_of_N (Z.to_N (z mod 256)).

(** A string literal as a byte sequence. *)
Definition lit (s : string) : bytes := list_ascii_of_string s.

(** [len(x)] *)
Abbreviation len l := (Z.of_nat (length l)).

Lemma b2z_range (b : byte) : 0 <= b2z b < 256.
Proof.
  unfold b2z. pose proof (N_ascii_bounded b). lia.
Qed.

Lemma z2b_b2z (b : byte) : z2b (b2z b) = b.
Proof.
  unfold z2b. rewrite Z.mod_small by apply b2z_range.
  unfold b2z. rewrite N2Z.id. apply ascii_N_embedding.
Qed.

Lemma b2z_z2b (z : Z) : b2z (z2b z) = z mod 256.
Proof.
  unfold b2z, z2b. pose proof (Z.mod_pos_bound z 256 ltac:(lia)).
  rewrite N_ascii_embedding by lia. lia.
Qed.

Lemma b2z_z2b_small (z : Z) : 0 <= z < 256 -> b2z (z2b z) = z.
Proof. intros H. rewrite b2z_z2b. by apply Z.mod_small. Qed.

Lemma b2z_inj (a b : byte) : b2z a = b2z b -> a = b.
Proof. intros H. by rewrite <- (z2b_b2z a), <- (z2b_b2z b), H. Qed.

Lemma z2b_mod (z : Z) : z2b (z mod 256) = z2b z.
Proof. apply b2z_inj. rewrite !b2z_z2b. apply Zmod_mod. Qed.

(** * Automation shared by the components *)

Create HintDb jocasta.
Create Rewrite HintDb len.
Create Rewrite HintDb byte.
#[export] Hint Resolve b2z_range : jocasta.
#[export] Hint Rewrite @length_app @length_cons @length_map @length_reverse : len.
#[export] Hint Rewrite b2z_z2b z2b_b2z z2b_mod : byte.

(** Put boolean comparisons of [Z] into the context as propositions. *)
Ltac zify_bool :=
  repeat match goal with
  | H : (_ && _) = true |- _ => apply andb_true_iff in H; destruct H
  | H : (_ || _) = false |- _ => apply orb_false_iff in H; destruct H
  | H : negb _ = true |- _ => apply negb_true_iff in H
  | H : negb _ = false |- _ => apply negb_false_iff in H
  | H : (_ <=? _) = true |- _ => apply Z.leb_le in H
  | H : (_ <=? _) = false |- _ => apply Z.leb_gt in H
  | H : (_ <? _) = true |- _ => apply Z.ltb_lt in H
  | H : (_ <? _) = false |- _ => apply Z.ltb_ge in H
  | H : (_ =? _) = true |- _ => apply Z.eqb_eq in H
  | H : (_ =? _) = false |- _ => apply Z.eqb_neq in H
  end.

(** Decide a comparison of [Z] in the goal by linear arithmetic. *)
Ltac zdecide :=
  repeat match goal with
  | |- context [?a <=? ?b] =>
      first [ rewrite (proj2 (Z.leb_le a b)) by lia
            | rewrite (proj2 (Z.leb_gt a b)) by lia ]
  | |- context [?a <? ?b] =>
      first [ rewrite (proj2 (Z.ltb_lt a b)) by lia
            | rewrite (proj2 (Z.ltb_ge a b)) by lia ]
  | |- context [?a =? ?b] =>
      first [ rewrite (proj2 (Z.eqb_eq a b)) by lia
            | rewrite (proj2 (Z.eqb_neq a b)) by lia ]
  end; cbn [andb orb negb].

(** Facts about the numeric value of a byte for the bytes in sight. *)
Ltac byte_bounds :=
  repeat match goal with
  | |- context [b2z ?b] =>
      lazymatch goal with
      | _ : 0 <= b2z b < 256 |- _ => fail
      | _ => pose proof (b2z_range b)
      end
  | H : context [b2z ?b] |- _ =>
      lazymatch goal with
      | _ : 0 <= b2z b < 256 |- _ => fail
      | _ => pose proof (b2z_range b)
      end
  end.

(** * Errors, outcomes and panics *)

(** A Go [error] value: the sentinels the code compares against, a message, or
    a message wrapping a cause ([fmt.Errorf("...%s", err)]). *)
Inductive error :=
  | EOF
  | ErrUnexpectedEOF
  | ErrClosed
  | ErrTimeout
  | ErrRefused
  | ErrMsg (msg : string)
  | ErrWrap (msg : string) (cause : error).

#[export] Instance error_eq_dec : EqDecision error.
Proof. solve_decision. Defined.

(** What a Go call does: return a value with a nil error, return an error, or
    panic (index or slice bounds out of range, division by zero, an explicit
    [panic], a nil dereference). *)
Inductive outcome (A : Type) :=
  | Ok (a : A)
  | Fail (e : error)
  | Panic.
Arguments Ok {_} _.
Arguments Fail {_} _.
Arguments Panic {_}.

#[export] Instance outcome_ret : MRet outcome := @Ok.
#[export] Instance outcome_bind : MBind outcome := fun A B f m =>
  match m with Ok a => f a | Fail e => Fail e | Panic => Panic end.
#[export] Instance outcome_fmap : FMap outcome := fun A B f m =>
  match m with Ok a => Ok (f a) | Fail e => Fail e | Panic => Panic end.

Definition is_ok {A} (m : outcome A) : bool :=
  match m with Ok _ => true | _ => false end.

Lemma outcome_bind_ok {A B} (m : outcome A) (f : A -> outcome B) b :
  m ≫= f = Ok b <-> exists a, m = Ok a /\ f a = Ok b.
Proof.
  destruct m; simpl; split; naive_solver.
Qed.

(** State-passing computations that may fail or panic. *)
Definition io (S A : Type) : Type := S -> outcome A * S.

#[export] Instance io_ret {S} : MRet (io S) := fun A a s => (Ok a, s).
#[export] Instance io_bind {S} : MBind (io S) := fun A B f m s =>
  match m s with
  | (Ok a, s') => f a s'
  | (Fail e, s') => (Fail e, s')
  | (Panic, s') => (Panic, s')
  end.

Definition io_fail {S A} (e : error) : io S A := fun s => (Fail e, s).
Definition io_panic {S A} : io S A := fun s => (Panic, s).
Definition io_lift {S A} (m : outcome A) : io S A := fun s => (m, s).

(** Run [m], hand its error (if any) to the continuation instead of stopping:
    [x, err := m]. A panic still unwinds. *)
Definition io_try {S A} (m : io S A) : io S (A + error) := fun s =>
  match m s with
  | (Ok a, s') => (Ok (inl a), s')
  | (Fail e, s') => (Ok (inr e), s')
  | (Panic, s') => (Panic, s')
  end.

(** Read and update the state *)
Definition io_gets {S A} (f : S -> A) : io S A := fun s => (Ok (f s), s).
Definition io_modify {S} (f : S -> S) : io S unit := fun s => (Ok tt, f s).

(** [fmt.Errorf("msg %s", err)] on the error of [m] *)
Definition io_wrap {S A} (msg : string) (m : io S A) : io S A := fun s =>
  match m s with
  | (Fail e, s') => (Fail (ErrWrap msg e), s')
  | r => r
  end.

(** * Slices with bounds checks *)

(** [l[i]] *)
Definition idx {A} (l : list A) (i : Z) : outcome A :=
  if 0 <=? i then
    match l !! Z.to_nat i with Some x => Ok x | None => Panic end
  else Panic.

(** [l[i:j]] where [cap(l) = len(l)] *)
Definition slice {A} (l : list A) (i j : Z) : outcome (list A) :=
  if (0 <=? i) && (i <=? j) && (j <=? len l) then
    Ok (take (Z.to_nat (j - i)) (drop (Z.to_nat i) l))
  else Panic.

(** [l[i:]] *)
Definition slice_from {A} (l : list A) (i : Z) : outcome (list A) :=
  slice l i (len l).

(** [binary.BigEndian.Uint16] *)
Definition be16 (h l : byte) : Z := b2z h * 256 + b2z l.

(** [byte(p>>8), byte(p)] *)
Definition port_bytes (p : Z) : bytes := [z2b (Z.shiftr p 8); z2b p].

Lemma port_bytes_be16 (p : Z) :
  be16 (z2b (Z.shiftr p 8)) (z2b p) = p mod 65536.
Proof.
  unfold be16. rewrite !b2z_z2b, Z.shiftr_div_pow2 by lia.
  change (2 ^ 8) with 256.
  Z.div_mod_to_equations. lia.
Qed.

Lemma idx_in {A} (l : list A) (i : Z) (x : A) :
  0 <= i -> l !! Z.to_nat i = Some x -> idx l i = Ok x.
Proof. intros Hi Hl. unfold idx. by rewrite (proj2 (Z.leb_le 0 i) Hi), Hl. Qed.

Lemma idx_app_mid {A} (p : list A) (x : A) (q : list A) (i : Z) :
  i = len p -> idx (p ++ x :: q) i = Ok x.
Proof.
  intros ->. apply idx_in; [lia|]. rewrite Nat2Z.id.
  apply list_lookup_middle. done.
Qed.

Lemma idx_panic {A} (l : list A) (i : Z) : i < 0 \/ len l <= i -> idx l i = Panic.
Proof.
  intros H. unfold idx. destruct (Z.leb_spec 0 i); [|done].
  rewrite (proj2 (lookup_ge_None l _)) by lia. done.
Qed.

Lemma idx_total {A} (l : list A) (i : Z) :
  0 <= i < len l -> exists x, idx l i = Ok x.
Proof.
  intros H. destruct (lookup_lt_is_Some_2 l (Z.to_nat i)) as [x Hx]; [lia|].
  exists x. by apply idx_in; [lia|].
Qed.

Lemma slice_app_mid {A} (p m q : list A) (i j : Z) :
  i = len p -> j = len p + len m -> slice (p ++ m ++ q) i j = Ok m.
Proof.
  intros -> ->. unfold slice. rewrite !length_app.
  rewrite !(proj2 (Z.leb_le _ _)) by lia. simpl. f_equal.
  rewrite Nat2Z.id, drop_app_length.
  replace (Z.to_nat _) with (length m) by lia. apply take_app_length.
Qed.

Lemma idx_app_r {A} (p q : list A) (i k : Z) :
  i = len p + k -> 0 <= k -> idx (p ++ q) i = idx q k.
Proof.
  intros -> Hk. unfold idx. zdecide.
  rewrite lookup_app_r by lia.
  by replace (Z.to_nat (len p + k) - length p)%nat with (Z.to_nat k) by lia.
Qed.

Lemma idx_app_ok {A} (p q : list A) (i k : Z) (x : A) :
  0 <= k -> i = len p + k -> idx q k = Ok x -> idx (p ++ q) i = Ok x.
Proof. intros Hk Hi <-. by apply idx_app_r. Qed.

Lemma slice_app_l {A} (p q : list A) (j : Z) : j = len p -> slice (p ++ q) 0 j = Ok p.
Proof. intros ->. by apply (slice_app_mid [] p q). Qed.

Lemma slice_from_app {A} (p q : list A) (i : Z) : i = len p -> slice_from (p ++ q) i = Ok q.
Proof.
  intros ->. unfold slice_from. rewrite <- (app_nil_r q) at 1.
  apply slice_app_mid; [done|]. rewrite length_app. lia.
Qed.

Lemma slice_panic {A} (l : list A) (i j : Z) :
  i < 0 \/ j < i \/ len l < j -> slice l i j = Panic.
Proof.
  intros H. unfold slice.
  destruct (Z.leb_spec 0 i), (Z.leb_spec i j), (Z.leb_spec j (len l));
    simpl; try done; lia.
Qed.

(** A boolean property of the integers below [n], checked on each of them *)
Lemma Z_range_check (P : Z -> bool) (n : nat) :
  forallb P (map Z.of_nat (seq 0 n)) = true ->
  forall a, 0 <= a < Z.of_nat n -> P a = true.
Proof.
  intros H a Ha. rewrite forallb_forall in H. apply H, in_map_iff.
  exists (Z.to_nat a). split; [lia|]. apply in_seq. lia.
Qed.

(** Evaluate the closed tests of the goal. *)
Ltac bdec :=
  repeat match goal with
  | |- context [bool_decide ?P] =>
      let r := eval vm_compute in (bool_decide P) in
      lazymatch r with
      | true => change (bool_decide P) with true
      | false => change (bool_decide P) with false
      end
  end.
