(* ===== verification/GoStrings.v ===== *)
(** The functions of Go's [strings], [bytes] and [strconv] packages the code
    uses, on byte sequences: prefix tests, [Split], [SplitN], [Join], [Trim],
    [TrimPrefix], [Replace], the ASCII part of [ToUpper]/[ToLower], [Fields],
    [Itoa], [Atoi] and [ParseUint].  [int] is 64 bits wide. *)
From S2P Require Import Prelude.
Open Scope Z_scope.

(** * Prefixes and searching *)

(** [strings.HasPrefix(s, p)] *)
Fixpoint HasPrefix (s p : bytes) {struct p} : bool :=
  match p, s with
  | [], _ => true
  | _ :: _, [] => false
  | a :: p', b :: s' => bool_decide (a = b) && HasPrefix s' p'
  end.

(** [strings.TrimPrefix(s, p)] *)
Definition TrimPrefix (s p : bytes) : bytes :=
  if HasPrefix s p then drop (length p) s else s.

(** The text before and after the first occurrence of [sep]. *)
Fixpoint cut (sep s : bytes) : option (bytes * bytes) :=
  if HasPrefix s sep then Some ([], drop (length sep) s)
  else match s with
       | [] => None
       | c :: s' =>
           match cut sep s' with
           | Some (a, b) => Some (c :: a, b)
           | None => None
           end
       end.

(** [strings.Contains(s, sep)] *)
Definition Contains (s sep : bytes) : bool :=
  match cut sep s with Some _ => true | None => false end.

(** [strings.Split(s, sep)] for a non-empty separator: each round consumes at
    least the separator, so [length s] rounds suffice. *)
Fixpoint split_go (fuel : nat) (sep s : bytes) : list bytes :=
  match fuel with
  | O => [s]
  | S f =>
      match cut sep s with
      | Some (a, b) => a :: split_go f sep b
      | None => [s]
      end
  end.

Definition Split (s sep : bytes) : list bytes := split_go (length s) sep s.

(** [strings.SplitN(s, sep, 2)] *)
Definition SplitN2 (s sep : bytes) : list bytes :=
  match cut sep s with Some (a, b) => [a; b] | None => [s] end.

(** [strings.Join(parts, sep)] *)
Fixpoint Join (parts : list bytes) (sep : bytes) : bytes :=
  match parts with
  | [] => []
  | [p] => p
  | p :: ps => p ++ sep ++ Join ps sep
  end.

(** [strings.Replace(s, old, new, 1)] *)
Definition Replace1 (s old new : bytes) : bytes :=
  match cut old s with Some (a, b) => a ++ new ++ b | None => s end.

(** [strings.Replace(s, string(c), "", -1)] *)
Definition RemoveByte (s : bytes) (c : byte) : bytes :=
  filter (fun b => b <> c) s.

(** * Trimming and case *)

(** Drop the leading bytes that are in the cutset. *)
Fixpoint trim_left (s cutset : bytes) : bytes :=
  match s with
  | [] => []
  | c :: s' => if bool_decide (c ∈ cutset) then trim_left s' cutset else s
  end.

(** [strings.Trim(s, cutset)] for an ASCII cutset *)
Definition Trim (s cutset : bytes) : bytes :=
  rev (trim_left (rev (trim_left s cutset)) cutset).

Definition upper_byte (c : byte) : byte :=
  if (97 <=? b2z c) && (b2z c <=? 122) then z2b (b2z c - 32) else c.
Definition lower_byte (c : byte) : byte :=
  if (65 <=? b2z c) && (b2z c <=? 90) then z2b (b2z c + 32) else c.

(** [strings.ToUpper], [strings.ToLower] on ASCII text *)
Definition ToUpper (s : bytes) : bytes := map upper_byte s.
Definition ToLower (s : bytes) : bytes := map lower_byte s.

(** ASCII white space, as [unicode.IsSpace] has it below 0x80 *)
Definition is_space (c : byte) : bool :=
  ((9 <=? b2z c) && (b2z c <=? 13)) || (b2z c =? 32).

(** [strings.Fields(s)] *)
Fixpoint fields_go (cur s : bytes) : list bytes :=
  match s with
  | [] => match cur with [] => [] | _ => [rev cur] end
  | c :: s' =>
      if is_space c then
        match cur with
        | [] => fields_go [] s'
        | _ => rev cur :: fields_go [] s'
        end
      else fields_go (c :: cur) s'
  end.
Definition Fields (s : bytes) : list bytes := fields_go [] s.

(** * Integers and decimal text *)

Definition digit (d : Z) : byte := z2b (48 + d).

(** The value of a decimal digit *)
Definition digit_val (c : byte) : option Z :=
  if (48 <=? b2z c) && (b2z c <=? 57) then Some (b2z c - 48) else None.

Fixpoint itoa_go (fuel : nat) (n : Z) (acc : bytes) : bytes :=
  match fuel with
  | O => acc
  | S f =>
      let acc' := digit (n mod 10) :: acc in
      if n <? 10 then acc' else itoa_go f (n / 10) acc'
  end.

(** [strconv.Itoa(n)]: twenty digits hold any 64-bit integer. *)
Definition Itoa (n : Z) : bytes :=
  if n <? 0 then lit "-" ++ itoa_go 20 (- n) [] else itoa_go 20 n [].

Fixpoint parse_digits (acc : Z) (s : bytes) : option Z :=
  match s with
  | [] => Some acc
  | c :: s' =>
      match digit_val c with
      | Some d => parse_digits (acc * 10 + d) s'
      | None => None
      end
  end.

(** An unsigned decimal number of at least one digit *)
Definition parse_udec (s : bytes) : option Z :=
  match s with [] => None | _ => parse_digits 0 s end.

Definition max_int64 : Z := 2 ^ 63 - 1.

(** [strconv.Atoi(s)]: an optional sign, decimal digits, 64-bit range. *)
Definition Atoi (s : bytes) : outcome Z :=
  let syntax := Fail (ErrMsg "strconv.Atoi: invalid syntax") in
  let range := Fail (ErrMsg "strconv.Atoi: value out of range") in
  match s with
  | [] => syntax
  | c :: s' =>
      if bool_decide (c = "-"%char) then
        match parse_udec s' with
        | None => syntax
        | Some n => if n <=? 2 ^ 63 then Ok (- n) else range
        end
      else
        match parse_udec (if bool_decide (c = "+"%char) then s' else s) with
        | None => syntax
        | Some n => if n <=? max_int64 then Ok n else range
        end
  end.

(** [n, _ := strconv.Atoi(s)]: zero on a syntax error, the nearest end of the
    64-bit range on overflow. *)
Definition Atoi_val (s : bytes) : Z :=
  match Atoi s with
  | Ok n => n
  | _ =>
      match s with
      | "-"%char :: s' => match parse_udec s' with Some _ => - 2 ^ 63 | None => 0 end
      | "+"%char :: s' => match parse_udec s' with Some _ => max_int64 | None => 0 end
      | _ => match parse_udec s with Some _ => max_int64 | None => 0 end
      end
  end.

(** [n, _ := strconv.ParseUint(s, 10, 64)]: zero on a syntax error, the
    largest value on overflow. *)
Definition ParseUint64 (s : bytes) : Z :=
  match parse_udec s with
  | None => 0
  | Some n => Z.min n (2 ^ 64 - 1)
  end.

(** * Laws of searching and splitting *)

Lemma HasPrefix_spec (s p : bytes) : HasPrefix s p = true <-> exists r, s = p ++ r.
Proof.
  revert s. induction p as [|a p IH]; intros s; simpl.
  { split; [intros _; by exists s|done]. }
  destruct s as [|b s].
  { split; [done|]. by intros [r Hr]. }
  rewrite andb_true_iff, bool_decide_eq_true, IH. split.
  - intros [-> [r ->]]. by exists r.
  - intros [r [= -> ->]]. eauto.
Qed.

Lemma HasPrefix_app (p r : bytes) : HasPrefix (p ++ r) p = true.
Proof. apply HasPrefix_spec. by exists r. Qed.

Lemma HasPrefix_drop (s p : bytes) : HasPrefix s p = true -> s = p ++ drop (length p) s.
Proof. intros [r ->]%HasPrefix_spec. by rewrite drop_app_length. Qed.

Lemma cut_Some (sep s a b : bytes) : cut sep s = Some (a, b) -> s = a ++ sep ++ b.
Proof.
  revert a. induction s as [|c s IH]; intros a; cbn [cut];
    destruct (HasPrefix _ sep) eqn:Hp.
  1, 3: intros [= <- <-]; by apply HasPrefix_drop in Hp.
  - done.
  - destruct (cut sep s) as [[a' b']|]; [|done].
    intros [= <- <-]. simpl. by rewrite (IH a').
Qed.

Lemma cut_None (sep s a b : bytes) : cut sep s = None -> s <> a ++ sep ++ b.
Proof.
  revert a. induction s as [|c s IH]; intros a; cbn [cut];
    destruct (HasPrefix _ sep) eqn:Hp; try done.
  - intros _ Heq. symmetry in Heq.
    apply app_eq_nil in Heq as [_ [-> ->]%app_eq_nil]. done.
  - destruct (cut sep s) as [[a' b']|]; [done|]. intros _ Heq.
    destruct a as [|c' a]; simpl in Heq.
    + rewrite Heq, HasPrefix_app in Hp. done.
    + simplify_eq. by eapply IH.
Qed.

(** A separator of one byte is found at its first occurrence. *)
Lemma cut_byte_app (c : byte) (p q : bytes) :
  c ∉ p -> cut [c] (p ++ c :: q) = Some (p, q).
Proof.
  induction p as [|x p IH]; intros Hp; simpl.
  - by rewrite bool_decide_true.
  - apply not_elem_of_cons in Hp as [Hx Hp].
    rewrite bool_decide_false by congruence. simpl. by rewrite IH.
Qed.

Lemma cut_byte_None (c : byte) (s : bytes) : cut [c] s = None <-> c ∉ s.
Proof.
  split.
  - intros Hc (a & b & ->)%list_elem_of_split. by eapply (cut_None [c] _ a b Hc).
  - intros Hs. destruct (cut [c] s) as [[a b]|] eqn:E; [|done].
    apply cut_Some in E. set_solver.
Qed.

Lemma cut_byte_Some (c : byte) (s a b : bytes) :
  cut [c] s = Some (a, b) -> s = a ++ c :: b /\ c ∉ a.
Proof.
  revert a. induction s as [|x s IH]; intros a; simpl; [done|].
  destruct (decide (c = x)) as [<-|Hne].
  - rewrite bool_decide_true by done. simpl. rewrite drop_0.
    intros [= <- <-]. split; [done|set_solver].
  - rewrite bool_decide_false by done. simpl.
    destruct (cut [c] s) as [[a' b']|]; [|done].
    intros [= <- <-]. destruct (IH a' eq_refl) as [-> ?].
    split; [done|set_solver].
Qed.

Lemma Contains_byte (c : byte) (s : bytes) : Contains s [c] = true <-> c ∈ s.
Proof.
  unfold Contains. destruct (cut [c] s) as [[a b]|] eqn:E.
  - apply cut_byte_Some in E as [-> _]. split; [set_solver|done].
  - apply cut_byte_None in E. by split.
Qed.

Lemma split_go_join (fuel : nat) (sep s : bytes) :
  Join (split_go fuel sep s) sep = s.
Proof.
  revert s. induction fuel as [|f IH]; intros s; cbn [split_go]; [done|].
  destruct (cut sep s) as [[a b]|] eqn:E; [|done].
  specialize (IH b). apply cut_Some in E as ->.
  destruct (split_go f sep b) as [|p ps] eqn:Es.
  { by destruct f; cbn in Es; [|destruct (cut sep b) as [[??]|]]. }
  cbn [Join]. cbn [Join] in IH. by rewrite IH.
Qed.

(** Joining what [Split] returned gives the text back. *)
Lemma Join_Split (s sep : bytes) : Join (Split s sep) sep = s.
Proof. apply split_go_join. Qed.

Lemma split_go_byte_join (fuel : nat) (c : byte) (ps : list bytes) :
  ps <> [] -> Forall (fun p => c ∉ p) ps -> (length ps <= S fuel)%nat ->
  split_go fuel [c] (Join ps [c]) = ps.
Proof.
  revert fuel. induction ps as [|p ps IH]; intros fuel Hne Hall Hlen; [done|].
  apply Forall_cons in Hall as [Hp Hall].
  destruct ps as [|q ps].
  - simpl. destruct fuel; cbn [split_go]; [done|].
    by rewrite (proj2 (cut_byte_None c p) Hp).
  - destruct fuel as [|f]; [simpl in Hlen; lia|].
    change (Join (p :: q :: ps) [c]) with (p ++ c :: Join (q :: ps) [c]).
    cbn [split_go]. rewrite cut_byte_app by done.
    f_equal. apply IH; [done|done|simpl in *; lia].
Qed.

Lemma length_Join_byte (c : byte) (ps : list bytes) :
  (length ps <= S (length (Join ps [c])))%nat.
Proof.
  induction ps as [|p [|q ps] IH]; simpl in *; [lia|lia|].
  rewrite length_app. simpl. lia.
Qed.

(** [Split] undoes [Join] when no part has the separator in it. *)
Lemma Split_Join_byte (c : byte) (ps : list bytes) :
  ps <> [] -> Forall (fun p => c ∉ p) ps -> Split (Join ps [c]) [c] = ps.
Proof.
  intros. apply split_go_byte_join; [done|done|apply length_Join_byte].
Qed.

Lemma Split_byte_none (c : byte) (s : bytes) : c ∉ s -> Split s [c] = [s].
Proof.
  intros H. apply (Split_Join_byte c [s]); [done|]. by constructor.
Qed.

(** No part [Split] returns has the (one-byte) separator in it. *)
Lemma Split_byte_free (c : byte) (s : bytes) :
  Forall (fun p => c ∉ p) (Split s [c]).
Proof.
  unfold Split. remember (length s) as n eqn:Hn.
  assert (Hle : (length s <= n)%nat) by lia. clear Hn.
  revert s Hle. induction n as [|f IH]; intros s Hle; simpl.
  { destruct s; [|simpl in Hle; lia]. repeat constructor. set_solver. }
  destruct (cut [c] s) as [[a b]|] eqn:E.
  - apply cut_byte_Some in E as [-> Ha]. constructor; [done|].
    apply IH. rewrite length_app in Hle. simpl in Hle. lia.
  - apply cut_byte_None in E. by repeat constructor.
Qed.

Lemma Split_nonempty (s sep : bytes) : Split s sep <> [].
Proof.
  unfold Split. destruct (length s); simpl; [done|].
  by destruct (cut sep s) as [[??]|].
Qed.

(** * Laws of decimal text *)

Definition is_digit (c : byte) : bool := (48 <=? b2z c) && (b2z c <=? 57).

Lemma digit_val_digit (d : Z) : 0 <= d < 10 -> digit_val (digit d) = Some d.
Proof.
  intros H. unfold digit_val, digit. rewrite b2z_z2b_small by lia.
  zdecide. f_equal. lia.
Qed.

Lemma is_digit_digit (d : Z) : 0 <= d < 10 -> is_digit (digit d) = true.
Proof.
  intros H. unfold is_digit, digit. rewrite b2z_z2b_small by lia. by zdecide.
Qed.

Lemma parse_digits_itoa_go (fuel : nat) (n a : Z) (acc : bytes) :
  0 <= n < 10 ^ Z.of_nat fuel ->
  parse_digits 0 (itoa_go fuel n acc) = parse_digits n acc.
Proof.
  revert n acc. induction fuel as [|f IH]; intros n acc Hn; cbn [itoa_go].
  { replace n with 0; [done|simpl in Hn; lia]. }
  rewrite Nat2Z.inj_succ, Z.pow_succ_r in Hn by lia.
  pose proof (Z.mod_pos_bound n 10 ltac:(lia)).
  destruct (Z.ltb_spec n 10).
  - rewrite Z.mod_small by lia. cbn [parse_digits].
    by rewrite digit_val_digit by lia.
  - rewrite IH.
    + cbn [parse_digits]. rewrite digit_val_digit by lia.
      f_equal. rewrite (Z.div_mod n 10) at 3 by lia. lia.
    + split; [by apply Z.div_pos; lia|].
      apply Z.div_lt_upper_bound; lia.
Qed.

Lemma itoa_go_digits (fuel : nat) (n : Z) (acc : bytes) :
  Forall (fun c => is_digit c = true) acc ->
  Forall (fun c => is_digit c = true) (itoa_go fuel n acc).
Proof.
  revert n acc. induction fuel as [|f IH]; intros n acc H; cbn [itoa_go]; [done|].
  assert (Forall (fun c => is_digit c = true) (digit (n mod 10) :: acc)).
  { constructor; [|done]. apply is_digit_digit. by apply Z.mod_pos_bound. }
  destruct (n <? 10); auto.
Qed.

Lemma itoa_go_nonnil (f : nat) (n : Z) (acc : bytes) :
  acc <> [] \/ (0 < f)%nat -> itoa_go f n acc <> [].
Proof.
  revert n acc. induction f as [|f IH]; intros n acc [H|H]; cbn [itoa_go];
    try done; try lia; destruct (n <? 10); try done; apply IH; by left.
Qed.

Arguments itoa_go : simpl never.

Lemma Itoa_digits (n : Z) :
  0 <= n -> Forall (fun c => is_digit c = true) (Itoa n).
Proof.
  intros H. unfold Itoa. zdecide. apply itoa_go_digits. constructor.
Qed.

Lemma Itoa_nonnil (n : Z) : Itoa n <> [].
Proof. unfold Itoa. destruct (n <? 0); [done|]. apply itoa_go_nonnil. lia. Qed.

Lemma parse_udec_itoa (n : Z) :
  0 <= n < 10 ^ 20 -> parse_udec (itoa_go 20 n []) = Some n.
Proof.
  intros H. unfold parse_udec.
  destruct (itoa_go 20 n []) eqn:E.
  { by apply itoa_go_nonnil in E; [|right; lia]. }
  rewrite <- E. by rewrite parse_digits_itoa_go.
Qed.

Lemma digit_not (c x : byte) : is_digit c = true -> is_digit x = false -> c <> x.
Proof. intros H1 H2 ->. congruence. Qed.

(** [strconv.Atoi] reads back what [strconv.Itoa] printed. *)
Lemma Atoi_Itoa (n : Z) : - 2 ^ 63 <= n <= max_int64 -> Atoi (Itoa n) = Ok n.
Proof.
  unfold max_int64. intros H. unfold Itoa. destruct (Z.ltb_spec n 0).
  - unfold Atoi. simpl. rewrite parse_udec_itoa by lia. zdecide. f_equal. lia.
  - unfold Atoi, max_int64.
    pose proof (itoa_go_digits 20 n [] ltac:(constructor)) as Hd.
    pose proof (parse_udec_itoa n ltac:(lia)) as Hp.
    destruct (itoa_go 20 n []) as [|c s]; [done|].
    apply Forall_cons in Hd as [Hc _].
    rewrite !bool_decide_false by (by eapply digit_not).
    rewrite Hp. by zdecide.
Qed.

Lemma ParseUint64_Itoa (n : Z) : 0 <= n < 2 ^ 64 -> ParseUint64 (Itoa n) = n.
Proof.
  intros H. unfold ParseUint64, Itoa. zdecide.
  rewrite parse_udec_itoa by lia. lia.
Qed.

Lemma not_in_digits (c : byte) (s : bytes) :
  Forall (fun c => is_digit c = true) s -> is_digit c = false -> c ∉ s.
Proof.
  intros Hs Hc Hin. rewrite Forall_forall in Hs. specialize (Hs c Hin). congruence.
Qed.
#[export] Hint Resolve Itoa_digits Itoa_nonnil : jocasta.
