(* ===== verification/GoNet.v ===== *)
(** The address functions of Go's [net] package the code uses, following the
    Go 1.17+ sources: [net.IP], [IP.To4], [IP.To16], [IP.String], [ParseIP],
    [SplitHostPort] and [JoinHostPort].  A nil [net.IP] is the empty list. *)
From S2P Require Import Prelude GoStrings.
Open Scope Z_scope.

(** * IP addresses *)

Abbreviation IP := (list ascii).

Definition IPv4len : Z := 4.
Definition IPv6len : Z := 16.

Definition v4InV6Prefix : bytes := repeat zero 10 ++ [z2b 255; z2b 255].

(** [net.IPv4(a, b, c, d)] is the 16-byte form. *)
Definition IPv4 (a b c d : byte) : IP := v4InV6Prefix ++ [a; b; c; d].

Definition To4 (ip : IP) : IP :=
  if Nat.eqb (length ip) 4 then ip
  else if Nat.eqb (length ip) 16 && bool_decide (take 12 ip = v4InV6Prefix)
       then drop 12 ip
       else [].

Definition To16 (ip : IP) : IP :=
  match ip with
  | [a; b; c; d] => IPv4 a b c d
  | _ => if Nat.eqb (length ip) 16 then ip else []
  end.

(** * Printing *)

Definition hex_digit (d : Z) : byte :=
  if d <? 10 then z2b (48 + d) else z2b (87 + d).

(** [appendHex]: lower-case hexadecimal of a 16-bit group, no leading zeros *)
Definition hex_group (g : Z) : bytes :=
  let d k := hex_digit (Z.land (Z.shiftr g (4 * k)) 15) in
  if 4096 <=? g then [d 3; d 2; d 1; d 0]
  else if 256 <=? g then [d 2; d 1; d 0]
  else if 16 <=? g then [d 1; d 0]
  else [d 0].

Definition hex_string (b : bytes) : bytes :=
  concat (map (fun c => [hex_digit (b2z c / 16); hex_digit (b2z c mod 16)]) b).

(** The eight 16-bit groups of a 16-byte address *)
Fixpoint groups (ip : IP) : list Z :=
  match ip with
  | h :: l :: r => be16 h l :: groups r
  | _ => []
  end.

(** The length of the run of zero groups at the head *)
Fixpoint zero_run (gs : list Z) : nat :=
  match gs with
  | g :: gs' => if g =? 0 then S (zero_run gs') else O
  | [] => O
  end.

(** The first longest run of zero groups as (start, end); the scan resumes
    after the group that ended a run it accepted. *)
Fixpoint longest_run (fuel i : nat) (gs : list Z) (e0 e1 : Z) : Z * Z :=
  match fuel with
  | O => (e0, e1)
  | S f =>
      match gs with
      | [] => (e0, e1)
      | _ :: gs' =>
          let n := zero_run gs in
          let '(s, e) := (Z.of_nat i, Z.of_nat (i + n)) in
          if (Nat.ltb 0 n) && (e1 - e0 <? e - s) then
            longest_run f (i + n + 1) (drop (n + 1) gs) s e
          else longest_run f (i + 1) gs' e0 e1
      end
  end.

Fixpoint print_groups (fuel : nat) (i : nat) (gs : list Z) (e0 e1 : Z) : bytes :=
  match fuel with
  | O => []
  | S f =>
      if Z.of_nat i =? e0 then
        lit "::" ++
        match drop (Z.to_nat e1) gs with
        | [] => []
        | g :: _ => hex_group g ++ print_groups f (Z.to_nat e1 + 1) gs e0 e1
        end
      else
        match gs !! i with
        | None => []
        | Some g =>
            (if Nat.ltb 0 i then lit ":" else []) ++ hex_group g
              ++ print_groups f (i + 1) gs e0 e1
        end
  end.

Definition dotted (ip : IP) : bytes :=
  Join (map (fun b => Itoa (b2z b)) ip) (lit ".").

(** [ip.String()] *)
Definition ip_String (ip : IP) : bytes :=
  match ip with
  | [] => lit "<nil>"
  | _ =>
      match To4 ip with
      | [] =>
          if Nat.eqb (length ip) 16 then
            let gs := groups ip in
            let '(e0, e1) := longest_run 8 0 gs (-1) (-1) in
            let '(e0, e1) := if e1 - e0 <=? 1 then (-1, -1) else (e0, e1) in
            print_groups 9 0 gs e0 e1
          else lit "?" ++ hex_string ip
      | v4 => dotted v4
      end
  end.

(** * Parsing *)

Definition big : Z := 16777215. (* 0xFFFFFF *)

(** [dtoi]/[xtoi]: a leading number in the given base, with the rest of the
    text; [None] when there is no digit or the number reaches [big]. *)
Definition hex_val (c : byte) : option Z :=
  let z := b2z c in
  if (48 <=? z) && (z <=? 57) then Some (z - 48)
  else if (97 <=? z) && (z <=? 102) then Some (z - 87)
  else if (65 <=? z) && (z <=? 70) then Some (z - 55)
  else None.

Fixpoint toi_go (val : byte -> option Z) (base n : Z) (seen : bool) (s : bytes)
  : option (Z * bytes) :=
  match s with
  | [] => if seen then Some (n, []) else None
  | c :: s' =>
      match val c with
      | Some d =>
          let n' := n * base + d in
          if big <=? n' then None else toi_go val base n' true s'
      | None => if seen then Some (n, s) else None
      end
  end.

Definition dtoi (s : bytes) : option (Z * bytes) := toi_go digit_val 10 0 false s.
Definition xtoi (s : bytes) : option (Z * bytes) := toi_go hex_val 16 0 false s.

(** One decimal octet, without a leading zero *)
Definition parse_octet (s : bytes) : option (byte * bytes) :=
  match dtoi s with
  | None => None
  | Some (n, r) =>
      if 255 <? n then None
      else if (1 <? len s - len r) && bool_decide (head s = Some "0"%char) then None
      else Some (z2b n, r)
  end.

(** [k] more octets, each after a dot *)
Fixpoint parse_octets (k : nat) (s : bytes) : option (bytes * bytes) :=
  match k with
  | O => Some ([], s)
  | S k' =>
      match s with
      | "."%char :: s' =>
          match parse_octet s' with
          | Some (b, r) =>
              match parse_octets k' r with
              | Some (bs, r') => Some (b :: bs, r')
              | None => None
              end
          | None => None
          end
      | _ => None
      end
  end.

Definition parseIPv4 (s : bytes) : IP :=
  match parse_octet s with
  | None => []
  | Some (a, r) =>
      match parse_octets 3 r with
      | Some ([b; c; d], []) => IPv4 a b c d
      | _ => []
      end
  end.

Fixpoint parseIPv6_go (fuel : nat) (s : bytes) (ip : IP) (ellipsis : option nat) : IP :=
  match fuel with
  | O => []
  | S f =>
      let finish (ip : IP) (ellipsis : option nat) : IP :=
        if Nat.ltb (length ip) 16 then
          match ellipsis with
          | None => []
          | Some e => take e ip ++ repeat zero (16 - length ip) ++ drop e ip
          end
        else match ellipsis with None => ip | Some _ => [] end in
      match xtoi s with
      | None => []
      | Some (n, r) =>
          if 65535 <? n then []
          else
            match r with
            | "."%char :: _ =>
                if bool_decide (ellipsis = None) && negb (Nat.eqb (length ip) 12) then []
                else if Nat.ltb 16 (length ip + 4) then []
                else match To4 (parseIPv4 s) with
                     | [] => []
                     | v4 => finish (ip ++ v4) ellipsis
                     end
            | _ =>
                let ip := ip ++ [z2b (Z.shiftr n 8); z2b n] in
                match r with
                | [] => finish ip ellipsis
                | ":"%char :: ":"%char :: r' =>
                    match ellipsis with
                    | Some _ => []
                    | None =>
                        match r' with
                        | [] => finish ip (Some (length ip))
                        | _ => if Nat.ltb (length ip) 16
                               then parseIPv6_go f r' ip (Some (length ip))
                               else []
                        end
                    end
                | ":"%char :: c :: r' =>
                    if Nat.ltb (length ip) 16
                    then parseIPv6_go f (c :: r') ip ellipsis
                    else []
                | _ => []
                end
            end
      end
  end.

(** At most eight groups are read, so eight rounds suffice. *)
Definition parseIPv6 (s : bytes) : IP :=
  match s with
  | ":"%char :: ":"%char :: r =>
      match r with
      | [] => repeat zero 16
      | _ => parseIPv6_go 8 r [] (Some O)
      end
  | _ => parseIPv6_go 8 s [] None
  end.

(** [net.ParseIP(s)]: the first dot or colon decides the family. *)
Fixpoint first_sep (s : bytes) : option byte :=
  match s with
  | [] => None
  | c :: s' =>
      if bool_decide (c = "."%char) || bool_decide (c = ":"%char) then Some c
      else first_sep s'
  end.

Definition ParseIP (s : bytes) : IP :=
  match first_sep s with
  | Some c => if bool_decide (c = "."%char) then parseIPv4 s else parseIPv6 s
  | None => []
  end.

(** * Host and port *)

Definition colon : byte := ":"%char.
Definition lbrack : byte := "["%char.
Definition rbrack : byte := "]"%char.

(** The text before and after the last occurrence of a byte *)
Definition rcut (c : byte) (s : bytes) : option (bytes * bytes) :=
  match cut [c] (rev s) with
  | Some (a, b) => Some (rev b, rev a)
  | None => None
  end.

Definition addrErr (why : string) : outcome (bytes * bytes) := Fail (ErrMsg why).

(** [net.SplitHostPort(hostport)] *)
Definition SplitHostPort (hostport : bytes) : outcome (bytes * bytes) :=
  match rcut colon hostport with
  | None => addrErr "missing port in address"
  | Some (before, port) =>
      match hostport with
      | "["%char :: rest =>
          match cut [rbrack] rest with
          | None => addrErr "missing ']' in address"
          | Some (host, after) =>
              match after with
              | [] => addrErr "missing port in address"
              | c :: after' =>
                  if bool_decide (c = colon) then
                    if bool_decide (colon ∈ after') then addrErr "too many colons in address"
                    else if bool_decide (lbrack ∈ rest) then addrErr "unexpected '[' in address"
                    else if bool_decide (rbrack ∈ after) then addrErr "unexpected ']' in address"
                    else Ok (host, after')
                  else addrErr "missing port in address"
              end
          end
      | _ =>
          if bool_decide (colon ∈ before) then addrErr "too many colons in address"
          else if bool_decide (lbrack ∈ hostport) then addrErr "unexpected '[' in address"
          else if bool_decide (rbrack ∈ hostport) then addrErr "unexpected ']' in address"
          else Ok (before, port)
      end
  end.

(** [net.JoinHostPort(host, port)] *)
Definition JoinHostPort (host port : bytes) : bytes :=
  if bool_decide (colon ∈ host) then lit "[" ++ host ++ lit "]:" ++ port
  else host ++ lit ":" ++ port.

(** * Laws *)

Lemma length_IPv4 (a b c d : byte) : length (IPv4 a b c d) = 16%nat.
Proof. reflexivity. Qed.

Lemma To4_IPv4 (a b c d : byte) : To4 (IPv4 a b c d) = [a; b; c; d].
Proof. reflexivity. Qed.

Lemma To16_length (ip : IP) : length ip = 16%nat -> To16 ip = ip.
Proof.
  intros H. do 5 (destruct ip as [|? ip]; try discriminate H).
  unfold To16. by rewrite H.
Qed.

Lemma To4_cases (ip : IP) : To4 ip = [] \/ length (To4 ip) = 4%nat.
Proof.
  unfold To4. destruct (Nat.eqb_spec (length ip) 4); [by right|].
  destruct (Nat.eqb_spec (length ip) 16); simpl; [|by left].
  case_bool_decide; [right|by left]. rewrite length_drop. lia.
Qed.

(** A 16-byte address with a 4-byte form is that form with the mapping prefix. *)
Lemma To4_mapped (ip : IP) (a b c d : byte) :
  length ip = 16%nat -> To4 ip = [a; b; c; d] -> ip = IPv4 a b c d.
Proof.
  intros Hl. unfold To4. rewrite Hl. simpl.
  case_bool_decide as H; [|done]. intros Hd.
  rewrite <- (take_drop 12 ip), H, Hd. done.
Qed.

Lemma parse_octet_end (b : byte) : parse_octet (Itoa (b2z b)) = Some (b, []).
Proof. destruct b as [[] [] [] [] [] [] [] []]; vm_compute; reflexivity. Qed.

Lemma parse_octet_dot (b : byte) (r : bytes) :
  parse_octet (Itoa (b2z b) ++ "."%char :: r) = Some (b, "."%char :: r).
Proof.
  unfold parse_octet.
  assert (H : exists ds, Itoa (b2z b) = ds /\ ds <> [] /\
            dtoi (ds ++ "."%char :: r) = Some (b2z b, "."%char :: r) /\
            ((length ds <= 1)%nat \/ head ds <> Some "0"%char)).
  { eexists; split; [reflexivity|].
    destruct b as [[] [] [] [] [] [] [] []];
      (split; [by vm_compute|split; [vm_compute; reflexivity|]]);
      first [by left; vm_compute; lia|by right; vm_compute]. }
  destruct H as (ds & -> & Hne & -> & Hhd).
  pose proof (b2z_range b). zdecide.
  rewrite length_app. destruct ds as [|x ds]; [done|].
  assert (((1 <? len (x :: ds) + len ("."%char :: r) - len ("."%char :: r)) &&
    bool_decide (head (x :: ds ++ "."%char :: r) = Some "0"%char)) = false) as Hb.
  { apply andb_false_iff. destruct Hhd as [Hhd|Hhd]; [left|right].
    - simpl length in *. apply Z.ltb_ge. lia.
    - by apply bool_decide_eq_false. }
  rewrite Nat2Z.inj_add. cbn [app] in *. rewrite Hb. by rewrite z2b_b2z.
Qed.

Lemma dotted_eq (a b c d : byte) :
  dotted [a; b; c; d] = Itoa (b2z a) ++ "."%char :: Itoa (b2z b) ++ "."%char ::
    Itoa (b2z c) ++ "."%char :: Itoa (b2z d).
Proof. reflexivity. Qed.

Lemma first_sep_digits (s r : bytes) :
  Forall (fun c => is_digit c = true) s ->
  first_sep (s ++ "."%char :: r) = Some "."%char.
Proof.
  induction 1 as [|c s Hc _ IH]; simpl; [done|].
  rewrite !bool_decide_false by (by eapply digit_not). done.
Qed.

(** [net.ParseIP] reads back the dotted form of an IPv4 address. *)
Lemma ParseIP_dotted (a b c d : byte) : ParseIP (dotted [a; b; c; d]) = IPv4 a b c d.
Proof.
  unfold ParseIP. rewrite dotted_eq.
  rewrite first_sep_digits by (apply Itoa_digits; apply b2z_range).
  rewrite bool_decide_true by done. unfold parseIPv4.
  rewrite parse_octet_dot. cbn [parse_octets].
  rewrite parse_octet_dot. cbn [parse_octets].
  rewrite parse_octet_dot. cbn [parse_octets].
  by rewrite parse_octet_end.
Qed.

Lemma ip_String_IPv4 (a b c d : byte) : ip_String (IPv4 a b c d) = dotted [a; b; c; d].
Proof. reflexivity. Qed.

Lemma ip_String_4 (a b c d : byte) : ip_String [a; b; c; d] = dotted [a; b; c; d].
Proof. reflexivity. Qed.

Definition plain_host (s : bytes) : Prop := lbrack ∉ s /\ rbrack ∉ s.
Definition plain_port (s : bytes) : Prop := colon ∉ s /\ lbrack ∉ s /\ rbrack ∉ s.

#[export] Instance plain_host_dec (s : bytes) : Decision (plain_host s) := _.
#[export] Instance plain_port_dec (s : bytes) : Decision (plain_port s) := _.

Lemma plain_port_digits (s : bytes) :
  Forall (fun c => is_digit c = true) s -> plain_port s.
Proof. intros H. repeat split; by eapply not_in_digits. Qed.

Lemma plain_port_Itoa (p : Z) : 0 <= p -> plain_port (Itoa p).
Proof. intros H. by apply plain_port_digits, Itoa_digits. Qed.
#[export] Hint Resolve plain_port_Itoa : jocasta.

Lemma rcut_last (c : byte) (p q : bytes) :
  c ∉ q -> rcut c (p ++ c :: q) = Some (p, q).
Proof.
  intros H. unfold rcut. rewrite rev_app_distr. simpl. rewrite <- app_assoc. simpl.
  rewrite cut_byte_app by (by rewrite list_elem_of_In, <- in_rev, <- list_elem_of_In).
  by rewrite !rev_involutive.
Qed.

(** [net.SplitHostPort] undoes [net.JoinHostPort], for IPv6 hosts too. *)
Lemma SplitHostPort_JoinHostPort (host port : bytes) :
  plain_host host -> plain_port port ->
  SplitHostPort (JoinHostPort host port) = Ok (host, port).
Proof.
  intros [Hl Hr] (Hc & Hpl & Hpr). unfold JoinHostPort.
  case_bool_decide as Hin; unfold SplitHostPort.
  - change (lit "[" ++ host ++ lit "]:" ++ port)
      with ("["%char :: host ++ rbrack :: colon :: port).
    replace ("["%char :: host ++ rbrack :: colon :: port)
      with (("["%char :: host ++ [rbrack]) ++ colon :: port) at 1
      by (simpl; by rewrite <- app_assoc).
    rewrite rcut_last by done. rewrite cut_byte_app by done.
    rewrite bool_decide_true by done.
    rewrite !bool_decide_false by set_solver. done.
  - change (host ++ lit ":" ++ port) with (host ++ colon :: port).
    rewrite rcut_last by done.
    assert (Hgo : (if bool_decide (colon ∈ host) then addrErr "too many colons in address"
      else if bool_decide (lbrack ∈ host ++ colon :: port)
      then addrErr "unexpected '[' in address"
      else if bool_decide (rbrack ∈ host ++ colon :: port)
      then addrErr "unexpected ']' in address" else Ok (host, port)) = Ok (host, port)).
    { rewrite !bool_decide_false by set_solver. done. }
    destruct host as [|h host]; [exact Hgo|]. simpl app in *.
    destruct h as [[] [] [] [] [] [] [] []]; try exact Hgo.
    exfalso. apply Hl. left.
Qed.

Lemma dotted_plain (a b c d : byte) : plain_port (dotted [a; b; c; d]).
Proof.
  rewrite dotted_eq.
  pose proof (plain_port_Itoa (b2z a) (proj1 (b2z_range a))) as (?&?&?).
  pose proof (plain_port_Itoa (b2z b) (proj1 (b2z_range b))) as (?&?&?).
  pose proof (plain_port_Itoa (b2z c) (proj1 (b2z_range c))) as (?&?&?).
  pose proof (plain_port_Itoa (b2z d) (proj1 (b2z_range d))) as (?&?&?).
  repeat split; set_solver.
Qed.

Lemma plain_port_host (s : bytes) : plain_port s -> plain_host s.
Proof. intros (_ & ? & ?). by split. Qed.
#[export] Hint Resolve dotted_plain plain_port_host : jocasta.

(** ** [ParseIP] returns nil or sixteen bytes *)

Lemma parseIPv4_length (s : bytes) : parseIPv4 s = [] \/ length (parseIPv4 s) = 16%nat.
Proof.
  unfold parseIPv4. destruct (parse_octet s) as [[a r]|]; [|by left].
  destruct (parse_octets 3 r) as [[[|b [|c [|d [|? ?]]]] [|? ?]]|]; by (left + right).
Qed.

(** What the end of [parseIPv6_go] does with the bytes read so far *)
Definition v6_finish (ip : IP) (ellipsis : option nat) : IP :=
  if Nat.ltb (length ip) 16 then
    match ellipsis with
    | None => []
    | Some e => take e ip ++ repeat zero (16 - length ip) ++ drop e ip
    end
  else match ellipsis with None => ip | Some _ => [] end.

Lemma v6_finish_length (ip : IP) (e : option nat) :
  (length ip <= 16)%nat -> v6_finish ip e = [] \/ length (v6_finish ip e) = 16%nat.
Proof.
  intros H. unfold v6_finish. destruct (Nat.ltb_spec (length ip) 16), e as [e|];
    try by left.
  - right. rewrite !length_app, repeat_length, length_take, length_drop. lia.
  - right. lia.
Qed.

Lemma parseIPv6_go_length (f : nat) (s : bytes) (ip : IP) (e : option nat) (k : nat) :
  length ip = (2 * k)%nat -> (k < 8)%nat ->
  parseIPv6_go f s ip e = [] \/ length (parseIPv6_go f s ip e) = 16%nat.
Proof.
  revert s ip e k. induction f as [|f IH]; intros s ip e k Hk Hlt; [by left|].
  cbn [parseIPv6_go]. fold (v6_finish (ip ++ To4 (parseIPv4 s)) e).
  change (fun (ip : IP) (ellipsis : option nat) => _) with v6_finish.
  destruct (xtoi s) as [[n r]|]; [|by left].
  destruct (65535 <? n); [by left|].
  assert (Hnext : forall r' e', (if Nat.ltb (length (ip ++ [z2b (Z.shiftr n 8); z2b n])) 16
      then parseIPv6_go f r' (ip ++ [z2b (Z.shiftr n 8); z2b n]) e' else []) = [] \/
    length (if Nat.ltb (length (ip ++ [z2b (Z.shiftr n 8); z2b n])) 16
      then parseIPv6_go f r' (ip ++ [z2b (Z.shiftr n 8); z2b n]) e' else []) = 16%nat).
  { intros r' e'. rewrite length_app. simpl.
    destruct (Nat.ltb_spec (length ip + 2) 16); [|by left].
    apply (IH _ _ _ (S k)); [rewrite length_app; simpl; lia|lia]. }
  assert (Hfin : forall e', v6_finish (ip ++ [z2b (Z.shiftr n 8); z2b n]) e' = [] \/
    length (v6_finish (ip ++ [z2b (Z.shiftr n 8); z2b n]) e') = 16%nat).
  { intros e'. apply v6_finish_length. rewrite length_app. simpl. lia. }
  destruct r as [|c r]; [apply Hfin|].
  destruct c as [[] [] [] [] [] [] [] []]; try (by left).
  - destruct (_ && _); [by left|].
    destruct (Nat.ltb_spec 16 (length ip + 4)); [by left|].
    destruct (To4_cases (parseIPv4 s)) as [->|H4]; [by left|].
    destruct (To4 (parseIPv4 s)) as [|? ?]; [by left|].
    apply v6_finish_length. rewrite length_app, H4. lia.
  - destruct r as [|c r]; [by left|].
    assert (Hc : (if Nat.ltb (length (ip ++ [z2b (Z.shiftr n 8); z2b n])) 16
        then parseIPv6_go f (c :: r) (ip ++ [z2b (Z.shiftr n 8); z2b n]) e else []) = [] \/
      length (if Nat.ltb (length (ip ++ [z2b (Z.shiftr n 8); z2b n])) 16
        then parseIPv6_go f (c :: r) (ip ++ [z2b (Z.shiftr n 8); z2b n]) e else []) = 16%nat)
      by apply Hnext.
    destruct c as [[] [] [] [] [] [] [] []]; try exact Hc.
    destruct e; [by left|]. destruct r; [exact (Hfin (Some _))|exact (Hnext _ (Some _))].
Qed.

Lemma ParseIP_length (s : bytes) : ParseIP s = [] \/ length (ParseIP s) = 16%nat.
Proof.
  unfold ParseIP. destruct (first_sep s); [|by left].
  case_bool_decide; [apply parseIPv4_length|].
  unfold parseIPv6.
  assert (H0 : parseIPv6_go 8 s [] None = [] \/
    length (parseIPv6_go 8 s [] None) = 16%nat) by (apply (parseIPv6_go_length _ _ _ _ 0); [done|lia]).
  assert (H1 : forall r, parseIPv6_go 8 r [] (Some O) = [] \/
    length (parseIPv6_go 8 r [] (Some O)) = 16%nat)
    by (intros r; apply (parseIPv6_go_length _ _ _ _ 0); [done|lia]).
  destruct s as [|c1 s]; [exact H0|].
  destruct c1 as [[] [] [] [] [] [] [] []]; try exact H0.
  destruct s as [|c2 s]; [exact H0|].
  destruct c2 as [[] [] [] [] [] [] [] []]; try exact H0.
  destruct s; [by right|apply H1].
Qed.

(** A 16-byte address has a 16-byte form, so [To16] fails only on nil. *)
Lemma To16_ParseIP (s : bytes) : To16 (ParseIP s) = ParseIP s.
Proof.
  destruct (ParseIP_length s) as [->|H]; [done|]. by apply To16_length.
Qed.
