(* ===== verification/GoIO.v ===== *)
(** Readers and connections.  What will arrive on an [io.Reader] is a list of
    read events: a segment of bytes, as the network delivered it, or an error
    (a timeout, a reset).  After the last event every [Read] returns [io.EOF].
    [flat] forgets how the bytes were cut into segments; two readers with the
    same [flat] are equivalent, and everything that reads with [io.ReadFull]
    respects that equivalence. *)
From S2P Require Import Prelude.
Open Scope Z_scope.

Inductive event :=
  | Seg (b : bytes)
  | RErr (e : error).

Abbreviation reader := (list event).

(** [r.Read(p)] with [len(p) = n]: at most one segment is delivered. *)
Definition Read (n : nat) : io reader bytes := fun r =>
  match r with
  | [] => (Fail EOF, [])
  | RErr e :: t => (Fail e, t)
  | Seg b :: t =>
      if Nat.leb (length b) n then (Ok b, t)
      else (Ok (take n b), Seg (drop n b) :: t)
  end.

(** The error [io.ReadFull] reports when a read fails after [acc] *)
Definition full_err (acc : bytes) (e : error) : error :=
  match acc with
  | [] => e
  | _ => if decide (e = EOF) then ErrUnexpectedEOF else e
  end.

Fixpoint readfull_go (n : nat) (acc : bytes) (r : reader) {struct r}
  : outcome bytes * reader :=
  match n with
  | O => (Ok acc, r)
  | _ =>
      match r with
      | [] => (Fail (full_err acc EOF), [])
      | RErr e :: t => (Fail (full_err acc e), t)
      | Seg b :: t =>
          if Nat.ltb n (length b) then (Ok (acc ++ take n b), Seg (drop n b) :: t)
          else readfull_go (n - length b) (acc ++ b) t
      end
  end.

(** [io.ReadFull(r, buf)] with [len(buf) = n] *)
Definition ReadFull (n : nat) : io reader bytes := readfull_go n [].

(** * Streams up to segmentation *)

Definition flat_ev (e : event) : list (byte + error) :=
  match e with Seg b => map inl b | RErr e => [inr e] end.
Definition flat (r : reader) : list (byte + error) := concat (map flat_ev r).

#[export] Instance reader_equiv : Equiv reader := fun r r' => flat r = flat r'.
#[export] Instance reader_equivalence : Equivalence (≡@{reader}).
Proof. split; unfold equiv, reader_equiv; repeat intro; congruence. Qed.

#[export] Instance flat_proper : Proper ((≡) ==> (=)) flat.
Proof. by intros r r' H. Qed.

Lemma flat_cons (e : event) (r : reader) : flat (e :: r) = flat_ev e ++ flat r.
Proof. done. Qed.

Lemma flat_app (r r' : reader) : flat (r ++ r') = flat r ++ flat r'.
Proof. unfold flat. by rewrite map_app, concat_app. Qed.

(** [io.ReadFull] on a flat stream *)
Fixpoint flat_full (n : nat) (acc : bytes) (s : list (byte + error))
  : outcome bytes * list (byte + error) :=
  match n with
  | O => (Ok acc, s)
  | S n' =>
      match s with
      | [] => (Fail (full_err acc EOF), [])
      | inr e :: s' => (Fail (full_err acc e), s')
      | inl b :: s' => flat_full n' (acc ++ [b]) s'
      end
  end.

Lemma flat_full_take (n : nat) (acc b : bytes) (s : list (byte + error)) :
  (length b <= n)%nat ->
  flat_full n acc (map inl b ++ s) = flat_full (n - length b) (acc ++ b) s.
Proof.
  revert n acc. induction b as [|x b IH]; intros n acc H; simpl in *.
  - by rewrite Nat.sub_0_r, app_nil_r.
  - destruct n as [|n]; [lia|]. simpl. rewrite IH by lia.
    by rewrite <- app_assoc.
Qed.

Lemma readfull_go_flat (n : nat) (acc : bytes) (r : reader) :
  let '(o, r') := readfull_go n acc r in
  (o, flat r') = flat_full n acc (flat r).
Proof.
  revert n acc. induction r as [|[b|e] r IH]; intros [|n] acc; try done.
  cbn [readfull_go]. rewrite flat_cons. cbn [flat_ev].
  destruct (Nat.ltb_spec (S n) (length b)) as [Hlt|Hge].
  - rewrite <- (take_drop (S n) b) at 3. rewrite map_app, <- app_assoc.
    rewrite flat_full_take by (rewrite length_take; lia).
    rewrite length_take_le by lia. by rewrite Nat.sub_diag, flat_cons.
  - rewrite flat_full_take by done. apply IH.
Qed.

(** A computation that does not see how its input was cut into segments *)
Definition seg_indep {A} (m : io reader A) : Prop :=
  forall r r' : reader, r ≡ r' -> (m r).1 = (m r').1 /\ (m r).2 ≡ (m r').2.

Lemma ReadFull_indep (n : nat) : seg_indep (ReadFull n).
Proof.
  intros r r' Hr. unfold ReadFull.
  pose proof (readfull_go_flat n [] r) as H1.
  pose proof (readfull_go_flat n [] r') as H2.
  destruct (readfull_go n [] r) as [o s], (readfull_go n [] r') as [o' s'].
  unfold equiv, reader_equiv in *. rewrite Hr, <- H2 in H1. by simplify_eq/=.
Qed.

Lemma indep_ret {A} (a : A) : seg_indep (mret a).
Proof. by intros r r' Hr. Qed.

Lemma indep_fail {A} (e : error) : seg_indep (io_fail (A := A) e).
Proof. by intros r r' Hr. Qed.

Lemma indep_lift {A} (m : outcome A) : seg_indep (io_lift m).
Proof. by intros r r' Hr. Qed.

Lemma indep_bind {A B} (m : io reader A) (f : A -> io reader B) :
  seg_indep m -> (forall a, seg_indep (f a)) -> seg_indep (m ≫= f).
Proof.
  intros Hm Hf r r' Hr. destruct (Hm r r' Hr) as [H1 H2].
  unfold mbind, io_bind.
  destruct (m r) as [o s], (m r') as [o' s']. simpl in *. subst o'.
  destruct o as [a|e|]; [by apply Hf|done|done].
Qed.

Create HintDb indep.
#[export] Hint Resolve ReadFull_indep indep_ret indep_fail indep_lift indep_bind : indep.

(** Solve [seg_indep] goals along the structure of the program. *)
Ltac solve_indep :=
  repeat first
    [ apply ReadFull_indep | apply indep_ret | apply indep_fail | apply indep_lift
    | apply indep_bind; [|intro]
    | progress cbv zeta
    | progress eauto with indep
    | match goal with
      | |- seg_indep (match ?x with _ => _ end) => destruct x
      end ].

(** * Full reads of delivered bytes *)

(** What happens when [n] bytes are there *)
Lemma ReadFull_ok (bs : bytes) (r : reader) (tl : list (byte + error)) :
  flat r = map inl bs ++ tl ->
  exists r', ReadFull (length bs) r = (Ok bs, r') /\ flat r' = tl.
Proof.
  intros H. pose proof (readfull_go_flat (length bs) [] r) as Hf.
  unfold ReadFull. destruct (readfull_go (length bs) [] r) as [o r'].
  rewrite H, flat_full_take, Nat.sub_diag in Hf by done.
  simpl in Hf. injection Hf as -> Hf. eauto.
Qed.

(** What happens when the stream ends early *)
Lemma ReadFull_short (bs : bytes) (n : nat) (r : reader) :
  flat r = map inl bs -> (length bs < n)%nat ->
  exists r', ReadFull n r = (Fail (full_err bs EOF), r').
Proof.
  intros H Hn. pose proof (readfull_go_flat n [] r) as Hf.
  unfold ReadFull. destruct (readfull_go n [] r) as [o r'].
  rewrite H, <- (app_nil_r (map inl bs)), flat_full_take in Hf by lia.
  destruct (n - length bs)%nat eqn:E; [lia|]. simpl in Hf.
  injection Hf as -> _. eauto.
Qed.

Lemma bind_ok {S A B} (m : io S A) (f : A -> io S B) (s s' : S) (a : A) :
  m s = (Ok a, s') -> (m ≫= f) s = f a s'.
Proof. unfold mbind, io_bind. by intros ->. Qed.

Lemma bind_fail {S A B} (m : io S A) (f : A -> io S B) (s s' : S) (e : error) :
  m s = (Fail e, s') -> (m ≫= f) s = (Fail e, s').
Proof. unfold mbind, io_bind. by intros ->. Qed.

Lemma bind_panic {S A B} (m : io S A) (f : A -> io S B) (s s' : S) :
  m s = (Panic, s') -> (m ≫= f) s = (Panic, s').
Proof. unfold mbind, io_bind. by intros ->. Qed.

(** Two sequences that start alike and go on alike *)
Lemma bind_congr {S A B} (m : io S A) (f g : A -> io S B) (s : S) :
  (forall a s1, m s = (Ok a, s1) -> f a s1 = g a s1) -> (m ≫= f) s = (m ≫= g) s.
Proof. unfold mbind, io_bind. destruct (m s) as [[a|e|] s1]; [|done..]. intros H. by apply H. Qed.

Lemma bind_lift {S A B} (m : outcome A) (f : A -> io S B) (s : S) (a : A) :
  m = Ok a -> (io_lift m ≫= f) s = f a s.
Proof. by intros ->. Qed.

Lemma bind_lift_panic {S A B} (m : outcome A) (f : A -> io S B) (s : S) :
  m = Panic -> (io_lift m ≫= f) s = (Panic, s).
Proof. by intros ->. Qed.

Lemma bind_modify {S B} (g : S -> S) (f : unit -> io S B) (s : S) :
  (io_modify g ≫= f) s = f tt (g s).
Proof. done. Qed.

Lemma bind_gets {S A B} (g : S -> A) (f : A -> io S B) (s : S) :
  (io_gets g ≫= f) s = f (g s) s.
Proof. done. Qed.

Lemma io_wrap_ok {S A} (msg : string) (m : io S A) (s s' : S) (a : A) :
  m s = (Ok a, s') -> io_wrap msg m s = (Ok a, s').
Proof. unfold io_wrap. by intros ->. Qed.

Lemma io_wrap_inv {S A} (msg : string) (m : io S A) (s s' : S) (a : A) :
  io_wrap msg m s = (Ok a, s') -> m s = (Ok a, s').
Proof. unfold io_wrap. by destruct (m s) as [[] ?]. Qed.

Lemma io_wrap_fail {S A} (msg : string) (m : io S A) (s s' : S) (e : error) :
  m s = (Fail e, s') -> io_wrap msg m s = (Fail (ErrWrap msg e), s').
Proof. unfold io_wrap. by intros ->. Qed.

Lemma io_wrap_panic {S A} (msg : string) (m : io S A) (s : S) :
  (io_wrap msg m s).1 = Panic <-> (m s).1 = Panic.
Proof. unfold io_wrap. by destruct (m s) as [[] ?]. Qed.

Lemma io_try_ok {S A} (m : io S A) (s s' : S) (a : A) :
  m s = (Ok a, s') -> io_try m s = (Ok (inl a), s').
Proof. unfold io_try. by intros ->. Qed.

(** What a successful sequence did *)
Lemma bind_inv {S A B} (m : io S A) (f : A -> io S B) (s s' : S) (b : B) :
  (m ≫= f) s = (Ok b, s') ->
  exists a s1, m s = (Ok a, s1) /\ f a s1 = (Ok b, s').
Proof. unfold mbind, io_bind. destruct (m s) as [[] s1]; naive_solver. Qed.

(** Split a successful run into its steps, along the binds. *)
Ltac io_inv H :=
  let a := fresh "a" in let s := fresh "s" in let H1 := fresh "H" in
  apply bind_inv in H as (a & s & H1 & H).

(** The errors of a stream that ended before the reader was done *)
Definition eof_error (e : error) : Prop := e = EOF \/ e = ErrUnexpectedEOF.

(** The parser [m] reads the message [bs] as [v]: whatever follows it and
    however it was cut into segments it returns [v] and leaves what follows
    unread, and on every strict prefix of it the parser reports that the stream
    ended. *)
Record reads {A} (m : io reader A) (bs : bytes) (v : A) : Prop := {
  reads_full : forall r tl, flat r = map inl bs ++ tl ->
    exists r', m r = (Ok v, r') /\ flat r' = tl;
  reads_short : forall r p, p `prefix_of` bs -> p <> bs -> flat r = map inl p ->
    exists e r', m r = (Fail e, r') /\ eof_error e;
}.
Arguments reads_full {_ _ _ _} _.
Arguments reads_short {_ _ _ _} _.

Lemma strict_prefix_length (p bs : bytes) :
  p `prefix_of` bs -> p <> bs -> (length p < length bs)%nat.
Proof.
  intros [q ->] Hne. rewrite length_app. destruct q; [|simpl; lia].
  by rewrite app_nil_r in Hne.
Qed.

Lemma reads_ReadFull (bs : bytes) (n : nat) : n = length bs -> reads (ReadFull n) bs bs.
Proof.
  intros ->. split.
  - intros r tl. apply ReadFull_ok.
  - intros r p Hp Hne Hr.
    destruct (ReadFull_short p (length bs) r Hr) as [r' H].
    { by apply strict_prefix_length. }
    exists (full_err p EOF), r'. split; [done|].
    destruct p; [by left|by right].
Qed.

Lemma reads_ret {A} (a : A) : reads (mret a) [] a.
Proof.
  split.
  - intros r tl H. exists r. by split.
  - intros r p Hp Hne. by apply prefix_nil_inv in Hp.
Qed.

Lemma reads_bind {A B} (m : io reader A) (f : A -> io reader B) bs1 bs2 a b :
  reads m bs1 a -> reads (f a) bs2 b -> reads (m ≫= f) (bs1 ++ bs2) b.
Proof.
  intros [Hm Sm] [Hf Sf]. split.
  - intros r tl H. rewrite map_app, <- app_assoc in H.
    destruct (Hm r _ H) as (r1 & H1 & F1).
    destruct (Hf r1 _ F1) as (r2 & H2 & F2).
    exists r2. erewrite bind_ok by done. done.
  - intros r p Hp Hne Hr.
    destruct (decide (bs1 `prefix_of` p)) as [[p2 ->]|Hn].
    + apply prefix_app_inv in Hp. rewrite map_app in Hr.
      destruct (Hm r _ Hr) as (r1 & H1 & F1).
      destruct (Sf r1 p2) as (e & r2 & H2 & He); [done|congruence|done|].
      exists e, r2. erewrite bind_ok by done. done.
    + assert (p `prefix_of` bs1) as Hp1.
      { destruct (prefix_weak_total p bs1 (bs1 ++ bs2)) as [?|?];
          [done|by eexists|done|done]. }
      destruct (Sm r p) as (e & r1 & H1 & He); [done|by intros ->|done|].
      exists e, r1. erewrite bind_fail by done. done.
Qed.

Lemma reads_bind_nil {A B} (m : io reader A) (f : A -> io reader B) bs a b :
  reads m bs a -> reads (f a) [] b -> reads (m ≫= f) bs b.
Proof. intros Hm Hf. rewrite <- (app_nil_r bs). by eapply reads_bind. Qed.

(** A step that does not read *)
Lemma reads_lift {A B} (m : outcome A) (f : A -> io reader B) bs a b :
  m = Ok a -> reads (f a) bs b -> reads (io_lift m ≫= f) bs b.
Proof. intros -> H. exact H. Qed.

Lemma reads_eq {A} (m : io reader A) bs bs' v v' :
  reads m bs v -> bs = bs' -> v = v' -> reads m bs' v'.
Proof. by intros ? -> ->. Qed.

Lemma reads_ext {A} (m m' : io reader A) bs v :
  (forall r, m' r = m r) -> reads m bs v -> reads m' bs v.
Proof. intros E [H1 H2]. split; intros *; rewrite E; [apply H1|apply H2]. Qed.

(** One whole segment is a stream of its bytes. *)
Lemma reads_seg {A} (m : io reader A) (bs : bytes) (v : A) :
  reads m bs v -> exists r', m [Seg bs] = (Ok v, r') /\ flat r' = [].
Proof. intros H. apply (reads_full H). unfold flat. simpl. by rewrite !app_nil_r. Qed.

(** * Connections *)

(** A [net.Conn]: what will be read, what was written (one entry per [Write]
    call), how the coming [Write] calls end, and whether [Close] was called.
    Deadlines are not part of the state: a deadline that passes is a
    [RErr ErrTimeout] event or a failing write. *)
Record conn := mkConn {
  rx : reader;
  tx : list bytes;
  wres : list (option error);
  closed : bool;
}.

Definition conn_of (r : reader) : conn := mkConn r [] [] false.

(** Run a reader computation on the receiving side. *)
Definition on_rx {A} (m : io reader A) : io conn A := fun c =>
  let '(o, r) := m (rx c) in (o, mkConn r (tx c) (wres c) (closed c)).

(** [c.Write(b)] *)
Definition Write (b : bytes) : io conn unit := fun c =>
  match wres c with
  | Some e :: t => (Fail e, mkConn (rx c) (tx c) t (closed c))
  | None :: t => (Ok tt, mkConn (rx c) (tx c ++ [b]) t (closed c))
  | [] => (Ok tt, mkConn (rx c) (tx c ++ [b]) [] (closed c))
  end.

(** [c.Close()] *)
Definition Close : io conn unit := fun c =>
  (Ok tt, mkConn (rx c) (tx c) (wres c) true).

Lemma Write_ok (b : bytes) (c : conn) :
  wres c = [] -> Write b c = (Ok tt, mkConn (rx c) (tx c ++ [b]) [] (closed c)).
Proof. unfold Write. by intros ->. Qed.

Lemma Read_seg (n : nat) (b : bytes) (r : reader) :
  (length b <= n)%nat -> Read n (Seg b :: r) = (Ok b, r).
Proof. intros H. simpl. by rewrite (proj2 (Nat.leb_le _ _) H). Qed.

Lemma readfull_go_0 (acc : bytes) (r : reader) : readfull_go 0 acc r = (Ok acc, r).
Proof. by destruct r. Qed.

Lemma ReadFull_seg (b : bytes) (r : reader) :
  b <> [] -> ReadFull (length b) (Seg b :: r) = (Ok b, r).
Proof.
  intros H. unfold ReadFull. destruct b as [|x b]; [done|].
  cbn [readfull_go length]. rewrite (proj2 (Nat.ltb_ge _ _)) by lia.
  rewrite Nat.sub_diag. apply readfull_go_0.
Qed.

(** The head of a longer segment *)
Lemma ReadFull_part (b q : bytes) (r : reader) :
  b <> [] -> q <> [] -> ReadFull (length b) (Seg (b ++ q) :: r) = (Ok b, Seg q :: r).
Proof.
  intros H Hq. unfold ReadFull. destruct b as [|x b]; [done|].
  cbn [readfull_go length app]. rewrite length_app.
  rewrite (proj2 (Nat.ltb_lt _ _)) by (destruct q; [done|simpl; lia]).
  change (x :: b ++ q) with ((x :: b) ++ q). change (S (length b)) with (length (x :: b)).
  by rewrite take_app_length, drop_app_length.
Qed.

Lemma on_rx_ok {A} (m : io reader A) (c : conn) (a : A) (r' : reader) :
  m (rx c) = (Ok a, r') -> on_rx m c = (Ok a, mkConn r' (tx c) (wres c) (closed c)).
Proof. unfold on_rx. by intros ->. Qed.
