(* ===== verification/GoBase64.v ===== *)
(** Go's [base64.StdEncoding]: encoding, decoding, and their round trip. *)
From S2P Require Import Prelude GoStrings.
Open Scope Z_scope.

(** A six-bit value and its character *)
Definition b64_char (v : Z) : byte :=
  if v <? 26 then z2b (65 + v)
  else if v <? 52 then z2b (71 + v)
  else if v <? 62 then z2b (v - 4)
  else if v =? 62 then "+"%char else "/"%char.

Definition b64_val (c : byte) : option Z :=
  let z := b2z c in
  if (65 <=? z) && (z <=? 90) then Some (z - 65)
  else if (97 <=? z) && (z <=? 122) then Some (z - 71)
  else if (48 <=? z) && (z <=? 57) then Some (z + 4)
  else if z =? 43 then Some 62
  else if z =? 47 then Some 63
  else None.

Definition pad : byte := "="%char.

(** [EncodeToString(src)] *)
Fixpoint b64_encode (src : bytes) : bytes :=
  match src with
  | [] => []
  | [a] =>
      let v := b2z a * 65536 in
      [b64_char (v / 262144); b64_char (v / 4096 mod 64); pad; pad]
  | [a; b] =>
      let v := b2z a * 65536 + b2z b * 256 in
      [b64_char (v / 262144); b64_char (v / 4096 mod 64); b64_char (v / 64 mod 64); pad]
  | a :: b :: c :: t =>
      let v := b2z a * 65536 + b2z b * 256 + b2z c in
      [b64_char (v / 262144); b64_char (v / 4096 mod 64);
       b64_char (v / 64 mod 64); b64_char (v mod 64)] ++ b64_encode t
  end.

(** The quanta of [DecodeString], once line breaks are skipped: padding ends the
    text, and the spare bits of a short quantum are ignored. *)
Fixpoint b64_quanta (s : bytes) : option bytes :=
  match s with
  | [] => Some []
  | c0 :: c1 :: c2 :: c3 :: t =>
      match b64_val c0, b64_val c1 with
      | Some v0, Some v1 =>
          let hi := v0 * 262144 + v1 * 4096 in
          match b64_val c2, b64_val c3 with
          | Some v2, Some v3 =>
              let v := hi + v2 * 64 + v3 in
              match b64_quanta t with
              | Some r => Some (z2b (v / 65536) :: z2b (v / 256) :: z2b v :: r)
              | None => None
              end
          | Some v2, None =>
              let v := hi + v2 * 64 in
              if bool_decide (c3 = pad) && bool_decide (t = [])
              then Some [z2b (v / 65536); z2b (v / 256)] else None
          | None, _ =>
              if bool_decide (c2 = pad) && bool_decide (c3 = pad) && bool_decide (t = [])
              then Some [z2b (hi / 65536)] else None
          end
      | _, _ => None
      end
  | _ => None
  end.

(** [DecodeString(s)] *)
Definition DecodeString (s : bytes) : outcome bytes :=
  match b64_quanta (filter (fun c => c <> z2b 10 /\ c <> z2b 13) s) with
  | Some r => Ok r
  | None => Fail (ErrMsg "illegal base64 data at input byte %d")
  end.

(** * Laws *)

Lemma b64_val_char (v : Z) : 0 <= v < 64 -> b64_val (b64_char v) = Some v.
Proof.
  intros H. assert (E : bool_decide (b64_val (b64_char v) = Some v) = true).
  { revert v H. by apply (Z_range_check (fun v => bool_decide (b64_val (b64_char v) = Some v)) 64). }
  by apply bool_decide_eq_true in E.
Qed.

(** Characters of the alphabet are printable: no white space, no padding *)
Definition b64_plain (c : byte) : bool := (43 <=? b2z c) && (b2z c <=? 122).

Lemma b64_char_plain (v : Z) : 0 <= v < 64 -> b64_plain (b64_char v) = true.
Proof. revert v. by apply (Z_range_check (fun v => b64_plain (b64_char v)) 64). Qed.

(** Induction three elements at a time *)
Lemma list_ind3 {A} (P : list A -> Prop) :
  P [] -> (forall a, P [a]) -> (forall a b, P [a; b]) ->
  (forall a b c t, P t -> P (a :: b :: c :: t)) -> forall l, P l.
Proof.
  intros H0 H1 H2 H3 l.
  enough (P l /\ (forall a, P (a :: l)) /\ forall a b, P (a :: b :: l)) as [? _] by done.
  induction l as [|x l (IH & IH1 & IH2)]; split_and!; auto.
Qed.

Ltac sextets :=
  repeat match goal with
  | |- context [b64_val (b64_char ?v)] =>
      rewrite (b64_val_char v) by
        (pose proof (b2z_range); Z.div_mod_to_equations; byte_bounds; lia)
  end.

Lemma b64_quanta_encode (src : bytes) : b64_quanta (b64_encode src) = Some src.
Proof.
  assert (Hz : forall z (x : byte), z mod 256 = b2z x -> z2b z = x).
  { intros z x E. apply b2z_inj. by rewrite b2z_z2b. }
  induction src as [|a|a b|a b c t IH] using list_ind3; [done|..];
    cbn [b64_encode b64_quanta app]; byte_bounds; sextets; cbn [b64_val].
  - change (b64_val pad) with (@None Z). rewrite !bool_decide_true by done. cbn [andb].
    do 2 f_equal. apply Hz. byte_bounds. Z.div_mod_to_equations. lia.
  - change (b64_val pad) with (@None Z). rewrite !bool_decide_true by done. cbn [andb].
    f_equal. f_equal; [|f_equal]; apply Hz; byte_bounds; Z.div_mod_to_equations; lia.
  - rewrite IH. f_equal. repeat f_equal; apply Hz; byte_bounds; Z.div_mod_to_equations; lia.
Qed.

Lemma b64_encode_plain (src : bytes) : Forall (fun c => b64_plain c = true) (b64_encode src).
Proof.
  induction src as [|a|a b|a b c t IH] using list_ind3; [done|..];
    cbn [b64_encode app]; repeat constructor; try done;
    try (apply b64_char_plain; byte_bounds; Z.div_mod_to_equations; lia).
Qed.

Lemma b64_plain_not (c : byte) (z : Z) : b64_plain c = true -> 0 <= z < 43 -> c <> z2b z.
Proof.
  intros H Hz ->. unfold b64_plain in H. zify_bool. rewrite b2z_z2b_small in H; lia.
Qed.

Lemma filter_id {A} (P : A -> Prop) `{!forall x, Decision (P x)} (l : list A) :
  Forall P l -> filter P l = l.
Proof. induction 1 as [|x l Hx Hl IH]; [done|]. by rewrite filter_cons_True, IH. Qed.

(** Decoding undoes encoding. *)
Lemma DecodeString_encode (src : bytes) : DecodeString (b64_encode src) = Ok src.
Proof.
  unfold DecodeString. rewrite filter_id; [by rewrite b64_quanta_encode|].
  eapply Forall_impl; [apply b64_encode_plain|].
  intros c H. split; apply b64_plain_not; try done; lia.
Qed.
