(* ===== verification/Iface.v ===== *)
(** The interfaces through which the components meet: a client component's
    theorems are proved against the class, the implementing component gives
    the instance. *)
From S2P Require Import Prelude.
Open Scope Z_scope.

(** What the proxies ask of a basic authentication center:
    [Verify(userPwdPair, userIP, localIP, target)]. *)
Class Authenticator (C : Type) :=
  auth_verify : C -> bytes -> bytes -> bytes -> bytes -> bool.

(** [basicAuth.Format(user, pwd)] *)
Definition Format (user pwd : bytes) : bytes := user ++ lit ":" ++ pwd.

(** What a name resolver answers at a given moment: the server it asks and
    [MustResolve], which answers the host itself when it cannot resolve it. *)
Class NameResolver (R : Type) := {
  public_dns_addr : R -> bytes;
  must_resolve : R -> bytes -> bytes;
}.

(** The concurrent map of github.com/orcaman/concurrent-map with string keys:
    its operations, and what it documents of them.  [cm_items] is a snapshot. *)
Class ConcurrentMap (M : Type -> Type) := {
  cm_new : forall {V}, M V;
  cm_get : forall {V}, M V -> bytes -> option V;
  cm_set : forall {V}, M V -> bytes -> V -> M V;
  cm_remove : forall {V}, M V -> bytes -> M V;
  cm_count : forall {V}, M V -> Z;
  cm_items : forall {V}, M V -> list (bytes * V);
}.

Definition cm_has {M} `{ConcurrentMap M} {V} (m : M V) (k : bytes) : bool :=
  match cm_get m k with Some _ => true | None => false end.

Definition cm_set_if_absent {M} `{ConcurrentMap M} {V} (m : M V) (k : bytes) (v : V) : M V :=
  if cm_has m k then m else cm_set m k v.

Class ConcurrentMapLaws (M : Type -> Type) `{ConcurrentMap M} := {
  cm_get_new : forall {V} k, cm_get (cm_new (V := V)) k = None;
  cm_get_set : forall {V} (m : M V) k v k',
    cm_get (cm_set m k v) k' = if decide (k = k') then Some v else cm_get m k';
  cm_get_remove : forall {V} (m : M V) k k',
    cm_get (cm_remove m k) k' = if decide (k = k') then None else cm_get m k';
  cm_count_new : forall {V}, cm_count (cm_new (V := V)) = 0;
  cm_count_set : forall {V} (m : M V) k v,
    cm_count (cm_set m k v) = cm_count m + (if cm_has m k then 0 else 1);
  cm_count_remove : forall {V} (m : M V) k,
    cm_count (cm_remove m k) = cm_count m - (if cm_has m k then 1 else 0);
  cm_items_get : forall {V} (m : M V) k v, (k, v) ∈ cm_items m <-> cm_get m k = Some v;
}.

(** stdpp's finite maps are such a map. *)
#[export] Instance gmap_cmap : ConcurrentMap (gmap bytes) := {
  cm_new := fun V => ∅;
  cm_get := fun V m k => m !! k;
  cm_set := fun V m k v => <[k := v]> m;
  cm_remove := fun V m k => delete k m;
  cm_count := fun V m => Z.of_nat (size m);
  cm_items := fun V m => map_to_list m;
}.

#[export] Instance gmap_cmap_laws : ConcurrentMapLaws (gmap bytes).
Proof.
  split; intros V; unfold cm_has; cbn.
  - intros k. apply lookup_empty.
  - intros m k v k'. by rewrite lookup_insert.
  - intros m k k'. by rewrite lookup_delete.
  - done.
  - intros m k v. rewrite map_size_insert. destruct (m !! k); cbn; lia.
  - intros m k. rewrite map_size_delete. destruct (m !! k) eqn:E; cbn; [|lia].
    assert (size m <> 0%nat) by (intros H0%map_size_empty_inv; by rewrite H0 in E). lia.
  - intros m k v. apply elem_of_map_to_list.
Qed.

(** AES in CFB mode (pkg/outil/aes.go) and the hexadecimal MD5 sum *)
Class Crypto := {
  EncryptCFB : bytes -> bytes -> outcome bytes;
  DecryptCFB : bytes -> bytes -> outcome bytes;
  md5hex : bytes -> bytes;
}.

(** AES decrypts what it encrypted, takes any key of 24 bytes, and a hexadecimal
    MD5 sum has 32 digits. *)
Class CryptoLaws `{!Crypto} := {
  Encrypt_total : forall k b, length k = 24%nat -> exists d, EncryptCFB k b = Ok d;
  Decrypt_EncryptCFB : forall k b d, EncryptCFB k b = Ok d -> DecryptCFB k d = Ok b;
  md5hex_length : forall k, length (md5hex k) = 32%nat;
}.
