(* ===== verification/Idns.v ===== *)
(** core/idns: the caching resolver.  The DNS exchange, [dns.Fqdn] and the clock
    are inputs; the cache is any concurrent map. *)
From S2P Require Import Prelude GoStrings GoNet GoIO Iface.
Open Scope Z_scope.

(** A resource record of the answer: its type and what [String()] prints *)
Record RR := mkRR { Rrtype : Z; rr_String : bytes }.
(** A reply: the response code and the answer section *)
Record Msg := mkMsg { Rcode : Z; Answer : list RR }.

Definition TypeA : Z := 1.
Definition RcodeSuccess : Z := 0.

Record Item := mkItem { ip : bytes; expiredAt : Z }.

Section Resolver.
Context {M : Type -> Type} `{!ConcurrentMap M}.
(** [dns.Fqdn] *)
Context (Fqdn : bytes -> bytes).
(** [cli.Exchange(question, server)]: the reply, or none when it is nil *)
Context (exchange : bytes -> bytes -> outcome (option Msg)).

Record Resolver := mkResolver {
  publicDNSAddr : bytes;
  ttl : Z;
  cache : M Item;
}.

Definition New (publicDNSAddr : bytes) (ttl : Z) : Resolver :=
  mkResolver publicDNSAddr ttl cm_new.

Definition TTL (sf : Resolver) : Z := ttl sf.
Definition PublicDNSAddr (sf : Resolver) : bytes := publicDNSAddr sf.

Definition joinIPPort (ip port : bytes) : bytes :=
  if negb (bool_decide (port = [])) then JoinHostPort ip port else ip.

(** The first A record that prints at least five fields: its fifth field *)
Fixpoint first_address (answers : list RR) : option bytes :=
  match answers with
  | [] => None
  | answer :: t =>
      if Rrtype answer =? TypeA then
        match Fields (rr_String answer) with
        | _ :: _ :: _ :: _ :: f :: _ => Some f
        | _ => first_address t
        end
      else first_address t
  end.

Definition set_cache (dstDomain : bytes) (itm : Item) : io Resolver unit :=
  io_modify (fun sf => mkResolver (publicDNSAddr sf) (ttl sf) (cm_set (cache sf) dstDomain itm)).

(** What [Resolve] does after the cache did not answer; [now] is the time at
    which the reply is stored. *)
Definition query (now : Z) (dstDomain port : bytes) : io Resolver bytes :=
  server ← io_gets publicDNSAddr;
  r ← io_lift (exchange (Fqdn dstDomain) server);
  match r with
  | None => mret []
  | Some r =>
      if negb (Rcode r =? RcodeSuccess) then
        io_fail (ErrMsg "invalid answer name %s after A query for %s")
      else
        match first_address (Answer r) with
        | Some a =>
            ttl ← io_gets ttl;
            _ ← set_cache dstDomain (mkItem a (now + ttl));
            mret (joinIPPort a port)
        | None => io_fail (ErrMsg "unknow answer")
        end
  end.

(** [Resolve]: [now] is the time at the cache lookup, [now'] after the reply. *)
Definition Resolve (now now' : Z) (domain : bytes) : io Resolver bytes :=
  '(dstDomain, port) ←
    (if Contains domain (lit ":") then io_lift (SplitHostPort domain) else mret (domain, []));
  if negb (bool_decide (ParseIP dstDomain = [])) then mret (joinIPPort dstDomain port)
  else
    cached ← io_gets (fun sf => cm_get (cache sf) dstDomain);
    match cached with
    | Some itm =>
        if now <? expiredAt itm then mret (joinIPPort (ip itm) port)
        else query now' dstDomain port
    | None => query now' dstDomain port
    end.

Definition MustResolve (now now' : Z) (address : bytes) : io Resolver bytes :=
  r ← io_try (Resolve now now' address);
  mret (match r with inl a => a | inr _ => address end).

End Resolver.
Arguments Resolver : clear implicits.

(** * The resolver other components see at a moment *)

(** A resolver, the times of the call and the network it asks *)
Record View (M : Type -> Type) := mkView {
  v_res : Resolver M;
  v_now : Z;
  v_now' : Z;
  v_fqdn : bytes -> bytes;
  v_exchange : bytes -> bytes -> outcome (option Msg);
}.
Arguments mkView {_} _ _ _ _ _.
Arguments v_res {_} _.
Arguments v_now {_} _.
Arguments v_now' {_} _.
Arguments v_fqdn {_} _.
Arguments v_exchange {_} _.

#[export] Instance view_resolver {M} `{ConcurrentMap M} : NameResolver (View M) := {
  public_dns_addr := fun v => publicDNSAddr (v_res v);
  must_resolve := fun v a =>
    match (MustResolve (v_fqdn v) (v_exchange v) (v_now v) (v_now' v) a (v_res v)).1 with
    | Ok r => r
    | _ => a
    end;
}.

(** * Laws *)

Section Laws.
Context {M : Type -> Type} `{!ConcurrentMap M} `{!ConcurrentMapLaws M}.
Context (Fqdn : bytes -> bytes) (exchange : bytes -> bytes -> outcome (option Msg)).

(** The host and port [Resolve] works with *)
Definition target_of (domain : bytes) : outcome (bytes * bytes) :=
  if Contains domain (lit ":") then SplitHostPort domain else Ok (domain, []).

Lemma Resolve_eq (now now' : Z) (domain host port : bytes) (sf : Resolver M) :
  target_of domain = Ok (host, port) ->
  Resolve Fqdn exchange now now' domain sf =
    if bool_decide (ParseIP host = []) then
      match cm_get (cache sf) host with
      | Some itm => if now <? expiredAt itm then (Ok (joinIPPort (ip itm) port), sf)
                    else query Fqdn exchange now' host port sf
      | None => query Fqdn exchange now' host port sf
      end
    else (Ok (joinIPPort host port), sf).
Proof.
  unfold target_of, Resolve. intros H.
  assert (E : (if Contains domain (lit ":") then io_lift (SplitHostPort domain)
    else mret (domain, [])) sf = (Ok (host, port), sf)).
  { destruct (Contains _ _); [unfold io_lift; by rewrite H|]. injection H as <- <-. done. }
  erewrite bind_ok by exact E. cbv beta iota.
  destruct (bool_decide (ParseIP host = [])); cbn [negb]; [|done].
  rewrite bind_gets. destruct (cm_get _ _) as [itm|]; [|done]. by destruct (_ <? _).
Qed.

(** A query changes the cache only at its own domain, and only to an answer. *)
Lemma query_cases (now : Z) (host port : bytes) (sf : Resolver M) :
  (exists a, query Fqdn exchange now host port sf =
     (Ok (joinIPPort a port),
      mkResolver (publicDNSAddr sf) (ttl sf) (cm_set (cache sf) host (mkItem a (now + ttl sf)))) /\
     exists r, exchange (Fqdn host) (publicDNSAddr sf) = Ok (Some r) /\
       Rcode r = RcodeSuccess /\ first_address (Answer r) = Some a) \/
  (exists o, query Fqdn exchange now host port sf = (o, sf) /\
     (is_ok o = true -> o = Ok [] /\ exchange (Fqdn host) (publicDNSAddr sf) = Ok None)).
Proof.
  unfold query. rewrite bind_gets.
  destruct (exchange _ _) as [[r|]|e|] eqn:E; [|right; eexists; (split; [reflexivity|done])..].
  erewrite bind_lift by done. cbv beta iota. destruct (Z.eqb_spec (Rcode r) RcodeSuccess) as [Hr|Hr]; cbn [negb].
  2: { right. eexists. split; [reflexivity|done]. }
  destruct (first_address (Answer r)) as [a|] eqn:Ea; [left|right; eexists; (split; [reflexivity|done])].
  exists a. rewrite bind_gets. unfold set_cache. rewrite bind_modify. split; [done|by exists r].
Qed.

(** A step that returns, or fails and leaves the state alone *)
Definition safe_step {S A} (m : io S A) (s : S) : Prop :=
  match m s with (Ok _, _) => True | (Fail _, s') => s' = s | (Panic, _) => False end.

Lemma query_safe (now : Z) (host port : bytes) (sf : Resolver M) :
  (forall q s, exchange q s <> Panic) -> safe_step (query Fqdn exchange now host port) sf.
Proof.
  intros Hex. unfold safe_step, query. rewrite bind_gets.
  destruct (exchange _ _) as [[r|]|e|] eqn:E; [|done|done|by destruct (Hex _ _ E)].
  erewrite bind_lift by done. cbv beta iota. destruct (negb _); [done|].
  by destruct (first_address _).
Qed.

Lemma target_of_total (domain : bytes) : target_of domain <> Panic.
Proof.
  unfold target_of. destruct (Contains _ _); [|done].
  unfold SplitHostPort, addrErr. repeat case_match; discriminate.
Qed.

Lemma Resolve_safe (now now' : Z) (domain : bytes) (sf : Resolver M) :
  (forall q s, exchange q s <> Panic) -> safe_step (Resolve Fqdn exchange now now' domain) sf.
Proof.
  intros Hex. pose proof (query_safe now' ) as HQ. unfold safe_step in *.
  destruct (target_of domain) as [[host port]|e|] eqn:E; [| |by destruct (target_of_total domain)].
  - rewrite (Resolve_eq _ _ _ _ _ _ E). destruct (bool_decide _); [|done].
    destruct (cm_get _ _); [destruct (_ <? _); [done|]|]; by apply HQ.
  - unfold target_of in E. destruct (Contains _ _) eqn:Ec; [|done].
    unfold Resolve. rewrite Ec. unfold io_lift. by rewrite E.
Qed.

End Laws.

(** * Properties *)

(** An answer is cached for its time to live.  When a lookup succeeded with
    an answer at time [t], then until [t + ttl] every lookup of the same name
    (with or without a port) returns that address and leaves the resolver as it
    is, whatever the network does. *)
Theorem Resolve_cached {M : Type -> Type} `{!ConcurrentMap M} `{!ConcurrentMapLaws M}
    (Fqdn : bytes -> bytes) (exchange exchange' : bytes -> bytes -> outcome (option Msg))
    (sf sf' : Resolver M) (host port port' domain domain' r : bytes) (now t now2 now3 : Z) :
  target_of domain = Ok (host, port) -> target_of domain' = Ok (host, port') ->
  ParseIP host = [] ->
  exchange (Fqdn host) (publicDNSAddr sf) <> Ok None ->
  (forall itm, cm_get (cache sf) host = Some itm -> expiredAt itm <= now) ->
  Resolve Fqdn exchange now t domain sf = (Ok r, sf') -> now2 < t + ttl sf ->
  exists a, r = joinIPPort a port /\
    Resolve Fqdn exchange' now2 now3 domain' sf' = (Ok (joinIPPort a port'), sf').
Proof.
  intros Hd Hd' Hip Hex Hc H Ht. rewrite (Resolve_eq _ _ _ _ _ _ _ _ Hd) in H.
  rewrite bool_decide_true in H by done.
  assert (HQ : query Fqdn exchange t host port sf = (Ok r, sf')).
  { destruct (cm_get (cache sf) host) as [itm|]; [|done].
    specialize (Hc itm eq_refl). by rewrite (proj2 (Z.ltb_ge now _)) in H by lia. }
  destruct (query_cases Fqdn exchange t host port sf) as [(a & E & _)|(o & E & Ho)];
    rewrite E in HQ; simplify_eq/=.
  - exists a. split; [done|]. rewrite (Resolve_eq _ _ _ _ _ _ _ _ Hd').
    rewrite bool_decide_true by done. cbn [cache]. rewrite cm_get_set, decide_True by done.
    cbn [expiredAt]. by zdecide.
  - by destruct (Ho eq_refl).
Qed.

(** A server that answers every question with one address *)
Definition one_answer (a : bytes) : bytes -> bytes -> outcome (option Msg) :=
  fun _ _ => Ok (Some (mkMsg 0 [mkRR 1 (lit "x. 60 IN A " ++ a)])).

Lemma Resolve_cached_witness :
  exists a, lit "10.0.0.1:80" = joinIPPort a (lit "80") /\
    (Resolve (fun d => d) (fun _ _ => Fail ErrTimeout) 150 151 (lit "a.com")
       (mkResolver (M := gmap bytes) (lit "8.8.8.8:53") 60
          {[ lit "a.com" := mkItem (lit "10.0.0.1") 160 ]})).1 = Ok (joinIPPort a []).
Proof.
  destruct (Resolve_cached (M := gmap bytes) (fun d => d) (one_answer (lit "10.0.0.1"))
    (fun _ _ => Fail ErrTimeout) (New (lit "8.8.8.8:53") 60)
    (mkResolver (M := gmap bytes) (lit "8.8.8.8:53") 60
       {[ lit "a.com" := mkItem (lit "10.0.0.1") 160 ]})
    (lit "a.com") (lit "80") [] (lit "a.com:80") (lit "a.com") (lit "10.0.0.1:80") 99 100 150 151)
    as (a & H1 & H2).
  - vm_compute. reflexivity.
  - vm_compute. reflexivity.
  - vm_compute. reflexivity.
  - discriminate.
  - intros itm H. vm_compute in H. discriminate.
  - vm_compute. reflexivity.
  - reflexivity.
  - exists a. split; [exact H1|]. rewrite H2. reflexivity.
Defined.

(** Addresses are never looked up.  A host that is an IP address is
    returned as it is, with its port when one was given, without asking the
    network or touching the cache. *)
Theorem Resolve_ip {M : Type -> Type} `{!ConcurrentMap M} (Fqdn : bytes -> bytes)
    (exchange : bytes -> bytes -> outcome (option Msg)) (now now' : Z) (domain host port : bytes)
    (sf : Resolver M) :
  target_of domain = Ok (host, port) -> ParseIP host <> [] ->
  MustResolve Fqdn exchange now now' domain sf = (Ok (joinIPPort host port), sf).
Proof.
  intros Hd Hip. unfold MustResolve. erewrite bind_ok; [|apply io_try_ok;
    rewrite (Resolve_eq _ _ _ _ _ _ _ _ Hd); by rewrite bool_decide_false]. done.
Qed.

Lemma Resolve_ip_witness :
  MustResolve (M := gmap bytes) (fun d => d) (fun _ _ => Fail ErrTimeout) 0 0
    (lit "10.0.0.1:80") (New (lit "8.8.8.8:53") 60) =
  (Ok (lit "10.0.0.1:80"), New (lit "8.8.8.8:53") 60).
Proof.
  apply (Resolve_ip (M := gmap bytes) (fun d => d) (fun _ _ => Fail ErrTimeout) 0 0
    (lit "10.0.0.1:80") (lit "10.0.0.1") (lit "80")); vm_compute; [reflexivity|discriminate].
Defined.

(** C00: [MustResolve] always answers.  If the exchange itself does not panic,
    it returns a result: the lookup's when that succeeded, and otherwise the
    address itself, the resolver unchanged. *)
Theorem MustResolve_total {M : Type -> Type} `{!ConcurrentMap M}
    (Fqdn : bytes -> bytes) (exchange : bytes -> bytes -> outcome (option Msg))
    (now now' : Z) (address : bytes) (sf : Resolver M) :
  (forall q s, exchange q s <> Panic) ->
  MustResolve Fqdn exchange now now' address sf =
    match Resolve Fqdn exchange now now' address sf with
    | (Ok r, sf') => (Ok r, sf')
    | _ => (Ok address, sf)
    end.
Proof.
  intros Hex. pose proof (Resolve_safe Fqdn exchange now now' address sf Hex) as H.
  unfold safe_step in H. unfold MustResolve, mbind, io_bind, io_try.
  destruct (Resolve _ _ _ _ _ _) as [[r|e|] sf']; [done|by subst|done].
Qed.

Lemma MustResolve_total_witness :
  MustResolve (M := gmap bytes) (fun d => d) (fun _ _ => Fail ErrTimeout) 0 0 (lit "a.com:80")
    (New (lit "8.8.8.8:53") 60) = (Ok (lit "a.com:80"), New (lit "8.8.8.8:53") 60).
Proof.
  etrans; [by apply (MustResolve_total (M := gmap bytes) (fun d => d) (fun _ _ => Fail ErrTimeout))|].
  vm_compute. reflexivity.
Defined.
