(* ===== verification/Filter.v ===== *)
(** core/filter: which domains go through the parent proxy.  Two tables loaded
    from files (proxy, direct) and a cache of domains that are probed
    periodically; the probes run in goroutines on a snapshot of the cache. *)
From S2P Require Import Prelude GoStrings GoNet GoIO Iface.
Open Scope Z_scope.

Definition defaultThreshold : Z := 3.
Definition defaultAliveThreshold : Z := 30 * 60.
Definition u64 (z : Z) : Z := z mod 2 ^ 64.

Record Item := mkItem {
  addr : bytes;
  successCount : Z;
  failureCount : Z;
  lastActiveTime : Z;
}.

(** [isNeedLivenessProde] at time [now] *)
Definition isNeedLivenessProde (now successThreshold failureThreshold aliveThreshold : Z)
    (sf : Item) : bool :=
  negb (((successThreshold <=? successCount sf) || (failureThreshold <=? failureCount sf)) &&
        (failureCount sf <? successCount sf) && (now - lastActiveTime sf <? aliveThreshold)).

Definition hostname (domain : bytes) : bytes :=
  let domain := TrimPrefix domain (lit "http://") in
  let domain := TrimPrefix domain (lit "https://") in
  let h := match SplitHostPort domain with Ok (h, _) => h | _ => [] end in
  if bool_decide (h = []) then domain else h.

Definition dot : byte := "."%char.

Section Filter.
Context {M : Type -> Type} `{!ConcurrentMap M}.

Record Filter := mkFilter {
  intelligent : bytes;
  cache : M Item;
  proxies : M unit;
  directs : M unit;
  timeout : Z;
  livenessPeriod : Z;
  successThreshold : Z;
  failureThreshold : Z;
  aliveThreshold : Z;
}.

Definition second : Z := 1000000000.

(** The options that change decisions; the logger, the goroutine pool and the
    probe itself are not part of the state. *)
Inductive Option :=
  | WithTimeout (timeout : Z)
  | WithLivenessPeriod (period : Z)
  | WithAliveThreshold (sec : Z)
  | WithSuccessThreshold (cnt : Z)
  | WithFailureThreshold (cnt : Z).

Definition apply_option (f : Filter) (o : Option) : Filter :=
  let '(mkFilter i c p d t l s fl a) := f in
  match o with
  | WithTimeout timeout => mkFilter i c p d timeout l s fl a
  | WithLivenessPeriod period => mkFilter i c p d t period s fl a
  | WithAliveThreshold sec =>
      mkFilter i c p d t l s fl (if sec <? 60 then defaultAliveThreshold else sec)
  | WithSuccessThreshold cnt =>
      mkFilter i c p d t l (if cnt =? 0 then defaultThreshold else cnt) fl a
  | WithFailureThreshold cnt =>
      mkFilter i c p d t l s (if cnt =? 0 then defaultThreshold else cnt) a
  end.

(** [New]; it starts the prober when the period is positive. *)
Definition New (intelligent : bytes) (opts : list Option) : Filter :=
  fold_left apply_option opts
    (mkFilter intelligent cm_new cm_new cm_new (second * 1) (second * 30)
       defaultThreshold defaultThreshold defaultAliveThreshold).

Definition set_cache (c : M Item) (f : Filter) : Filter :=
  mkFilter (intelligent f) c (proxies f) (directs f) (timeout f) (livenessPeriod f)
    (successThreshold f) (failureThreshold f) (aliveThreshold f).
Definition set_proxies (p : M unit) (f : Filter) : Filter :=
  mkFilter (intelligent f) (cache f) p (directs f) (timeout f) (livenessPeriod f)
    (successThreshold f) (failureThreshold f) (aliveThreshold f).
Definition set_directs (d : M unit) (f : Filter) : Filter :=
  mkFilter (intelligent f) (cache f) (proxies f) d (timeout f) (livenessPeriod f)
    (successThreshold f) (failureThreshold f) (aliveThreshold f).

(** One line of a table file: the count and the table after it *)
Definition load_line (acc : Z * M unit) (line : bytes) : Z * M unit :=
  let line := Trim line [z2b 13; " "%char; z2b 9] in
  if negb (bool_decide (line = [])) then (acc.1 + 1, cm_set acc.2 line tt) else acc.

(** [loadfile2ConcurrentMap]: the file is absent, unreadable, or has contents. *)
Definition loadfile2ConcurrentMap (cmp : M unit) (file : option (outcome bytes))
  : outcome Z * M unit :=
  match file with
  | None => (Ok 0, cmp)
  | Some (Ok contents) =>
      let '(n, cmp) := fold_left load_line (Split contents [z2b 10]) (0, cmp) in (Ok n, cmp)
  | Some (Fail e) => (Fail e, cmp)
  | Some Panic => (Panic, cmp)
  end.

Definition LoadProxyFile (file : option (outcome bytes)) : io Filter Z := fun f =>
  let '(o, p) := loadfile2ConcurrentMap (proxies f) file in (o, set_proxies p f).
Definition LoadDirectFile (file : option (outcome bytes)) : io Filter Z := fun f =>
  let '(o, d) := loadfile2ConcurrentMap (directs f) file in (o, set_directs d f).

Definition ProxyItemCount (f : Filter) : Z := cm_count (proxies f).
Definition DirectItemCount (f : Filter) : Z := cm_count (directs f).

(** The loop of [Match], from the last label towards the first *)
Fixpoint match_go (i : nat) (hnSlice : list bytes) (tb : M unit) : bool :=
  match i with
  | O => false
  | S i' =>
      if cm_has tb (Join (drop i' hnSlice) [dot]) then true else match_go i' hnSlice tb
  end.

Definition Match (domain : bytes) (isProxy : bool) (f : Filter) : bool :=
  let hnSlice := Split (hostname domain) [dot] in
  if Nat.leb (length hnSlice) 1 then false
  else
    let tb := if isProxy then proxies f else directs f in
    match_go (length hnSlice) hnSlice tb.

Definition Add (domain addr : bytes) (f : Filter) : Filter :=
  let domain := hostname domain in
  if negb (Match domain false f) && negb (Match domain true f) then
    set_cache (cm_set_if_absent (cache f) domain (mkItem addr 0 0 0)) f
  else f.

(** [IsProxy] at time [now]: proxy, in a table, failures, successes *)
Definition IsProxy (now : Z) (domain : bytes) (f : Filter) : bool * bool * Z * Z :=
  let domain := hostname domain in
  if Match domain true f then (true, true, 0, 0)
  else if Match domain false f then (false, true, 0, 0)
  else
    match cm_get (cache f) domain with
    | None => (true, false, 0, 0)
    | Some item =>
        if bool_decide (intelligent f = lit "direct") then (false, true, 0, 0)
        else if bool_decide (intelligent f = lit "proxy") then (true, true, 0, 0)
        else ((successCount item <=? failureCount item) &&
              (now - lastActiveTime item <? aliveThreshold f),
              true, failureCount item, successCount item)
    end.

(** ** The prober ([run]) *)

(** What a probe that started at [now] and ended with [err] makes of its item *)
Definition probed (now : Z) (err : option error) (aliveThreshold : Z) (item : Item) : Item :=
  let item := if aliveThreshold <? now - lastActiveTime item
              then mkItem (addr item) 0 0 (lastActiveTime item) else item in
  match err with
  | Some _ => mkItem (addr item) (successCount item) (u64 (failureCount item + 1)) now
  | None => mkItem (addr item) (u64 (successCount item + 1)) (failureCount item) now
  end.

(** The probes a tick starts: the items of the snapshot that need one *)
Definition due (now : Z) (f : Filter) : list (bytes * Item) :=
  filter (fun di => isNeedLivenessProde now (successThreshold f) (failureThreshold f)
                      (aliveThreshold f) di.2 = true) (cm_items (cache f)).

(** The filter and the probes under way, each with its snapshot *)
Definition running : Type := Filter * list (bytes * Item).

(** What happens to a filter while its prober runs: calls and loads, ticks, and
    probes that end in any order; a probe stores the item of its snapshot. *)
Inductive filter_step : running -> running -> Prop :=
  | fs_add f ps domain a : filter_step (f, ps) (Add domain a f, ps)
  | fs_load_proxy f ps file o f' : LoadProxyFile file f = (o, f') -> filter_step (f, ps) (f', ps)
  | fs_load_direct f ps file o f' : LoadDirectFile file f = (o, f') -> filter_step (f, ps) (f', ps)
  | fs_tick f ps now : filter_step (f, ps) (f, ps ++ due now f)
  | fs_probe f ps ps' domain item now err :
      filter_step (f, ps ++ (domain, item) :: ps')
        (set_cache (cm_set (cache f) domain (probed now err (aliveThreshold f) item)) f, ps ++ ps').

End Filter.
Arguments Filter : clear implicits.
Arguments running : clear implicits.

(** * Laws *)

(** [s] is [h], or what follows one of its dots. *)
Definition dot_suffix (s h : bytes) : Prop := s = h \/ exists p, h = p ++ dot :: s.

Lemma Join_cons (p q : bytes) (ps : list bytes) (sep : bytes) :
  Join (p :: q :: ps) sep = p ++ sep ++ Join (q :: ps) sep.
Proof. done. Qed.

(** Two ways to cut at a byte, the first of which is its first occurrence *)
Lemma app_cut (c : byte) (x p y s : bytes) :
  c ∉ x -> x ++ c :: y = p ++ c :: s -> (p = x /\ s = y) \/ exists p', p = x ++ c :: p' /\ y = p' ++ c :: s.
Proof.
  revert p. induction x as [|a x IH]; intros p Hx E.
  - destruct p as [|b p]; simplify_eq/=; [by left|right; by exists p].
  - destruct p as [|b p]; simplify_eq/=; [set_solver|].
    destruct (IH p) as [[-> ->]|(p' & -> & ->)]; [set_solver|done|by left|right; by exists p'].
Qed.

Lemma dot_suffix_Join (ps : list bytes) (s : bytes) :
  ps <> [] -> Forall (fun p => dot ∉ p) ps ->
  dot_suffix s (Join ps [dot]) <-> exists i, (i < length ps)%nat /\ s = Join (drop i ps) [dot].
Proof.
  intros Hne Hf. induction Hf as [|p ps Hp Hf IH]; [done|].
  destruct ps as [|q ps].
  - cbn [Join length]. split.
    + intros [->|[r E]]; [exists 0%nat; split; [lia|reflexivity]|].
      exfalso. apply Hp. rewrite E. set_solver.
    + intros (i & Hi & ->). left. by destruct i; [|lia].
  - specialize (IH ltac:(done)). rewrite Join_cons. cbn [app]. split.
    + intros [->|[r E]].
      { exists 0%nat. split; [simpl; lia|]. by rewrite drop_0, Join_cons. }
      apply app_cut in E as [[-> ->]|(r' & -> & E)]; [| |done].
      * exists 1%nat. split; [simpl; lia|done].
      * destruct (proj1 IH) as (i & Hi & ->); [right; by exists r'|].
        exists (S i). split; [simpl in *; lia|done].
    + intros (i & Hi & ->). destruct i as [|i]; [left; by rewrite drop_0, Join_cons|right].
      destruct (proj2 IH) as [->|[r ->]]; [exists i; split; [simpl in *; lia|reflexivity]| |].
      * by exists p.
      * exists (p ++ dot :: r). rewrite <- app_assoc. done.
Qed.

Lemma Split_one (h : bytes) : (length (Split h [dot]) <= 1)%nat <-> dot ∉ h.
Proof.
  split.
  - intros H. pose proof (Join_Split h [dot]) as E. pose proof (Split_byte_free dot h) as Hf.
    destruct (Split h [dot]) as [|p [|q ps]] eqn:Es; [by destruct (Split_nonempty h [dot])| |simpl in H; lia].
    cbn in E. subst. by apply Forall_cons in Hf as [? _].
  - intros H. rewrite Split_byte_none by done. simpl. lia.
Qed.

Section Laws.
Context {M : Type -> Type} `{!ConcurrentMap M} `{!ConcurrentMapLaws M}.
Implicit Types (f : Filter M).

Lemma match_go_spec (k : nat) (hn : list bytes) (tb : M unit) :
  match_go k hn tb = true <-> exists i, (i < k)%nat /\ cm_has tb (Join (drop i hn) [dot]) = true.
Proof.
  induction k as [|k IH]; cbn [match_go]; [split; [done|by intros (? & ? & _); lia]|].
  destruct (cm_has tb (Join (drop k hn) [dot])) eqn:E.
  - split; [|done]. intros _. exists k. split; [lia|done].
  - rewrite IH. split; intros (i & Hi & H).
    + exists i. split; [lia|done].
    + destruct (decide (i = k)) as [->|]; [congruence|]. exists i. split; [lia|done].
Qed.

Lemma Match_eq (domain : bytes) (isProxy : bool) f :
  Match domain isProxy f = true <->
  dot ∈ hostname domain /\
  exists s, cm_has (if isProxy then proxies f else directs f) s = true /\ dot_suffix s (hostname domain).
Proof.
  unfold Match. set (h := hostname domain). pose proof (Split_one h) as Hone.
  destruct (Nat.leb_spec (length (Split h [dot])) 1) as [H|H].
  - split; [done|]. intros [Hd _]. exfalso. by apply Hone in H.
  - rewrite match_go_spec.
    pose proof (fun s => dot_suffix_Join (Split h [dot]) s (Split_nonempty h [dot])
      (Split_byte_free dot h)) as HJ.
    rewrite Join_Split in HJ. split.
    + intros (i & Hi & Hs). split.
      * destruct (decide (dot ∈ h)) as [|Hn]; [done|]. apply Hone in Hn. lia.
      * eexists. split; [exact Hs|]. apply HJ. by exists i.
    + intros (_ & s & Hs & Hd). apply HJ in Hd as (i & Hi & ->). by exists i.
Qed.

(** ** Loading tables *)

Definition table_lines (contents : bytes) : list bytes :=
  filter (fun l => l <> []) (map (fun l => Trim l [z2b 13; " "%char; z2b 9]) (Split contents [z2b 10])).

Lemma load_lines_spec (lines : list bytes) (n : Z) (m : M unit) :
  let ls := filter (fun l => l <> []) (map (fun l => Trim l [z2b 13; " "%char; z2b 9]) lines) in
  (fold_left load_line lines (n, m)).1 = n + len ls /\
  forall k, cm_has (fold_left load_line lines (n, m)).2 k = true <-> k ∈ ls \/ cm_has m k = true.
Proof.
  revert n m. induction lines as [|l lines IH]; intros n m; cbn [map fold_left].
  { cbn. split; [lia|]. intros k. rewrite elem_of_nil. tauto. }
  unfold load_line at 2 4. cbn [fst snd]. rewrite filter_cons.
  destruct (decide (Trim l [z2b 13; " "%char; z2b 9] = [])) as [E|E].
  - rewrite bool_decide_true by done. cbn [negb]. rewrite decide_False by auto. apply IH.
  - rewrite bool_decide_false by done. cbn [negb]. rewrite decide_True by done.
    destruct (IH (n + 1) (cm_set m (Trim l [z2b 13; " "%char; z2b 9]) tt)) as [H1 H2].
    split; [rewrite H1; cbn [length]; lia|]. intros k. rewrite H2, elem_of_cons.
    unfold cm_has. rewrite cm_get_set. destruct (decide _) as [->|]; [tauto|]. naive_solver.
Qed.

(** ** The addresses the prober works with *)

(** Every probe under way has the address the cache has for its domain. *)
Definition run_inv (r : running M) : Prop :=
  forall d it, (d, it) ∈ r.2 -> exists it', cm_get (cache r.1) d = Some it' /\ addr it' = addr it.

(** The domains of the first cache are in the second, with their addresses. *)
Definition cache_le (c c' : M Item) : Prop :=
  forall d it, cm_get c d = Some it -> exists it', cm_get c' d = Some it' /\ addr it' = addr it.

Lemma cache_le_refl (c : M Item) : cache_le c c.
Proof. intros d it H. by exists it. Qed.

Lemma Add_le (domain a : bytes) f : cache_le (cache f) (cache (Add domain a f)).
Proof.
  unfold Add. destruct (_ && _); [|apply cache_le_refl]. cbn [cache set_cache].
  unfold cm_set_if_absent. destruct (cm_has _ _) eqn:E; [apply cache_le_refl|].
  intros d it H. exists it. split; [|done]. rewrite cm_get_set. destruct (decide _) as [<-|]; [|done].
  unfold cm_has in E. by rewrite H in E.
Qed.

Lemma probed_addr (now : Z) (err : option error) (alive : Z) (it : Item) :
  addr (probed now err alive it) = addr it.
Proof. unfold probed. destruct err; by destruct (_ <? _). Qed.

Lemma filter_step_inv (r r' : running M) :
  filter_step r r' -> run_inv r -> run_inv r' /\ cache_le (cache r.1) (cache r'.1).
Proof.
  assert (Hle : forall (f f' : Filter M) ps, cache_le (cache f) (cache f') ->
    run_inv (f, ps) -> run_inv (f', ps) /\ cache_le (cache f) (cache f')).
  { intros f f' ps Hle Hi. split; [|done]. intros d it Hd.
    destruct (Hi d it Hd) as (it1 & H1 & E1). destruct (Hle d it1 H1) as (it2 & H2 & E2).
    exists it2. split; [done|congruence]. }
  intros Hs Hi.
  destruct Hs as [f ps domain a|f ps file o f' H|f ps file o f' H|f ps now|f ps ps' d it now err].
  - apply (Hle f (Add domain a f) ps); [apply Add_le|exact Hi].
  - apply (Hle f f' ps); [|exact Hi]. unfold LoadProxyFile in H.
    destruct (loadfile2ConcurrentMap _ _). injection H as _ <-. apply cache_le_refl.
  - apply (Hle f f' ps); [|exact Hi]. unfold LoadDirectFile in H.
    destruct (loadfile2ConcurrentMap _ _). injection H as _ <-. apply cache_le_refl.
  - split; [|apply cache_le_refl]. intros d it [Hd|Hd]%elem_of_app; [by apply Hi|].
    unfold due in Hd. apply list_elem_of_filter in Hd as [_ Hd].
    apply cm_items_get in Hd. by exists it.
  - cbn [fst snd] in *.
    assert (Hd : exists it', cm_get (cache f) d = Some it' /\ addr it' = addr it)
      by (apply Hi, elem_of_app; right; left).
    assert (Hc : cache_le (cache f) (cm_set (cache f) d (probed now err (aliveThreshold f) it))).
    { intros d1 it1 H1. rewrite cm_get_set. destruct (decide _) as [<-|]; [|by exists it1].
      eexists. split; [done|]. rewrite probed_addr. destruct Hd as (it2 & H2 & E2).
      rewrite H1 in H2. by simplify_eq. }
    split; [|exact Hc]. intros d1 it1 H1.
    destruct (Hi d1 it1) as (it2 & H2 & E2).
    { apply elem_of_app in H1 as [?|?]; apply elem_of_app; [by left|by right; right]. }
    destruct (Hc d1 it2 H2) as (it3 & H3 & E3). exists it3. split; [done|congruence].
Qed.

End Laws.

(** * Properties *)

(** A domain matches a table exactly when its host name has a dot and the
    table has the host name itself or what follows one of its dots. *)
Theorem Match_spec {M : Type -> Type} `{!ConcurrentMap M} (domain : bytes)
    (isProxy : bool) (f : Filter M) :
  Match domain isProxy f = true <->
  dot ∈ hostname domain /\
  exists s, cm_has (if isProxy then proxies f else directs f) s = true /\
    (s = hostname domain \/ exists p, hostname domain = p ++ dot :: s).
Proof. apply Match_eq. Qed.

(** Loading a table file.  The count is that of the non-blank lines, and
    afterwards the table has exactly what it had and those lines, trimmed; a
    file that does not exist changes nothing and is no error. *)
Theorem LoadProxyFile_spec {M : Type -> Type} `{!ConcurrentMap M} `{!ConcurrentMapLaws M}
    (file : option (outcome bytes)) (f : Filter M) :
  match file with
  | None => LoadProxyFile file f = (Ok 0, set_proxies (proxies f) f)
  | Some (Ok contents) =>
      exists p, LoadProxyFile file f = (Ok (len (table_lines contents)), set_proxies p f) /\
        forall k, cm_has p k = true <-> k ∈ table_lines contents \/ cm_has (proxies f) k = true
  | Some (Fail e) => LoadProxyFile file f = (Fail e, set_proxies (proxies f) f)
  | Some Panic => True
  end.
Proof.
  destruct file as [[contents|e|]|]; try done.
  unfold LoadProxyFile, loadfile2ConcurrentMap.
  destruct (load_lines_spec (Split contents [z2b 10]) 0 (proxies f)) as [H1 H2].
  destruct (fold_left load_line _ _) as [n p]. cbn [fst snd] in *. subst n.
  exists p. split; [done|exact H2].
Qed.

Lemma Match_set_cache {M : Type -> Type} `{!ConcurrentMap M} (c : M Item) (d : bytes)
    (b : bool) (f : Filter M) : Match d b (set_cache c f) = Match d b f.
Proof. unfold Match. destruct b; reflexivity. Qed.

(** The tables decide first.  A domain of the proxy table goes through the
    proxy and one of the direct table alone goes direct, whatever the policy, the
    cache and the clock say, and neither is ever added to the cache; any other
    domain is known after it was added. *)
Theorem tables_decide {M : Type -> Type} `{!ConcurrentMap M} `{!ConcurrentMapLaws M}
    (now : Z) (domain a : bytes) (f : Filter M) :
  let h := hostname domain in
  if Match h true f then IsProxy now domain f = (true, true, 0, 0) /\ Add domain a f = f
  else if Match h false f then IsProxy now domain f = (false, true, 0, 0) /\ Add domain a f = f
  else (IsProxy now domain (Add domain a f)).1.1.2 = true.
Proof.
  intros h. unfold IsProxy, Add. fold h.
  destruct (Match h true f) eqn:Et; [by rewrite andb_false_r|].
  destruct (Match h false f) eqn:Ed; [done|]. cbn [negb andb].
  rewrite !Match_set_cache, Et, Ed. cbn [cache set_cache intelligent].
  assert (Hg : exists it, cm_get (cm_set_if_absent (cache f) h (mkItem a 0 0 0)) h = Some it).
  { unfold cm_set_if_absent, cm_has. destruct (cm_get (cache f) h) as [it|] eqn:E; [by exists it|].
    eexists. by rewrite cm_get_set, decide_True. }
  destruct Hg as [it ->]. destruct (bool_decide _); [done|]. by destruct (bool_decide _).
Qed.

(** The prober keeps the cache.  However calls, loads, ticks and the ends
    of probes interleave, a domain that is in the cache stays in it with the
    address it was added with, although every probe stores the item of an older
    snapshot. *)
Theorem prober_keeps_addresses {M : Type -> Type} `{!ConcurrentMap M} `{!ConcurrentMapLaws M}
    (f : Filter M) (r : running M) (domain : bytes) (it : Item) :
  rtc filter_step (f, []) r -> cm_get (cache f) domain = Some it ->
  exists it', cm_get (cache r.1) domain = Some it' /\ addr it' = addr it.
Proof.
  intros Hs. assert (Hi : run_inv (f, [])) by (intros d i H; by apply elem_of_nil in H).
  change (cm_get (cache f) domain = Some it) with (cm_get (cache (f, @nil (bytes * Item)).1) domain = Some it).
  revert it. induction Hs as [x|x y z Hxy _ IH]; intros it H; [by exists it|].
  destruct (filter_step_inv x y Hxy Hi) as [Hy Hc].
  destruct (Hc domain it H) as (it1 & H1 & E1). destruct (IH Hy it1 H1) as (it2 & H2 & E2).
  exists it2. split; [done|congruence].
Qed.

Lemma prober_keeps_addresses_witness :
  let f := Add (lit "a.com") (lit "a.com:80") (New (M := gmap bytes) (lit "intelligent") []) in
  exists r it',
    rtc filter_step (f, []) r /\ (cache r.1 : gmap bytes Item) !! lit "a.com" = Some it' /\
    addr it' = lit "a.com:80".
Proof.
  pose (f := Add (lit "a.com") (lit "a.com:80") (New (M := gmap bytes) (lit "intelligent") [])).
  pose (it := mkItem (lit "a.com:80") 0 0 0).
  assert (Hs : rtc filter_step (f, [])
    (set_cache (cm_set (cache f) (lit "a.com") (probed 100 None (aliveThreshold f) it)) f, [])).
  { eapply rtc_l; [apply (fs_tick f [] 0)|].
    assert (E : due 0 f = [(lit "a.com", it)]) by (vm_compute; reflexivity). rewrite E.
    apply rtc_once. apply (fs_probe f [] [] (lit "a.com") it 100 None). }
  destruct (prober_keeps_addresses f _ (lit "a.com") it Hs) as (it' & H1 & H2); [vm_compute; reflexivity|].
  eexists _, it'. split; [exact Hs|]. split; [exact H1|exact H2].
Defined.

(** When an item is probed.  An item needs no probe exactly when it
    reached a threshold, has more successes than failures and was probed within
    the period; items that failed at least as often as they succeeded are
    probed at every tick.  (The comment on the function asks for fewer successes
    than the threshold instead.) *)
Theorem probe_needed (now : Z) (sT fT alive : Z) (it : Item) :
  (isNeedLivenessProde now sT fT alive it = false <->
     (sT <= successCount it \/ fT <= failureCount it) /\ failureCount it < successCount it /\
     now - lastActiveTime it < alive) /\
  (successCount it <= failureCount it -> isNeedLivenessProde now sT fT alive it = true).
Proof.
  unfold isNeedLivenessProde. rewrite negb_false_iff, !andb_true_iff, orb_true_iff, !Z.leb_le, !Z.ltb_lt.
  split; [tauto|]. intros H. rewrite (proj2 (Z.ltb_ge _ _) H). by rewrite andb_false_r.
Qed.
