(* ===== verification/BasicAuth.v ===== *)
(** core/basicAuth: the basic authentication center, a table of users and
    passwords with an optional upstream HTTP service.  The HTTP exchange,
    [url.Parse] and the retry loop of the backoff package are inputs. *)
From S2P Require Import Prelude GoStrings GoNet GoIO Iface.
Open Scope Z_scope.

(** [url.QueryEscape] *)
Definition unreserved (c : byte) : bool :=
  let z := b2z c in
  ((48 <=? z) && (z <=? 57)) || ((65 <=? z) && (z <=? 90)) || ((97 <=? z) && (z <=? 122))
  || bool_decide (c ∈ lit "-_.~").
Definition upper_hex (d : Z) : byte := if d <? 10 then z2b (48 + d) else z2b (55 + d).
Definition QueryEscape (s : bytes) : bytes :=
  concat (map (fun c =>
    if unreserved c then [c]
    else if bool_decide (c = " "%char) then lit "+"
    else ["%"%char; upper_hex (b2z c / 16); upper_hex (b2z c mod 16)]) s).

Section Center.
Context {M : Type -> Type} `{!ConcurrentMap M} {R : Type} `{!NameResolver R}.
(** The [Host] of [url.Parse(u)]; none when the URL does not parse and the
    result is nil. *)
Context (url_host : bytes -> option bytes).
(** One GET: whether certificates go unchecked, the URL, the Host header when it
    is set, and the number of the attempt; it answers a status and a body. *)
Context (do_get : bool -> bytes -> option bytes -> nat -> outcome (Z * bytes)).
(** [backoff.Retry(op, WithMaxRetries(_, n))]; [op k] is the k-th attempt. *)
Context (retry : Z -> (nat -> outcome unit) -> outcome unit).

Record Center := mkCenter {
  passwords : M bytes;
  dns : option R;
  url : bytes;
  successCode : Z;
  timeout : Z;
  c_retry : Z;
}.

Definition SetDNSServer (dns : option R) (sf : Center) : Center :=
  mkCenter (passwords sf) dns (url sf) (successCode sf) (timeout sf) (c_retry sf).
Definition SetAuthURL (url : bytes) (timeout code retry : Z) (sf : Center) : Center :=
  mkCenter (passwords sf) (dns sf) url code timeout retry.

Inductive Option :=
  | WithDNSServer (dns : option R)
  | WithAuthURL (url : bytes) (timeout code retry : Z).

Definition apply_option (c : Center) (o : Option) : Center :=
  match o with
  | WithDNSServer d => SetDNSServer d c
  | WithAuthURL u t code r => SetAuthURL u t code r c
  end.

Definition New (opts : list Option) : Center :=
  fold_left apply_option opts (mkCenter cm_new None [] 0 0 0).

Definition set_passwords (p : M bytes) (sf : Center) : Center :=
  mkCenter p (dns sf) (url sf) (successCode sf) (timeout sf) (c_retry sf).

(** One pair of [Add]: how many were added, and the center *)
Definition add_one (acc : Z * Center) (up : bytes) : Z * Center :=
  match Split up [":"%char] with
  | [u; p] => (acc.1 + 1, set_passwords (cm_set (passwords acc.2) u p) acc.2)
  | _ => acc
  end.

Definition Add (userPwdPair : list bytes) (sf : Center) : Z * Center :=
  fold_left add_one userPwdPair (0, sf).

(** One line of [LoadFromFile] *)
Definition load_one (acc : Z * Center) (up : bytes) : Z * Center :=
  let up := Trim up (lit " ") in
  if bool_decide (up = []) || HasPrefix up (lit "#") then acc
  else let '(n, sf) := Add [up] acc.2 in (acc.1 + n, sf).

(** [LoadFromFile]: [file] is what reading the file gives. *)
Definition LoadFromFile (file : outcome bytes) (sf : Center) : outcome Z * Center :=
  match file with
  | Ok content =>
      let '(n, sf) := fold_left load_one
        (Split (RemoveByte content (z2b 13)) [z2b 10]) (0, sf) in (Ok n, sf)
  | Fail e => (Fail e, sf)
  | Panic => (Panic, sf)
  end.

Definition Delete (users : list bytes) (sf : Center) : Center :=
  fold_left (fun sf u => set_passwords (cm_remove (passwords sf) u) sf) users sf.

Definition Total (sf : Center) : Z := cm_count (passwords sf).
Definition Has (user : bytes) (sf : Center) : bool := cm_has (passwords sf) user.

Definition VerifyFromLocal (user pwd : bytes) (sf : Center) : bool :=
  match cm_get (passwords sf) user with
  | Some p => bool_decide (p = pwd)
  | None => false
  end.

(** [httpGet], the k-th time *)
Definition httpGet (url domain : bytes) (k : nat) : outcome (Z * bytes) :=
  let https := Contains url (lit "https://") in
  let url := if https then url
             else if negb (Contains url (lit "http://")) then lit "http://" ++ url
             else url in
  do_get https url (if negb (bool_decide (domain = [])) then Some domain else None) k.

Definition auth_url (url user pwd userIP localIP target : bytes) : bytes :=
  let URL := if Contains url (lit "?") then url ++ lit "&" else url ++ lit "?" in
  URL ++ lit "user=" ++ user ++ lit "&pass=" ++ pwd ++ lit "&ip=" ++ userIP
    ++ lit "&local_ip=" ++ localIP ++ lit "&target=" ++ QueryEscape target.

Definition VerifyFromURL (user pwd userIP localIP target : bytes) (sf : Center) : outcome unit :=
  if bool_decide (url sf = []) then Fail (ErrMsg "invalid remote basic auth url")
  else
    let URL := auth_url (url sf) user pwd userIP localIP target in
    '(getURL, domain) ←
      match dns sf with
      | None => Ok (URL, [])
      | Some d =>
          match url_host (url sf) with
          | None => Panic
          | Some domain =>
              let domainIP := must_resolve d domain in
              Ok (if negb (bool_decide (domainIP = domain)) then Replace1 URL domain domainIP
                  else URL, domain)
          end
      end;
    retry (c_retry sf) (fun k =>
      match httpGet getURL domain k with
      | Fail e => Fail (ErrWrap "auth fail from url %s,response %s , %s -> %s" e)
      | Panic => Panic
      | Ok (code, body) =>
          if code =? successCode sf then Ok tt
          else Fail (ErrMsg "auth fail from url %s,response code: %d, except: %d , %s -> %s, %s")
      end).

Definition Verify (userPwdPair userIP localIP target : bytes) (sf : Center) : outcome bool :=
  match Split (Trim userPwdPair (lit " ")) [":"%char] with
  | [user; pwd] =>
      if VerifyFromLocal user pwd sf then Ok true
      else
        match VerifyFromURL user pwd userIP localIP target sf with
        | Ok _ => Ok true
        | Fail _ => Ok false
        | Panic => Panic
        end
  | _ => Ok false
  end.

(** A center accepts what [Verify] accepts. *)
#[export] Instance center_authenticator : Authenticator Center :=
  fun c pair userIP localIP target =>
    match Verify pair userIP localIP target c with Ok b => b | _ => false end.

End Center.
Arguments Center : clear implicits.
Arguments Option : clear implicits.

(** * Laws *)

Section Laws.
Context {M : Type -> Type} `{!ConcurrentMap M} `{!ConcurrentMapLaws M} {R : Type} `{!NameResolver R}.
Implicit Types (sf : Center M R).

(** The user and password of a pair, when it has the form [Add] accepts *)
Definition as_pair (up : bytes) : option (bytes * bytes) :=
  match Split up [":"%char] with [u; p] => Some (u, p) | _ => None end.

(** The reference: a finite map of the pairs, later ones first *)
Definition pairs_map (ups : list bytes) (m : gmap bytes bytes) : gmap bytes bytes :=
  fold_left (fun m up => match as_pair up with Some (u, p) => <[u := p]> m | None => m end) ups m.

(** The center has the users and passwords of a finite map. *)
Definition refines (sf : Center M R) (m : gmap bytes bytes) : Prop :=
  forall u, cm_get (passwords sf) u = m !! u.

Lemma add_one_spec (n : Z) (sf : Center M R) (m : gmap bytes bytes) (up : bytes) :
  refines sf m ->
  (add_one (n, sf) up).1 = n + (match as_pair up with Some _ => 1 | None => 0 end) /\
  refines (add_one (n, sf) up).2 (match as_pair up with Some (u, p) => <[u := p]> m | None => m end) /\
  url (add_one (n, sf) up).2 = url sf /\ dns (add_one (n, sf) up).2 = dns sf.
Proof.
  intros H. unfold add_one, as_pair.
  destruct (Split up _) as [|u [|p [|? ?]]]; cbn [fst snd]; (split; [lia|]); try done.
  split; [|done]. intros k. cbn [passwords set_passwords]. rewrite cm_get_set, lookup_insert.
  by destruct (decide _).
Qed.

Lemma Add_spec (ups : list bytes) (sf : Center M R) (m : gmap bytes bytes) :
  refines sf m ->
  (Add ups sf).1 = len (filter (fun up => is_Some (as_pair up)) ups) /\
  refines (Add ups sf).2 (pairs_map ups m) /\
  url (Add ups sf).2 = url sf /\ dns (Add ups sf).2 = dns sf.
Proof.
  unfold Add, pairs_map. intros H.
  assert (G : forall n, (fold_left add_one ups (n, sf)).1 =
      n + len (filter (fun up => is_Some (as_pair up)) ups) /\
    refines (fold_left add_one ups (n, sf)).2 (pairs_map ups m) /\
    url (fold_left add_one ups (n, sf)).2 = url sf /\ dns (fold_left add_one ups (n, sf)).2 = dns sf).
  2: { destruct (G 0) as (-> & ? & ? & ?). split; [lia|done]. }
  revert sf m H. induction ups as [|up ups IH]; intros sf m H n.
  { cbn. split; [lia|done]. }
  cbn [fold_left]. unfold pairs_map. cbn [fold_left].
  destruct (add_one_spec n sf m up H) as (H1 & H2 & H3 & H4).
  destruct (add_one (n, sf) up) as [n1 sf1]. cbn [fst snd] in *.
  destruct (IH sf1 _ H2 n1) as (G1 & G2 & G3 & G4).
  split_and!; [|exact G2|congruence|congruence]. rewrite G1, H1, filter_cons.
  destruct (as_pair up) as [pr|]; [rewrite decide_True by eauto|rewrite decide_False by (by intros [? ?])];
    cbn [length]; lia.
Qed.

Lemma Delete_spec (us : list bytes) (sf : Center M R) (m : gmap bytes bytes) :
  refines sf m ->
  refines (Delete us sf) (fold_left (fun m u => delete u m) us m) /\
  url (Delete us sf) = url sf /\ dns (Delete us sf) = dns sf.
Proof.
  unfold Delete. revert sf m. induction us as [|u us IH]; intros sf m H; [done|].
  cbn [fold_left]. apply (IH (set_passwords (cm_remove (passwords sf) u) sf) (delete u m)).
  intros k. cbn [passwords set_passwords]. rewrite cm_get_remove, lookup_delete.
  by destruct (decide _).
Qed.

End Laws.

(** The lines of a file that [LoadFromFile] hands to [Add] *)
Definition file_lines (content : bytes) : list bytes :=
  filter (fun up => up <> [] /\ HasPrefix up (lit "#") = false)
    (map (fun l => Trim l (lit " ")) (Split (RemoveByte content (z2b 13)) [z2b 10])).

Section LoadLaws.
Context {M : Type -> Type} `{!ConcurrentMap M} `{!ConcurrentMapLaws M} {R : Type} `{!NameResolver R}.

Lemma load_fold (lines : list bytes) (n : Z) (sf : Center M R) :
  fold_left load_one lines (n, sf) =
    let '(k, sf') := Add (filter (fun up => up <> [] /\ HasPrefix up (lit "#") = false)
      (map (fun l => Trim l (lit " ")) lines)) sf in (n + k, sf').
Proof.
  assert (Hacc : forall ups k (sf : Center M R), fold_left add_one ups (k, sf) =
    let '(j, sf') := Add ups sf in (k + j, sf')).
  { unfold Add. induction ups as [|up ups IH]; intros k sf0; cbn [fold_left]; [by rewrite Z.add_0_r|].
    unfold add_one at 2 4. destruct (Split up _) as [|u [|p [|? ?]]]; cbn [fst snd]; try apply IH.
    rewrite (IH (k + 1)), (IH (0 + 1)). unfold Add. destruct (fold_left _ _ _) as [j sf'].
    f_equal. lia. }
  revert n sf. induction lines as [|l lines IH]; intros n sf; cbn [map fold_left].
  { cbn. by rewrite Z.add_0_r. }
  rewrite filter_cons. unfold load_one at 2.
  destruct (decide (Trim l (lit " ") <> [] /\ HasPrefix (Trim l (lit " ")) (lit "#") = false))
    as [[E1 E2]|E].
  - rewrite bool_decide_false, E2 by done. cbn [orb fst snd].
    destruct (Add [Trim l (lit " ")] sf) as [j sf1] eqn:Ea. rewrite IH.
    unfold Add in Ea |- *. cbn [fold_left] in Ea |- *. rewrite Ea, (Hacc _ j).
    unfold Add. destruct (fold_left _ _ _) as [k sf']. f_equal. lia.
  - assert (Hb : bool_decide (Trim l (lit " ") = []) || HasPrefix (Trim l (lit " ")) (lit "#") = true).
    { apply orb_true_iff. destruct (decide (Trim l (lit " ") = [])) as [E'|E'].
      - left. by apply bool_decide_eq_true.
      - right. destruct (HasPrefix _ _) eqn:Eh; [done|]. by destruct E. }
    rewrite Hb. apply IH.
Qed.
End LoadLaws.

(** What is done to a center *)
Inductive center_op :=
  | OpAdd (ups : list bytes)
  | OpDelete (users : list bytes).

Definition run_op {M} `{!ConcurrentMap M} {R} (sf : Center M R) (op : center_op) : Center M R :=
  match op with OpAdd ups => (Add ups sf).2 | OpDelete us => Delete us sf end.

(** The same on a finite map *)
Definition spec_op (m : gmap bytes bytes) (op : center_op) : gmap bytes bytes :=
  match op with
  | OpAdd ups => pairs_map ups m
  | OpDelete us => fold_left (fun m u => delete u m) us m
  end.

Lemma ops_refine {M} `{!ConcurrentMap M} `{!ConcurrentMapLaws M} {R}
    (ops : list center_op) (sf : Center M R) (m : gmap bytes bytes) :
  refines sf m -> refines (fold_left run_op ops sf) (fold_left spec_op ops m) /\
    url (fold_left run_op ops sf) = url sf.
Proof.
  revert sf m. induction ops as [|op ops IH]; intros sf m H; [done|]. cbn [fold_left].
  destruct op as [ups|us]; cbn [run_op spec_op].
  - destruct (Add_spec ups sf m H) as (_ & H1 & H2 & _).
    destruct (IH _ _ H1) as [? ?]. split; [done|congruence].
  - destruct (Delete_spec us sf m H) as (H1 & H2 & _).
    destruct (IH _ _ H1) as [? ?]. split; [done|congruence].
Qed.

Lemma New_refines {M} `{!ConcurrentMap M} `{!ConcurrentMapLaws M} {R} :
  refines (New (M := M) (R := R) []) ∅.
Proof. intros u. cbn. by rewrite cm_get_new, lookup_empty. Qed.

(** * Properties *)

(** A resolver that answers the host itself *)
Definition no_view : NameResolver unit :=
  {| public_dns_addr := fun _ => []; must_resolve := fun _ a => a |}.

(** C27: the local center is a finite map.  After any sequence of additions and
    deletions on a new center without an upstream service, a pair is accepted
    exactly when, trimmed of spaces, it is one user and one password and the
    finite map that undergoes the same operations has that password for that
    user. *)
Theorem Verify_refines_map {M : Type -> Type} `{!ConcurrentMap M} `{!ConcurrentMapLaws M}
    {R : Type} `{!NameResolver R} (url_host : bytes -> option bytes)
    (do_get : bool -> bytes -> option bytes -> nat -> outcome (Z * bytes))
    (retry : Z -> (nat -> outcome unit) -> outcome unit)
    (ops : list center_op) (pair userIP localIP target : bytes) :
  let sf := fold_left run_op ops (New (M := M) (R := R) []) in
  let m := fold_left spec_op ops ∅ in
  Verify url_host do_get retry pair userIP localIP target sf =
    Ok match as_pair (Trim pair (lit " ")) with
       | Some (u, p) => bool_decide (m !! u = Some p)
       | None => false
       end.
Proof.
  intros sf m. destruct (ops_refine (M := M) (R := R) ops _ _ New_refines) as [Hr Hu].
  fold sf m in Hr, Hu. cbn in Hu.
  unfold Verify, as_pair. destruct (Split _ _) as [|u [|p [|? ?]]]; try done.
  unfold VerifyFromLocal, VerifyFromURL. rewrite Hr, Hu, bool_decide_true by done.
  destruct (m !! u) as [q|] eqn:E.
  - destruct (decide (q = p)) as [->|Hn]; [by rewrite !bool_decide_true|].
    rewrite !bool_decide_false; [done|congruence|done].
  - by rewrite bool_decide_false.
Qed.

(** A user is added, changed and another deleted: the later password counts. *)
Lemma Verify_refines_map_witness :
  let ops := [OpAdd [lit "bob:x"; lit "eve:y"]; OpAdd [lit "bob:z"];
              OpDelete [lit "eve"]] in
  Verify (NameResolver0 := no_view) (fun _ => None) (fun _ _ _ _ => Panic) (fun _ _ => Panic)
    (lit " bob:z") [] [] [] (fold_left run_op ops (New (M := gmap bytes) [])) = Ok true.
Proof.
  intros ops. etransitivity; [apply (Verify_refines_map (M := gmap bytes) (NameResolver0 := no_view))|].
  vm_compute. reflexivity.
Defined.

(** Loading a file adds its lines.  Comment and blank lines are skipped,
    carriage returns removed, the count is that of the well-formed pairs, and
    the center then has the pairs of the lines over what it had. *)
Theorem LoadFromFile_spec {M : Type -> Type} `{!ConcurrentMap M} `{!ConcurrentMapLaws M}
    {R : Type} (content : bytes) (sf : Center M R) (m : gmap bytes bytes) :
  refines sf m ->
  exists sf', LoadFromFile (Ok content) sf =
      (Ok (len (filter (fun up => is_Some (as_pair up)) (file_lines content))), sf') /\
    refines sf' (pairs_map (file_lines content) m).
Proof.
  intros H. destruct (Add_spec (file_lines content) sf m H) as (H1 & H2 & _).
  exists (Add (file_lines content) sf).2. split; [|done].
  unfold LoadFromFile. rewrite load_fold. fold (file_lines content).
  destruct (Add _ _) as [k sf'] eqn:E. cbn [fst snd] in *. rewrite H1. do 2 f_equal.
Qed.

Lemma LoadFromFile_spec_witness :
  exists sf', LoadFromFile (Ok (lit "# users" ++ [z2b 13; z2b 10] ++ lit "bob:secret"))
      (New (M := gmap bytes) (R := unit) []) = (Ok 1, sf') /\
    refines sf' {[ lit "bob" := lit "secret" ]}.
Proof.
  destruct (LoadFromFile_spec (M := gmap bytes) (R := unit)
    (lit "# users" ++ [z2b 13; z2b 10] ++ lit "bob:secret") (New []) ∅ New_refines)
    as (sf' & H1 & H2).
  exists sf'. split; [exact H1|exact H2].
Defined.

(** The upstream service decides what the table does not.  For a pair the
    table rejects, with a service URL, no resolver and a retry loop that runs
    attempts 0 to n until one succeeds, the pair is accepted exactly when one of
    those attempts is answered with the success code. *)
Theorem Verify_remote {M : Type -> Type} `{!ConcurrentMap M} {R : Type} `{!NameResolver R}
    (url_host : bytes -> option bytes)
    (do_get : bool -> bytes -> option bytes -> nat -> outcome (Z * bytes))
    (retry : Z -> (nat -> outcome unit) -> outcome unit)
    (u p userIP localIP target : bytes) (pair : bytes) (sf : Center M R) :
  (forall n op, 0 < n -> (forall k, op k <> Panic) ->
     retry n op <> Panic /\
     (retry n op = Ok tt <-> exists k, Z.of_nat k <= n /\ op k = Ok tt)) ->
  (forall tls url host k, do_get tls url host k <> Panic) ->
  as_pair (Trim pair (lit " ")) = Some (u, p) -> VerifyFromLocal u p sf = false ->
  url sf <> [] -> dns sf = None -> 0 < c_retry sf ->
  let URL := auth_url (url sf) u p userIP localIP target in
  exists b, Verify url_host do_get retry pair userIP localIP target sf = Ok b /\
    (b = true <-> exists k body, Z.of_nat k <= c_retry sf /\
       httpGet do_get URL [] k = Ok (successCode sf, body)).
Proof.
  intros Hretry Hget Hp Hl Hu Hd Hn URL. unfold Verify, as_pair in *.
  destruct (Split _ _) as [|u' [|p' [|? ?]]]; try done. injection Hp as -> ->.
  rewrite Hl. unfold VerifyFromURL. rewrite bool_decide_false, Hd by done.
  fold URL. unfold mbind, outcome_bind. cbv beta iota.
  match goal with |- context [retry _ ?f] => set (op := f) end.
  assert (Hop : forall k, op k <> Panic).
  { intros k. unfold op, httpGet. destruct (do_get _ _ _ k) as [[code body]|e|] eqn:E.
    - by destruct (_ =? _).
    - done.
    - by destruct (Hget _ _ _ _ E). }
  destruct (Hretry (c_retry sf) op Hn Hop) as [Hnp Hok].
  assert (Hiff : (exists k, Z.of_nat k <= c_retry sf /\ op k = Ok tt) <->
    exists k body, Z.of_nat k <= c_retry sf /\ httpGet do_get URL [] k = Ok (successCode sf, body)).
  { unfold op. split.
    - intros (k & Hk & H). exists k. destruct (httpGet _ _ _ k) as [[code body]|e|]; try done.
      exists body. split; [done|]. destruct (Z.eqb_spec code (successCode sf)); [by subst|done].
    - intros (k & body & Hk & H). exists k. split; [done|]. by rewrite H, Z.eqb_refl. }
  destruct (retry _ _) as [[]|e|]; [exists true|exists false|done]; (split; [done|]).
  - rewrite <- Hiff. split; [|done]. intros _. by apply Hok.
  - rewrite <- Hiff. split; [done|]. intros H. by apply Hok in H.
Qed.

(** A retry loop: attempt [k], then up to [fuel] more *)
Fixpoint try_from (fuel k : nat) (op : nat -> outcome unit) : outcome unit :=
  match op k with
  | Fail e => match fuel with O => Fail e | S f => try_from f (S k) op end
  | r => r
  end.

Lemma try_from_spec (op : nat -> outcome unit) (fuel k : nat) :
  (forall k, op k <> Panic) ->
  try_from fuel k op <> Panic /\
  (try_from fuel k op = Ok tt <-> exists j, (k <= j <= k + fuel)%nat /\ op j = Ok tt).
Proof.
  intros Hop. revert k. induction fuel as [|f IH]; intros k; cbn [try_from].
  - destruct (op k) as [[]|e|] eqn:E; [| |by destruct (Hop k)].
    + split; [done|]. split; [|done]. intros _. exists k. split; [lia|done].
    + split; [done|]. split; [done|]. intros (j & Hj & H).
      replace j with k in H by lia. congruence.
  - destruct (op k) as [[]|e|] eqn:E; [| |by destruct (Hop k)].
    + split; [done|]. split; [|done]. intros _. exists k. split; [lia|done].
    + destruct (IH (S k)) as [H1 H2]. split; [done|]. rewrite H2.
      split; intros (j & Hj & H); exists j; (split; [|done]); [lia|].
      destruct (decide (j = k)) as [->|]; [congruence|lia].
Qed.

Lemma Verify_remote_witness :
  exists b, Verify (M := gmap bytes) (NameResolver0 := no_view) (fun _ => None)
      (fun _ _ _ k => Ok (if Nat.eqb k 1 then 204 else 500, [])) (fun n => try_from (Z.to_nat n) 0)
      (lit "bob:x") [] [] [] (mkCenter ∅ None (lit "http://auth/") 204 1 3) = Ok b /\
    (b = true <-> exists k body, Z.of_nat k <= 3 /\
       httpGet (fun _ _ _ k => Ok (if Nat.eqb k 1 then 204 else 500, []))
         (auth_url (lit "http://auth/") (lit "bob") (lit "x") [] [] []) [] k = Ok (204, body)).
Proof.
  refine (Verify_remote (M := gmap bytes) (NameResolver0 := no_view) (fun _ => None)
    (fun _ _ _ k => Ok (if Nat.eqb k 1 then 204 else 500, [])) (fun n => try_from (Z.to_nat n) 0)
    (lit "bob") (lit "x") [] [] [] (lit "bob:x") (mkCenter ∅ None (lit "http://auth/") 204 1 3)
    _ _ _ _ _ _ _).
  - intros n op Hn Hop. destruct (try_from_spec op (Z.to_nat n) 0 Hop) as [H1 H2].
    split; [done|]. rewrite H2. split; intros (k & Hk & H); exists k; (split; [lia|done]).
  - done.
  - vm_compute. reflexivity.
  - reflexivity.
  - discriminate.
  - reflexivity.
  - reflexivity.
Defined.
