(* ===== verification/Binding.v ===== *)
(** pkg/bpool and core/binding: the pools of buffers and the copying between two
    connections or two UDP sockets.  A buffer is known by its identity; an
    operation on a pool that may be in use elsewhere is one step.  [Proxy], which
    starts two copies and waits for the first to end, is left out. *)
From S2P Require Import Prelude GoStrings GoIO.
Open Scope Z_scope.

(** * Pools *)

(** [free] are the buffers put back, [caps] the capacities of all buffers made;
    the leaky buffer keeps [max_free] of them, [sync.Pool] any number. *)
Record pool := mkPool {
  capacity : nat; max_free : nat; free : list nat; caps : gmap nat nat;
}.

Definition NewBuffer (maxFreeSize cap : nat) : pool := mkPool cap maxFreeSize [] ∅.
Definition NewPool (cap : nat) : pool := mkPool cap 0 [] ∅.

(** [make([]byte, 0, capacity)] *)
Definition make_buf : io pool nat := fun p =>
  let id := fresh (dom (caps p) : gset nat) in
  (Ok id, mkPool (capacity p) (max_free p) (free p) (<[id := capacity p]> (caps p))).

Definition take_at (i : nat) : io pool nat := fun p =>
  match free p !! i with
  | Some id => (Ok id, mkPool (capacity p) (max_free p) (delete i (free p)) (caps p))
  | None => make_buf p
  end.

(** The leaky buffer takes the oldest one; [sync.Pool] any, or makes one. *)
Definition Buffer_Get : io pool nat := take_at 0.
Definition Pool_Get (pick : nat) : io pool nat := take_at pick.

Definition checked_put (store : pool -> list nat -> list nat) (b : nat) : io pool unit := fun p =>
  if bool_decide (default 0%nat (caps p !! b) = capacity p)
  then (Ok tt, mkPool (capacity p) (max_free p) (store p (free p)) (caps p))
  else (Panic, p).

Definition Buffer_Put (b : nat) : io pool unit :=
  checked_put (fun p l => if Nat.ltb (length l) (max_free p) then l ++ [b] else l) b.
Definition Pool_Put (b : nat) : io pool unit := checked_put (fun _ l => l ++ [b]) b.

(** What the users of a pool do: [held] are the buffers some user has. *)
Inductive use := UGet (pick : nat) | UPut (b : nat) | UDrop (i : nat).

Definition remove_one (b : nat) (l : list nat) : list nat :=
  match list_find (eq b) l with Some (i, _) => delete i l | None => l end.

(** One use of [sync.Pool], which forgets buffers at will *)
Definition use_step (u : use) (s : pool * list nat) : option (pool * list nat) :=
  let '(p, held) := s in
  match u with
  | UGet pick => match Pool_Get pick p with (Ok b, p) => Some (p, b :: held) | _ => None end
  | UPut b =>
      if bool_decide (b ∈ held)
      then match Pool_Put b p with (Ok _, p) => Some (p, remove_one b held) | _ => None end
      else None
  | UDrop i => Some (mkPool (capacity p) (max_free p) (delete i (free p)) (caps p), held)
  end.

Fixpoint use_run (us : list use) (s : pool * list nat) : option (pool * list nat) :=
  match us with [] => Some s | u :: us => s ← use_step u s; use_run us s end.

(** * Copying a stream ([Copy], [io.CopyBuffer]) *)

(** A source to read and a connection to write *)
Record pipe := mkPipe { src : reader; dst : conn }.
Definition on_src {A} (m : io reader A) : io pipe A := fun s =>
  let '(o, r) := m (src s) in (o, mkPipe r (dst s)).
Definition on_dst {A} (m : io conn A) : io pipe A := fun s =>
  let '(o, c) := m (dst s) in (o, mkPipe (src s) c).

(** What the types of the two ends may bring along: [src.WriteTo(dst)] and
    [dst.ReadFrom(src)], as [*net.TCPConn] does *)
Record methods := mkMethods { WriteTo : option (io pipe unit); ReadFrom : option (io pipe unit) }.
Definition no_methods : methods := mkMethods None None.

(** The loop of [io.CopyBuffer] for ends without them, with a buffer of [n] bytes;
    end of file is success. *)
Fixpoint copy_loop (fuel n : nat) : io pipe unit :=
  match fuel with
  | O => io_panic
  | S fuel =>
      r ← io_try (on_src (Read n));
      match r with
      | inr EOF => mret tt
      | inr e => io_fail e
      | inl [] => copy_loop fuel n
      | inl b => on_dst (Write b);; copy_loop fuel n
      end
  end.

(** Every read takes an event or at least a byte of one. *)
Fixpoint steps (r : reader) : nat :=
  match r with
  | [] => 0
  | Seg b :: r => S (length b + steps r)
  | RErr _ :: r => S (steps r)
  end.

(** [io.CopyBuffer]: the methods of the ends go before the buffer, and an empty
    buffer panics. *)
Definition CopyBuffer (ms : methods) (n : nat) : io pipe unit := fun s =>
  match n, WriteTo ms, ReadFrom ms with
  | O, _, _ => (Panic, s)
  | _, Some m, _ | _, None, Some m => m s
  | _, None, None => copy_loop (S (steps (src s))) n s
  end.

(** [Copy]; the buffer is put back also when the copying panics. *)
Definition Copy (ms : methods) (pick : nat) : io (pool * pipe) unit := fun s =>
  match Pool_Get pick s.1 with
  | (Ok b, p) =>
      let '(o, q) := CopyBuffer ms (default 0%nat (caps p !! b)) s.2 in
      let '(o', p) := Pool_Put b p in
      (match o' with Ok _ => o | Fail e => Fail e | Panic => Panic end, (p, q))
  | (Fail e, p) => (Fail e, (p, s.2))
  | (Panic, p) => (Panic, (p, s.2))
  end.

(** * Copying datagrams ([RunUDPCopy]) *)

Inductive flow := Continue | Return.

(** One turn of the loop: [r] is what the socket delivered, [w] how the write
    ends; the result is what is written and how to go on. *)
Definition udp_copy_step (n : nat) (fn : bytes -> outcome bytes) (r : bytes + error) (w : option error)
  : outcome (option bytes * flow) :=
  match r with
  | inr e =>
      if bool_decide (e = ErrClosed) || bool_decide (e = ErrTimeout) || bool_decide (e = ErrRefused)
      then Ok (None, Return) else Ok (None, Continue)
  | inl b =>
      d ← fn (take n b);
      match w with
      | None => Ok (Some d, Continue)
      | Some e => if bool_decide (e = ErrClosed) then Ok (None, Return) else Ok (None, Continue)
      end
  end.

(** The loop on the reads and writes that come: what is sent, and whether the
    copy has returned *)
Fixpoint RunUDPCopy (n : nat) (fn : bytes -> outcome bytes) (io_ : list ((bytes + error) * option error))
  : outcome (list bytes * flow) :=
  match io_ with
  | [] => Ok ([], Continue)
  | (r, w) :: rest =>
      '(d, f) ← udp_copy_step n fn r w;
      match f with
      | Return => Ok ([], Return)
      | Continue => '(l, g) ← RunUDPCopy n fn rest; Ok (match d with Some d => d :: l | None => l end, g)
      end
  end.

(** * Laws *)

(** The bytes of a stream up to its first error, and how it ends *)
Fixpoint received (l : list (byte + error)) : bytes * outcome unit :=
  match l with
  | [] => ([], Ok tt)
  | inl b :: l => let '(bs, o) := received l in (b :: bs, o)
  | inr e :: _ => ([], if decide (e = EOF) then Ok tt else Fail e)
  end.

Lemma received_app (b : bytes) (l : list (byte + error)) :
  received (map inl b ++ l) = (b ++ (received l).1, (received l).2).
Proof.
  induction b as [|x b IH]; cbn [map app received]; [by destruct (received l)|]. by rewrite IH.
Qed.

(** What one read gives of a stream *)
Lemma Read_flat (n : nat) (r : reader) :
  (0 < n)%nat ->
  match Read n r with
  | (Ok b, r') => flat r = map inl b ++ flat r' /\ (steps r' < steps r)%nat /\ (length b <= n)%nat
  | (Fail e, r') => received (flat r) = ([], if decide (e = EOF) then Ok tt else Fail e)
  | (Panic, _) => False
  end.
Proof.
  intros Hn. destruct r as [|[b|e] r]; [done| |done]. cbn [Read].
  destruct (Nat.leb_spec (length b) n) as [H|H]; rewrite flat_cons; cbn [flat_ev].
  - split_and!; [done| |done]. cbn [steps]. lia.
  - rewrite flat_cons. cbn [flat_ev]. split_and!.
    + by rewrite app_assoc, <- map_app, take_drop.
    + cbn [steps]. rewrite length_drop. lia.
    + rewrite length_take. lia.
Qed.

Lemma copy_loop_spec (fuel n : nat) (q : pipe) :
  (0 < n)%nat -> (steps (src q) < fuel)%nat -> wres (dst q) = [] ->
  exists q' ws, copy_loop fuel n q = ((received (flat (src q))).2, q') /\
    tx (dst q') = tx (dst q) ++ ws /\ concat ws = (received (flat (src q))).1 /\
    Forall (fun w => w <> [] /\ (length w <= n)%nat) ws.
Proof.
  intros Hn. revert q. induction fuel as [|fuel IH]; intros q Hf Hw; [lia|].
  cbn [copy_loop]. pose proof (Read_flat n (src q) Hn) as HR.
  destruct (Read n (src q)) as [[b|e|] r'] eqn:E; [| |done].
  - destruct HR as (HF & Hs & Hl).
    erewrite bind_ok; [|apply io_try_ok; unfold on_src; rewrite E; reflexivity].
    rewrite HF, received_app. cbn [fst snd]. destruct b as [|x b].
    + destruct (IH (mkPipe r' (dst q))) as (q' & ws & H1 & H2 & H3 & H4); [cbn; lia|done|].
      exists q', ws. cbn [src dst] in *. split_and!; [|done|exact H3|done].
      cbn [map app received]. by rewrite H1.
    + set (w := x :: b) in *.
      erewrite bind_ok by (unfold on_dst; cbn [dst]; rewrite Write_ok by done; reflexivity).
      destruct (IH (mkPipe r' (mkConn (rx (dst q)) (tx (dst q) ++ [w]) [] (closed (dst q)))))
        as (q' & ws & H1 & H2 & H3 & H4); [cbn; lia|done|].
      cbn [src dst tx] in *. exists q', (w :: ws). split_and!.
      * by rewrite H1.
      * by rewrite H2, <- app_assoc.
      * cbn [concat]. by rewrite H3.
      * by constructor.
  - exists (mkPipe r' (dst q)), []. rewrite HR. cbn [fst snd dst].
    erewrite bind_ok by (unfold io_try, on_src; rewrite E; reflexivity).
    split_and!; [|by rewrite app_nil_r|done|done].
    destruct (decide (e = EOF)) as [->|He]; [done|]. by destruct e.
Qed.

Lemma udp_copy_ok (n : nat) (fn : bytes -> outcome bytes) (b d : bytes) :
  fn (take n b) = Ok d -> udp_copy_step n fn (inl b) None = Ok (Some d, Continue).
Proof. intros H. unfold udp_copy_step. by rewrite H. Qed.

(** ** The pool *)

Record pool_inv (s : pool * list nat) : Prop := {
  inv_nodup : NoDup (s.2 ++ free s.1);
  inv_caps : forall b, b ∈ s.2 ++ free s.1 -> caps s.1 !! b = Some (capacity s.1);
}.

Lemma remove_one_perm (b : nat) (l : list nat) : b ∈ l -> l ≡ₚ b :: remove_one b l.
Proof.
  intros H. unfold remove_one. destruct (list_find_elem_of (eq b) l b H eq_refl) as [[i y] E].
  rewrite E. apply list_find_Some in E as (Hi & <- & _). by apply delete_Permutation.
Qed.

Lemma pool_inv_perm (p : pool) (l1 l2 l3 : list nat) (f : list nat) :
  pool_inv (p, l1) -> l2 ++ f ≡ₚ l3 -> l3 ⊆+ l1 ++ free p ->
  pool_inv (mkPool (capacity p) (max_free p) f (caps p), l2).
Proof.
  intros [Hn Hc] Hp Hs. cbn [fst snd] in *. split; cbn [fst snd free caps capacity].
  - rewrite Hp. destruct (submseteq_Permutation _ _ Hs) as [k Hk]. rewrite Hk in Hn.
    by apply NoDup_app in Hn as (? & _).
  - intros b Hb. apply Hc. rewrite Hp in Hb. by eapply elem_of_submseteq.
Qed.

Lemma use_step_inv (u : use) (s s' : pool * list nat) :
  pool_inv s -> use_step u s = Some s' -> pool_inv s' /\ capacity s'.1 = capacity s.1.
Proof.
  intros Hi Hu. destruct s as [p held], u as [pick|b|i]; cbn [use_step] in Hu.
  - unfold Pool_Get, take_at in Hu. destruct (free p !! pick) as [b|] eqn:E.
    + injection Hu as <-. split; [|done].
      eapply pool_inv_perm; [exact Hi|reflexivity|]. cbn [app].
      rewrite (delete_Permutation (free p) pick b E) at 2.
      rewrite Permutation_middle. done.
    + injection Hu as <-. split; [|done]. destruct Hi as [Hn Hc]. cbn [fst snd] in *.
      set (id := fresh _). assert (Hf : caps p !! id = None)
        by (apply not_elem_of_dom, is_fresh).
      split; cbn [fst snd free caps capacity app].
      * constructor; [|done]. intros Hb%Hc. congruence.
      * intros b [->|Hb]%elem_of_cons; [by rewrite lookup_insert, decide_True|].
        rewrite lookup_insert_ne; [by apply Hc|]. intros <-. apply Hc in Hb. congruence.
  - case_bool_decide as Hb; [|done]. unfold Pool_Put, checked_put in Hu.
    case_bool_decide; [|done]. injection Hu as <-. split; [|done].
    eapply pool_inv_perm; [exact Hi|reflexivity|].
    rewrite (remove_one_perm b held Hb) at 2. cbn [app].
    rewrite app_assoc. rewrite <- Permutation_cons_append. done.
  - injection Hu as <-. split; [|done].
    eapply pool_inv_perm; [exact Hi|reflexivity|]. apply submseteq_app; [done|].
    apply sublist_submseteq, sublist_delete.
Qed.

Lemma use_run_inv (us : list use) (s s' : pool * list nat) :
  pool_inv s -> use_run us s = Some s' -> pool_inv s' /\ capacity s'.1 = capacity s.1.
Proof.
  revert s. induction us as [|u us IH]; intros s Hi Hu; cbn [use_run] in Hu.
  { by injection Hu as <-. }
  destruct (use_step u s) as [s1|] eqn:E; [|done]. destruct (use_step_inv u s s1 Hi E) as [H1 H2].
  destruct (IH s1 H1 Hu) as [H3 H4]. split; [done|congruence].
Qed.

(** * Properties *)

(** Buffers are not shared.  While the users of a pool put back only buffers
    they hold, and each once, no buffer is held twice, none is both held and free,
    every one has the capacity of the pool, and putting one back does not
    panic. *)
Theorem pool_exclusive (cap : nat) (us : list use) (p : pool) (held : list nat) :
  use_run us (NewPool cap, []) = Some (p, held) ->
  NoDup (held ++ free p) /\
  (forall b, b ∈ held -> caps p !! b = Some cap /\ is_ok (Pool_Put b p).1 = true) /\
  (forall pick, exists b, (Pool_Get pick p).1 = Ok b /\ b ∉ held).
Proof.
  intros H. apply use_run_inv in H as [Hi Hcap]; [|split; [constructor|by intros b ?%not_elem_of_nil]].
  cbn [fst snd NewPool capacity] in Hcap. pose proof Hi as [Hn Hc]. cbn [fst snd] in *.
  rewrite Hcap in Hc. split_and!; [done| |].
  - intros b Hb. rewrite (Hc b) by (apply elem_of_app; by left). split; [done|].
    unfold Pool_Put, checked_put. rewrite (Hc b), Hcap by (apply elem_of_app; auto).
    by rewrite bool_decide_true.
  - intros pick. destruct (Pool_Get pick p) as [o p'] eqn:E.
    assert (Hs : use_step (UGet pick) (p, held) = match o with Ok b => Some (p', b :: held) | _ => None end).
    { cbn [use_step]. by rewrite E; destruct o. }
    unfold Pool_Get, take_at, make_buf in E. destruct o as [b| |].
    2,3: by destruct (free p !! pick).
    exists b. split; [done|]. destruct (use_step_inv _ _ _ Hi Hs) as [[Hn' _] _].
    cbn [fst snd app] in Hn'. apply NoDup_cons in Hn' as [Hb _]. set_solver.
Qed.

(** C36: [Copy] copies and the buffer is back in the pool.  When neither end brings a
    method of its own it writes the bytes of the source in order, in pieces no larger
    than the buffer, up to the end of the source or its first error, which it returns
    (the end is success); otherwise the copying is that of the source's [WriteTo], or
    of the destination's [ReadFrom] when the source has none. *)
Theorem Copy_spec (ms : methods) (pick : nat) (p : pool) (q : pipe) :
  pool_inv (p, []) -> (0 < capacity p)%nat -> wres (dst q) = [] ->
  exists b o p' q', Copy ms pick (p, q) = (o, (p', q')) /\ b ∈ free p' /\ pool_inv (p', []) /\
    match WriteTo ms, ReadFrom ms with
    | Some m, _ | None, Some m => m q = (o, q')
    | None, None => o = (received (flat (src q))).2 /\
        exists ws, tx (dst q') = tx (dst q) ++ ws /\ concat ws = (received (flat (src q))).1 /\
          Forall (fun w => w <> [] /\ (length w <= capacity p)%nat) ws
    end.
Proof.
  intros Hi Hc Hw. unfold Copy. cbn [fst snd].
  destruct (Pool_Get pick p) as [o p1] eqn:E.
  assert (Hs : use_step (UGet pick) (p, []) = match o with Ok b => Some (p1, [b]) | _ => None end).
  { cbn [use_step]. by rewrite E; destruct o. }
  assert (exists b, o = Ok b) as [b ->].
  { unfold Pool_Get, take_at, make_buf in E. destruct (free p !! pick); injection E as <- _; by eexists. }
  destruct (use_step_inv _ _ _ Hi Hs) as [Hi1 Hcap]. cbn [fst snd] in *.
  pose proof Hi1 as [_ Hc1]. cbn [fst snd] in Hc1. assert (Hb := Hc1 b ltac:(set_solver)).
  rewrite Hb. cbn [default]. rewrite Hcap. cbn [default from_option id].
  assert (HP : Pool_Put b p1 = (Ok tt, mkPool (capacity p1) (max_free p1) (free p1 ++ [b]) (caps p1))).
  { unfold Pool_Put, checked_put. by rewrite Hb, bool_decide_true. }
  assert (Hs2 : use_step (UPut b) (p1, [b]) = Some (mkPool (capacity p1) (max_free p1) (free p1 ++ [b]) (caps p1), [])).
  { cbn [use_step]. rewrite bool_decide_true, HP by set_solver. unfold remove_one. cbn [list_find].
    by rewrite decide_True. }
  destruct (use_step_inv _ _ _ Hi1 Hs2) as [Hi2 _]. cbn [fst] in Hi2.
  destruct (CopyBuffer ms (capacity p) q) as [oc q'] eqn:Ec. rewrite HP.
  exists b, oc. do 2 eexists. split_and!; [reflexivity|cbn [free]; set_solver|exact Hi2|].
  unfold CopyBuffer in Ec. destruct (capacity p) as [|n] eqn:En; [lia|].
  destruct (WriteTo ms) as [m|], (ReadFrom ms) as [m'|]; [exact Ec..|].
  destruct (copy_loop_spec (S (steps (src q))) (S n) q) as (q1 & ws & H1 & H2 & H3 & H4); [done|lia|done|].
  rewrite Ec in H1. injection H1 as -> ->. split; [done|]. by exists ws.
Qed.

(** * Examples *)

Definition two_users : list use := [UGet 0; UGet 0; UPut 0; UGet 0].
Lemma two_users_run :
  use_run two_users (NewPool 4096, []) =
    Some (mkPool 4096 0 [] {[0%nat := 4096%nat; 1%nat := 4096%nat]}, [0%nat; 1%nat]).
Proof. vm_compute. reflexivity. Qed.

Lemma pool_exclusive_witness :
  exists b, (Pool_Get 0 (mkPool 4096 0 [] {[0%nat := 4096%nat; 1%nat := 4096%nat]})).1 = Ok b /\
    b ∉ [0%nat; 1%nat].
Proof. exact (proj2 (proj2 (pool_exclusive 4096 two_users _ _ two_users_run)) 0%nat). Defined.

Definition sample_pipe : pipe := mkPipe [Seg (lit "abcdef"); RErr ErrTimeout; Seg (lit "gh")] (conn_of []).

Lemma Copy_spec_witness :
  exists p' q' ws, Copy no_methods 0 (NewPool 4, sample_pipe) = (Fail ErrTimeout, (p', q')) /\
    tx (dst q') = ws /\ concat ws = lit "abcdef".
Proof.
  destruct (Copy_spec no_methods 0 (NewPool 4) sample_pipe) as (b & o & p' & q' & H1 & _ & _ & -> & ws & H2 & H3 & _).
  - split; [constructor|by intros ? ?%not_elem_of_nil].
  - apply Nat.ltb_lt. reflexivity.
  - reflexivity.
  - exists p', q', ws. exact (conj H1 (conj H2 H3)).
Defined.
