(* ===== verification/Sni.v ===== *)
(** connection/sni: the server name of a TLS ClientHello, read through a
    [bufio.Reader] of the default size. *)
From S2P Require Import Prelude GoStrings GoNet GoIO.
Open Scope Z_scope.

(** * [bufio.Reader] *)

Definition defaultBufSize : nat := 4096.
Definition maxConsecutiveEmptyReads : nat := 100.
Definition ErrBufferFull : error := ErrMsg "bufio: buffer full".
Definition ErrNoProgress : error := ErrMsg "multiple Read calls return no data or error".

(** A reader with what it has buffered *)
Record bufio := mkBufio { buffered : bytes; under : reader }.

Definition NewReader (r : reader) : bufio := mkBufio [] r.

(** The fills of [Peek(n)], until [n] bytes are there, the buffer is full or a
    read fails; [empty] counts consecutive empty reads. *)
Fixpoint fill (n empty : nat) (buf : bytes) (r : reader) : option error * bufio :=
  if Nat.leb n (length buf) || Nat.leb defaultBufSize (length buf) then (None, mkBufio buf r)
  else
    match r with
    | [] => (Some EOF, mkBufio buf [])
    | RErr e :: t => (Some e, mkBufio buf t)
    | Seg b :: t =>
        let room := (defaultBufSize - length buf)%nat in
        match b with
        | [] =>
            if Nat.eqb (S empty) maxConsecutiveEmptyReads then (Some ErrNoProgress, mkBufio buf t)
            else fill n (S empty) buf t
        | _ =>
            if Nat.leb (length b) room then fill n 0 (buf ++ b) t
            else (None, mkBufio (buf ++ take room b) (Seg (drop room b) :: t))
        end
    end.

Definition Peek (n : nat) : io bufio bytes := fun s =>
  let '(err, s) := fill n 0 (buffered s) (under s) in
  if Nat.ltb defaultBufSize n then (Fail ErrBufferFull, s)
  else if Nat.ltb (length (buffered s)) n then
    (Fail (match err with Some e => e | None => ErrBufferFull end), s)
  else (Ok (take n (buffered s)), s).

(** * The parser (sni.go) *)

Definition errMalformed : error := ErrMsg "SNI: malformed client hello".

(** [(int(rest[i]) << 8) + int(rest[i+1])] *)
Definition u16_at (rest : bytes) (i : Z) : outcome Z :=
  h ← idx rest i; l ← idx rest (i + 1); Ok (Z.shiftl (b2z h) 8 + b2z l).

(** The name in a server name extension whose data starts at [current] *)
Definition server_name (rest : bytes) (current : Z) : outcome (bytes * Z) :=
  let current := current + 2 in
  if len rest <? current then Fail errMalformed
  else
    nameType ← idx rest current;
    let current := current + 1 in
    if negb (bool_decide (nameType = zero)) then Fail (ErrMsg "SNI: extension not a hostname")
    else if len rest <? current + 1 then Fail errMalformed
    else
      nameLen ← u16_at rest current;
      let current := current + 2 in
      if len rest <? current + nameLen then Fail errMalformed
      else
        name ← slice rest current (current + nameLen);
        Ok (name, current).

(** The loop over the extensions; every round advances by four bytes or more. *)
Fixpoint ext_loop (fuel : nat) (rest : bytes) (current : Z) (hostname : bytes) : outcome bytes :=
  match fuel with
  | O => Panic
  | S f =>
      if (current + 4 <? len rest) && bool_decide (hostname = []) then
        extensionType ← u16_at rest current;
        let current := current + 2 in
        extensionDataLength ← u16_at rest current;
        let current := current + 2 in
        '(hostname, current) ←
          (if extensionType =? 0 then server_name rest current else Ok (hostname, current));
        ext_loop f rest (current + extensionDataLength) hostname
      else Ok hostname
  end.

(** The parser on the record's body [rest] *)
Definition parse_hello (rest : bytes) : outcome bytes :=
  if len rest =? 0 then Fail errMalformed
  else
    handshakeType ← idx rest 0;
    if negb (bool_decide (handshakeType = z2b 1)) then Fail (ErrMsg "SNI: not a ClientHello")
    else
      let current := 1 + 3 + 2 + (4 + 28) in
      if len rest <? current then Fail errMalformed
      else
        sid ← idx rest current;
        let current := current + 1 + b2z sid in
        if len rest <? current + 1 then Fail errMalformed
        else
          cipherSuiteLength ← u16_at rest current;
          let current := current + 2 + cipherSuiteLength in
          if len rest <? current then Fail errMalformed
          else
            cl ← idx rest current;
            let current := current + 1 + b2z cl in
            if len rest <? current then Fail (ErrMsg "SNI: no extensions")
            else
              let current := current + 2 in
              hostname ← ext_loop (S (length rest)) rest current [];
              if bool_decide (hostname = []) then Fail (ErrMsg "SNI: no hostname found")
              else Ok hostname.

Definition getServername : io bufio (bytes * bytes) :=
  b ← Peek 5;
  b0 ← io_lift (idx b 0);
  if negb (bool_decide (b0 = z2b 22)) then io_fail (ErrMsg "SNI: not TLS")
  else
    b1 ← io_lift (idx b 1);
    b2 ← io_lift (idx b 2);
    if (b2z b1 <? 3) || ((b2z b1 =? 3) && (b2z b2 <? 1)) then
      io_fail (ErrMsg "SNI: expected TLS version >= 3.1")
    else
      restLength ← io_lift (u16_at b 3);
      all ← Peek (Z.to_nat (5 + restLength));
      rest ← io_lift (slice_from all 5);
      hostname ← io_lift (parse_hello rest);
      mret (hostname, all).

(** [ServerNameFromConn]: the name, and the connection to read on: the hello
    followed by what the buffered reader left unread. *)
Definition ServerNameFromConn (c : reader) : outcome (bytes * reader) :=
  let '(o, s) := getServername (NewReader c) in
  '(hostname, helloBytes) ← o;
  Ok (hostname, Seg helloBytes :: under s).

Definition ServerNameFromBytes (data : bytes) : outcome bytes :=
  '(hostname, _) ← ServerNameFromConn [Seg data];
  Ok hostname.

(** * Laws of the buffered reader *)

Definition nonempty_seg (e : event) : Prop := e <> Seg [].

(** When enough bytes come, [Peek] returns them, however they were cut. *)
Lemma fill_enough (n : nat) (bs : bytes) (tl : list (byte + error)) (empty : nat) (buf : bytes)
    (r : reader) :
  Forall nonempty_seg r -> (n <= defaultBufSize)%nat -> (length buf <= defaultBufSize)%nat ->
  map inl buf ++ flat r = map inl bs ++ tl -> (n <= length bs)%nat ->
  exists s, fill n empty buf r = (None, s) /\ take n (buffered s) = take n bs /\
    (n <= length (buffered s) <= defaultBufSize)%nat /\ Forall nonempty_seg (under s) /\
    map inl (buffered s) ++ flat (under s) = map inl bs ++ tl.
Proof.
  intros Hr Hn. revert empty buf. induction Hr as [|e r He Hr IH]; intros empty buf Hb Hf Hl.
  all: assert (Htake : forall b q, (n <= length b)%nat -> map inl b ++ q = map inl bs ++ tl ->
    take n b = take n bs) by (intros b q Hlb E; apply (f_equal (take n)) in E;
    rewrite !take_app_le in E by (rewrite length_map; lia); rewrite <- !fmap_take in E;
    by apply (inj _) in E).
  - assert (n <= length buf)%nat.
    { apply (f_equal length) in Hf. rewrite !length_app, !length_map in Hf. cbn in Hf. lia. }
    cbn [fill]. rewrite (proj2 (Nat.leb_le _ _)) by done. cbn [orb].
    eexists. split; [reflexivity|]. cbn [buffered under]. split_and!; [by eapply Htake|done|done|done|done].
  - cbn [fill]. destruct (Nat.leb_spec n (length buf)) as [Hnb|Hnb]; cbn [orb].
    { eexists. split; [reflexivity|]. cbn [buffered under].
      split_and!; [by eapply Htake|done|done|by constructor|done]. }
    rewrite (proj2 (Nat.leb_gt _ _)) by lia.
    destruct e as [[|x b]|er].
    + by destruct He.
    + rewrite flat_cons in Hf. cbn [flat_ev] in Hf.
      destruct (Nat.leb_spec (length (x :: b)) (defaultBufSize - length buf)) as [Hle|Hgt].
      * apply IH; [rewrite length_app; lia| |done]. by rewrite map_app, <- app_assoc.
      * eexists. split; [reflexivity|]. cbn [buffered under].
        assert (E : map inl (buf ++ take (defaultBufSize - length buf) (x :: b)) ++
          flat (Seg (drop (defaultBufSize - length buf) (x :: b)) :: r) = map inl bs ++ tl).
        { rewrite flat_cons. cbn [flat_ev]. rewrite map_app, <- app_assoc.
          rewrite (app_assoc (map inl (take _ _))), <- map_app, take_drop. exact Hf. }
        split_and!; [| | | |exact E].
        -- eapply Htake; [|exact E]. rewrite length_app, length_take. lia.
        -- rewrite length_app, length_take. lia.
        -- rewrite length_app, length_take. lia.
        -- constructor; [|done]. intros [= E'].
           apply (f_equal length) in E'. rewrite length_drop in E'. simpl in *. lia.
    + exfalso. rewrite flat_cons in Hf. cbn [flat_ev app] in Hf.
      apply (f_equal (lookup (length buf))) in Hf.
      rewrite lookup_app_r in Hf by (by rewrite length_map). rewrite length_map, Nat.sub_diag in Hf.
      cbn in Hf. rewrite lookup_app_l in Hf by (rewrite length_map; lia).
      rewrite list_lookup_fmap in Hf. destruct (bs !! _) eqn:E; [done|].
      apply lookup_ge_None in E. lia.
Qed.

Lemma Peek_enough (n : nat) (bs : bytes) (tl : list (byte + error)) (s : bufio) :
  Forall nonempty_seg (under s) -> (n <= defaultBufSize)%nat ->
  (length (buffered s) <= defaultBufSize)%nat ->
  map inl (buffered s) ++ flat (under s) = map inl bs ++ tl -> (n <= length bs)%nat ->
  exists s', Peek n s = (Ok (take n bs), s') /\ Forall nonempty_seg (under s') /\
    (length (buffered s') <= defaultBufSize)%nat /\
    map inl (buffered s') ++ flat (under s') = map inl bs ++ tl.
Proof.
  intros Hr Hn Hb Hf Hl.
  destruct (fill_enough n bs tl 0 (buffered s) (under s) Hr Hn Hb Hf Hl)
    as (s' & E & Ht & Hls & Hr' & Hf').
  exists s'. unfold Peek. rewrite E.
  rewrite (proj2 (Nat.ltb_ge _ _)) by lia. rewrite (proj2 (Nat.ltb_ge _ _)) by lia.
  rewrite Ht. split_and!; [done|done|lia|done].
Qed.

(** * Client hellos *)

Definition u16 (n : Z) : bytes := port_bytes n.

Lemma u16_at_app (p q : bytes) (n i : Z) :
  0 <= n < 65536 -> i = len p -> u16_at (p ++ u16 n ++ q) i = Ok n.
Proof.
  intros Hn ->. unfold u16_at, u16, port_bytes.
  rewrite (idx_app_ok p _ (len p) 0 (z2b (Z.shiftr n 8))) by first [reflexivity|lia].
  rewrite (idx_app_ok p _ (len p + 1) 1 (z2b n)) by first [reflexivity|lia].
  unfold mbind, outcome_bind. rewrite Z.shiftl_mul_pow2 by lia. f_equal.
  rewrite <- (Z.mod_small n 65536) at 3 by done. by rewrite <- port_bytes_be16.
Qed.

(** An extension on the wire *)
Definition ext_bytes (e : Z * bytes) : bytes := u16 e.1 ++ u16 (len e.2) ++ e.2.

Definition ext_ok (e : Z * bytes) : Prop := 0 < e.1 < 65536 /\ len e.2 < 65536.

(** The server name extension for one host name *)
Definition sni_bytes (name : bytes) : bytes :=
  let data := u16 (3 + len name) ++ [zero] ++ u16 (len name) ++ name in
  u16 0 ++ u16 (len data) ++ data.

Record Hello := mkHello {
  h_head : bytes;            (* message length, version, random: 37 bytes *)
  h_sid : bytes;             (* session id *)
  h_ciphers : bytes;
  h_comp : bytes;            (* compression methods *)
  h_extlen : bytes;          (* the two bytes of the extensions length *)
  h_pre : list (Z * bytes);  (* extensions before the server name *)
  h_name : bytes;
  h_post : bytes;            (* whatever follows *)
}.

Record hello_ok (h : Hello) : Prop := {
  ok_head : length (h_head h) = 37%nat;
  ok_sid : len (h_sid h) <= 255;
  ok_ciphers : len (h_ciphers h) < 65536;
  ok_comp : len (h_comp h) <= 255;
  ok_extlen : length (h_extlen h) = 2%nat;
  ok_pre : Forall ext_ok (h_pre h);
  ok_name : h_name h <> [] /\ len (h_name h) < 65000;
}.

Definition hello_body (h : Hello) : bytes :=
  ([z2b 1] ++ h_head h) ++ ([z2b (len (h_sid h))] ++ h_sid h)
    ++ (u16 (len (h_ciphers h)) ++ h_ciphers h) ++ ([z2b (len (h_comp h))] ++ h_comp h)
    ++ h_extlen h ++ concat (map ext_bytes (h_pre h)) ++ sni_bytes (h_name h) ++ h_post h.

(** The TLS record of a body *)
Definition record (v1 v2 : byte) (body : bytes) : bytes :=
  [z2b 22; v1; v2] ++ u16 (len body) ++ body.

Lemma length_u16 (n : Z) : length (u16 n) = 2%nat.
Proof. done. Qed.

Lemma ext_loop_step (f : nat) (p q : bytes) (e : Z * bytes) (i : Z) :
  ext_ok e -> 0 < len q -> i = len p ->
  ext_loop (S f) (p ++ ext_bytes e ++ q) i [] =
    ext_loop f (p ++ ext_bytes e ++ q) (i + len (ext_bytes e)) [].
Proof.
  intros [Ht Hd] Hq ->. cbn [ext_loop]. destruct e as [t d]. unfold ext_bytes. cbn [fst snd] in *.
  set (rest := p ++ _). assert (Hl : len rest = len p + 4 + len d + len q).
  { unfold rest. rewrite !length_app, !length_u16. lia. }
  rewrite (proj2 (Z.ltb_lt (len p + 4) (len rest))) by lia. rewrite bool_decide_true by done. cbn [andb].
  assert (E1 : u16_at rest (len p) = Ok t).
  { unfold rest. rewrite <- app_assoc. apply u16_at_app; lia. }
  assert (E2 : u16_at rest (len p + 2) = Ok (len d)).
  { unfold rest. rewrite <- !app_assoc, (app_assoc p). apply u16_at_app; [lia|].
    rewrite length_app, length_u16. lia. }
  rewrite E1. unfold mbind, outcome_bind. cbv zeta. rewrite E2. zdecide.
  f_equal. rewrite !length_app, !length_u16. lia.
Qed.

Lemma ext_loop_sni (f : nat) (p q name : bytes) (i : Z) :
  name <> [] -> len name < 65000 -> i = len p ->
  ext_loop (S (S f)) (p ++ sni_bytes name ++ q) i [] = Ok name.
Proof.
  intros Hne Hl ->. assert (Hpos : 0 < len name) by (destruct name; [done|simpl; lia]).
  unfold sni_bytes. set (rest := p ++ _).
  assert (Hlen : len rest = len p + 9 + len name + len q).
  { unfold rest. rewrite !length_app, !length_u16. simpl. lia. }
  assert (E1 : u16_at rest (len p) = Ok 0) by (unfold rest; rewrite <- app_assoc; apply u16_at_app; lia).
  assert (E2 : u16_at rest (len p + 2) = Ok (5 + len name)).
  { unfold rest. rewrite <- !app_assoc, (app_assoc p).
    replace (len (u16 (3 + len name) ++ _)) with (5 + len name)
      by (rewrite !length_app, !length_u16; simpl; lia).
    apply u16_at_app; [lia|]. rewrite length_app, length_u16. lia. }
  assert (Hr : rest = (p ++ u16 0 ++ u16 (5 + len name) ++ u16 (3 + len name)) ++
    [zero] ++ u16 (len name) ++ name ++ q).
  { unfold rest. rewrite <- !app_assoc. do 3 f_equal.
    rewrite !length_app, !length_u16. simpl. f_equal. lia. }
  assert (Hp6 : len (p ++ u16 0 ++ u16 (5 + len name) ++ u16 (3 + len name)) = len p + 6)
    by (rewrite !length_app, !length_u16; lia).
  assert (E3 : server_name rest (len p + 4) = Ok (name, len p + 9)).
  { unfold server_name. cbv zeta. rewrite (proj2 (Z.ltb_ge (len rest) _)) by lia.
    assert (idx rest (len p + 4 + 2) = Ok zero) as ->.
    { rewrite Hr. apply idx_app_mid. lia. }
    unfold mbind, outcome_bind. rewrite bool_decide_true by done. cbn [negb].
    rewrite (proj2 (Z.ltb_ge (len rest) _)) by lia.
    assert (u16_at rest (len p + 4 + 2 + 1) = Ok (len name)) as ->.
    { rewrite Hr, app_assoc. apply u16_at_app; [lia|].
      rewrite !length_app, !length_u16. simpl. lia. }
    rewrite (proj2 (Z.ltb_ge (len rest) _)) by lia.
    assert (slice rest (len p + 4 + 2 + 1 + 2) (len p + 4 + 2 + 1 + 2 + len name) = Ok name) as ->.
    { rewrite Hr, !app_assoc, <- (app_assoc _ name).
      apply slice_app_mid; rewrite !length_app, !length_u16; simpl; lia. }
    do 2 f_equal. lia. }
  cbn [ext_loop]. rewrite (proj2 (Z.ltb_lt (len p + 4) (len rest))) by lia.
  rewrite bool_decide_true by done. cbn [andb]. rewrite E1. unfold mbind, outcome_bind. cbv zeta.
  rewrite E2. cbn [Z.eqb]. replace (len p + 2 + 2) with (len p + 4) by lia. rewrite E3.
  rewrite bool_decide_false by done. by rewrite andb_false_r.
Qed.

Lemma ext_loop_pre (pre : list (Z * bytes)) (f : nat) (p q name : bytes) (i : Z) :
  Forall ext_ok pre -> name <> [] -> len name < 65000 -> i = len p ->
  ext_loop (length pre + S (S f)) (p ++ concat (map ext_bytes pre) ++ sni_bytes name ++ q) i [] =
    Ok name.
Proof.
  intros Hpre Hne Hl. revert p i. induction Hpre as [|e pre He Hpre IH]; intros p i ->; cbn [map concat length].
  - by apply ext_loop_sni.
  - rewrite <- (app_assoc (ext_bytes e)). cbn [Nat.add]. rewrite ext_loop_step; [|done| |done].
    2: { unfold sni_bytes. rewrite !length_app, !length_u16. lia. }
    rewrite (app_assoc p). apply IH. rewrite length_app. lia.
Qed.

Lemma length_exts (pre : list (Z * bytes)) : (length pre <= length (concat (map ext_bytes pre)))%nat.
Proof.
  induction pre as [|e pre IH]; [done|]. cbn [map concat length]. unfold ext_bytes at 1.
  rewrite !length_app, !length_u16. lia.
Qed.

(** The parser finds the name of a well-formed hello. *)
Lemma parse_hello_name (h : Hello) : hello_ok h -> parse_hello (hello_body h) = Ok (h_name h).
Proof.
  intros [H1 H2 H3 H4 H5 H6 [H7 H8]]. unfold hello_body.
  set (e := concat (map ext_bytes (h_pre h)) ++ sni_bytes (h_name h) ++ h_post h).
  set (p1 := [z2b 1] ++ h_head h). assert (L1 : len p1 = 38) by (unfold p1; rewrite length_app, H1; done).
  set (rest := p1 ++ _).
  assert (Hlen : len rest = 44 + len (h_sid h) + len (h_ciphers h) + len (h_comp h) + len e).
  { unfold rest, p1. rewrite !length_app, H1, H5, length_u16. simpl. lia. }
  assert (He : 9 <= len e).
  { unfold e, sni_bytes. rewrite !length_app, !length_u16. simpl. lia. }
  unfold parse_hello. rewrite (proj2 (Z.eqb_neq (len rest) 0)) by lia.
  change (idx rest 0) with (Ok (z2b 1)). unfold mbind, outcome_bind.
  rewrite bool_decide_true by done. cbn [negb]. cbv zeta. change (1 + 3 + 2 + (4 + 28)) with 38.
  rewrite (proj2 (Z.ltb_ge (len rest) 38)) by lia.
  assert (idx rest 38 = Ok (z2b (len (h_sid h)))) as ->.
  { unfold rest. rewrite <- (app_assoc [_]). by apply idx_app_mid. }
  rewrite b2z_z2b_small by lia.
  rewrite (proj2 (Z.ltb_ge (len rest) _)) by lia.
  assert (u16_at rest (38 + 1 + len (h_sid h)) = Ok (len (h_ciphers h))) as ->.
  { unfold rest. rewrite (app_assoc p1), <- (app_assoc (u16 _)).
    apply u16_at_app; [lia|]. rewrite !length_app. simpl. lia. }
  rewrite (proj2 (Z.ltb_ge (len rest) _)) by lia.
  assert (idx rest (38 + 1 + len (h_sid h) + 2 + len (h_ciphers h)) = Ok (z2b (len (h_comp h)))) as ->.
  { unfold rest. rewrite (app_assoc p1), (app_assoc (p1 ++ _)), <- (app_assoc [_] (h_comp h)).
    apply idx_app_mid. rewrite !length_app, length_u16. simpl. lia. }
  rewrite b2z_z2b_small by lia. rewrite (proj2 (Z.ltb_ge (len rest) _)) by lia.
  assert (ext_loop (S (length rest)) rest
    (38 + 1 + len (h_sid h) + 2 + len (h_ciphers h) + 1 + len (h_comp h) + 2) [] = Ok (h_name h)) as ->.
  2: { by rewrite bool_decide_false. }
  assert (exists k, S (length rest) = (length (h_pre h) + S (S k))%nat) as [k ->].
  { exists (S (length rest) - length (h_pre h) - 2)%nat.
    pose proof (length_exts (h_pre h)). unfold e in Hlen. rewrite length_app in Hlen. lia. }
  unfold rest, e. rewrite (app_assoc p1), (app_assoc (p1 ++ _)), (app_assoc ((p1 ++ _) ++ _)),
    (app_assoc (((p1 ++ _) ++ _) ++ _)).
  apply ext_loop_pre; [done|done|done|]. rewrite !length_app, length_u16, H5. simpl. lia.
Qed.

(** Reading one segment that holds [rec] and more, or having read it *)
Lemma Peek_one (n : nat) (rec extra : bytes) (r : reader) (s : bufio) :
  (0 < n <= length rec)%nat -> len rec + len extra <= 4096 ->
  s = NewReader (Seg (rec ++ extra) :: r) \/ s = mkBufio (rec ++ extra) r ->
  Peek n s = (Ok (take n rec), mkBufio (rec ++ extra) r).
Proof.
  intros Hn Hl Hs. assert (HL := length_app rec extra).
  assert (Hfin : forall e, fill n e (rec ++ extra) r = (None, mkBufio (rec ++ extra) r)).
  { intros e. destruct r; cbn [fill]; rewrite (proj2 (Nat.leb_le n _)) by lia; done. }
  assert (E : fill n 0 (buffered s) (under s) = (None, mkBufio (rec ++ extra) r)).
  { destruct Hs as [-> | ->]; [|apply Hfin]. cbn [NewReader buffered under fill].
    rewrite (proj2 (Nat.leb_gt n _)) by (simpl; lia).
    rewrite (proj2 (Nat.leb_gt defaultBufSize _)) by (unfold defaultBufSize; simpl; lia). cbn [orb].
    destruct (rec ++ extra) as [|x b] eqn:Eb; [simpl in HL; lia|].
    rewrite (proj2 (Nat.leb_le _ _)) by (unfold defaultBufSize; simpl in *; lia). apply Hfin. }
  unfold Peek. rewrite E. cbn [buffered].
  rewrite (proj2 (Nat.ltb_ge _ _)) by (unfold defaultBufSize; lia).
  rewrite (proj2 (Nat.ltb_ge _ _)) by lia. by rewrite take_app_le by lia.
Qed.

(** [getServername] from its two peeks *)
Lemma getServername_peeks (h : Hello) (v1 v2 : byte) (s s1 s2 : bufio) :
  let rec := record v1 v2 (hello_body h) in
  hello_ok h -> (b2z v1 = 3 /\ 1 <= b2z v2) \/ 3 < b2z v1 -> len rec <= 4096 ->
  Peek 5 s = (Ok (take 5 rec), s1) -> Peek (length rec) s1 = (Ok rec, s2) ->
  getServername s = (Ok (h_name h, rec), s2).
Proof.
  intros rec Hh Hv Hlen E1 E2. set (body := hello_body h) in *.
  assert (Hlr : len rec = 5 + len body) by (unfold rec, record; rewrite !length_app, length_u16; simpl; lia).
  unfold getServername. erewrite bind_ok by exact E1.
  change (take 5 rec) with ([z2b 22; v1; v2] ++ u16 (len body) ++ []).
  erewrite bind_lift by reflexivity. rewrite bool_decide_true by done. cbn [negb].
  do 2 (erewrite bind_lift by reflexivity).
  assert ((b2z v1 <? 3) || (b2z v1 =? 3) && (b2z v2 <? 1) = false) as ->.
  { destruct Hv as [[Ha Hb]|Ha]; zdecide; by rewrite ?andb_false_r. }
  erewrite bind_lift by (apply u16_at_app; [lia|reflexivity]).
  erewrite bind_ok.
  2: { replace (Z.to_nat (5 + len body)) with (length rec) by lia. exact E2. }
  erewrite bind_lift.
  2: { unfold rec, record. rewrite app_assoc. by apply slice_from_app. }
  by erewrite bind_lift by (by apply parse_hello_name).
Qed.

(** * Properties *)

(** C28: the name is found.  When a connection delivers a TLS record holding a
    well-formed client hello of at most 4096 bytes, cut into non-empty segments
    in any way, then the host name of its server name extension is returned
    together with a connection on which the whole record comes first, whatever
    follows the record on the wire. *)
Theorem ServerNameFromConn_finds (h : Hello) (v1 v2 : byte) (r : reader) (tl : list (byte + error)) :
  hello_ok h -> (b2z v1 = 3 /\ 1 <= b2z v2) \/ 3 < b2z v1 ->
  len (record v1 v2 (hello_body h)) <= 4096 ->
  Forall nonempty_seg r -> flat r = map inl (record v1 v2 (hello_body h)) ++ tl ->
  exists rest, ServerNameFromConn r = Ok (h_name h, Seg (record v1 v2 (hello_body h)) :: rest).
Proof.
  intros Hh Hv Hlen Hr Hf. set (body := hello_body h) in *. set (rec := record v1 v2 body) in *.
  assert (Hlr : len rec = 5 + len body) by (unfold rec, record; rewrite !length_app, length_u16; simpl; lia).
  destruct (Peek_enough 5 rec tl (NewReader r)) as (s1 & E1 & R1 & B1 & F1);
    [done|unfold defaultBufSize; lia|simpl; lia|exact Hf|lia|].
  destruct (Peek_enough (Z.to_nat (5 + len body)) rec tl s1 R1) as (s2 & E2 & R2 & B2 & F2);
    [unfold defaultBufSize; lia|done|done|lia|].
  rewrite take_ge in E2 by lia.
  pose proof (getServername_peeks h v1 v2 (NewReader r) s1 s2 Hh Hv Hlen E1) as Hg.
  replace (Z.to_nat (5 + len body)) with (length rec) in E2 by lia.
  specialize (Hg E2).
  exists (under s2). unfold ServerNameFromConn. by rewrite Hg.
Qed.

Definition sample_hello : Hello :=
  mkHello (repeat zero 37) [] (lit "ab") [zero] (u16 30) [(10, lit "xy")] (lit "example.com") [].

Lemma ServerNameFromConn_finds_witness :
  exists rest, ServerNameFromConn
      [Seg (take 7 (record (z2b 3) (z2b 1) (hello_body sample_hello)));
       Seg (drop 7 (record (z2b 3) (z2b 1) (hello_body sample_hello)) ++ lit "more")] =
    Ok (lit "example.com", Seg (record (z2b 3) (z2b 1) (hello_body sample_hello)) :: rest).
Proof.
  apply (ServerNameFromConn_finds sample_hello (z2b 3) (z2b 1) _ (map inl (lit "more"))).
  - split; try (simpl; lia); try reflexivity; [|split; [discriminate|simpl; lia]].
    repeat constructor; simpl; lia.
  - left. vm_compute. split; [reflexivity|discriminate].
  - vm_compute. discriminate.
  - repeat constructor; vm_compute; discriminate.
  - vm_compute. reflexivity.
Defined.

(** What was buffered beyond the hello is lost.  When bytes that follow the
    record arrive in the same segment, the returned connection delivers the
    record and then only later segments: the bytes in between are gone.  (The
    documentation promises a connection that has not been read off of.) *)
Theorem ServerNameFromConn_drops (h : Hello) (v1 v2 : byte) (extra : bytes) (r : reader) :
  hello_ok h -> (b2z v1 = 3 /\ 1 <= b2z v2) \/ 3 < b2z v1 ->
  let rec := record v1 v2 (hello_body h) in
  len rec + len extra <= 4096 ->
  ServerNameFromConn (Seg (rec ++ extra) :: r) = Ok (h_name h, Seg rec :: r).
Proof.
  intros Hh Hv rec Hlen. set (body := hello_body h) in *.
  assert (Hlr : len rec = 5 + len body) by (unfold rec, record; rewrite !length_app, length_u16; simpl; lia).
  unfold ServerNameFromConn.
  erewrite (getServername_peeks h v1 v2 _ (mkBufio (rec ++ extra) r) (mkBufio (rec ++ extra) r)); try done; fold body rec.
  - lia.
  - apply Peek_one; [lia|done|by left].
  - rewrite (Peek_one _ rec extra r) by (first [lia|by right|done]). by rewrite take_ge.
Qed.

Lemma ServerNameFromConn_drops_witness :
  ServerNameFromConn
    [Seg (record (z2b 3) (z2b 1) (hello_body sample_hello) ++ lit "early data")] =
  Ok (lit "example.com", [Seg (record (z2b 3) (z2b 1) (hello_body sample_hello))]).
Proof.
  apply (ServerNameFromConn_drops sample_hello (z2b 3) (z2b 1) (lit "early data") []).
  - split; try (simpl; lia); try reflexivity; [|split; [discriminate|simpl; lia]].
    repeat constructor; simpl; lia.
  - left. vm_compute. split; [reflexivity|discriminate].
  - vm_compute. discriminate.
Defined.

(** Truncated hellos panic.  The length checks allow the index that comes
    right after the end: every client hello body that ends exactly where the
    session id length, or the compression length, should be makes the parser
    panic instead of reporting a malformed hello. *)
Theorem parse_hello_panics (head sid : bytes) :
  length head = 37%nat -> len sid <= 255 ->
  parse_hello ([z2b 1] ++ head) = Panic /\
  parse_hello ([z2b 1] ++ head ++ [z2b (len sid)] ++ sid ++ [zero]) = Panic /\
  parse_hello ([z2b 1] ++ head ++ [z2b (len sid)] ++ sid ++ u16 0) = Panic.
Proof.
  intros Hh Hs.
  assert (Hgen : forall t, 0 < len t -> t !! 0%nat = Some (z2b (len sid)) ->
    parse_hello ([z2b 1] ++ head ++ t) =
      let rest := [z2b 1] ++ head ++ t in
      if len rest <? 39 + len sid + 1 then Fail errMalformed
      else
        cipherSuiteLength ← u16_at rest (39 + len sid);
        let current := 39 + len sid + 2 + cipherSuiteLength in
        if len rest <? current then Fail errMalformed
        else
          cl ← idx rest current;
          let current := current + 1 + b2z cl in
          if len rest <? current then Fail (ErrMsg "SNI: no extensions")
          else
            let current := current + 2 in
            hostname ← ext_loop (S (length rest)) rest current [];
            if bool_decide (hostname = []) then Fail (ErrMsg "SNI: no hostname found")
            else Ok hostname).
  { intros t Ht H0. unfold parse_hello. set (rest := [z2b 1] ++ head ++ t).
    assert (Hl : len rest = 38 + len t) by (unfold rest; rewrite !length_app, Hh; simpl; lia).
    rewrite (proj2 (Z.eqb_neq (len rest) 0)) by lia. change (idx rest 0) with (Ok (z2b 1)).
    unfold mbind at 1, outcome_bind at 1. rewrite bool_decide_true by done. cbn [negb]. cbv zeta.
    change (1 + 3 + 2 + (4 + 28)) with 38. rewrite (proj2 (Z.ltb_ge (len rest) 38)) by lia.
    assert (idx rest 38 = Ok (z2b (len sid))) as ->.
    { destruct t as [|x t]; [done|]. injection H0 as ->. unfold rest. rewrite app_assoc.
      apply idx_app_mid. rewrite length_app, Hh. done. }
    unfold mbind at 1, outcome_bind at 1. rewrite b2z_z2b_small by lia. done. }
  split_and!.
  - unfold parse_hello. rewrite (proj2 (Z.eqb_neq _ 0)) by (simpl; lia).
    change (idx ([z2b 1] ++ head) 0) with (Ok (z2b 1)).
    unfold mbind, outcome_bind. rewrite bool_decide_true by done. cbn [negb]. cbv zeta.
    rewrite (proj2 (Z.ltb_ge _ _)) by (rewrite length_app, Hh; simpl; lia).
    rewrite idx_panic by (rewrite length_app, Hh; simpl; lia). done.
  - rewrite (Hgen ([z2b (len sid)] ++ sid ++ [zero])) by (rewrite ?length_app; simpl; done || lia).
    cbv zeta. set (rest := [z2b 1] ++ _).
    assert (Hl : len rest = 40 + len sid) by (unfold rest; rewrite !length_app, Hh; simpl; lia).
    rewrite (proj2 (Z.ltb_ge _ _)) by lia.
    assert (u16_at rest (39 + len sid) = Panic) as ->; [|done].
    unfold u16_at. rewrite (idx_panic rest (39 + len sid + 1)) by lia.
    by destruct (idx_total rest (39 + len sid)) as [x ->]; [lia|].
  - rewrite (Hgen ([z2b (len sid)] ++ sid ++ u16 0)) by (rewrite ?length_app; simpl; done || lia).
    cbv zeta. set (rest := [z2b 1] ++ _).
    assert (Hl : len rest = 41 + len sid) by (unfold rest; rewrite !length_app, Hh; simpl; lia).
    rewrite (proj2 (Z.ltb_ge (len rest) (39 + len sid + 1))) by lia.
    assert (u16_at rest (39 + len sid) = Ok 0) as ->.
    { unfold rest. rewrite !app_assoc, <- (app_nil_r (u16 0)). apply u16_at_app; [lia|].
      rewrite !length_app, Hh. simpl. lia. }
    unfold mbind, outcome_bind. rewrite (proj2 (Z.ltb_ge (len rest) _)) by lia.
    by rewrite idx_panic by lia.
Qed.

Lemma parse_hello_panics_witness :
  parse_hello ([z2b 1] ++ repeat zero 37) = Panic /\
  parse_hello ([z2b 1] ++ repeat zero 37 ++ [z2b 0] ++ [] ++ [zero]) = Panic /\
  parse_hello ([z2b 1] ++ repeat zero 37 ++ [z2b 0] ++ [] ++ u16 0) = Panic.
Proof. apply (parse_hello_panics (repeat zero 37) []); [reflexivity|simpl; lia]. Defined.
