(* ===== verification/Enet.v ===== *)
(** pkg/enet: recognising protocols by their first bytes, and the proxy headers
    of an HTTP request.  ([WrapTimeout] and its variants only set deadlines.) *)
From S2P Require Import Prelude GoStrings GoNet GoIO.
Open Scope Z_scope.

Definition CRLF : bytes := [z2b 13; z2b 10].

Definition httpMethod : list bytes :=
  map lit ["GET"; "HEAD"; "POST"; "PUT"; "DELETE"; "CONNECT"; "OPTIONS"; "TRACE"; "PATCH";
           "get"; "head"; "post"; "put"; "delete"; "connect"; "options"; "trace"; "patch"]%string.

(** The loop of [IsHTTP] over the methods *)
Fixpoint is_http_go (methods : list bytes) (head : bytes) : bool :=
  match methods with
  | [] => false
  | method :: t =>
      if (len method <=? len head) && bool_decide (take (length method) head = method) then true
      else is_http_go t head
  end.

Definition IsHTTP (head : bytes) : bool := is_http_go httpMethod head.

Definition IsSocks5 (head : bytes) : bool :=
  match head with
  | b0 :: b1 :: _ :: _ =>
      bool_decide (b0 = z2b 5) && (0 <? b2z b1) && (b2z b1 <? 255) && (len head =? 2 + b2z b1)
  | _ => false
  end.

Definition InsertProxyHeaders (head headers : bytes) : bytes :=
  Replace1 head CRLF (CRLF ++ headers).

(** The loop of [RemoveProxyHeaders]: [i] is the number of the line, [keys] the
    header names seen, the result the lines kept from here on. *)
Fixpoint remove_go (head : bytes) (i : nat) (keys : gset bytes) (IsBody : bool)
    (lines : list bytes) : list bytes :=
  match lines with
  | [] => []
  | line :: t =>
      if bool_decide (line = []) || IsBody then line :: remove_go head (S i) keys true t
      else
        let hline := SplitN2 line (lit ":") in
        if Nat.eqb i 0 && IsHTTP head then line :: remove_go head (S i) keys IsBody t
        else
          match hline with
          | [h0; _] =>
              let k := ToUpper h0 in
              if bool_decide (k ∈ keys) || HasPrefix k (lit "PROXY-") then
                remove_go head (S i) keys IsBody t
              else line :: remove_go head (S i) ({[k]} ∪ keys) IsBody t
          | _ => remove_go head (S i) keys IsBody t
          end
  end.

Definition RemoveProxyHeaders (head : bytes) : bytes :=
  Join (remove_go head 0 ∅ false (Split head CRLF)) CRLF.

(** * Laws of lines *)

(** A text without CRLF *)
Definition line_free (p : bytes) : Prop := cut CRLF p = None.

Lemma cut_CRLF (p q : bytes) : line_free p -> cut CRLF (p ++ CRLF ++ q) = Some (p, q).
Proof.
  unfold line_free. induction p as [|c p IH]; intros H; [done|].
  cbn [cut] in H. destruct (HasPrefix (c :: p) CRLF) eqn:E; [done|].
  destruct (cut CRLF p) as [[a b]|] eqn:Ec; [done|].
  change ((c :: p) ++ CRLF ++ q) with (c :: p ++ CRLF ++ q). cbn [cut].
  assert (HasPrefix (c :: p ++ CRLF ++ q) CRLF = false) as ->.
  { destruct p as [|d p]; [|exact E]. cbn [app HasPrefix CRLF].
    rewrite (bool_decide_false (z2b 10 = z2b 13)) by done. apply andb_false_r. }
  by rewrite IH.
Qed.

Lemma cut_length (sep s a b : bytes) :
  cut sep s = Some (a, b) -> sep <> [] -> (length b < length s)%nat.
Proof.
  intros H Hs. apply cut_Some in H as ->. rewrite !length_app. destruct sep; [done|simpl; lia].
Qed.

Lemma split_go_fuel (sep : bytes) (f g : nat) (s : bytes) :
  sep <> [] -> (length s <= f)%nat -> (length s <= g)%nat -> split_go f sep s = split_go g sep s.
Proof.
  intros Hs. revert g s. induction f as [|f IH]; intros g s Hf Hg.
  { destruct s; [|simpl in Hf; lia]. destruct g; [done|]. cbn [split_go].
    destruct (cut sep []) as [[a b]|] eqn:E; [|done].
    apply cut_length in E; [simpl in E; lia|done]. }
  destruct g as [|g].
  { destruct s; [|simpl in Hg; lia]. cbn [split_go].
    destruct (cut sep []) as [[a b]|] eqn:E; [|done].
    apply cut_length in E; [simpl in E; lia|done]. }
  cbn [split_go]. destruct (cut sep s) as [[a b]|] eqn:E; [|done].
  apply cut_length in E; [|done]. f_equal. apply IH; lia.
Qed.

Lemma Split_line (p q : bytes) : line_free p -> Split (p ++ CRLF ++ q) CRLF = p :: Split q CRLF.
Proof.
  intros H. unfold Split. assert (E := length_app p (CRLF ++ q)). rewrite (length_app CRLF q) in E.
  destruct (length (p ++ CRLF ++ q)) as [|n] eqn:En; [simpl in E; lia|].
  cbn [split_go]. rewrite cut_CRLF by done. f_equal.
  apply split_go_fuel; [done|simpl in E; lia|done].
Qed.

(** * Requests *)

(** A request: first line, header lines, empty line, body *)
Definition request (l0 : bytes) (hs : list bytes) (body : bytes) : bytes :=
  Join (l0 :: hs) CRLF ++ CRLF ++ CRLF ++ body.

Definition header_ok (h : bytes) : Prop := h <> [] /\ line_free h.

Lemma Split_lines (ls : list bytes) (q : bytes) :
  ls <> [] -> Forall line_free ls ->
  Split (Join ls CRLF ++ CRLF ++ q) CRLF = ls ++ Split q CRLF.
Proof.
  intros Hne Hf. induction Hf as [|l ls Hl Hf IH]; [done|].
  destruct ls as [|m ls]; [by apply Split_line|].
  change (Join (l :: m :: ls) CRLF) with (l ++ CRLF ++ Join (m :: ls) CRLF).
  rewrite <- !app_assoc, Split_line by done. cbn [app]. f_equal. by apply IH.
Qed.

Lemma Split_request (l0 : bytes) (hs : list bytes) (body : bytes) :
  header_ok l0 -> Forall header_ok hs ->
  Split (request l0 hs body) CRLF = (l0 :: hs) ++ [] :: Split body CRLF.
Proof.
  intros [_ H0] Hs. unfold request. rewrite Split_lines; [|done|].
  - f_equal. by apply (Split_line []).
  - constructor; [done|]. eapply Forall_impl; [done|]. by intros h [].
Qed.

(** The name of a header line, in upper case *)
Definition header_name (h : bytes) : option bytes :=
  match SplitN2 h (lit ":") with [n; _] => Some (ToUpper n) | _ => None end.

Definition proxy_name (k : bytes) : bool := HasPrefix k (lit "PROXY-").

(** The headers that stay: named, no proxy header, the first of its name *)
Fixpoint keep (seen : gset bytes) (hs : list bytes) : list bytes :=
  match hs with
  | [] => []
  | h :: t =>
      match header_name h with
      | Some k => if bool_decide (k ∈ seen) || proxy_name k then keep seen t
                  else h :: keep ({[k]} ∪ seen) t
      | None => keep seen t
      end
  end.

Lemma remove_body (head : bytes) (i : nat) (keys : gset bytes) (lines : list bytes) :
  remove_go head i keys true lines = lines.
Proof.
  revert i. induction lines as [|l lines IH]; intros i; [done|]. cbn [remove_go].
  rewrite orb_true_r. f_equal. apply IH.
Qed.

Lemma remove_headers (head : bytes) (i : nat) (keys : gset bytes) (hs rest : list bytes) :
  Forall (fun h => h <> []) hs -> (0 < i)%nat ->
  remove_go head i keys false (hs ++ [] :: rest) = keep keys hs ++ [] :: rest.
Proof.
  intros Hs. revert i keys. induction Hs as [|h hs Hh Hs IH]; intros i keys Hi; cbn [app remove_go keep].
  { rewrite bool_decide_true by done. cbn [orb]. by rewrite remove_body. }
  rewrite bool_decide_false by done. cbn [orb].
  rewrite (proj2 (Nat.eqb_neq i 0)) by lia. cbn [andb]. unfold header_name, proxy_name.
  destruct (SplitN2 h (lit ":")) as [|n [|v [|? ?]]]; [apply IH; lia|apply IH; lia| |apply IH; lia].
  destruct (bool_decide _ || _); [apply IH; lia|]. cbn [app]. f_equal. apply IH. lia.
Qed.

Lemma is_http_app (ms : list bytes) (l q : bytes) :
  is_http_go ms l = true -> is_http_go ms (l ++ q) = true.
Proof.
  induction ms as [|m ms IH]; [done|]. cbn [is_http_go].
  destruct ((len m <=? len l) && bool_decide (take (length m) l = m)) eqn:E.
  - intros _. zify_bool. apply bool_decide_eq_true in H0.
    rewrite length_app. rewrite (proj2 (Z.leb_le _ _)) by lia.
    rewrite take_app_le by lia. by rewrite bool_decide_true.
  - intros H. case_match; [done|]. by apply IH.
Qed.

Lemma Join_request (l0 : bytes) (hs : list bytes) (body : bytes) :
  Join ((l0 :: hs) ++ [] :: Split body CRLF) CRLF = request l0 hs body.
Proof.
  unfold request. revert l0. induction hs as [|h hs IH]; intros l0.
  - cbn [app Join]. destruct (Split body CRLF) as [|b bs] eqn:E; [by destruct (Split_nonempty body CRLF)|].
    rewrite <- E, Join_Split. done.
  - change (Join ((l0 :: h :: hs) ++ [] :: Split body CRLF) CRLF)
      with (l0 ++ CRLF ++ Join ((h :: hs) ++ [] :: Split body CRLF) CRLF).
    rewrite IH. change (Join (l0 :: h :: hs) CRLF) with (l0 ++ CRLF ++ Join (h :: hs) CRLF).
    by rewrite <- !app_assoc.
Qed.

(** What [RemoveProxyHeaders] does to a request *)
Lemma RemoveProxyHeaders_request (l0 : bytes) (hs : list bytes) (body : bytes) :
  header_ok l0 -> IsHTTP l0 = true -> Forall header_ok hs ->
  RemoveProxyHeaders (request l0 hs body) = request l0 (keep ∅ hs) body.
Proof.
  intros H0 Hh Hs. unfold RemoveProxyHeaders. rewrite Split_request by done.
  cbn [app remove_go]. destruct H0 as [H0 _]. rewrite bool_decide_false by done. cbn [orb Nat.eqb].
  assert (IsHTTP (request l0 hs body) = true) as ->.
  { unfold request. destruct hs; cbn [Join]; rewrite <- ?app_assoc; by apply is_http_app. }
  cbn [andb]. rewrite remove_headers; [by rewrite <- Join_request|..|lia].
  eapply Forall_impl; [done|]. by intros h [].
Qed.

Lemma keep_spec (seen : gset bytes) (hs : list bytes) :
  sublist (keep seen hs) hs /\
  Forall (fun h => exists k, header_name h = Some k /\ k ∉ seen /\ proxy_name k = false) (keep seen hs) /\
  NoDup (omap header_name (keep seen hs)) /\
  (forall h k, h ∈ hs -> header_name h = Some k -> proxy_name k = false -> k ∉ seen ->
     exists h', h' ∈ keep seen hs /\ header_name h' = Some k) /\
  keep seen (keep seen hs) = keep seen hs.
Proof.
  revert seen. induction hs as [|h hs IH]; intros seen; cbn [keep].
  { split_and!; [constructor|constructor|constructor| |done]. by intros h k ?%elem_of_nil. }
  destruct (header_name h) as [k|] eqn:Ek.
  2: { destruct (IH seen) as (A & B & C & D & F). split_and!; [by constructor|done|done| |done].
       intros h' k' [->|Hin]%elem_of_cons Hk'; [congruence|by eapply D]. }
  destruct (bool_decide (k ∈ seen) || proxy_name k) eqn:E.
  - destruct (IH seen) as (A & B & C & D & F). split_and!; [by constructor|done|done| |done].
    intros h' k' [->|Hin]%elem_of_cons Hk' Hp Hn; [|by eapply D].
    rewrite Ek in Hk'. injection Hk' as ->. rewrite Hp, orb_false_r in E.
    by apply bool_decide_eq_true in E.
  - apply orb_false_iff in E as [E1 E2]. apply bool_decide_eq_false in E1.
    destruct (IH ({[k]} ∪ seen)) as (A & B & C & D & F). split_and!.
    + by constructor.
    + constructor; [by exists k|]. eapply Forall_impl; [exact B|].
      intros h' (k' & ? & ? & ?). exists k'. split_and!; [done|set_solver|done].
    + cbn. rewrite Ek. constructor; [|exact C]. intros (h' & Hin & Hk')%list_elem_of_omap.
      apply (proj1 (Forall_forall _ _) B) in Hin as (k' & ? & Hk & _). simplify_eq. set_solver.
    + intros h' k' [->|Hin]%elem_of_cons Hk' Hp Hn.
      * rewrite Ek in Hk'. injection Hk' as ->. exists h. split; [by left|done].
      * destruct (decide (k' = k)) as [->|Hne]; [exists h; split; [by left|done]|].
        destruct (D h' k' Hin Hk' Hp) as (h2 & ? & ?); [set_solver|].
        exists h2. split; [by right|done].
    + cbn [keep]. rewrite Ek, bool_decide_false, E2 by done. cbn [orb]. by rewrite F.
Qed.

(** * Properties *)

(** C29: proxy headers are removed, and nothing else of a request but repeated
    and malformed headers.  For a request of a known method: the first line, the
    empty line and the body are unchanged; the remaining header lines are a
    sublist of the old ones, none of them is named "Proxy-...", no two have the
    same name up to case, every other name that was present still is; and a
    second removal changes nothing. *)
Theorem RemoveProxyHeaders_spec (l0 : bytes) (hs : list bytes) (body : bytes) :
  header_ok l0 -> IsHTTP l0 = true -> Forall header_ok hs ->
  exists hs',
    RemoveProxyHeaders (request l0 hs body) = request l0 hs' body /\
    sublist hs' hs /\
    Forall (fun h => exists k, header_name h = Some k /\ proxy_name k = false) hs' /\
    NoDup (omap header_name hs') /\
    (forall h k, h ∈ hs -> header_name h = Some k -> proxy_name k = false ->
       exists h', h' ∈ hs' /\ header_name h' = Some k) /\
    RemoveProxyHeaders (request l0 hs' body) = request l0 hs' body.
Proof.
  intros H0 Hh Hs. exists (keep ∅ hs).
  destruct (keep_spec ∅ hs) as (A & B & C & D & F).
  split_and!; [by apply RemoveProxyHeaders_request|done| |done| |].
  - eapply Forall_impl; [exact B|]. intros h (k & ? & _ & ?). by exists k.
  - intros h k Hin Hk Hp. apply (D h k Hin Hk Hp). set_solver.
  - rewrite RemoveProxyHeaders_request; [by rewrite F|done|done|].
    apply Forall_forall. intros h Hin. apply (proj1 (Forall_forall _ _) Hs).
    by eapply elem_of_sublist.
Qed.

Lemma RemoveProxyHeaders_spec_witness :
  RemoveProxyHeaders (request (lit "GET / HTTP/1.1")
    [lit "Host: a"; lit "Proxy-Connection: close"; lit "host: b"] (lit "x")) =
  request (lit "GET / HTTP/1.1") [lit "Host: a"] (lit "x").
Proof.
  destruct (RemoveProxyHeaders_spec (lit "GET / HTTP/1.1")
    [lit "Host: a"; lit "Proxy-Connection: close"; lit "host: b"] (lit "x"))
    as (hs' & H & _); [by split|reflexivity|by repeat constructor|].
  vm_compute. reflexivity.
Defined.

(** An inserted proxy header does not survive its removal.  Inserting a
    "Proxy-..." header into a request and then removing the proxy headers gives
    what removing them from the original request gives. *)
Theorem Insert_Remove (l0 h : bytes) (hs : list bytes) (body k : bytes) :
  header_ok l0 -> IsHTTP l0 = true -> Forall header_ok hs -> header_ok h ->
  header_name h = Some k -> proxy_name k = true ->
  InsertProxyHeaders (request l0 hs body) (h ++ CRLF) = request l0 (h :: hs) body /\
  RemoveProxyHeaders (InsertProxyHeaders (request l0 hs body) (h ++ CRLF)) =
    RemoveProxyHeaders (request l0 hs body).
Proof.
  intros H0 Hh Hs Hok Hk Hp.
  assert (E : InsertProxyHeaders (request l0 hs body) (h ++ CRLF) = request l0 (h :: hs) body).
  { unfold InsertProxyHeaders, Replace1, request. destruct H0 as [_ H0]. destruct hs as [|g hs].
    - cbn [Join]. rewrite cut_CRLF by done. by rewrite <- !app_assoc.
    - change (Join (l0 :: g :: hs) CRLF) with (l0 ++ CRLF ++ Join (g :: hs) CRLF).
      change (Join (l0 :: h :: g :: hs) CRLF) with (l0 ++ CRLF ++ h ++ CRLF ++ Join (g :: hs) CRLF).
      rewrite <- !app_assoc. rewrite cut_CRLF by done. by rewrite <- !app_assoc. }
  split; [done|]. rewrite E, !RemoveProxyHeaders_request; try done; [|by constructor].
  cbn [keep]. by rewrite Hk, Hp, orb_true_r.
Qed.

Lemma Insert_Remove_witness :
  InsertProxyHeaders (request (lit "GET / HTTP/1.1") [lit "Host: a"] []) (lit "Proxy-Id: 7" ++ CRLF) =
    request (lit "GET / HTTP/1.1") [lit "Proxy-Id: 7"; lit "Host: a"] [] /\
  RemoveProxyHeaders (InsertProxyHeaders (request (lit "GET / HTTP/1.1") [lit "Host: a"] [])
      (lit "Proxy-Id: 7" ++ CRLF)) =
    RemoveProxyHeaders (request (lit "GET / HTTP/1.1") [lit "Host: a"] []).
Proof.
  apply (Insert_Remove (lit "GET / HTTP/1.1") (lit "Proxy-Id: 7") [lit "Host: a"] [] (lit "PROXY-ID"));
    first [by split|reflexivity|by repeat constructor].
Defined.
