(* ===== verification/Captain.v ===== *)
(** The wire formats of core/captain: the one-to-three byte data length, the
    address specification, the request/reply pair, and datagrams on a packet
    transport ([Datagram]) and inside a stream ([StreamDatagram]). *)
From S2P Require Import Prelude GoStrings GoNet GoIO.
Open Scope Z_scope.

Definition ATYPIPv4 : byte := z2b 1.
Definition ATYPDomain : byte := z2b 3.
Definition ATYPIPv6 : byte := z2b 4.

Definition ErrUnrecognizedAddrType : error := ErrMsg "Unrecognized address type".

(** * Data length (datalen.go) *)
Module DataLength.

(** The loop of [DataLen]: [ds] is the [3]byte array, [n] the bytes written. *)
Fixpoint dl_loop (fuel : nat) (length : Z) (ds : bytes) (n : nat) : bytes * nat :=
  match fuel with
  | O => (ds, n)
  | S f =>
      let b := Z.land length 127 in
      let length := Z.shiftr length 7 in
      let b := if 0 <? length then Z.lor b 128 else b in
      let ds := <[n := z2b b]> ds in
      let n := S n in
      if Nat.ltb n 3 && (0 <? length) then dl_loop f length ds n else (ds, n)
  end.

(** [DataLen]: the loop leaves after at most three rounds ([n < 3]). *)
Definition DataLen (length : Z) : outcome (bytes * nat) :=
  if (length <? 0) || (2097151 <? length) then Fail (ErrMsg "invalid data length")
  else Ok (dl_loop 3 length [zero; zero; zero] 0).

(** The loop of [ParseDataLen].  Every round takes a byte or an error, so with a
    round for each of them it ends by itself. *)
Fixpoint pdl_loop (fuel : nat) (i length : Z) : io reader Z :=
  match fuel with
  | O => io_panic
  | S f =>
      tmp ← ReadFull 1;
      t ← io_lift (idx tmp 0);
      let length := length + Z.shiftl (Z.land (b2z t) 127) (7 * i) in
      let remain := Z.land (b2z t) 128 in
      if (remain =? 128) && (i <? 2) then pdl_loop f (i + 1) length
      else if remain =? 128 then io_fail (ErrMsg "invalid data length")
      else mret length
  end.

Definition ParseDataLen : io reader Z := fun r => pdl_loop (3 + length (flat r)) 0 0 r.

End DataLength.
Export DataLength.

(** * Addresses (addr.go) *)

Record AddrSpec := mkAddrSpec {
  FQDN : bytes;
  AIP : IP;
  Port : Z;
  AddrType : byte;
}.

(** [(sf *AddrSpec) String()] *)
Definition AddrSpec_String (sf : AddrSpec) : bytes :=
  if negb (Nat.eqb (length (AIP sf)) 0) then
    JoinHostPort (ip_String (AIP sf)) (Itoa (Port sf))
  else JoinHostPort (FQDN sf) (Itoa (Port sf)).

(** [(sf AddrSpec) Address()] *)
Definition AddrSpec_Address (sf : AddrSpec) : bytes :=
  if negb (bool_decide (FQDN sf = [])) then
    FQDN sf ++ lit " (" ++ ip_String (AIP sf) ++ lit "):" ++ Itoa (Port sf)
  else ip_String (AIP sf) ++ lit ":" ++ Itoa (Port sf).

Definition ParseAddrSpec (addr : bytes) : outcome AddrSpec :=
  '(host, port) ← SplitHostPort addr;
  p ← Atoi port;
  let ip := ParseIP host in
  if negb (bool_decide (To4 ip = [])) then Ok (mkAddrSpec [] ip p ATYPIPv4)
  else if negb (bool_decide (To16 ip = [])) then Ok (mkAddrSpec [] ip p ATYPIPv6)
  else Ok (mkAddrSpec host [] p ATYPDomain).

(** * Requests and replies (stream.go) *)

Record Request := mkRequest { Types : byte; Version : byte; RData : bytes }.

Definition ParseRequest : io reader Request :=
  tmp ← ReadFull 2;
  types ← io_lift (idx tmp 0);
  version ← io_lift (idx tmp 1);
  length ← ParseDataLen;
  data ← ReadFull (Z.to_nat length);
  mret (mkRequest types version data).

Definition Request_value (sf : Request) (hasData : bool) : outcome bytes :=
  '(ds, n) ← DataLen (len (RData sf));
  let bs := [Types sf; Version sf] in
  let bs := bs ++ take n ds in
  Ok (if hasData then bs ++ RData sf else bs).

Definition Request_Bytes (sf : Request) : outcome bytes := Request_value sf true.
Definition Request_Header (sf : Request) : outcome bytes := Request_value sf false.

Record Reply := mkReply { Status : byte; RVersion : byte }.

Definition ParseReply : io reader Reply :=
  tmp ← ReadFull 2;
  status ← io_lift (idx tmp 0);
  version ← io_lift (idx tmp 1);
  mret (mkReply status version).

Definition SendReply (status version : byte) : io conn unit := Write [status; version].

(** * Datagrams on a packet transport (datagram.go) *)

Record Datagram := mkDatagram { Reserved : byte; Addr : AddrSpec; DData : bytes }.

Definition NewDatagram (destAddr data : bytes) : outcome Datagram :=
  a ← ParseAddrSpec destAddr;
  if bool_decide (AddrType a = ATYPDomain) && (255 <? len (FQDN a)) then
    Fail (ErrMsg "destination host name too long")
  else Ok (mkDatagram zero a data).

Definition ParseDatagram (b : bytes) : outcome Datagram :=
  let too_short := Fail (ErrMsg "datagram to short") in
  if len b <? 2 + IPv4len + 2 then too_short
  else
    rsv ← idx b 0;
    atyp ← idx b 1;
    let headLen := 2 in
    if bool_decide (atyp = ATYPIPv4) then
      let headLen := headLen + IPv4len + 2 in
      a ← idx b 2; c ← idx b 3; d ← idx b 4; e ← idx b 5;
      ph ← idx b (headLen - 2); pl ← idx b (headLen - 1);
      data ← slice_from b headLen;
      Ok (mkDatagram rsv (mkAddrSpec [] (IPv4 a c d e) (be16 ph pl) atyp) data)
    else if bool_decide (atyp = ATYPIPv6) then
      let headLen := headLen + IPv6len + 2 in
      if len b <=? headLen then too_short
      else
        ip ← slice b 2 (2 + IPv6len);
        ph ← idx b (headLen - 2); pl ← idx b (headLen - 1);
        data ← slice_from b headLen;
        Ok (mkDatagram rsv (mkAddrSpec [] ip (be16 ph pl) atyp) data)
    else if bool_decide (atyp = ATYPDomain) then
      l ← idx b 2;
      let addrLen := b2z l in
      let headLen := headLen + 1 + addrLen + 2 in
      if len b <=? headLen then too_short
      else
        name ← slice b 3 (3 + addrLen);
        ph ← idx b (headLen - 2); pl ← idx b (headLen - 1);
        data ← slice_from b headLen;
        Ok (mkDatagram rsv (mkAddrSpec name [] (be16 ph pl) atyp) data)
    else Fail ErrUnrecognizedAddrType.

(** The address bytes both datagram encoders append for a known type *)
Definition addr_bytes (a : AddrSpec) : option bytes :=
  if bool_decide (AddrType a = ATYPIPv4) then Some (To4 (AIP a))
  else if bool_decide (AddrType a = ATYPIPv6) then Some (To16 (AIP a))
  else if bool_decide (AddrType a = ATYPDomain) then Some (FQDN a)
  else None.

(** The head both encoders start with: reserved, type, host, port *)
Definition encode_head (rsv : byte) (a : AddrSpec) (addr : bytes) : bytes :=
  [rsv; AddrType a]
    ++ (if bool_decide (AddrType a = ATYPDomain) then [z2b (len (FQDN a))] else [])
    ++ addr ++ port_bytes (Port a).

Definition Datagram_values (sf : Datagram) (hasData : bool) : outcome bytes :=
  match addr_bytes (Addr sf) with
  | None => Panic
  | Some addr =>
      let bs := encode_head (Reserved sf) (Addr sf) addr in
      Ok (if hasData then bs ++ DData sf else bs)
  end.

Definition Datagram_Header (sf : Datagram) : outcome bytes := Datagram_values sf false.
Definition Datagram_Bytes (sf : Datagram) : outcome bytes := Datagram_values sf true.

(** * Datagrams inside a stream (stream_datagram.go) *)

Record StreamDatagram := mkStreamDatagram {
  SReserved : byte; SAddr : AddrSpec; SData : bytes
}.

Definition NewStreamDatagram (destAddr data : bytes) : outcome StreamDatagram :=
  a ← ParseAddrSpec destAddr;
  if bool_decide (AddrType a = ATYPDomain) && (255 <? len (FQDN a)) then
    Fail (ErrMsg "destination host name too long")
  else Ok (mkStreamDatagram zero a data).

(** The address part of [ParseStreamDatagram], by address type *)
Definition parse_stream_addr (atyp : byte) : io reader AddrSpec :=
  if bool_decide (atyp = ATYPIPv4) then
    ip ← ReadFull (Z.to_nat (IPv4len + 2));
    a ← io_lift (idx ip 0); b ← io_lift (idx ip 1);
    c ← io_lift (idx ip 2); d ← io_lift (idx ip 3);
    ph ← io_lift (idx ip IPv4len); pl ← io_lift (idx ip (IPv4len + 1));
    mret (mkAddrSpec [] (IPv4 a b c d) (be16 ph pl) atyp)
  else if bool_decide (atyp = ATYPIPv6) then
    ip ← ReadFull (Z.to_nat (IPv6len + 2));
    ph ← io_lift (idx ip IPv6len); pl ← io_lift (idx ip (IPv6len + 1));
    a ← io_lift (slice ip 0 IPv6len);
    mret (mkAddrSpec [] a (be16 ph pl) atyp)
  else if bool_decide (atyp = ATYPDomain) then
    tmp ← ReadFull 1;
    l ← io_lift (idx tmp 0);
    let addrLen := b2z l in
    fqdn ← ReadFull (Z.to_nat (addrLen + 2));
    name ← io_lift (slice fqdn 0 addrLen);
    ph ← io_lift (idx fqdn addrLen); pl ← io_lift (idx fqdn (addrLen + 1));
    mret (mkAddrSpec name [] (be16 ph pl) atyp)
  else io_fail ErrUnrecognizedAddrType.

Definition ParseStreamDatagram : io reader Datagram :=
  tmp ← ReadFull 2;
  rsv ← io_lift (idx tmp 0);
  atyp ← io_lift (idx tmp 1);
  a ← parse_stream_addr atyp;
  length ← ParseDataLen;
  data ← ReadFull (Z.to_nat length);
  mret (mkDatagram rsv a data).

Definition StreamDatagram_values (sf : StreamDatagram) (hasData : bool) : outcome bytes :=
  match addr_bytes (SAddr sf) with
  | None => Fail (ErrMsg "invalid address type")
  | Some addr =>
      '(ds, n) ← DataLen (len (SData sf));
      let bs := encode_head (SReserved sf) (SAddr sf) addr in
      let bs := bs ++ take n ds in
      Ok (if hasData then bs ++ SData sf else bs)
  end.

Definition StreamDatagram_Header (sf : StreamDatagram) : outcome bytes :=
  StreamDatagram_values sf false.
Definition StreamDatagram_Bytes (sf : StreamDatagram) : outcome bytes :=
  StreamDatagram_values sf true.

(** * Laws of the data length *)

Lemma lor_128 (a : Z) : 0 <= a < 128 -> Z.lor a 128 = a + 128.
Proof.
  intros H. apply Z.eqb_eq. revert a H.
  by apply (Z_range_check (fun a => Z.lor a 128 =? a + 128) 128).
Qed.

Lemma land_127 (z : Z) : Z.land z 127 = z mod 128.
Proof. change 127 with (Z.ones 7). by rewrite Z.land_ones. Qed.

Lemma shiftr_7 (z : Z) : Z.shiftr z 7 = z / 128.
Proof. by rewrite Z.shiftr_div_pow2. Qed.

Lemma land_128_set (a : Z) : 0 <= a < 128 -> Z.land (a + 128) 128 = 128.
Proof.
  intros H. apply Z.eqb_eq. revert a H.
  by apply (Z_range_check (fun a => Z.land (a + 128) 128 =? 128) 128).
Qed.

Lemma land_128_clear (a : Z) : 0 <= a < 128 -> Z.land a 128 = 0.
Proof.
  intros H. apply Z.eqb_eq. revert a H.
  by apply (Z_range_check (fun a => Z.land a 128 =? 0) 128).
Qed.

(** The bytes [DataLen] writes, one continuation bit per byte but the last *)
Definition varint (n : Z) : bytes :=
  if n <? 128 then [z2b n]
  else if n <? 16384 then [z2b (n mod 128 + 128); z2b (n / 128)]
  else [z2b (n mod 128 + 128); z2b (n / 128 mod 128 + 128); z2b (n / 128 / 128)].

Lemma DataLen_varint (n : Z) :
  0 <= n <= 2097151 ->
  exists ds k, DataLen n = Ok (ds, k) /\ take k ds = varint n /\
    length ds = 3%nat /\ (k <= 3)%nat.
Proof.
  intros H. unfold DataLen, varint. zdecide.
  cbn [dl_loop Nat.ltb Nat.leb]. rewrite !land_127, !shiftr_7.
  pose proof (Z.mod_pos_bound n 128 ltac:(lia)).
  pose proof (Z.mod_pos_bound (n / 128) 128 ltac:(lia)).
  destruct (Z.ltb_spec n 128); [|destruct (Z.ltb_spec n 16384)].
  - rewrite (Z.div_small n), (Z.mod_small n) by lia. simpl. eauto 10.
  - assert (0 < n / 128 < 128) as Hq by (split;
      [apply Z.div_str_pos; lia|apply Z.div_lt_upper_bound; lia]).
    rewrite (Z.div_small (n / 128)), (Z.mod_small (n / 128)) by lia.
    zdecide. rewrite lor_128 by lia. simpl. eauto 10.
  - assert (0 < n / 128) by (apply Z.div_str_pos; lia).
    assert (0 < n / 128 / 128 < 128) as Hq.
    { rewrite Z.div_div by lia. split;
      [apply Z.div_str_pos; lia|apply Z.div_lt_upper_bound; lia]. }
    rewrite (Z.div_small (n / 128 / 128)), (Z.mod_small (n / 128 / 128)) by lia.
    zdecide. rewrite !lor_128 by lia. simpl. eauto 10.
Qed.

(** One round of [ParseDataLen] on a byte with the continuation bit *)
Lemma reads_pdl_more (f : nat) (i acc a : Z) (bs : bytes) (v : Z) :
  0 <= a < 128 -> i < 2 ->
  reads (pdl_loop f (i + 1) (acc + Z.shiftl a (7 * i))) bs v ->
  reads (pdl_loop (S f) i acc) (z2b (a + 128) :: bs) v.
Proof.
  intros Ha Hi Hr. change (z2b (a + 128) :: bs) with ([z2b (a + 128)] ++ bs).
  cbn [pdl_loop]. eapply reads_bind; [by apply reads_ReadFull|].
  change (idx [z2b (a + 128)] 0) with (Ok (z2b (a + 128))).
  change (reads (mret (z2b (a + 128)) ≫= fun t : byte =>
    let length := acc + Z.shiftl (Z.land (b2z t) 127) (7 * i) in
    let remain := Z.land (b2z t) 128 in
    if (remain =? 128) && (i <? 2) then pdl_loop f (i + 1) length
    else if remain =? 128 then io_fail (ErrMsg "invalid data length")
    else mret length) bs v).
  change bs with ([] ++ bs). eapply reads_bind; [apply reads_ret|]. cbv zeta.
  rewrite b2z_z2b_small by lia. rewrite land_128_set, land_127 by lia.
  rewrite <- Z.add_mod_idemp_r by lia. rewrite Z_mod_same_full, Z.add_0_r.
  rewrite Z.mod_small by lia. by zdecide.
Qed.

(** The last round, on a byte without it *)
Lemma reads_pdl_last (f : nat) (i acc a : Z) :
  0 <= a < 128 ->
  reads (pdl_loop (S f) i acc) [z2b a] (acc + Z.shiftl a (7 * i)).
Proof.
  intros Ha. cbn [pdl_loop].
  eapply reads_bind_nil; [by apply reads_ReadFull|].
  change (idx [z2b a] 0) with (Ok (z2b a)).
  change (io_lift (Ok (z2b a))) with (@mret (io reader) _ _ (z2b a)).
  eapply (reads_bind _ _ [] []); [apply reads_ret|]. cbv zeta.
  rewrite b2z_z2b_small by lia. rewrite land_128_clear, land_127, Z.mod_small by lia.
  apply reads_ret.
Qed.

(** Its guard ends it after three rounds. *)
Lemma pdl_loop_rounds (k f : nat) (i acc : Z) (r : reader) :
  Z.of_nat f + i = 3 -> (1 <= f)%nat -> pdl_loop (f + k) i acc r = pdl_loop f i acc r.
Proof.
  revert i acc r. induction f as [|f IH]; intros i acc r Hi Hf; [lia|].
  cbn [Nat.add pdl_loop]. unfold mbind, io_bind, io_lift. destruct (ReadFull 1 r) as [[tmp| |] r1]; [|done..].
  destruct (idx tmp 0) as [t| |]; [|done..]. destruct (_ =? 128), (Z.ltb_spec i 2); cbn [andb]; [|done..].
  apply IH; lia.
Qed.

Lemma ParseDataLen_rounds (r : reader) : ParseDataLen r = pdl_loop 3 0 0 r.
Proof. unfold ParseDataLen. rewrite pdl_loop_rounds; [done|done|lia]. Qed.

Lemma reads_ParseDataLen (n : Z) :
  0 <= n <= 2097151 -> reads ParseDataLen (varint n) n.
Proof.
  intros H. apply (reads_ext (pdl_loop 3 0 0)); [intros r; by rewrite ParseDataLen_rounds|]. unfold varint.
  pose proof (Z.mod_pos_bound n 128 ltac:(lia)).
  pose proof (Z.mod_pos_bound (n / 128) 128 ltac:(lia)).
  pose proof (Z.div_mod n 128 ltac:(lia)).
  pose proof (Z.div_mod (n / 128) 128 ltac:(lia)).
  destruct (Z.ltb_spec n 128); [|destruct (Z.ltb_spec n 16384)].
  - pose proof (reads_pdl_last 2 0 0 n) as R. rewrite Z.shiftl_0_r in R. apply R. lia.
  - apply reads_pdl_more; [lia|lia|].
    pose proof (reads_pdl_last 1 1 (0 + Z.shiftl (n mod 128) (7 * 0)) (n / 128)) as R.
    rewrite !Z.shiftl_mul_pow2 in R by lia.
    replace (_ + _ * 2 ^ (7 * 1)) with n in R by (change (2 ^ (7 * 0)) with 1;
      change (2 ^ (7 * 1)) with 128; lia).
    rewrite Z.shiftl_mul_pow2 by lia. apply R.
    split; [apply Z.div_pos|apply Z.div_lt_upper_bound]; lia.
  - apply reads_pdl_more; [lia|lia|]. apply reads_pdl_more; [lia|lia|].
    match goal with |- reads (pdl_loop 1 _ ?x) _ _ =>
      pose proof (reads_pdl_last 0 2 x (n / 128 / 128)) as R end.
    match type of R with _ -> reads _ _ ?v => replace v with n in R end.
    2: { rewrite !Z.shiftl_mul_pow2 by lia. change (2 ^ (7 * 0)) with 1.
         change (2 ^ (7 * (0 + 1))) with 128. change (2 ^ (7 * 2)) with 16384. lia. }
    apply R. split; [apply Z.div_pos; [apply Z.div_pos|]; lia|].
    rewrite Z.div_div by lia. apply Z.div_lt_upper_bound; lia.
Qed.

(** What [ParseDataLen] accepts is never negative and never above two megabytes,
    so the buffer its callers allocate is bounded. *)
Lemma pdl_loop_range (f : nat) (i acc : Z) (r r' : reader) (v : Z) :
  0 <= i -> Z.of_nat f + i = 3 -> 0 <= acc < 2 ^ (7 * i) ->
  pdl_loop f i acc r = (Ok v, r') -> 0 <= v < 2 ^ 21.
Proof.
  revert i acc r. induction f as [|f IH]; intros i acc r Hi Hf Ha; [done|].
  cbn [pdl_loop]. unfold mbind, io_bind.
  destruct (ReadFull 1 r) as [[tmp| |] r1]; try done.
  unfold io_lift. destruct (idx tmp 0) as [t| |]; try done. cbv zeta.
  assert (Hacc : 0 <= acc + Z.shiftl (Z.land (b2z t) 127) (7 * i) < 2 ^ (7 * (i + 1))).
  { rewrite land_127, Z.shiftl_mul_pow2 by lia.
    pose proof (Z.mod_pos_bound (b2z t) 128 ltac:(lia)).
    replace (7 * (i + 1)) with (7 * i + 7) by lia. rewrite Z.pow_add_r by lia.
    pose proof (Z.pow_pos_nonneg 2 (7 * i) ltac:(lia) ltac:(lia)). nia. }
  assert (2 ^ (7 * (i + 1)) <= 2 ^ 21) by (apply Z.pow_le_mono_r; lia).
  destruct ((_ =? 128) && (i <? 2)) eqn:E.
  - apply IH; [lia|lia|done].
  - destruct (_ =? 128); [done|]. intros [= <- _]. lia.
Qed.

Lemma ReadFull_one (r : reader) :
  let '(o, r') := ReadFull 1 r in
  o <> Panic /\ (forall tmp, o = Ok tmp -> length tmp = 1%nat) /\
  (flat r' = drop 1 (flat r)).
Proof.
  pose proof (readfull_go_flat 1 [] r) as H. unfold ReadFull. destruct (readfull_go 1 [] r) as [o r'].
  destruct (flat r) as [|[b|e] t]; cbn in H; injection H as -> ->; split_and!; try done. by intros tmp [= <-].
Qed.

Lemma pdl_loop_takes (f : nat) (i acc : Z) (r r' : reader) (o : outcome Z) :
  Z.of_nat f + i = 3 -> (1 <= f)%nat -> pdl_loop f i acc r = (o, r') ->
  o <> Panic /\ exists k, (k <= f)%nat /\ flat r' = drop k (flat r).
Proof.
  revert i acc r. induction f as [|f IH]; intros i acc r Hi Hf; [lia|].
  cbn [pdl_loop]. unfold mbind, io_bind. pose proof (ReadFull_one r) as H1.
  destruct (ReadFull 1 r) as [[tmp|e|] r1]; destruct H1 as (Hp & Hl & Hr); [|intros [= <- <-]|done].
  2: { split; [done|]. exists 1%nat. split; [lia|done]. }
  destruct tmp as [|t [|? ?]]; [by specialize (Hl _ eq_refl)| |by specialize (Hl _ eq_refl)].
  change (io_lift (idx [t] 0) r1) with (@Ok byte t, r1). cbv beta iota zeta.
  destruct (_ =? 128) eqn:E, (Z.ltb_spec i 2); cbn [andb]; [|intros [= <- <-]; (split; [done|exists 1%nat; split; [lia|done]])..].
  intros H1. apply IH in H1 as (Ho & k & Hk & E1); [|lia|lia]. split; [done|]. exists (S k).
  split; [lia|]. rewrite E1, Hr, drop_drop. done.
Qed.

(** * Laws of the address part *)

(** Addresses that fit the wire format *)
Inductive wf_addr : AddrSpec -> Prop :=
  | wf_v4 a b c d p :
      0 <= p < 65536 -> wf_addr (mkAddrSpec [] (IPv4 a b c d) p ATYPIPv4)
  | wf_v6 ip p :
      length ip = 16%nat -> 0 <= p < 65536 -> wf_addr (mkAddrSpec [] ip p ATYPIPv6)
  | wf_domain host p :
      len host <= 255 -> 0 <= p < 65536 -> wf_addr (mkAddrSpec host [] p ATYPDomain).

(** What the wire carries after the address type *)
Definition wire_addr (a : AddrSpec) (addr : bytes) : bytes :=
  (if bool_decide (AddrType a = ATYPDomain) then [z2b (len (FQDN a))] else [])
    ++ addr ++ port_bytes (Port a).

Lemma be16_port (p : Z) : 0 <= p < 65536 -> be16 (z2b (Z.shiftr p 8)) (z2b p) = p.
Proof. intros H. rewrite port_bytes_be16. by apply Z.mod_small. Qed.

Lemma reads_parse_stream_addr (a : AddrSpec) :
  wf_addr a -> exists ab, addr_bytes a = Some ab /\
    reads (parse_stream_addr (AddrType a)) (wire_addr a ab) a.
Proof.
  intros [x y z w p Hp|ip p Hl Hp|host p Hl Hp].
  - exists [x; y; z; w]. split; [done|].
    change (wire_addr _ _) with ([x; y; z; w] ++ port_bytes p).
    eapply reads_bind_nil; [by apply reads_ReadFull|].
    do 6 (eapply reads_lift; [reflexivity|]).
    rewrite be16_port by done. apply reads_ret.
  - exists ip. split.
    { change (addr_bytes _) with (Some (To16 ip)). by rewrite To16_length. }
    change (wire_addr _ _) with (ip ++ port_bytes p).
    eapply reads_bind_nil;
      [apply reads_ReadFull; rewrite length_app, Hl; done|].
    eapply reads_lift; [by apply (idx_app_ok _ _ _ 0); rewrite ?Hl|].
    eapply reads_lift; [by apply (idx_app_ok _ _ _ 1); rewrite ?Hl|].
    eapply reads_lift; [by apply slice_app_l; rewrite Hl|].
    rewrite be16_port by done. apply reads_ret.
  - exists host. split; [done|].
    change (wire_addr _ _) with ([z2b (len host)] ++ host ++ port_bytes p).
    eapply reads_bind; [by apply reads_ReadFull|].
    eapply reads_lift; [reflexivity|].
    rewrite b2z_z2b_small by lia.
    eapply reads_bind_nil;
      [apply reads_ReadFull; rewrite length_app; simpl; lia|].
    eapply reads_lift; [by apply slice_app_l|].
    eapply reads_lift; [apply (idx_app_ok _ _ _ 0); [lia|lia|reflexivity]|].
    eapply reads_lift; [apply (idx_app_ok _ _ _ 1); [lia|lia|reflexivity]|].
    rewrite be16_port by done. apply reads_ret.
Qed.

(** [ParseAddrSpec] yields addresses the wire format can carry, when the port
    fits sixteen bits and the host name one length byte. *)
Lemma ParseAddrSpec_wf (addr : bytes) (a : AddrSpec) :
  ParseAddrSpec addr = Ok a -> 0 <= Port a < 65536 -> len (FQDN a) <= 255 -> wf_addr a.
Proof.
  unfold ParseAddrSpec. rewrite outcome_bind_ok.
  intros ([host port] & _ & H) Hp Hf.
  rewrite outcome_bind_ok in H. destruct H as (p & _ & H).
  destruct (ParseIP_length host) as [E|E].
  { rewrite E in H. simpl in H. simplify_eq/=. by constructor. }
  destruct (To4_cases (ParseIP host)) as [E4|E4].
  - rewrite E4 in H. simpl in H.
    rewrite To16_ParseIP in H. rewrite bool_decide_false in H by (intros E0; by rewrite E0 in E).
    simpl in H. simplify_eq/=. by constructor.
  - rewrite bool_decide_false in H by (intros E0; by rewrite E0 in E4).
    simpl in H. simplify_eq/=.
    destruct (To4 (ParseIP host)) as [|x [|y [|z [|w [|? ?]]]]] eqn:E'; try done.
    apply To4_mapped in E'; [|done]. rewrite E'. by constructor.
Qed.

Lemma encode_head_wire (rsv : byte) (a : AddrSpec) (ab : bytes) :
  encode_head rsv a ab = [rsv; AddrType a] ++ wire_addr a ab.
Proof. unfold encode_head, wire_addr. done. Qed.

(** The stream encoder and parser agree on every well-formed address. *)
Lemma reads_StreamDatagram (sf : StreamDatagram) :
  wf_addr (SAddr sf) -> len (SData sf) <= 2097151 ->
  exists bs, StreamDatagram_Bytes sf = Ok bs /\
    reads ParseStreamDatagram bs (mkDatagram (SReserved sf) (SAddr sf) (SData sf)).
Proof.
  intros Hw Hd. destruct (reads_parse_stream_addr _ Hw) as (ab & Hab & Ha).
  destruct (DataLen_varint (len (SData sf))) as (ds & k & HD & Hk & _); [lia|].
  unfold StreamDatagram_Bytes, StreamDatagram_values. rewrite Hab, HD.
  unfold mbind, outcome_bind. cbv zeta iota.
  eexists. split; [reflexivity|]. rewrite Hk, encode_head_wire, <- !app_assoc.
  eapply reads_bind; [by apply reads_ReadFull|].
  do 2 (eapply reads_lift; [reflexivity|]).
  eapply reads_bind; [exact Ha|].
  eapply reads_bind; [apply reads_ParseDataLen; lia|].
  eapply reads_bind_nil; [apply reads_ReadFull; lia|]. apply reads_ret.
Qed.

(** * Laws of the packet datagram *)

(** Which encoded datagrams [ParseDatagram] takes back: an IPv4 one always, the
    others only with a payload, and a domain one only when at least eight bytes
    were sent (the length check assumes an IPv4 address). *)
Definition datagram_accepts (da : Datagram) : bool :=
  if bool_decide (AddrType (Addr da) = ATYPIPv4) then true
  else if bool_decide (AddrType (Addr da) = ATYPIPv6) then 0 <? len (DData da)
  else (0 <? len (DData da)) && (3 <=? len (FQDN (Addr da)) + len (DData da)).

Lemma ParseDatagram_v4 (rsv a b c d ph pl : byte) (data : bytes) :
  ParseDatagram ([rsv; ATYPIPv4; a; b; c; d; ph; pl] ++ data) =
  Ok (mkDatagram rsv (mkAddrSpec [] (IPv4 a b c d) (be16 ph pl) ATYPIPv4) data).
Proof.
  unfold ParseDatagram, IPv4len. rewrite length_app.
  replace (_ <? 2 + 4 + 2) with false by (symmetry; apply Z.ltb_ge; simpl; lia).
  rewrite (slice_from_app [rsv; ATYPIPv4; a; b; c; d; ph; pl]) by done. reflexivity.
Qed.

Lemma ParseDatagram_v6 (rsv ph pl : byte) (ip data : bytes) :
  length ip = 16%nat ->
  ParseDatagram ([rsv; ATYPIPv6] ++ ip ++ [ph; pl] ++ data) =
  if 0 <? len data then Ok (mkDatagram rsv (mkAddrSpec [] ip (be16 ph pl) ATYPIPv6) data)
  else Fail (ErrMsg "datagram to short").
Proof.
  intros H. unfold ParseDatagram, IPv4len, IPv6len.
  assert (Hl : len ([rsv; ATYPIPv6] ++ ip ++ [ph; pl] ++ data) = 20 + len data).
  { rewrite !length_app, H. simpl. lia. }
  rewrite Hl. zdecide.
  change (idx ([rsv; ATYPIPv6] ++ ip ++ [ph; pl] ++ data) 0) with (Ok rsv).
  change (idx ([rsv; ATYPIPv6] ++ ip ++ [ph; pl] ++ data) 1) with (Ok ATYPIPv6).
  unfold mbind, outcome_bind. cbn iota.
  rewrite bool_decide_false, bool_decide_true by done.
  destruct (Z.ltb_spec 0 (len data)); zdecide; [|done].
  rewrite slice_app_mid by (simpl; lia).
  rewrite (app_assoc [rsv; ATYPIPv6] ip).
  rewrite (idx_app_ok _ _ _ 0 ph) by (rewrite ?length_app, ?H; done).
  rewrite (idx_app_ok _ _ _ 1 pl) by (rewrite ?length_app, ?H; done).
  rewrite (app_assoc _ [ph; pl]).
  by rewrite slice_from_app by (rewrite !length_app, H; done).
Qed.

Lemma ParseDatagram_domain (rsv ph pl : byte) (host data : bytes) :
  len host <= 255 ->
  ParseDatagram ([rsv; ATYPDomain; z2b (len host)] ++ host ++ [ph; pl] ++ data) =
  if (0 <? len data) && (3 <=? len host + len data)
  then Ok (mkDatagram rsv (mkAddrSpec host [] (be16 ph pl) ATYPDomain) data)
  else Fail (ErrMsg "datagram to short").
Proof.
  intros H. unfold ParseDatagram, IPv4len.
  set (b := _ ++ host ++ _).
  assert (Hl : len b = 5 + len host + len data).
  { unfold b. rewrite !length_app. simpl. lia. }
  rewrite Hl. destruct (Z.leb_spec 3 (len host + len data)).
  2: { replace (5 + len host + len data <? 2 + 4 + 2) with true
         by (symmetry; apply Z.ltb_lt; lia). by rewrite andb_false_r. }
  rewrite andb_true_r. replace (5 + len host + len data <? 2 + 4 + 2) with false
    by (symmetry; apply Z.ltb_ge; lia).
  change (idx b 0) with (Ok rsv). change (idx b 1) with (Ok ATYPDomain).
  change (idx b 2) with (Ok (z2b (len host))).
  unfold mbind, outcome_bind. cbn iota.
  rewrite !bool_decide_false, bool_decide_true by done.
  rewrite b2z_z2b_small by lia.
  destruct (Z.ltb_spec 0 (len data)); zdecide; [|done]. unfold b.
  rewrite slice_app_mid by (simpl; lia).
  rewrite (app_assoc [_; _; _] host).
  rewrite (idx_app_ok _ _ _ 0 ph) by (rewrite ?length_app; simpl; done || lia).
  rewrite (idx_app_ok _ _ _ 1 pl) by (rewrite ?length_app; simpl; done || lia).
  rewrite (app_assoc _ [ph; pl]).
  by rewrite slice_from_app by (rewrite !length_app; simpl; lia).
Qed.

(** * Properties *)

(** The data length codec round-trips.  [DataLen] accepts exactly the
    lengths from 0 to 2097151, writes one to three bytes, and [ParseDataLen]
    reads those bytes back as the same length, however the stream is cut and
    whatever follows; a stream that ends inside them is reported as ended. *)
Theorem datalen_roundtrip (n : Z) :
  (0 <= n <= 2097151 /\
   exists ds k, DataLen n = Ok (ds, k) /\ (1 <= k <= 3)%nat /\
     reads ParseDataLen (take k ds) n)
  \/ ((n < 0 \/ 2097151 < n) /\ DataLen n = Fail (ErrMsg "invalid data length")).
Proof.
  destruct (decide (0 <= n <= 2097151)) as [H|H].
  - left. split; [done|].
    destruct (DataLen_varint n H) as (ds & k & HD & Hk & Hds & Hk3).
    exists ds, k. split; [done|]. split.
    + split; [|done]. destruct k; [|lia]. simpl in Hk. unfold varint in Hk.
      by destruct (n <? 128), (n <? 16384).
    + rewrite Hk. by apply reads_ParseDataLen.
  - right. split; [lia|]. unfold DataLen.
    destruct (Z.ltb_spec n 0), (Z.ltb_spec 2097151 n); try done. lia.
Qed.

(** C24: whatever arrives, [ParseDataLen] comes to an end, by its guard and not for
    want of input, has taken at most three bytes, and a length it returns is between
    0 and 2097151, so the buffers allocated for announced data are bounded. *)
Theorem ParseDataLen_bounded (r r' : reader) (o : outcome Z) :
  ParseDataLen r = (o, r') ->
  o <> Panic /\ (forall v, o = Ok v -> 0 <= v <= 2097151) /\
  exists k, (k <= 3)%nat /\ flat r' = drop k (flat r).
Proof.
  rewrite ParseDataLen_rounds. intros H.
  destruct (pdl_loop_takes 3 0 0 r r' o eq_refl ltac:(lia) H) as [Hp Hk]. split_and!; [done| |done].
  - intros v ->. apply (pdl_loop_range 3 0 0) in H; [|lia|done|simpl; lia].
    change (2 ^ 21) with 2097152 in H. lia.
Qed.

Lemma ParseDataLen_bounded_witness :
  exists r', ParseDataLen [Seg [z2b 200; z2b 1]] = (Ok 200, r') /\ 0 <= 200 <= 2097151.
Proof.
  exists []. split; [reflexivity|].
  by apply (proj1 (proj2 (ParseDataLen_bounded [Seg [z2b 200; z2b 1]] [] (Ok 200) eq_refl))).
Defined.

(** A request round-trips.  [Request.Bytes] fails exactly when the data is
    longer than 2097151 bytes; otherwise [ParseRequest] reads the bytes back as
    the same request, leaves what follows unread, and reports every strict
    prefix as an ended stream. *)
Theorem Request_roundtrip (req : Request) :
  (len (RData req) <= 2097151 /\
   exists bs, Request_Bytes req = Ok bs /\ reads ParseRequest bs req)
  \/ (2097151 < len (RData req) /\
      Request_Bytes req = Fail (ErrMsg "invalid data length")).
Proof.
  destruct req as [t v data]; simpl. destruct (Z_le_gt_dec (len data) 2097151) as [H|H].
  - left. split; [done|]. destruct (DataLen_varint (len data)) as (ds & k & HD & Hk & _); [lia|].
    unfold Request_Bytes, Request_value. cbn [RData]. rewrite HD.
    unfold mbind, outcome_bind. eexists. split; [reflexivity|]. cbn [Types Version].
    rewrite Hk, <- app_assoc.
    eapply reads_bind; [by apply reads_ReadFull|].
    do 2 (eapply reads_lift; [reflexivity|]).
    eapply reads_bind; [apply reads_ParseDataLen; lia|].
    eapply reads_bind_nil; [apply reads_ReadFull; lia|]. apply reads_ret.
  - right. split; [lia|]. unfold Request_Bytes, Request_value, DataLen. cbn [RData].
    by zdecide.
Qed.

(** C9: every stream datagram built by [NewStreamDatagram] whose port fits
    sixteen bits and whose payload fits the length field is read back by
    [ParseStreamDatagram] with the same address and payload. *)
Theorem StreamDatagram_roundtrip (addr data : bytes) (sd : StreamDatagram) :
  NewStreamDatagram addr data = Ok sd ->
  0 <= Port (SAddr sd) < 65536 -> len data <= 2097151 ->
  exists bs, StreamDatagram_Bytes sd = Ok bs /\
    reads ParseStreamDatagram bs (mkDatagram zero (SAddr sd) data).
Proof.
  unfold NewStreamDatagram. rewrite outcome_bind_ok. intros (a & Ha & H) Hp Hd.
  destruct (bool_decide _ && _) eqn:E; [done|]. simplify_eq/=.
  apply (reads_StreamDatagram (mkStreamDatagram zero a data)); [|done].
  eapply ParseAddrSpec_wf; [done|done|].
  apply andb_false_iff in E as [E|E]; zify_bool; [|done].
  apply bool_decide_eq_false in E. revert E Ha. clear.
  unfold ParseAddrSpec. rewrite outcome_bind_ok. intros Hne ([h p] & _ & H).
  rewrite outcome_bind_ok in H. destruct H as (n & _ & H).
  do 2 try match type of H with context [if ?b then _ else _] => destruct b end;
    by simplify_eq/=.
Qed.

Lemma StreamDatagram_roundtrip_witness :
  exists sd bs, NewStreamDatagram (lit "example.com:80") (lit "hi") = Ok sd /\
    StreamDatagram_Bytes sd = Ok bs /\
    reads ParseStreamDatagram bs (mkDatagram zero (SAddr sd) (lit "hi")).
Proof.
  destruct (StreamDatagram_roundtrip (lit "example.com:80") (lit "hi")
    (mkStreamDatagram zero (mkAddrSpec (lit "example.com") [] 80 ATYPDomain) (lit "hi")))
    as (bs & H1 & H2); [reflexivity|simpl; lia|vm_compute; discriminate|].
  eexists _, bs. split; [reflexivity|]. split; [exact H1|exact H2].
Defined.

(** C10: the packet datagram codec, exactly.  For every address the wire format
    can carry, [ParseDatagram] on the bytes of a datagram returns the datagram
    itself when the address is IPv4; for IPv6 and domain addresses it does so
    only if there is a payload (and, for a domain, if the whole packet has
    eight bytes), and otherwise it answers "datagram to short". *)
Theorem Datagram_roundtrip (da : Datagram) :
  wf_addr (Addr da) ->
  exists bs, Datagram_Bytes da = Ok bs /\
    ParseDatagram bs =
      if datagram_accepts da then Ok da else Fail (ErrMsg "datagram to short").
Proof.
  destruct da as [rsv a data]. cbn [Addr].
  intros [x y z w p Hp|ip p Hl Hp|host p Hl Hp]; (eexists; split; [reflexivity|]).
  - etrans; [apply ParseDatagram_v4|]. by rewrite be16_port.
  - change (encode_head _ _ _ ++ _) with
      ([rsv; ATYPIPv6] ++ (To16 ip ++ port_bytes p) ++ data).
    rewrite To16_length, <- app_assoc by done.
    etrans; [by apply ParseDatagram_v6|]. by rewrite be16_port.
  - change (encode_head _ _ _ ++ _) with
      ([rsv; ATYPDomain; z2b (len host)] ++ (host ++ port_bytes p) ++ data).
    rewrite <- app_assoc.
    etrans; [by apply ParseDatagram_domain|]. by rewrite be16_port.
Qed.

Lemma Datagram_roundtrip_witness :
  let da := mkDatagram zero (mkAddrSpec (lit "a.b") [] 80 ATYPDomain) [] in
  exists bs, Datagram_Bytes da = Ok bs /\
    ParseDatagram bs = Fail (ErrMsg "datagram to short").
Proof.
  apply (Datagram_roundtrip (mkDatagram zero (mkAddrSpec (lit "a.b") [] 80 ATYPDomain) [])).
  apply wf_domain; simpl; lia.
Defined.

Lemma pdl_loop_indep (f : nat) (i acc : Z) : seg_indep (pdl_loop f i acc).
Proof.
  revert i acc. induction f as [|f IH]; intros i acc; [by intros r r' Hr|].
  cbn [pdl_loop]. cbv zeta. solve_indep.
Qed.

Lemma ParseDataLen_indep : seg_indep ParseDataLen.
Proof. intros r r' H. rewrite !ParseDataLen_rounds. by apply pdl_loop_indep. Qed.
#[export] Hint Resolve ParseDataLen_indep : indep.

(** Segmentation does not matter.  Each of the stream parsers returns the
    same result, and leaves equivalent input behind, on any two readers that
    deliver the same bytes and errors cut into different segments. *)
Theorem captain_seg_indep :
  seg_indep ParseDataLen /\ seg_indep ParseRequest /\ seg_indep ParseReply /\
  seg_indep ParseStreamDatagram.
Proof.
  split_and!; [apply ParseDataLen_indep|..];
    unfold ParseRequest, ParseReply, ParseStreamDatagram, parse_stream_addr;
    solve_indep.
Qed.
