(* ===== verification/Socks5.v ===== *)
(** core/socks5: the wire structures (structs.go), the server side of the
    handshake (server.go) and the client side (client.go).  The buffers have
    the sizes of the code, a slice of a buffer is checked against the buffer,
    and [uint8] sums wrap. *)
From S2P Require Import Prelude GoStrings GoNet GoIO Iface.
Open Scope Z_scope.

Definition Method_NO_AUTH : byte := z2b 0.
Definition Method_USER_PASS : byte := z2b 2.
Definition Method_NONE_ACCEPTABLE : byte := z2b 255.
Definition VERSION_V5 : byte := z2b 5.
Definition CMD_CONNECT : byte := z2b 1.
Definition CMD_BIND : byte := z2b 2.
Definition CMD_ASSOCIATE : byte := z2b 3.
Definition ATYP_IPV4 : byte := z2b 1.
Definition ATYP_DOMAIN : byte := z2b 3.
Definition ATYP_IPV6 : byte := z2b 4.
Definition REP_SUCCESS : byte := z2b 0.
Definition REP_REQ_FAIL : byte := z2b 1.
Definition REP_UNKNOWN : byte := z2b 9.
Definition RSV : byte := z2b 0.

(** [uint8] addition *)
Definition u8add (a b : Z) : Z := (a + b) mod 256.

(** What [make([]byte, n)] holds after [Read] stored [data] in it *)
Definition filled (n : nat) (data : bytes) : bytes := data ++ repeat zero (n - length data).

(** * Wire structures (structs.go) *)

Record Request := mkRequest {
  ver : byte;
  cmd : byte;
  reserve : byte;
  addressType : byte;
  dstAddr : bytes;
  dstPort : bytes;
  dstHost : bytes;
  req_bytes : bytes;
}.

(** [net.IP{b[4], ..., b[19]}] *)
Definition ip6_at4 (b : bytes) : outcome IP := mapM (fun i => idx b (Z.of_nat i)) (seq 4 16).

(** [strconv.Itoa(int(b[i])<<8 | int(b[j]))] *)
Definition port_at (b : bytes) (i j : Z) : outcome bytes :=
  h ← idx b i; l ← idx b j; Ok (Itoa (Z.lor (Z.shiftl (b2z h) 8) (b2z l))).

(** The [fmt.Sprintf("%d%d...")] of the first twelve bytes *)
Definition zeroi (ipv6 : IP) : outcome bytes :=
  ds ← mapM (fun i => idx ipv6 (Z.of_nat i)) (seq 0 12);
  Ok (concat (map (fun d => Itoa (b2z d)) ds)).

Definition NewReply (rep : byte) (addr : bytes) : outcome bytes :=
  let '(host, port) := match SplitHostPort addr with Ok hp => hp | _ => ([], []) end in
  let ip := ParseIP host in
  let ipb := To4 ip in
  let ipv6 := To16 ip in
  zeroiIPv6 ← zeroi ipv6;
  let '(atyp, ipb) :=
    if bool_decide (ipb = []) && negb (bool_decide (ipv6 = []))
       && negb (bool_decide (lit "0000000000255255" = zeroiIPv6))
    then (ATYP_IPV6, To16 ip) else (ATYP_IPV4, ipb) in
  let porti := Atoi_val port in
  Ok ([VERSION_V5; rep; RSV; atyp] ++ ipb ++ port_bytes porti).

Definition UDPReply (rep : byte) (addr : bytes) : io conn unit :=
  r ← io_lift (NewReply rep addr); Write r.

Definition TCPReply (rep : byte) : io conn unit := UDPReply rep (lit "0.0.0.0:0").

(** The host a request names, by address type: [b] is the 1024-byte buffer of
    which [n] bytes were read. *)
Definition request_host (b : bytes) (n : Z) : outcome bytes :=
  t ← idx b 3;
  if bool_decide (t = ATYP_IPV4) then
    x ← idx b 4; y ← idx b 5; z ← idx b 6; w ← idx b 7;
    Ok (ip_String (IPv4 x y z w))
  else if bool_decide (t = ATYP_DOMAIN) then slice b 5 (n - 2)
  else if bool_decide (t = ATYP_IPV6) then ip ← ip6_at4 b; Ok (ip_String ip)
  else Ok [].

Definition NewRequest : io conn Request :=
  data ← io_wrap "read req data fail,ERR: %s" (on_rx (Read 1024));
  let b := filled 1024 data in
  let n := len data in
  b0 ← io_lift (idx b 0);
  b1 ← io_lift (idx b 1);
  b2 ← io_lift (idx b 2);
  b3 ← io_lift (idx b 3);
  if negb (bool_decide (b0 = z2b 5)) then
    _ ← io_try (TCPReply REP_REQ_FAIL);
    io_fail (ErrMsg "sosck version supported")
  else
    host ← io_lift (request_host b n);
    port ← io_lift (port_at b (n - 2) (n - 1));
    bs ← io_lift (slice b 0 n);
    mret (mkRequest b0 b1 b2 b3 (JoinHostPort host port) port host bs).

Record MethodsRequest := mkMethodsRequest {
  mver : byte;
  mcount : byte;
  mmethods : bytes;
  mbytes : bytes;
}.

Definition NewMethodsRequest (header : list bytes) : io conn MethodsRequest :=
  '(buf, n) ←
    match header with
    | [h] => if 1 <? len h then mret (h, len h)
             else d ← on_rx (Read 300); mret (filled 300 d, len d)
    | _ => d ← on_rx (Read 300); mret (filled 300 d, len d)
    end;
  b0 ← io_lift (idx buf 0);
  if negb (bool_decide (b0 = z2b 5)) then io_fail (ErrMsg "socks version not supported")
  else
    b1 ← io_lift (idx buf 1);
    if negb (n =? b2z b1 + 2) then io_fail (ErrMsg "socks methods data length error")
    else
      ms ← io_lift (slice buf 2 n);
      bs ← io_lift (slice buf 0 n);
      mret (mkMethodsRequest b0 b1 ms bs).

(** The method of a [MethodsRequest]; a failed [NewMethodsRequest] leaves none. *)
Fixpoint Select (methods : bytes) (method : byte) : bool :=
  match methods with
  | [] => false
  | m :: ms => if bool_decide (m = method) then true else Select ms method
  end.

Definition MethodsRequest_Reply (method : byte) : io conn unit := Write [VERSION_V5; method].

Record UDPPacket := mkUDPPacket {
  u_frag : byte; u_atype : byte; u_dstHost : bytes; u_dstPort : bytes;
  u_data : bytes; u_header : bytes; u_bytes : bytes;
}.

(** The host and the port's index of a UDP packet, by address type; [5 +
    domainLen] is a [uint8] sum. *)
Definition udp_host (b : bytes) (atype : byte) : outcome (bytes * Z) :=
  if bool_decide (atype = ATYP_IPV4) then
    x ← idx b 4; y ← idx b 5; z ← idx b 6; w ← idx b 7;
    Ok (ip_String (IPv4 x y z w), 8)
  else if bool_decide (atype = ATYP_DOMAIN) then
    l ← idx b 4;
    let e := u8add 5 (b2z l) in
    h ← slice b 5 e; Ok (h, e)
  else if bool_decide (atype = ATYP_IPV6) then ip ← ip6_at4 b; Ok (ip_String ip, 20)
  else Ok ([], 0).

Definition ParseUDPPacket (b : bytes) : outcome UDPPacket :=
  frag ← idx b 2;
  if negb (bool_decide (frag = zero)) then
    _ ← slice b 0 4; Fail (ErrMsg "FRAG only support for 0 , %v ,%v")
  else
    atype ← idx b 3;
    '(host, portIndex) ← udp_host b atype;
    port ← port_at b portIndex (portIndex + 1);
    data ← slice_from b (portIndex + 2);
    header ← slice b 0 (portIndex + 2);
    Ok (mkUDPPacket frag atype host port data header b).

Definition UDPPacket_NewReply (s : UDPPacket) (data : bytes) : bytes := u_header s ++ data.

Record PacketUDP := mkPacketUDP {
  p_rsv : Z; p_frag : byte; p_atype : byte;
  p_dstHost : bytes; p_dstPort : bytes; p_data : bytes;
}.

Definition NewPacketUDP : PacketUDP := mkPacketUDP 0 zero zero [] [] [].

(** [p.Build(destAddr, data)]: the receiver is the state, an error leaves the
    fields set so far. *)
Definition Build (destAddr data : bytes) : io PacketUDP unit :=
  '(host, port) ← io_lift (SplitHostPort destAddr);
  _ ← io_modify (fun p => mkPacketUDP 0 zero ATYP_IPV4 host port (p_data p));
  let set_atype t := io_modify (fun p =>
    mkPacketUDP (p_rsv p) (p_frag p) t (p_dstHost p) (p_dstPort p) (p_data p)) in
  _ ← (let ip := ParseIP host in
       if negb (bool_decide (ip = [])) then
         if negb (bool_decide (To4 ip = [])) then set_atype ATYP_IPV4
         else set_atype ATYP_IPV6
       else if 255 <? len host then
         io_fail (ErrMsg "proxy: destination host name too long: ")
       else set_atype ATYP_DOMAIN);
  io_modify (fun p =>
    mkPacketUDP (p_rsv p) (p_frag p) (p_atype p) (p_dstHost p) (p_dstPort p) data).

(** The length [p.Parse] asks for, by address type *)
Definition udp_too_short (b : bytes) (atype : byte) : outcome bool :=
  if bool_decide (atype = ATYP_IPV4) then Ok (len b <? 11)
  else if bool_decide (atype = ATYP_DOMAIN) then l ← idx b 4; Ok (len b <? b2z l + 7)
  else if bool_decide (atype = ATYP_IPV6) then Ok (len b <? 22)
  else Ok false.

Definition Parse (b : bytes) : io PacketUDP unit :=
  let too_short := io_fail (ErrMsg "too short packet") in
  if len b <? 9 then too_short
  else
    frag ← io_lift (idx b 2);
    _ ← io_modify (fun p =>
      mkPacketUDP (p_rsv p) frag (p_atype p) (p_dstHost p) (p_dstPort p) (p_data p));
    if negb (bool_decide (frag = zero)) then
      _ ← io_lift (slice b 0 4); io_fail (ErrMsg "FRAG only support for 0 , %v ,%v")
    else
      atype ← io_lift (idx b 3);
      _ ← io_modify (fun p =>
        mkPacketUDP (p_rsv p) (p_frag p) atype (p_dstHost p) (p_dstPort p) (p_data p));
      short ← io_lift (udp_too_short b atype);
      if short : bool then too_short
      else
        '(host, portIndex) ← io_lift (udp_host b atype);
        known ← io_gets (fun p => if bool_decide (portIndex = 0) then p_dstHost p else host);
        _ ← io_modify (fun p =>
          mkPacketUDP (p_rsv p) (p_frag p) (p_atype p) known (p_dstPort p) (p_data p));
        port ← io_lift (port_at b portIndex (portIndex + 1));
        _ ← io_modify (fun p =>
          mkPacketUDP (p_rsv p) (p_frag p) (p_atype p) (p_dstHost p) port (p_data p));
        data ← io_lift (slice_from b (portIndex + 2));
        io_modify (fun p =>
          mkPacketUDP (p_rsv p) (p_frag p) (p_atype p) (p_dstHost p) (p_dstPort p) data).

(** [binary.Write(_, binary.BigEndian, uint64)] *)
Definition be64_bytes (p : Z) : bytes :=
  map (fun k => z2b (Z.shiftr p (8 * Z.of_nat k))) (rev (seq 0 8)).

Definition PacketUDP_Header (p : PacketUDP) : outcome bytes :=
  let header := [zero; zero; p_frag p; p_atype p] in
  let header :=
    if bool_decide (p_atype p = ATYP_IPV4) then header ++ To4 (ParseIP (p_dstHost p))
    else if bool_decide (p_atype p = ATYP_IPV6) then header ++ To16 (ParseIP (p_dstHost p))
    else if bool_decide (p_atype p = ATYP_DOMAIN) then
      header ++ [z2b (len (p_dstHost p))] ++ p_dstHost p
    else header in
  let portBytes := be64_bytes (ParseUint64 (p_dstPort p)) in
  pb ← slice_from portBytes (len portBytes - 2);
  Ok (header ++ pb).

Definition PacketUDP_Bytes (p : PacketUDP) : outcome bytes :=
  h ← PacketUDP_Header p; Ok (h ++ p_data p).

Definition PacketUDP_Addr (p : PacketUDP) : bytes := JoinHostPort (p_dstHost p) (p_dstPort p).

(** * The server (server.go) *)

Record Auth := mkAuth { User : bytes; Password : bytes }.

Section Server.
Context {Center : Type} `{!Authenticator Center}.

(** The fields of [Server] the handshake reads or sets.  [listen] is what
    [net.ListenUDP("udp", ":0")] answers: the bound address or an error. *)
Record Server := mkServer {
  target : bytes;
  pAuth : Auth;
  user : bytes;
  password : bytes;
  basicAuthCenter : option Center;
  header : bytes;
  methodsCount : byte;
  methods : bytes;
  method : byte;
  s_cmd : byte;
  s_reserve : byte;
  s_addressType : byte;
  s_dstAddr : bytes;
  s_dstPort : bytes;
  s_dstHost : bytes;
  enableUDP : bool;
  udpIP : bytes;
  UDPConnListener : option bytes;
}.

Definition NewServer (auth : option Center) (enableUDP : bool)
    (udpHost header : bytes) : Server :=
  mkServer [] (mkAuth [] []) [] [] auth header zero [] zero zero zero zero [] [] []
    enableUDP udpHost None.

Definition set_method (m : byte) (s : Server) : Server :=
  mkServer (target s) (pAuth s) (user s) (password s) (basicAuthCenter s) (header s)
    (methodsCount s) (methods s) m (s_cmd s) (s_reserve s) (s_addressType s)
    (s_dstAddr s) (s_dstPort s) (s_dstHost s) (enableUDP s) (udpIP s) (UDPConnListener s).
Definition set_pAuth (a : Auth) (s : Server) : Server :=
  mkServer (target s) a (user s) (password s) (basicAuthCenter s) (header s)
    (methodsCount s) (methods s) (method s) (s_cmd s) (s_reserve s) (s_addressType s)
    (s_dstAddr s) (s_dstPort s) (s_dstHost s) (enableUDP s) (udpIP s) (UDPConnListener s).
Definition set_listener (l : option bytes) (s : Server) : Server :=
  mkServer (target s) (pAuth s) (user s) (password s) (basicAuthCenter s) (header s)
    (methodsCount s) (methods s) (method s) (s_cmd s) (s_reserve s) (s_addressType s)
    (s_dstAddr s) (s_dstPort s) (s_dstHost s) (enableUDP s) (udpIP s) l.
Definition set_request (m : MethodsRequest) (r : Request) (s : Server) : Server :=
  mkServer (dstAddr r) (pAuth s) (user s) (password s) (basicAuthCenter s) (header s)
    (mcount m) (mmethods m) (method s) (cmd r) (reserve r) (addressType r)
    (dstAddr r) (dstPort r) (dstHost r) (enableUDP s) (udpIP s) (UDPConnListener s).

Definition IsUDP (s : Server) : bool := bool_decide (s_cmd s = CMD_ASSOCIATE).
Definition IsTCP (s : Server) : bool := bool_decide (s_cmd s = CMD_CONNECT).

(** The server object with its connection *)
Definition sstate : Type := Server * conn.
Definition on_conn {A} (m : io conn A) : io sstate A := fun '(s, c) =>
  let '(o, c') := m c in (o, (s, c')).
Definition on_srv {A} (f : Server -> A) : io sstate A := io_gets (fun st => f st.1).
Definition set_srv (f : Server -> Server) : io sstate unit :=
  io_modify (fun st => (f st.1, st.2)).

(** [strings.Split(addr.String(), ":")[0]] *)
Definition addr_head (addr : bytes) : outcome bytes := idx (Split addr [colon]) 0.

(** The username/password exchange of [Handshake]; [remote] and [local] are
    the connection's addresses, [r] is the prefix of the 500-byte buffer that
    was read. *)
Definition user_pass_auth (remote local : bytes) : io sstate unit :=
  r ← io_wrap "read auth info fail,ERR: %s" (on_conn (on_rx (Read 500)));
  let buf := filled 500 r in
  r1 ← io_lift (idx r 1);
  u ← io_lift (slice buf 2 (u8add (b2z r1) 2));
  _ ← set_srv (fun s => set_pAuth (mkAuth u (Password (pAuth s))) s);
  p ← io_lift (slice_from r (u8add (u8add 2 (b2z r1)) 1));
  _ ← set_srv (fun s => set_pAuth (mkAuth (User (pAuth s)) p) s);
  userAddr ← io_lift (addr_head remote);
  localAddr ← io_lift (addr_head local);
  accepted ← on_srv (fun s =>
    match basicAuthCenter s with
    | None => true
    | Some center =>
        auth_verify center (Format (user s) (password s)) userAddr localAddr []
    end);
  if accepted : bool then
    io_wrap "answer auth success to %s fail,ERR: %s" (on_conn (Write [z2b 1; z2b 0]))
  else
    _ ← io_wrap "answer auth fail to %s fail,ERR: %s" (on_conn (Write [z2b 1; z2b 1]));
    io_fail (ErrMsg "auth fail from %s").

(** Method selection, with the exchange that method asks for *)
Definition negotiate (m : MethodsRequest) (remote local : bytes) : io sstate unit :=
  nocenter ← on_srv (fun s => match basicAuthCenter s with None => true | _ => false end);
  if nocenter && Select (mmethods m) Method_NO_AUTH
     && negb (Select (mmethods m) Method_USER_PASS) then
    _ ← set_srv (set_method Method_NO_AUTH);
    io_wrap "reply answer data fail,ERR: %s" (on_conn (MethodsRequest_Reply Method_NO_AUTH))
  else if negb (Select (mmethods m) Method_USER_PASS) then
    _ ← io_try (on_conn (MethodsRequest_Reply Method_NONE_ACCEPTABLE));
    io_fail (ErrMsg "none method found : Method_USER_PASS")
  else
    _ ← set_srv (set_method Method_USER_PASS);
    _ ← io_wrap "reply answer data fail,ERR: %s"
          (on_conn (MethodsRequest_Reply Method_USER_PASS));
    user_pass_auth remote local.

(** The answer to the request, by command *)
Definition answer (listen : outcome bytes) (r : Request) : io sstate unit :=
  if bool_decide (cmd r = CMD_BIND) then
    _ ← io_wrap "TCPReply REP_UNKNOWN to %s fail,ERR: %s" (on_conn (TCPReply REP_UNKNOWN));
    io_fail (ErrMsg "cmd bind not supported, form: %s")
  else if bool_decide (cmd r = CMD_CONNECT) then
    io_wrap "TCPReply REP_SUCCESS to %s fail,ERR: %s" (on_conn (TCPReply REP_SUCCESS))
  else if bool_decide (cmd r = CMD_ASSOCIATE) then
    enabled ← on_srv enableUDP;
    if negb enabled then
      _ ← io_wrap "UDPReply REP_UNKNOWN to %s fail,ERR: %s"
            (on_conn (UDPReply REP_UNKNOWN (lit "0.0.0.0:0")));
      io_fail (ErrMsg "cmd associate not supported, form: %s")
    else
      l ← io_try (io_lift listen);
      match l with
      | inr e =>
          _ ← set_srv (set_listener None);
          _ ← io_try (on_conn (UDPReply REP_UNKNOWN (lit "0.0.0.0:0")));
          io_fail (ErrWrap "udp bind fail,ERR: %s , for %s" e)
      | inl laddr =>
          _ ← set_srv (set_listener (Some laddr));
          let port := match SplitHostPort laddr with Ok (_, p) => p | _ => [] end in
          ip ← on_srv udpIP;
          io_wrap "UDPReply REP_SUCCESS to %s fail,ERR: %s"
            (on_conn (UDPReply REP_SUCCESS (JoinHostPort ip port)))
      end
  else mret tt.

Definition Handshake (remote local : bytes) (listen : outcome bytes) : io sstate unit :=
  hdr ← on_srv header;
  m ← io_try (on_conn (NewMethodsRequest [hdr]));
  match m with
  | inr e =>
      _ ← io_try (on_conn (MethodsRequest_Reply Method_NONE_ACCEPTABLE));
      io_fail (ErrWrap "new methods request fail,ERR: %s" e)
  | inl methodReq =>
      _ ← negotiate methodReq remote local;
      request ← io_wrap "read request data fail,ERR: %s" (on_conn NewRequest);
      _ ← answer listen request;
      set_srv (set_request methodReq request)
  end.

End Server.
Arguments Server : clear implicits.
Arguments sstate : clear implicits.

(** * The client (client.go) *)

Definition socks5Errors : list string :=
  [""; "general failure"; "connection forbidden"; "network unreachable";
   "host unreachable"; "connection refused"; "TTL expired";
   "command not supported"; "address type not supported"].

Inductive network := tcp | udp.
#[export] Instance network_eq_dec : EqDecision network.
Proof. solve_decision. Defined.

Record Client := mkClient {
  auth : Auth; c_header : bytes; addr : bytes; c_network : network; UDPAddr : bytes;
}.

Definition NewClient (net : network) (target : bytes) (a : option Auth) (header : bytes)
  : Client :=
  let au := match a with Some a => a | None => mkAuth [] [] end in
  let target :=
    if bool_decide (net = udp) && bool_decide (target = []) then lit "0.0.0.0:0"
    else target in
  mkClient au header target net [].

Definition greeting (a : Auth) : bytes :=
  if (0 <? len (User a)) && (len (User a) <? 256) && (len (Password a) <? 256) then
    [VERSION_V5; z2b 2; Method_NO_AUTH; Method_USER_PASS]
  else [VERSION_V5; z2b 1; Method_NO_AUTH].

(** The RFC 1929 message *)
Definition auth_message (a : Auth) : bytes :=
  [z2b 1; z2b (len (User a))] ++ User a ++ [z2b (len (Password a))] ++ Password a.

Definition client_greet (s : Client) : io conn unit :=
  _ ← io_wrap "proxy: failed to write greeting to SOCKS5 proxy at " (Write (greeting (auth s)));
  buf ← io_wrap "proxy: failed to read greeting from SOCKS5 proxy at " (on_rx (ReadFull 2));
  b0 ← io_lift (idx buf 0);
  b1 ← io_lift (idx buf 1);
  if negb (bool_decide (b0 = z2b 5)) then
    io_fail (ErrMsg "proxy: SOCKS5 proxy has unexpected version ")
  else if bool_decide (b1 = z2b 255) then
    io_fail (ErrMsg "proxy: SOCKS5 proxy requires authentication")
  else if bool_decide (b1 = Method_USER_PASS) then
    _ ← io_wrap "proxy: failed to write authentication request to SOCKS5 proxy at "
          (Write (auth_message (auth s)));
    buf ← io_wrap "proxy: failed to read authentication reply from SOCKS5 proxy at "
          (on_rx (ReadFull 2));
    r ← io_lift (idx buf 1);
    if negb (bool_decide (r = zero)) then
      io_fail (ErrMsg "proxy: SOCKS5 proxy rejected username/password")
    else mret tt
  else mret tt.

(** The connect or associate request the client writes *)
Definition request_bytes (net : network) (host : bytes) (port : Z) : outcome bytes :=
  let buf := [VERSION_V5; if bool_decide (net = tcp) then CMD_CONNECT else CMD_ASSOCIATE; z2b 0] in
  let ip := ParseIP host in
  buf ←
    (if negb (bool_decide (ip = [])) then
       if negb (bool_decide (To4 ip = [])) then Ok (buf ++ [ATYP_IPV4] ++ To4 ip)
       else Ok (buf ++ [ATYP_IPV6] ++ ip)
     else if 255 <? len host then Fail (ErrMsg "proxy: destination host name too long: ")
     else Ok (buf ++ [ATYP_DOMAIN; z2b (len host)] ++ host));
  Ok (buf ++ [z2b (Z.shiftr port 8); z2b port]).

(** How many bytes of address the reply announces *)
Definition reply_addr_len (t : byte) : io conn Z :=
  if bool_decide (t = ATYP_IPV4) then mret IPv4len
  else if bool_decide (t = ATYP_IPV6) then mret IPv6len
  else if bool_decide (t = ATYP_DOMAIN) then
    b ← io_wrap "proxy: failed to read domain length from SOCKS5 proxy at " (on_rx (ReadFull 1));
    l ← io_lift (idx b 0);
    mret (b2z l)
  else io_fail (ErrMsg "proxy: got unknown address type from SOCKS5 proxy").

Definition reply_ip (n : Z) (ip : IP) : bytes :=
  if (n =? IPv4len) || (n =? IPv6len) then
    if negb (bool_decide (To4 ip = [])) then ip_String (To4 ip) else ip_String (To16 ip)
  else [].

(** The reply to the request: the bound address, as [UDPAddr] records it *)
Definition client_reply : io conn bytes :=
  buf ← io_wrap "proxy: failed to read connect reply from SOCKS5 proxy at " (on_rx (ReadFull 4));
  b1 ← io_lift (idx buf 1);
  b3 ← io_lift (idx buf 3);
  let failure :=
    if b2z b1 <? len socks5Errors then
      match socks5Errors !! Z.to_nat (b2z b1) with Some m => m | None => ""%string end
    else "unknown error"%string in
  if negb (bool_decide (failure = ""%string)) then
    io_fail (ErrWrap "proxy: SOCKS5 proxy failed to connect: " (ErrMsg failure))
  else
    n ← reply_addr_len b3;
    ip ← io_wrap "proxy: failed to read address from SOCKS5 proxy at "
          (on_rx (ReadFull (Z.to_nat n)));
    pb ← io_wrap "proxy: failed to read port from SOCKS5 proxy at " (on_rx (ReadFull 2));
    h ← io_lift (idx pb 0);
    l ← io_lift (idx pb 1);
    mret (JoinHostPort (reply_ip n ip) (Itoa (be16 h l))).

(** [(s *Client) Handshake()] returns the client with [UDPAddr] filled in. *)
Definition Client_Handshake (s : Client) : io conn Client :=
  '(host, portStr) ← io_lift (SplitHostPort (addr s));
  port ← (match Atoi portStr with
          | Ok p => mret p
          | _ => io_fail (ErrMsg "proxy: failed to parse port number: ")
          end);
  if bool_decide (c_network s = tcp) && ((port <? 1) || (65535 <? port)) then
    io_fail (ErrMsg "proxy: port number out of range: ")
  else
    _ ← client_greet s;
    buf ← io_lift (request_bytes (c_network s) host port);
    _ ← io_wrap "proxy: failed to write connect request to SOCKS5 proxy at " (Write buf);
    u ← client_reply;
    mret (mkClient (auth s) (c_header s) (addr s) (c_network s) u).

(** * Laws of the wire structures *)

Lemma idx_filled (n : nat) (d : bytes) (i : Z) (x : byte) :
  idx d i = Ok x -> idx (filled n d) i = Ok x.
Proof.
  intros H. unfold idx, filled in *. destruct (0 <=? i); [|done].
  destruct (d !! Z.to_nat i) eqn:E; [|done]. by rewrite (lookup_app_l_Some _ _ _ _ E).
Qed.

Lemma length_filled (n : nat) (d : bytes) :
  (length d <= n)%nat -> length (filled n d) = n.
Proof. intros H. unfold filled. rewrite length_app, repeat_length. lia. Qed.

Lemma slice_app_prefix {A} (p q : list A) (i j : Z) :
  j <= len p -> 0 <= i <= j -> slice (p ++ q) i j = slice p i j.
Proof.
  intros Hj Hi. unfold slice. rewrite length_app. zdecide. f_equal.
  rewrite drop_app_le, take_app_le; [done|rewrite length_drop; lia|lia].
Qed.

(** Reading a run of bytes one by one *)
Lemma mapM_idx {A} (l : list A) (s n : nat) :
  (s + n <= length l)%nat ->
  mapM (M := outcome) (fun i => idx l (Z.of_nat i)) (seq s n) = Ok (take n (drop s l)).
Proof.
  revert s. induction n as [|n IH]; intros s H; [done|].
  destruct (lookup_lt_is_Some_2 l s) as [x Hx]; [lia|].
  cbn [seq mapM]. rewrite (idx_in l _ x) by (rewrite ?Nat2Z.id; done || lia).
  unfold mbind, outcome_bind at 1. rewrite IH by lia.
  rewrite (drop_S l x s Hx). done.
Qed.

Lemma mapM_idx_panic {A} (l : list A) (n : nat) :
  (0 < n)%nat -> l = [] ->
  mapM (M := outcome) (fun i => idx l (Z.of_nat i)) (seq 0 n) = Panic.
Proof. intros Hn ->. destruct n; [lia|]. done. Qed.

Lemma lor_be16 (h l : byte) : Z.lor (Z.shiftl (b2z h) 8) (b2z l) = be16 h l.
Proof.
  unfold be16. byte_bounds. rewrite Z.lor_comm, Z.shiftl_mul_pow2 by lia.
  change (2 ^ 8) with 256.
  assert (Z.land (b2z l) (b2z h * 256) = 0) as HL.
  { apply Z.bits_inj'. intros k Hk. rewrite Z.land_spec, Z.bits_0.
    destruct (Z.ltb_spec k 8).
    - rewrite (Z.mul_pow2_bits_low _ 8) by lia. by rewrite andb_false_r.
    - rewrite (Z.bits_above_log2 (b2z l)); [done|lia|].
      destruct (Z.eq_dec (b2z l) 0) as [->|]; [simpl; lia|].
      apply Z.log2_lt_pow2; [lia|]. apply Z.lt_le_trans with (2 ^ 8); [lia|].
      apply Z.pow_le_mono_r; lia. }
  rewrite <- Z.lxor_lor, <- Z.add_nocarry_lxor by done. lia.
Qed.

Lemma port_at_bytes (p : bytes) (port : Z) (q : bytes) :
  0 <= port < 65536 ->
  port_at (p ++ port_bytes port ++ q) (len p) (len p + 1) = Ok (Itoa port).
Proof.
  intros H. unfold port_at, port_bytes.
  rewrite (idx_app_ok p _ (len p) 0 (z2b (Z.shiftr port 8))) by first [reflexivity|lia].
  rewrite (idx_app_ok p _ (len p + 1) 1 (z2b port)) by first [reflexivity|lia].
  unfold mbind, outcome_bind. rewrite lor_be16, port_bytes_be16.
  by rewrite Z.mod_small.
Qed.

(** ** The IPv4-mapped test of [NewReply] *)

Lemma Itoa_zero (b : byte) (r s : bytes) :
  Itoa (b2z b) ++ r = "0"%char :: s -> b = zero /\ r = s.
Proof.
  assert (H : forall a, 0 <= a < 256 -> (a =? 0) ||
    match Itoa a with c :: _ => negb (bool_decide (c = "0"%char)) | [] => false end = true).
  { apply (Z_range_check (fun a => (a =? 0) || match Itoa a with
      c :: _ => negb (bool_decide (c = "0"%char)) | [] => false end) 256).
    vm_compute. reflexivity. }
  intros E. specialize (H _ (b2z_range b)). apply orb_true_iff in H as [H|H].
  - apply Z.eqb_eq in H. rewrite H in E. simplify_eq/=. split; [by apply b2z_inj|done].
  - destruct (Itoa (b2z b)) as [|c t]; [done|]. simplify_eq/=.
Qed.

Lemma Itoa_byte (b : byte) :
  (length (Itoa (b2z b)) <= 3)%nat /\ (Itoa (b2z b) = lit "255" -> b = z2b 255).
Proof.
  assert (H : forall a, 0 <= a < 256 -> (len (Itoa a) <=? 3) &&
    ((a =? 255) || negb (bool_decide (Itoa a = lit "255"))) = true).
  { apply (Z_range_check (fun a => (len (Itoa a) <=? 3) &&
      ((a =? 255) || negb (bool_decide (Itoa a = lit "255")))) 256).
    vm_compute. reflexivity. }
  specialize (H _ (b2z_range b)). zify_bool. split; [lia|]. intros E.
  rewrite (bool_decide_true _ E), orb_false_r in H0. apply Z.eqb_eq in H0.
  by apply b2z_inj.
Qed.

Lemma Itoa_255255 (a b : byte) :
  Itoa (b2z a) ++ Itoa (b2z b) = lit "255255" -> a = z2b 255 /\ b = z2b 255.
Proof.
  intros E. destruct (Itoa_byte a) as [La Ha], (Itoa_byte b) as [Lb Hb].
  pose proof (f_equal length E) as El. rewrite length_app in El. simpl in El.
  change (lit "255255") with (lit "255" ++ lit "255") in E.
  apply app_inj_1 in E as [E1 E2]; [by auto|]. simpl. lia.
Qed.

(** The twelve numbers print as "0000000000255255" for no other prefix than
    the IPv4-mapped one. *)
Lemma zeroi_zeros (k : nat) (t : bytes) (s : bytes) :
  (k <= length t)%nat ->
  concat (map (fun d => Itoa (b2z d)) t) = repeat "0"%char k ++ s ->
  exists u, t = repeat zero k ++ u /\ concat (map (fun d => Itoa (b2z d)) u) = s.
Proof.
  revert t. induction k as [|k IH]; intros t Hk E; [by exists t|].
  destruct t as [|b t]; [simpl in Hk; lia|].
  cbn [map concat] in E. apply Itoa_zero in E as [-> E].
  destruct (IH t) as (u & -> & Hu); [simpl in Hk; lia|done|]. by exists u.
Qed.

Lemma zeroi_mapped (ip : IP) :
  length ip = 16%nat -> zeroi ip = Ok (lit "0000000000255255") ->
  take 12 ip = v4InV6Prefix.
Proof.
  intros Hl. unfold zeroi. rewrite mapM_idx by lia.
  unfold mbind, outcome_bind. rewrite drop_0. intros E. injection E as E.
  assert (Ht : length (take 12 ip) = 12%nat) by (rewrite length_take; lia).
  destruct (zeroi_zeros 10 (take 12 ip) (lit "255255")) as (u & Et & Hu); [lia|done|].
  rewrite Et in Ht |- *. rewrite length_app, repeat_length in Ht.
  destruct u as [|a [|b [|? ?]]]; try (simpl in Ht; lia).
  cbn [map concat] in Hu. rewrite app_nil_r in Hu.
  by apply Itoa_255255 in Hu as [-> ->].
Qed.

(** What [NewReply] answers, by the kind of host: it panics when the host is
    not an IP address. *)
Lemma NewReply_eq (rep : byte) (host port : bytes) (addr : bytes) :
  SplitHostPort addr = Ok (host, port) ->
  NewReply rep addr =
    match ParseIP host with
    | [] => Panic
    | ip => match To4 ip with
            | [] => Ok ([VERSION_V5; rep; RSV; ATYP_IPV6] ++ ip ++ port_bytes (Atoi_val port))
            | ip4 => Ok ([VERSION_V5; rep; RSV; ATYP_IPV4] ++ ip4 ++ port_bytes (Atoi_val port))
            end
    end.
Proof.
  intros E. unfold NewReply. rewrite E, To16_ParseIP.
  destruct (ParseIP_length host) as [H|H]; [by rewrite H|].
  destruct (zeroi (ParseIP host)) as [z| |] eqn:Ez.
  2, 3: unfold zeroi in Ez; by rewrite mapM_idx in Ez by lia.
  unfold mbind, outcome_bind.
  destruct (ParseIP host) as [|x ip] eqn:Ep; [done|].
  rewrite (bool_decide_false (x :: ip = [])) by done.
  destruct (To4 (x :: ip)) eqn:E4; [|by rewrite bool_decide_false].
  rewrite (bool_decide_true ([] = [])) by done.
  rewrite bool_decide_false; [done|]. intros <-.
  apply zeroi_mapped in Ez; [|done]. revert E4. unfold To4. rewrite H.
  rewrite bool_decide_true by done. simpl. intros E4.
  apply (f_equal length) in E4. rewrite length_drop in E4. simpl in H, E4. lia.
Qed.

Lemma To4_ParseIP_cases (host : bytes) :
  (ParseIP host = [] /\ To4 (ParseIP host) = []) \/
  (exists a b c d, ParseIP host = IPv4 a b c d) \/
  (length (ParseIP host) = 16%nat /\ To4 (ParseIP host) = []).
Proof.
  destruct (ParseIP_length host) as [H|H]; [left; by rewrite H|].
  destruct (To4_cases (ParseIP host)) as [E|E]; [by right; right|].
  right; left. destruct (To4 (ParseIP host)) as [|a [|b [|c [|d [|? ?]]]]] eqn:E4; try done.
  exists a, b, c, d. apply To4_mapped in E4; done.
Qed.

(** * Laws of the requests *)

(** The host as the server prints it: an address in canonical form, a name as
    it was sent *)
Definition canon (host : bytes) : bytes :=
  match ParseIP host with [] => host | ip => ip_String ip end.

Lemma canon_ip (host : bytes) : ParseIP host <> [] -> canon host = ip_String (ParseIP host).
Proof. unfold canon. by destruct (ParseIP host). Qed.

Lemma canon_name (host : bytes) : ParseIP host = [] -> canon host = host.
Proof. unfold canon. by intros ->. Qed.

Lemma NewRequest_seg (c : conn) (bs body host : bytes) (r : reader) (cm rs t : byte) (port : Z) :
  rx c = Seg bs :: r -> bs = [z2b 5; cm; rs; t] ++ body ++ port_bytes port ->
  len bs <= 1024 -> 0 <= port < 65536 ->
  request_host (filled 1024 bs) (len bs) = Ok host ->
  NewRequest c =
    (Ok (mkRequest (z2b 5) cm rs t (JoinHostPort host (Itoa port)) (Itoa port) host bs),
     mkConn r (tx c) (wres c) (closed c)).
Proof.
  intros Hrx -> Hl Hp Hh. set (bs := [z2b 5; cm; rs; t] ++ body ++ port_bytes port) in *.
  unfold NewRequest.
  erewrite bind_ok by (apply io_wrap_ok, on_rx_ok; rewrite Hrx; apply Read_seg; lia).
  cbv zeta. do 4 (erewrite bind_lift by (apply idx_filled; reflexivity)).
  rewrite bool_decide_true by done. cbn [negb].
  erewrite bind_lift by exact Hh.
  assert (Ef : filled 1024 bs = ([z2b 5; cm; rs; t] ++ body) ++ port_bytes port
    ++ repeat zero (1024 - length bs)) by (unfold filled, bs; by rewrite <- !app_assoc).
  assert (Hn : len bs - 2 = len ([z2b 5; cm; rs; t] ++ body)).
  { unfold bs. rewrite !length_app. simpl. lia. }
  erewrite bind_lift.
  2: { rewrite Ef, Hn. replace (len bs - 1) with (len ([z2b 5; cm; rs; t] ++ body) + 1) by lia.
       by apply port_at_bytes. }
  erewrite bind_lift by (apply slice_app_l; done). done.
Qed.

Lemma request_host_v4 (x y z w : byte) (p q : bytes) (k : Z) :
  length p = 3%nat ->
  request_host (p ++ ATYP_IPV4 :: [x; y; z; w] ++ q) k = Ok (ip_String (IPv4 x y z w)).
Proof. destruct p as [|? [|? [|? [|? ?]]]]; try done. Qed.

Lemma request_host_domain (host : bytes) (p q : bytes) (l : byte) (k : Z) :
  length p = 3%nat -> k = 7 + len host ->
  request_host (p ++ [ATYP_DOMAIN; l] ++ host ++ q) k = Ok host.
Proof.
  intros Hp ->. destruct p as [|a [|b [|c [|? ?]]]]; try done.
  change (([a; b; c] ++ [ATYP_DOMAIN; l] ++ host ++ q))
    with ([a; b; c; ATYP_DOMAIN; l] ++ host ++ q).
  change (request_host ([a; b; c; ATYP_DOMAIN; l] ++ host ++ q) (7 + len host))
    with (slice ([a; b; c; ATYP_DOMAIN; l] ++ host ++ q) 5 (7 + len host - 2)).
  apply slice_app_mid; simpl; lia.
Qed.

Lemma request_host_v6 (ip : IP) (p q : bytes) (k : Z) :
  length p = 3%nat -> length ip = 16%nat ->
  request_host (p ++ ATYP_IPV6 :: ip ++ q) k = Ok (ip_String ip).
Proof.
  intros Hp Hi. destruct p as [|a [|b [|c [|? ?]]]]; try done.
  set (l := [a; b; c] ++ _).
  change (request_host l k) with (ip ← ip6_at4 l; Ok (ip_String ip)).
  unfold ip6_at4. rewrite mapM_idx by (unfold l; rewrite !length_app; simpl; rewrite length_app; lia).
  unfold mbind, outcome_bind. change (drop 4 l) with (ip ++ q).
  by rewrite take_app_length' by done.
Qed.

(** The shape of every request the client writes *)
Lemma request_bytes_shape (net : network) (host bs : bytes) (port : Z) :
  request_bytes net host port = Ok bs ->
  exists t body,
    bs = [z2b 5; if bool_decide (net = tcp) then CMD_CONNECT else CMD_ASSOCIATE; z2b 0; t]
           ++ body ++ port_bytes port /\
    len bs <= 262 /\
    request_host (filled 1024 bs) (len bs) = Ok (canon host).
Proof.
  unfold request_bytes. rewrite outcome_bind_ok. intros (buf & Hb & E).
  injection E as <-. set (cm := if bool_decide (net = tcp) then _ else _) in *.
  destruct (To4_ParseIP_cases host) as [[E E4]|[(x & y & z & w & E)|[E E4]]].
  - rewrite (canon_name _ E). rewrite E in *. rewrite bool_decide_true in Hb by done.
    cbn [negb] in Hb. destruct (Z.ltb_spec 255 (len host)); [done|]. injection Hb as <-.
    exists ATYP_DOMAIN, ([z2b (len host)] ++ host). split; [done|]. split.
    + rewrite !length_app. simpl. lia.
    + unfold filled. rewrite <- !app_assoc.
      apply (request_host_domain host [VERSION_V5; cm; z2b 0]); [done|].
      rewrite !length_app. simpl. lia.
  - rewrite canon_ip by (by rewrite E). rewrite E in *. cbn [negb] in Hb. injection Hb as <-.
    exists ATYP_IPV4, [x; y; z; w]. split; [done|]. split; [done|].
    unfold filled. rewrite <- !app_assoc.
    by apply (request_host_v4 x y z w [VERSION_V5; cm; z2b 0]).
  - rewrite canon_ip by (intros E0; by rewrite E0 in E).
    rewrite E4 in Hb. rewrite (bool_decide_false (ParseIP host = [])) in Hb
      by (intros E0; by rewrite E0 in E).
    cbn [negb] in Hb. rewrite bool_decide_true in Hb by done. injection Hb as <-.
    exists ATYP_IPV6, (ParseIP host). split; [done|]. split.
    + rewrite !length_app. cbn [length Nat.add] in *. lia.
    + unfold filled. rewrite <- !app_assoc.
      by apply (request_host_v6 (ParseIP host) [VERSION_V5; cm; z2b 0]).
Qed.

(** The server understands what the client asks for. *)
Lemma request_understood (net : network) (host bs : bytes) (port : Z) (c : conn) (r : reader) :
  request_bytes net host port = Ok bs -> 0 <= port < 65536 -> rx c = Seg bs :: r ->
  exists t, NewRequest c =
    (Ok (mkRequest (z2b 5) (if bool_decide (net = tcp) then CMD_CONNECT else CMD_ASSOCIATE)
           (z2b 0) t (JoinHostPort (canon host) (Itoa port)) (Itoa port) (canon host) bs),
     mkConn r (tx c) (wres c) (closed c)).
Proof.
  intros Hb Hp Hr. apply request_bytes_shape in Hb as (t & body & -> & Hl & Hh).
  exists t. eapply NewRequest_seg; [exact Hr|reflexivity|lia|done|exact Hh].
Qed.

(** * Laws of the handshake *)

Section Laws.
Context {Center : Type} `{!Authenticator Center}.
Implicit Types (s : Server Center) (c : conn) (st : sstate Center).

Lemma on_conn_ok {A} (m : io conn A) s c c' (a : A) :
  m c = (Ok a, c') -> on_conn m (s, c) = (Ok a, (s, c')).
Proof. unfold on_conn. by intros ->. Qed.

Lemma on_conn_inv {A} (m : io conn A) st st' (a : A) :
  on_conn m st = (Ok a, st') -> st'.1 = st.1 /\ m st.2 = (Ok a, st'.2).
Proof.
  destruct st as [s c]. unfold on_conn. destruct (m c) as [o c'] eqn:E.
  intros H. by simplify_eq/=.
Qed.

Lemma bind_srv {A B} (f : Server Center -> A) (k : A -> io (sstate Center) B) st :
  (on_srv f ≫= k) st = k (f st.1) st.
Proof. done. Qed.

Lemma bind_set {B} (f : Server Center -> Server Center)
    (k : unit -> io (sstate Center) B) s c :
  (set_srv f ≫= k) (s, c) = k tt (f s, c).
Proof. done. Qed.

(** The steps that only set the chosen method or the received credentials
    leave what the verification uses alone. *)
Definition same_auth (s s' : Server Center) : Prop :=
  basicAuthCenter s' = basicAuthCenter s /\ user s' = user s /\ password s' = password s.

Lemma addr_head_ok (a : bytes) : exists h, addr_head a = Ok h.
Proof.
  unfold addr_head. apply idx_total. pose proof (Split_nonempty a [colon]).
  destruct (Split a [colon]); [done|]. simpl. lia.
Qed.

(** A username/password message as RFC 1929 has it is taken apart at its
    length bytes, for user names of at most 252 bytes. *)
Lemma auth_message_parts (a : Auth) :
  len (User a) <= 252 -> len (User a) + len (Password a) <= 497 ->
  let r := auth_message a in
  (length r <= 500)%nat /\
  idx r 1 = Ok (z2b (len (User a))) /\
  slice (filled 500 r) 2 (u8add (b2z (z2b (len (User a)))) 2) = Ok (User a) /\
  slice_from r (u8add (u8add 2 (b2z (z2b (len (User a))))) 1) = Ok (Password a).
Proof.
  intros Hu Hp r. rewrite b2z_z2b_small by lia. unfold u8add.
  rewrite !Z.mod_small by (rewrite ?Z.mod_small; lia).
  assert (Hr : r = [z2b 1; z2b (len (User a))] ++ User a
    ++ [z2b (len (Password a))] ++ Password a) by done.
  split_and!.
  - rewrite Hr, !length_app. simpl. lia.
  - done.
  - unfold filled. rewrite Hr, <- !app_assoc. apply slice_app_mid; simpl; lia.
  - rewrite Hr, !app_assoc. unfold slice_from.
    rewrite <- (app_nil_r (_ ++ Password a)) at 1. rewrite <- app_assoc.
    apply slice_app_mid; rewrite !length_app; simpl; lia.
Qed.

(** The decision the server takes on the credentials *)
Definition decision (remote local : bytes) s : bool :=
  match basicAuthCenter s, addr_head remote, addr_head local with
  | Some center, Ok r, Ok l => auth_verify center (Format (user s) (password s)) r l []
  | _, _, _ => true
  end.

Lemma user_pass_auth_eq (remote local : bytes) (a : Auth) s c (r : reader) :
  rx c = Seg (auth_message a) :: r -> wres c = [] ->
  len (User a) <= 252 -> len (User a) + len (Password a) <= 497 ->
  user_pass_auth remote local (s, c) =
    (if decision remote local s then Ok tt else Fail (ErrMsg "auth fail from %s"),
     (set_pAuth a s,
      mkConn r (tx c ++ [[z2b 1; if decision remote local s then z2b 0 else z2b 1]])
        [] (closed c))).
Proof.
  intros Hrx Hw Hu Hp. destruct (auth_message_parts a Hu Hp) as (Hl & H1 & H2 & H3).
  destruct (addr_head_ok remote) as [ur Hur], (addr_head_ok local) as [lr Hlr].
  unfold user_pass_auth, decision. rewrite Hur, Hlr.
  erewrite bind_ok by (apply io_wrap_ok, on_conn_ok, on_rx_ok; rewrite Hrx; by apply Read_seg).
  cbv zeta. erewrite bind_lift by exact H1. erewrite bind_lift by exact H2.
  rewrite bind_set. erewrite bind_lift by exact H3. rewrite bind_set.
  do 2 (erewrite bind_lift by done). rewrite bind_srv. cbn [fst basicAuthCenter user password set_pAuth].
  destruct a as [u p]. cbn [User Password pAuth set_pAuth].
  destruct (basicAuthCenter s) as [center|].
  - destruct (auth_verify _ _ _ _ _).
    + etrans; [by apply io_wrap_ok, on_conn_ok, Write_ok|done].
    + erewrite bind_ok; [|apply io_wrap_ok, on_conn_ok, Write_ok; done]. done.
  - etrans; [by apply io_wrap_ok, on_conn_ok, Write_ok|done].
Qed.

Lemma NewMethodsRequest_seg (h : bytes) c (r : reader) (ms : bytes) :
  len h <= 1 -> rx c = Seg ([z2b 5; z2b (len ms)] ++ ms) :: r -> len ms <= 255 ->
  NewMethodsRequest [h] c =
    (Ok (mkMethodsRequest (z2b 5) (z2b (len ms)) ms ([z2b 5; z2b (len ms)] ++ ms)),
     mkConn r (tx c) (wres c) (closed c)).
Proof.
  intros Hh Hrx Hm. set (d := [z2b 5; z2b (len ms)] ++ ms) in *.
  assert (Hd : len d = len ms + 2) by (unfold d; rewrite length_app; simpl; lia).
  unfold NewMethodsRequest. zdecide.
  erewrite bind_ok.
  2: { erewrite bind_ok by (apply on_rx_ok; rewrite Hrx; apply Read_seg; lia). done. }
  cbv beta iota.
  erewrite bind_lift by (apply idx_filled; reflexivity).
  rewrite bool_decide_true by done. cbn [negb].
  erewrite bind_lift by (apply idx_filled; reflexivity).
  rewrite b2z_z2b_small by lia. rewrite (proj2 (Z.eqb_eq (len d) _)) by lia. cbn [negb].
  erewrite bind_lift.
  2: { unfold filled, d. rewrite <- app_assoc. apply slice_app_mid; simpl; lia. }
  erewrite bind_lift by (by apply slice_app_l). done.
Qed.

Definition zero_reply (rep : byte) : bytes :=
  [VERSION_V5; rep; RSV; ATYP_IPV4] ++ repeat zero 6.

Lemma TCPReply_ok (rep : byte) c :
  wres c = [] ->
  TCPReply rep c = (Ok tt, mkConn (rx c) (tx c ++ [zero_reply rep]) [] (closed c)).
Proof. intros H. unfold TCPReply, UDPReply. by apply Write_ok. Qed.

Lemma answer_connect (listen : outcome bytes) (q : Request) s c :
  cmd q = CMD_CONNECT -> wres c = [] ->
  answer listen q (s, c) =
    (Ok tt, (s, mkConn (rx c) (tx c ++ [zero_reply REP_SUCCESS]) [] (closed c))).
Proof.
  intros Hq Hw. unfold answer. rewrite Hq. rewrite bool_decide_false, bool_decide_true by done.
  by apply io_wrap_ok, on_conn_ok, TCPReply_ok.
Qed.

(** Method selection on the two greetings the client sends *)
Lemma negotiate_none (remote local : bytes) (m : MethodsRequest) s c :
  mmethods m = [Method_NO_AUTH] -> basicAuthCenter s = None -> wres c = [] ->
  negotiate m remote local (s, c) =
    (Ok tt, (set_method Method_NO_AUTH s,
       mkConn (rx c) (tx c ++ [[VERSION_V5; Method_NO_AUTH]]) [] (closed c))).
Proof.
  intros Hm Hc Hw. unfold negotiate. rewrite bind_srv. simpl. rewrite Hc, Hm. simpl.
  rewrite bind_set. by apply io_wrap_ok, on_conn_ok, Write_ok.
Qed.

Lemma negotiate_user (remote local : bytes) (m : MethodsRequest) s c :
  Select (mmethods m) Method_USER_PASS = true -> wres c = [] ->
  negotiate m remote local (s, c) =
    user_pass_auth remote local (set_method Method_USER_PASS s,
       mkConn (rx c) (tx c ++ [[VERSION_V5; Method_USER_PASS]]) [] (closed c)).
Proof.
  intros Hm Hw. unfold negotiate. rewrite bind_srv. rewrite Hm, andb_false_r. cbn [negb].
  rewrite bind_set. erewrite bind_ok; [done|].
  by apply io_wrap_ok, on_conn_ok, Write_ok.
Qed.

(** The last leg of the handshake of a connect request *)
Lemma finish_connect (listen : outcome bytes) (m : MethodsRequest) (host bs : bytes)
    (port : Z) s c (r : reader) :
  request_bytes tcp host port = Ok bs -> 0 <= port < 65536 ->
  rx c = Seg bs :: r -> wres c = [] ->
  exists s',
    (request ← io_wrap "read request data fail,ERR: %s" (on_conn NewRequest);
     _ ← answer listen request; set_srv (set_request m request)) (s, c) =
    (Ok tt, (s', mkConn r (tx c ++ [zero_reply REP_SUCCESS]) [] (closed c))) /\
    target s' = JoinHostPort (canon host) (Itoa port) /\ IsTCP s' = true /\
    pAuth s' = pAuth s /\ method s' = method s.
Proof.
  intros Hb Hp Hrx Hw.
  destruct (request_understood tcp host bs port c r Hb Hp Hrx) as [t Hq].
  eexists. split.
  - erewrite bind_ok by (apply io_wrap_ok, on_conn_ok; exact Hq).
    erewrite bind_ok by (by apply answer_connect). done.
  - done.
Qed.

(** What the server answers when the client sends its messages one per segment *)
Lemma Handshake_no_auth (remote local : bytes) (listen : outcome bytes)
    (host bs : bytes) (port : Z) s :
  request_bytes tcp host port = Ok bs -> 0 <= port < 65536 ->
  header s = [] -> basicAuthCenter s = None ->
  exists s',
    Handshake remote local listen
      (s, conn_of (map Seg [[VERSION_V5; z2b 1; Method_NO_AUTH]; bs])) =
    (Ok tt, (s', mkConn [] [[VERSION_V5; Method_NO_AUTH]; zero_reply REP_SUCCESS] [] false)) /\
    target s' = JoinHostPort (canon host) (Itoa port) /\ IsTCP s' = true /\
    method s' = Method_NO_AUTH.
Proof.
  intros Hb Hp Hh Hc. unfold Handshake. rewrite bind_srv. cbn [fst]. rewrite Hh.
  erewrite bind_ok
    by (apply io_try_ok, on_conn_ok;
        eapply (NewMethodsRequest_seg [] _ _ [Method_NO_AUTH]); first [reflexivity|simpl; lia]).
  cbn iota. erewrite bind_ok by (by apply negotiate_none).
  edestruct finish_connect as (s' & H & ? & ? & ? & Hm); [exact Hb|exact Hp| | |].
  3: { eexists. split; [exact H|]. split_and!; [done|done|]. by rewrite Hm. }
  all: done.
Qed.

Lemma Handshake_user (remote local : bytes) (listen : outcome bytes)
    (host bs : bytes) (port : Z) (a : Auth) s :
  request_bytes tcp host port = Ok bs -> 0 <= port < 65536 -> header s = [] ->
  len (User a) <= 252 -> len (User a) + len (Password a) <= 497 ->
  decision remote local s = true ->
  exists s',
    Handshake remote local listen
      (s, conn_of (map Seg
        [[VERSION_V5; z2b 2; Method_NO_AUTH; Method_USER_PASS]; auth_message a; bs])) =
    (Ok tt, (s', mkConn [] [[VERSION_V5; Method_USER_PASS]; [z2b 1; z2b 0];
                            zero_reply REP_SUCCESS] [] false)) /\
    target s' = JoinHostPort (canon host) (Itoa port) /\ IsTCP s' = true /\
    method s' = Method_USER_PASS /\ pAuth s' = a.
Proof.
  intros Hb Hp Hh Hu Hup Hd. unfold Handshake. rewrite bind_srv. cbn [fst]. rewrite Hh.
  erewrite bind_ok by (apply io_try_ok, on_conn_ok;
    eapply (NewMethodsRequest_seg [] _ _ [Method_NO_AUTH; Method_USER_PASS]);
    first [reflexivity|simpl; lia]).
  cbn iota. erewrite bind_ok.
  2: { rewrite negotiate_user by done. etrans; [by apply user_pass_auth_eq|].
       change (decision _ _ (set_method _ s)) with (decision remote local s).
       rewrite Hd. done. }
  edestruct finish_connect as (s' & H & ? & ? & Ha & Hm); [exact Hb|exact Hp| | |].
  3: { eexists. split; [exact H|]. split_and!; [done|done| |]; [by rewrite Hm|by rewrite Ha]. }
  all: done.
Qed.

End Laws.

(** ** The client's side *)

Lemma read_two (x y : byte) (c : conn) (r : reader) :
  rx c = Seg [x; y] :: r ->
  on_rx (ReadFull 2) c = (Ok [x; y], mkConn r (tx c) (wres c) (closed c)).
Proof. intros H. apply on_rx_ok. rewrite H. by apply (ReadFull_seg [x; y]). Qed.

Lemma client_greet_none (cl : Client) (c : conn) (r : reader) :
  rx c = Seg [VERSION_V5; Method_NO_AUTH] :: r -> wres c = [] ->
  client_greet cl c = (Ok tt, mkConn r (tx c ++ [greeting (auth cl)]) [] (closed c)).
Proof.
  intros Hrx Hw. unfold client_greet.
  erewrite bind_ok by (by apply io_wrap_ok, Write_ok).
  erewrite bind_ok by (apply io_wrap_ok, read_two; exact Hrx).
  done.
Qed.

Lemma client_greet_user (cl : Client) (c : conn) (r : reader) :
  rx c = Seg [VERSION_V5; Method_USER_PASS] :: Seg [z2b 1; z2b 0] :: r -> wres c = [] ->
  client_greet cl c =
    (Ok tt, mkConn r (tx c ++ [greeting (auth cl); auth_message (auth cl)]) [] (closed c)).
Proof.
  intros Hrx Hw. unfold client_greet.
  erewrite bind_ok by (by apply io_wrap_ok, Write_ok).
  erewrite bind_ok by (apply io_wrap_ok, read_two; exact Hrx).
  do 2 (erewrite bind_lift by reflexivity).
  rewrite bool_decide_true by done. rewrite bool_decide_false by done. cbn [negb].
  rewrite bool_decide_true by done.
  erewrite bind_ok by (by apply io_wrap_ok, Write_ok).
  erewrite bind_ok by (apply io_wrap_ok, read_two; reflexivity).
  erewrite bind_lift by reflexivity. rewrite bool_decide_true by done.
  cbn [negb tx closed wres]. by rewrite <- app_assoc.
Qed.

Lemma client_reply_zero (c : conn) (r : reader) :
  rx c = Seg (zero_reply REP_SUCCESS) :: r ->
  client_reply c = (Ok (lit "0.0.0.0:0"), mkConn r (tx c) (wres c) (closed c)).
Proof.
  intros Hrx. unfold client_reply. pose (z n := repeat zero n).
  erewrite bind_ok by (apply io_wrap_ok, on_rx_ok; rewrite Hrx;
    by apply (ReadFull_part [VERSION_V5; REP_SUCCESS; RSV; ATYP_IPV4] (z 6%nat))).
  do 2 (erewrite bind_lift by reflexivity). cbv zeta.
  change (negb (bool_decide _)) with false. cbn iota.
  erewrite bind_ok by reflexivity.
  erewrite bind_ok by (apply io_wrap_ok, on_rx_ok; by apply (ReadFull_part (z 4%nat) (z 2%nat))).
  erewrite bind_ok by (apply io_wrap_ok, on_rx_ok; by apply (ReadFull_seg (z 2%nat))).
  done.
Qed.

(** A client handshake is its greeting followed by its request. *)
Lemma Client_Handshake_run (cl : Client) (host bs : bytes) (port : Z) (c c1 : conn) (r : reader) :
  addr cl = JoinHostPort host (Itoa port) -> plain_host host -> 1 <= port < 65536 ->
  request_bytes (c_network cl) host port = Ok bs ->
  client_greet cl c = (Ok tt, c1) -> wres c1 = [] ->
  rx c1 = Seg (zero_reply REP_SUCCESS) :: r ->
  Client_Handshake cl c =
    (Ok (mkClient (auth cl) (c_header cl) (addr cl) (c_network cl) (lit "0.0.0.0:0")),
     mkConn r (tx c1 ++ [bs]) [] (closed c1)).
Proof.
  intros Ha Hh Hp Hb Hg Hw Hrx. unfold Client_Handshake.
  erewrite bind_lift.
  2: { rewrite Ha. apply SplitHostPort_JoinHostPort; [done|apply plain_port_Itoa; lia]. }
  cbv beta iota. rewrite Atoi_Itoa by (unfold max_int64; lia).
  erewrite bind_ok by reflexivity. zdecide. rewrite andb_false_r.
  erewrite bind_ok by exact Hg. erewrite bind_lift by exact Hb.
  erewrite bind_ok by (by apply io_wrap_ok, Write_ok).
  erewrite bind_ok by (by apply client_reply_zero). done.
Qed.

(** * Laws of the UDP packets *)

(** The address type and bytes a host is sent as *)
Definition udp_wire (host : bytes) : byte * bytes :=
  match ParseIP host with
  | [] => (ATYP_DOMAIN, z2b (len host) :: host)
  | ip => match To4 ip with
          | [] => (ATYP_IPV6, ip)
          | ip4 => (ATYP_IPV4, ip4)
          end
  end.

Definition is_name (host : bytes) : bool := bool_decide (ParseIP host = []).

Definition udp_packet (host : bytes) (port : Z) (data : bytes) : bytes :=
  [zero; zero; zero; (udp_wire host).1] ++ (udp_wire host).2 ++ port_bytes port ++ data.

Lemma udp_wire_cases (host : bytes) :
  (is_name host = true /\ canon host = host /\
    udp_wire host = (ATYP_DOMAIN, z2b (len host) :: host)) \/
  (is_name host = false /\ exists a b c d, ParseIP host = IPv4 a b c d /\
    canon host = ip_String (IPv4 a b c d) /\ udp_wire host = (ATYP_IPV4, [a; b; c; d])) \/
  (is_name host = false /\ length (ParseIP host) = 16%nat /\ To4 (ParseIP host) = [] /\
    canon host = ip_String (ParseIP host) /\ udp_wire host = (ATYP_IPV6, ParseIP host)).
Proof.
  unfold udp_wire, is_name.
  destruct (To4_ParseIP_cases host) as [[E E4]|[(x & y & z & w & E)|[E E4]]].
  - left. rewrite (canon_name _ E). by rewrite E.
  - right; left. rewrite canon_ip by (by rewrite E). rewrite E. by eauto 10.
  - right; right. assert (ParseIP host <> []) by (intros E0; by rewrite E0 in E).
    rewrite canon_ip by done. rewrite bool_decide_false by done.
    destruct (ParseIP host); [done|]. by rewrite E4.
Qed.

(** Where [udp_host] finds the port: the sum of the length byte wraps. *)
Lemma udp_host_eq (host : bytes) (port : Z) (data : bytes) :
  len host <= 255 \/ is_name host = false ->
  udp_host (udp_packet host port data) (udp_wire host).1 =
    if is_name host && (251 <=? len host) then Panic
    else Ok (canon host, 4 + len (udp_wire host).2).
Proof.
  intros Hn. unfold udp_packet.
  destruct (udp_wire_cases host) as [(En & -> & ->)|[(En & a & b & c & d & _ & -> & ->)|
    (En & HL & _ & -> & ->)]]; rewrite En; cbn [fst snd andb].
  - destruct Hn as [Hl|Hn]; [|by rewrite Hn in En].
    change (udp_host ?b ATYP_DOMAIN) with
      (l ← idx b 4; h ← slice b 5 (u8add 5 (b2z l)); Ok (h, u8add 5 (b2z l))).
    change (idx _ 4) with (Ok (z2b (len host))). unfold mbind, outcome_bind.
    rewrite b2z_z2b_small by lia. unfold u8add. destruct (Z.leb_spec 251 (len host)).
    + rewrite <- (Z.mod_add (5 + len host) (-1) 256), Z.mod_small by lia.
      rewrite slice_panic by lia. done.
    + rewrite Z.mod_small by lia.
      change ([zero; zero; zero; ATYP_DOMAIN] ++ (z2b (len host) :: host) ++ _)
        with ([zero; zero; zero; ATYP_DOMAIN; z2b (len host)] ++ host ++ port_bytes port ++ data).
      rewrite slice_app_mid by (simpl; lia). do 2 f_equal. simpl. lia.
  - done.
  - change (udp_host ?b ATYP_IPV6) with (ip ← ip6_at4 b; Ok (ip_String ip, 20)).
    unfold ip6_at4. rewrite mapM_idx by (rewrite !length_app; simpl; lia).
    unfold mbind, outcome_bind.
    change (drop 4 _) with (ParseIP host ++ port_bytes port ++ data).
    rewrite take_app_length' by done. by rewrite HL.
Qed.

(** Everything after the host: the port and the payload *)
Lemma udp_rest_eq (host : bytes) (port : Z) (data : bytes) :
  0 <= port < 65536 ->
  let b := udp_packet host port data in
  let k := 4 + len (udp_wire host).2 in
  port_at b k (k + 1) = Ok (Itoa port) /\ slice_from b (k + 2) = Ok data /\
  slice b 0 (k + 2) = Ok (take (Z.to_nat (k + 2)) b) /\
  take (Z.to_nat (k + 2)) b =
    [zero; zero; zero; (udp_wire host).1] ++ (udp_wire host).2 ++ port_bytes port.
Proof.
  intros Hp b k. unfold udp_packet in b. destruct (udp_wire host) as [t w]. cbn [fst snd] in *.
  assert (Hb : b = ([zero; zero; zero; t] ++ w) ++ port_bytes port ++ data)
    by (unfold b; by rewrite <- app_assoc).
  assert (Hk : k = len ([zero; zero; zero; t] ++ w)) by (unfold k; rewrite length_app; simpl; lia).
  clearbody b k. subst b k. split_and!.
  - by apply port_at_bytes.
  - rewrite app_assoc. unfold slice_from.
    rewrite <- (app_nil_r data) at 1. apply slice_app_mid; rewrite !length_app; simpl; lia.
  - unfold slice. rewrite !length_app. cbn [length port_bytes]. zdecide.
    by rewrite Z.sub_0_r.
  - rewrite app_assoc. rewrite take_app_length'; [by rewrite <- app_assoc|].
    rewrite !length_app. simpl. lia.
Qed.

(** What [Build] leaves in the packet *)
Lemma Build_eq (addr host port data : bytes) (p : PacketUDP) :
  SplitHostPort addr = Ok (host, port) ->
  Build addr data p =
    if is_name host && (255 <? len host) then
      (Fail (ErrMsg "proxy: destination host name too long: "),
       mkPacketUDP 0 zero ATYP_IPV4 host port (p_data p))
    else (Ok tt, mkPacketUDP 0 zero (udp_wire host).1 host port data).
Proof.
  intros E. unfold Build. erewrite bind_lift by exact E. cbv beta iota.
  destruct (udp_wire_cases host) as [(En & _ & ->)|[(En & a & b & c & d & Ei & _ & ->)|
    (En & HL & E4 & _ & ->)]]; rewrite En; cbn [fst snd andb].
  - unfold is_name in En. rewrite En. destruct (255 <? len host); reflexivity.
  - rewrite Ei. reflexivity.
  - unfold is_name in En. rewrite En, E4. reflexivity.
Qed.

(** The wire form of a packet *)
Lemma PacketUDP_Bytes_eq (host : bytes) (port : Z) (data : bytes) :
  0 <= port < 65536 ->
  PacketUDP_Bytes (mkPacketUDP 0 zero (udp_wire host).1 host (Itoa port) data) =
  Ok (udp_packet host port data).
Proof.
  intros Hp. unfold PacketUDP_Bytes, PacketUDP_Header, udp_packet. cbn [p_frag p_atype p_dstHost p_dstPort p_data].
  rewrite ParseUint64_Itoa by lia.
  change (slice_from (be64_bytes port) _) with (Ok (port_bytes port)).
  unfold mbind, outcome_bind. f_equal. rewrite <- !app_assoc.
  destruct (udp_wire_cases host) as [(En & _ & ->)|[(En & a & b & c & d & Ei & _ & ->)|
    (En & HL & E4 & _ & ->)]]; cbn [fst snd].
  - reflexivity.
  - rewrite Ei. reflexivity.
  - rewrite To16_ParseIP, bool_decide_false, bool_decide_true by done.
    by rewrite <- app_assoc.
Qed.

(** The length test of [Parse] on the bytes of a packet *)
Lemma udp_too_short_eq (host : bytes) (port : Z) (data : bytes) :
  len host <= 255 \/ is_name host = false ->
  udp_too_short (udp_packet host port data) (udp_wire host).1 =
    Ok (bool_decide ((udp_wire host).1 = ATYP_IPV4 /\ data = [])).
Proof.
  intros Hn. unfold udp_packet.
  destruct (udp_wire_cases host) as [(En & _ & ->)|[(En & a & b & c & d & Ei & _ & ->)|
    (En & HL & E4 & _ & ->)]]; cbn [fst snd].
  - destruct Hn as [Hn|Hn]; [|by rewrite Hn in En].
    rewrite bool_decide_false by (by intros [? _]).
    unfold udp_too_short. rewrite bool_decide_false, bool_decide_true by done.
    change (idx _ 4) with (Ok (z2b (len host))). unfold mbind, outcome_bind.
    rewrite b2z_z2b_small by lia. rewrite !length_app. f_equal.
    apply Z.ltb_ge. simpl. lia.
  - unfold udp_too_short. rewrite bool_decide_true by done. f_equal.
    destruct data as [|x data]; [done|]. rewrite bool_decide_false by (by intros [_ ?]).
    apply Z.ltb_ge. rewrite !length_app. simpl. lia.
  - rewrite bool_decide_false by (by intros [? _]).
    unfold udp_too_short. rewrite !bool_decide_false, bool_decide_true by done. f_equal.
    apply Z.ltb_ge. rewrite !length_app, HL. simpl. lia.
Qed.

(** [Parse] on the bytes of a packet *)
Lemma Parse_packet (host : bytes) (port : Z) (data : bytes) (q : PacketUDP) :
  0 <= port < 65536 -> len host <= 255 \/ is_name host = false ->
  let b := udp_packet host port data in
  9 <= len b ->
  if bool_decide ((udp_wire host).1 = ATYP_IPV4 /\ data = []) then
    (Parse b q).1 = Fail (ErrMsg "too short packet")
  else if is_name host && (251 <=? len host) then (Parse b q).1 = Panic
  else Parse b q =
    (Ok tt, mkPacketUDP (p_rsv q) zero (udp_wire host).1 (canon host) (Itoa port) data).
Proof.
  intros Hp Hn b H9. unfold Parse. rewrite (proj2 (Z.ltb_ge (len b) 9)) by done.
  erewrite bind_lift by reflexivity. rewrite bind_modify.
  rewrite (bool_decide_true (zero = zero)) by done. cbn [negb].
  erewrite bind_lift by reflexivity. rewrite bind_modify.
  erewrite bind_lift by (by apply udp_too_short_eq).
  destruct (bool_decide (_ /\ _)); [done|].
  pose proof (udp_host_eq host port data Hn) as Hh.
  destruct (is_name host && (251 <=? len host)).
  { by rewrite bind_lift_panic by exact Hh. }
  destruct (udp_rest_eq host port data Hp) as (Hport & Hdata & _).
  erewrite bind_lift by exact Hh. cbv beta iota. rewrite bind_gets, bind_modify.
  erewrite bind_lift by exact Hport. rewrite bind_modify.
  erewrite bind_lift by exact Hdata.
  rewrite bool_decide_false by lia. done.
Qed.

(** * Safety of the authentication *)

Section Safety.
Context {Center : Type} `{!Authenticator Center}.
Implicit Types (s : Server Center) (c : conn) (st : sstate Center).

Lemma io_try_inv {S A} (m : io S A) (s s' : S) (x : A + error) :
  io_try m s = (Ok x, s') -> (m s).2 = s'.
Proof. unfold io_try. destruct (m s) as [[] ?]; intros; by simplify_eq/=. Qed.

Lemma on_conn_keeps {A} (m : io conn A) st : (on_conn m st).2.1 = st.1.
Proof. destruct st as [s c]. unfold on_conn. by destruct (m c). Qed.

Lemma lift_inv {S A B} (m : outcome A) (f : A -> io S B) (st st' : S) (b : B) :
  (io_lift m ≫= f) st = (Ok b, st') -> exists a, m = Ok a /\ f a st = (Ok b, st').
Proof. destruct m; unfold mbind, io_bind, io_lift; naive_solver. Qed.

Lemma user_pass_auth_accepts (remote local : bytes) st st' :
  user_pass_auth remote local st = (Ok tt, st') -> decision remote local st.1 = true.
Proof.
  destruct st as [s0 c0]. unfold user_pass_auth.
  intros (r & [s1 c1] & Hr & H)%bind_inv.
  apply io_wrap_inv, on_conn_inv in Hr as [E0 _]. cbn [fst] in E0. subst s1. cbv zeta in H.
  apply lift_inv in H as (r1 & _ & H). apply lift_inv in H as (u & _ & H).
  rewrite bind_set in H. apply lift_inv in H as (p & _ & H). rewrite bind_set in H.
  apply lift_inv in H as (ur & Hur & H). apply lift_inv in H as (lr & Hlr & H).
  rewrite bind_srv in H.
  unfold decision. cbn [fst basicAuthCenter user password set_pAuth] in *. rewrite Hur, Hlr.
  destruct (basicAuthCenter s0) as [center|]; [|done].
  destruct (auth_verify _ _ _ _ _); [done|].
  by apply bind_inv in H as (? & ? & _ & ?).
Qed.

Lemma negotiate_accepts (m : MethodsRequest) (remote local : bytes) st st' :
  negotiate m remote local st = (Ok tt, st') -> decision remote local st.1 = true.
Proof.
  destruct st as [s0 c0]. unfold negotiate. rewrite bind_srv. intros H. cbn [fst] in *.
  destruct (basicAuthCenter s0) as [center|] eqn:Ec.
  2: { unfold decision. by rewrite Ec. }
  cbn [andb] in H. destruct (Select _ _); cbn [negb] in H.
  - rewrite bind_set in H. io_inv H. apply io_wrap_inv, on_conn_inv in H0 as [E0 _].
    apply user_pass_auth_accepts in H. rewrite E0 in H. exact H.
  - io_inv H. done.
Qed.

Lemma Handshake_accepts (remote local : bytes) (listen : outcome bytes) (s : Server Center) (c : conn) st' :
  Handshake remote local listen (s, c) = (Ok tt, st') -> decision remote local s = true.
Proof.
  unfold Handshake. rewrite bind_srv. intros H. cbn [fst] in H.
  io_inv H. apply io_try_inv in H0.
  assert (E : s0.1 = s) by (rewrite <- H0; apply on_conn_keeps).
  destruct a as [m|e].
  - io_inv H. destruct a. apply negotiate_accepts in H1. by rewrite E in H1.
  - io_inv H. done.
Qed.

End Safety.

(** * Properties *)


(** The credentials the client sends do not take part in the decision.
    On any RFC 1929 message (a user name of at most 252 bytes, within the read
    buffer) the server stores the credentials, and answers success or failure
    by what the center says of the server's own user and password fields. *)
Theorem auth_decision_ignores_credentials {Center : Type} `{!Authenticator Center}
    (remote local : bytes) (a : Auth) (s : Server Center) (c : conn) (r : reader) :
  rx c = Seg (auth_message a) :: r -> wres c = [] ->
  len (User a) <= 252 -> len (User a) + len (Password a) <= 497 ->
  let ok := decision remote local s in
  user_pass_auth remote local (s, c) =
    (if ok then Ok tt else Fail (ErrMsg "auth fail from %s"),
     (set_pAuth a s,
      mkConn r (tx c ++ [[z2b 1; if ok then z2b 0 else z2b 1]]) [] (closed c))).
Proof. intros. by apply user_pass_auth_eq. Qed.

(** C1: client and server complete the handshake together.  For every host
    and port the client can name (and credentials within the message buffer),
    there are messages such that the client, reading the server's, writes the
    client's and succeeds, and the server, reading the client's one message per
    segment, writes the server's and succeeds with the client's target, in the
    canonical form of its host, as a TCP connect.  With user and password set
    the server has received exactly these. *)
Theorem handshake_completes {Center : Type} `{!Authenticator Center}
    (remote local : bytes) (listen : outcome bytes) (s : Server Center) (a : Auth)
    (host : bytes) (port : Z) :
  plain_host host -> 1 <= port < 65536 -> ParseIP host <> [] \/ len host <= 255 ->
  len (User a) <= 252 -> len (Password a) <= 255 -> len (User a) + len (Password a) <= 497 ->
  header s = [] -> decision remote local s = true ->
  User a <> [] \/ basicAuthCenter s = None ->
  let cl := NewClient tcp (JoinHostPort host (Itoa port)) (Some a) [] in
  exists cmsgs smsgs s' cl',
    Client_Handshake cl (conn_of (map Seg smsgs)) = (Ok cl', mkConn [] cmsgs [] false) /\
    Handshake remote local listen (s, conn_of (map Seg cmsgs)) =
      (Ok tt, (s', mkConn [] smsgs [] false)) /\
    target s' = JoinHostPort (canon host) (Itoa port) /\ IsTCP s' = true /\
    (User a <> [] -> pAuth s' = a).
Proof.
  intros Hh Hp Hip Hu Hpw Hup Hhd Hd Hm cl.
  assert (exists bs, request_bytes tcp host port = Ok bs) as [bs Hb].
  { unfold request_bytes.
    destruct (bool_decide (ParseIP host = [])) eqn:E; cbn [negb].
    - apply bool_decide_eq_true in E. destruct Hip as [?|Hl]; [done|].
      zdecide. by eexists.
    - destruct (negb _); by eexists. }
  assert (Hpos : 0 < len (User a) <-> User a <> []) by (destruct (User a); simpl; split; (done || lia)).
  destruct (decide (User a = [])) as [E|E].
  - destruct Hm as [?|Hc]; [done|].
    destruct (Handshake_no_auth remote local listen host bs port s) as (s' & HS & ? & ? & _);
      [done|lia|done|done|].
    exists [[VERSION_V5; z2b 1; Method_NO_AUTH]; bs],
      [[VERSION_V5; Method_NO_AUTH]; zero_reply REP_SUCCESS]. do 2 eexists.
    split; [|split; [exact HS|done]].
    etrans; [eapply (Client_Handshake_run cl host bs port);
      [done|done|done|exact Hb|by apply client_greet_none|done|done]|].
    cbn [tx app conn_of]. unfold greeting. cbn [auth cl NewClient]. rewrite E. done.
  - destruct (Handshake_user remote local listen host bs port a s) as (s' & HS & ? & ? & ? & ?);
      [done|lia|done|done|done|done|].
    exists [[VERSION_V5; z2b 2; Method_NO_AUTH; Method_USER_PASS]; auth_message a; bs],
      [[VERSION_V5; Method_USER_PASS]; [z2b 1; z2b 0]; zero_reply REP_SUCCESS]. do 2 eexists.
    split; [|split; [exact HS|done]].
    etrans; [eapply (Client_Handshake_run cl host bs port);
      [done|done|done|exact Hb|by apply client_greet_user|done|done]|].
    cbn [tx app conn_of]. unfold greeting. cbn [auth cl NewClient].
    apply Hpos in E. zdecide. done.
Qed.

(** A center that accepts every pair, to instantiate the class *)
Definition accept_all : Authenticator unit := fun _ _ _ _ _ => true.


Lemma auth_decision_ignores_credentials_witness :
  user_pass_auth (Center := unit) (Authenticator0 := fun _ _ _ _ _ => false)
    (lit "1.2.3.4:5") (lit "5.6.7.8:9")
    (NewServer (Some tt) false [] [], conn_of [Seg (auth_message (mkAuth (lit "u") (lit "p")))]) =
  (Fail (ErrMsg "auth fail from %s"),
   (set_pAuth (mkAuth (lit "u") (lit "p")) (NewServer (Some tt) false [] []),
    mkConn [] [[z2b 1; z2b 1]] [] false)).
Proof.
  refine (auth_decision_ignores_credentials (Center := unit)
    (Authenticator0 := fun _ _ _ _ _ => false) (lit "1.2.3.4:5") (lit "5.6.7.8:9")
    (mkAuth (lit "u") (lit "p")) (NewServer (Some tt) false [] [])
    (conn_of [Seg (auth_message (mkAuth (lit "u") (lit "p")))]) [] _ _ _ _);
    first [reflexivity|simpl; lia].
Defined.

Lemma handshake_completes_witness :
  exists cmsgs smsgs s' cl',
    Client_Handshake
      (NewClient tcp (JoinHostPort (lit "example.com") (Itoa 443))
         (Some (mkAuth (lit "u") (lit "p"))) [])
      (conn_of (map Seg smsgs)) = (Ok cl', mkConn [] cmsgs [] false) /\
    Handshake (Center := unit) (Authenticator0 := accept_all) (lit "1.2.3.4:5")
      (lit "5.6.7.8:9") (Fail EOF)
      (NewServer (Some tt) false [] [], conn_of (map Seg cmsgs)) =
      (Ok tt, (s', mkConn [] smsgs [] false)) /\
    target s' = lit "example.com:443" /\ IsTCP s' = true /\
    (lit "u" <> [] -> pAuth s' = mkAuth (lit "u") (lit "p")).
Proof.
  apply (handshake_completes (Center := unit) (Authenticator0 := accept_all)
    (lit "1.2.3.4:5") (lit "5.6.7.8:9") (Fail EOF) (NewServer (Some tt) false [] [])
    (mkAuth (lit "u") (lit "p")) (lit "example.com") 443);
    try first [reflexivity|simpl; lia|by left].
  by apply (bool_decide_eq_true_1 (plain_host (lit "example.com"))); vm_compute.
Defined.

(** The reply the server builds, for every address that splits into host
    and port: an IPv4 host gives address type 1 with four bytes, another IP
    address type 4 with its sixteen bytes, the port follows; a host that is not
    an IP address makes the server panic. *)
Theorem NewReply_spec (rep : byte) (addr host port : bytes) :
  SplitHostPort addr = Ok (host, port) ->
  NewReply rep addr =
    match ParseIP host with
    | [] => Panic
    | ip => match To4 ip with
            | [] => Ok ([z2b 5; rep; zero; z2b 4] ++ ip ++ port_bytes (Atoi_val port))
            | ip4 => Ok ([z2b 5; rep; zero; z2b 1] ++ ip4 ++ port_bytes (Atoi_val port))
            end
    end.
Proof. apply NewReply_eq. Qed.

Lemma NewReply_spec_witness :
  NewReply REP_SUCCESS (lit "[2001:db8::1]:1080") =
    Ok ([z2b 5; z2b 0; zero; z2b 4] ++ ParseIP (lit "2001:db8::1") ++ port_bytes 1080).
Proof.
  etrans; [apply (NewReply_spec REP_SUCCESS _ (lit "2001:db8::1") (lit "1080"));
    vm_compute; reflexivity|]. vm_compute. reflexivity.
Defined.

Lemma ip6_at4_filled (d : bytes) :
  (length d <= 1024)%nat -> exists ip, ip6_at4 (filled 1024 d) = Ok ip.
Proof.
  intros H. unfold ip6_at4. rewrite mapM_idx by (rewrite length_filled by done; lia).
  by eexists.
Qed.

Lemma idx_filled_total (d : bytes) (i : Z) :
  (length d <= 1024)%nat -> 0 <= i < 1024 -> exists x, idx (filled 1024 d) i = Ok x.
Proof. intros Hd Hi. apply idx_total. rewrite length_filled by done. lia. Qed.

Lemma request_host_cases (d : bytes) (t : byte) :
  (length d <= 1024)%nat -> idx (filled 1024 d) 3 = Ok t ->
  (request_host (filled 1024 d) (len d) = Panic /\ t = ATYP_DOMAIN /\ len d < 7) \/
  ((exists h, request_host (filled 1024 d) (len d) = Ok h) /\ ~ (t = ATYP_DOMAIN /\ len d < 7)).
Proof.
  intros Hd Ht. unfold request_host. rewrite Ht. unfold mbind, outcome_bind.
  destruct (idx_filled_total d 4) as [? ->]; [done|lia|].
  destruct (idx_filled_total d 5) as [? ->]; [done|lia|].
  destruct (idx_filled_total d 6) as [? ->]; [done|lia|].
  destruct (idx_filled_total d 7) as [? ->]; [done|lia|].
  destruct (ip6_at4_filled d Hd) as [? ->].
  destruct (bool_decide (t = ATYP_IPV4)) eqn:E4.
  { apply bool_decide_eq_true in E4 as ->. right. split; [by eexists|]. by intros [? _]. }
  destruct (bool_decide (t = ATYP_DOMAIN)) eqn:Ed.
  - apply bool_decide_eq_true in Ed as ->. unfold slice. rewrite length_filled by done.
    destruct (Z.leb_spec 5 (len d - 2)); zdecide; [right|left; split_and!; [done|done|lia]].
    split; [by eexists|]. lia.
  - apply bool_decide_eq_false in Ed.
    destruct (bool_decide (t = ATYP_IPV6)); right; (split; [by eexists|]); by intros [? _].
Qed.

Lemma port_at_filled (d : bytes) :
  (0 < length d <= 1024)%nat ->
  (len d = 1 /\ port_at (filled 1024 d) (len d - 2) (len d - 1) = Panic) \/
  (len d <> 1 /\ exists p, port_at (filled 1024 d) (len d - 2) (len d - 1) = Ok p).
Proof.
  intros Hd. destruct (Z.eq_dec (len d) 1) as [E|E].
  - left. split; [done|]. unfold port_at. by rewrite (idx_panic _ (len d - 2)) by lia.
  - right. split; [done|]. unfold port_at.
    destruct (idx_filled_total d (len d - 2)) as [? ->]; [lia|lia|].
    destruct (idx_filled_total d (len d - 1)) as [? ->]; [lia|lia|]. by eexists.
Qed.

Lemma TCPReply_try (rep : byte) (c : conn) :
  exists x c', io_try (TCPReply rep) c = (Ok x, c').
Proof.
  unfold io_try, TCPReply, UDPReply. erewrite bind_lift by reflexivity.
  unfold Write. destruct (wres c) as [|[] ?]; by do 2 eexists.
Qed.

(** On which messages reading a request panics.  A message [d] arrives in
    one segment of at most 1024 bytes; the server panics exactly when it starts
    with version 5 and is one byte long, or announces a domain name and is
    shorter than seven bytes.  Every other message yields a request or an
    error. *)
Theorem NewRequest_panics_iff (d : bytes) (r : reader) (c : conn) :
  rx c = Seg d :: r -> len d <= 1024 ->
  (NewRequest c).1 = Panic <->
    idx d 0 = Ok VERSION_V5 /\
    (len d = 1 \/ idx (filled 1024 d) 3 = Ok ATYP_DOMAIN /\ len d < 7).
Proof.
  intros Hrx Hd. assert (Hd' : (length d <= 1024)%nat) by lia.
  unfold NewRequest.
  erewrite bind_ok by (apply io_wrap_ok, on_rx_ok; rewrite Hrx; by apply Read_seg). cbv zeta.
  destruct (idx_filled_total d 0) as [b0 H0]; [done|lia|].
  destruct (idx_filled_total d 1) as [b1 H1]; [done|lia|].
  destruct (idx_filled_total d 2) as [b2 H2]; [done|lia|].
  destruct (idx_filled_total d 3) as [b3 H3]; [done|lia|].
  do 4 (erewrite bind_lift by eassumption).
  assert (Hi : idx d 0 = Ok VERSION_V5 <-> d <> [] /\ b0 = VERSION_V5).
  { destruct d as [|x d]; [split; [done|by intros []]|].
    assert (idx (filled 1024 (x :: d)) 0 = Ok x) as E by (by apply idx_filled).
    rewrite E in H0. simplify_eq. change (idx (b0 :: d) 0) with (Ok b0). naive_solver. }
  rewrite Hi. clear Hi. destruct (decide (b0 = z2b 5)) as [->|Hb].
  2: { rewrite bool_decide_false by done. cbn [negb]. split; [|by intros [[_ ?] _]].
       match goal with |- context [mbind _ _ ?c1] =>
         destruct (TCPReply_try REP_REQ_FAIL c1) as (x & c' & E) end.
       by erewrite bind_ok by exact E. }
  rewrite bool_decide_true by done. cbn [negb].
  assert (Hne : d <> []) by (by intros ->; simplify_eq/=).
  assert (Hl : (0 < length d <= 1024)%nat) by (destruct d; [done|simpl in *; lia]).
  rewrite H3. destruct (request_host_cases d b3 Hd' H3) as [(E & -> & Hs)|[[h E] Hs]].
  - rewrite bind_lift_panic by done. split; [|done]. intros _. by auto.
  - erewrite bind_lift by exact E.
    destruct (port_at_filled d Hl) as [[E1 Ep]|[E1 [p Ep]]].
    + rewrite bind_lift_panic by done. split; [|done]. intros _. by auto.
    + erewrite bind_lift by exact Ep.
      erewrite bind_lift by (apply slice_app_l; done).
      split; [done|]. intros [_ [?|[? ?]]]; [done|]. simplify_eq. by destruct Hs.
Qed.

Lemma NewRequest_panics_iff_witness :
  let d := [z2b 5; z2b 1; z2b 0; z2b 3; z2b 0] in
  (NewRequest (conn_of [Seg d])).1 = Panic.
Proof.
  apply (NewRequest_panics_iff [z2b 5; z2b 1; z2b 0; z2b 3; z2b 0] []
    (conn_of [Seg [z2b 5; z2b 1; z2b 0; z2b 3; z2b 0]])); [reflexivity|simpl; lia|].
  split; [reflexivity|]. right. split; [reflexivity|simpl; lia].
Defined.
(** C11: UDP packets, exactly.  [Build] on an address with a port below 65536
    fails only on a host name longer than 255 bytes; the bytes of the packet it
    builds are parsed back to the canonical host, the port and the payload,
    except that an IPv4 packet without payload (and one shorter than nine bytes)
    is refused as too short, and that a host name of 251 to 255 bytes makes
    [Parse] panic, its eight-bit end index having wrapped. *)
Theorem PacketUDP_roundtrip (host data : bytes) (port : Z) (p q : PacketUDP) :
  plain_host host -> 0 <= port < 65536 -> is_name host = false \/ len host <= 255 ->
  exists b pkt,
    Build (JoinHostPort host (Itoa port)) data p = (Ok tt, pkt) /\
    PacketUDP_Bytes pkt = Ok b /\
    (if (len b <? 9) || bool_decide ((udp_wire host).1 = ATYP_IPV4 /\ data = []) then
       (Parse b q).1 = Fail (ErrMsg "too short packet")
     else if is_name host && (251 <=? len host) then (Parse b q).1 = Panic
     else Parse b q =
       (Ok tt, mkPacketUDP (p_rsv q) zero (udp_wire host).1 (canon host) (Itoa port) data)).
Proof.
  intros Hh Hp Hn.
  assert (Hw : is_name host && (255 <? len host) = false).
  { destruct Hn as [->|Hn]; [done|]. zdecide. apply andb_false_r. }
  do 2 eexists. split; [|split; [by apply PacketUDP_Bytes_eq|]].
  { erewrite Build_eq by (apply SplitHostPort_JoinHostPort; [done|apply plain_port_Itoa; lia]).
    by rewrite Hw. }
  destruct (Z.ltb_spec (len (udp_packet host port data)) 9) as [H9|H9].
  { unfold Parse. cbn [orb]. by zdecide. }
  apply Parse_packet; [done|tauto|done].
Qed.

Lemma PacketUDP_roundtrip_witness :
  exists b pkt,
    Build (JoinHostPort (lit "8.8.8.8") (Itoa 53)) (lit "q") NewPacketUDP = (Ok tt, pkt) /\
    PacketUDP_Bytes pkt = Ok b /\
    Parse b NewPacketUDP =
      (Ok tt, mkPacketUDP 0 zero ATYP_IPV4 (lit "8.8.8.8") (lit "53") (lit "q")).
Proof.
  destruct (PacketUDP_roundtrip (lit "8.8.8.8") (lit "q") 53 NewPacketUDP NewPacketUDP)
    as (b & pkt & H1 & H2 & H3).
  - by apply (bool_decide_eq_true_1 (plain_host (lit "8.8.8.8"))); vm_compute.
  - lia.
  - by left.
  - exists b, pkt. split; [exact H1|]. split; [exact H2|].
    assert (H1' := H1). vm_compute in H1'. injection H1' as <-.
    assert (H2' := H2). vm_compute in H2'. injection H2' as <-. exact H3.
Defined.

(** The server side parser of UDP packets has no length checks of its own:
    on the bytes of a built packet it panics exactly for a host name of 251 bytes
    or more; otherwise it returns host, port and payload, and a reply built from
    that packet carries its header back in front of the answer. *)
Theorem ParseUDPPacket_reply (host data answer : bytes) (port : Z) :
  0 <= port < 65536 -> len host <= 255 \/ is_name host = false ->
  let b := udp_packet host port data in
  if is_name host && (251 <=? len host) then ParseUDPPacket b = Panic
  else exists pkt, ParseUDPPacket b = Ok pkt /\
    u_dstHost pkt = canon host /\ u_dstPort pkt = Itoa port /\ u_data pkt = data /\
    UDPPacket_NewReply pkt answer = udp_packet host port answer.
Proof.
  intros Hp Hn b. unfold ParseUDPPacket.
  change (idx b 2) with (Ok zero). change (idx b 3) with (Ok (udp_wire host).1).
  unfold mbind, outcome_bind. rewrite (bool_decide_true (zero = zero)) by done. cbn [negb].
  rewrite (udp_host_eq host port data Hn : udp_host b _ = _).
  destruct (is_name host && (251 <=? len host)); [done|].
  destruct (udp_rest_eq host port data Hp) as (Hport & Hdata & Hhead & Ht).
  fold b in Hport, Hdata, Hhead, Ht. rewrite Hport, Hdata, Hhead, Ht.
  eexists. split; [reflexivity|]. cbn. split_and!; [done|done|done|].
  unfold udp_packet, UDPPacket_NewReply. cbn [u_header]. by rewrite <- !app_assoc.
Qed.

Lemma ParseUDPPacket_reply_witness :
  exists pkt, ParseUDPPacket (udp_packet (lit "8.8.8.8") 53 (lit "q")) = Ok pkt /\
    u_dstHost pkt = canon (lit "8.8.8.8") /\ u_dstPort pkt = Itoa 53 /\ u_data pkt = lit "q" /\
    UDPPacket_NewReply pkt (lit "ans") = udp_packet (lit "8.8.8.8") 53 (lit "ans").
Proof.
  apply (ParseUDPPacket_reply (lit "8.8.8.8") (lit "q") (lit "ans") 53); [lia|by right].
Defined.
