(* ===== verification/LoadBalance.v ===== *)
(** core/loadbalance: upstreams and their health (upstream.go), the selection
    policies (selector.go), and the balancer over a pool (loadbalance.go,
    option.go).  A pool is the list of its upstreams, a selected upstream is its
    position.  [rand.Int()] is an oracle: [rnd k] is the answer to the [k]-th
    call made during one selection.  [uint32] and [int64] counters wrap. *)
From S2P Require Import Prelude GoStrings GoNet GoIO Iface.
Open Scope Z_scope.

Definition u32 (z : Z) : Z := z mod 2 ^ 32.
(** [int64] wrap-around *)
Definition i64 (z : Z) : Z := (z + 2 ^ 63) mod 2 ^ 64 - 2 ^ 63.

(** * Upstreams (upstream.go) *)

Record Config := mkConfig {
  CAddr : bytes;
  CWeight : Z;
  MaxConnections : Z;
  SuccessThreshold : Z;
  FailureThreshold : Z;
  Period : Z;
  Timeout : Z;
}.

Record Upstream := mkUpstream {
  config : Config;
  health : Z;
  successCount : Z;
  failureCount : Z;
  connections : Z;
  leastTime : Z;
}.

Definition second : Z := 1000000000.

Definition NewUpstream (c : Config) : outcome Upstream :=
  match SplitHostPort (CAddr c) with
  | Ok _ =>
      let c := mkConfig (CAddr c)
        (if CWeight c <=? 0 then 1 else CWeight c)
        (MaxConnections c)
        (if SuccessThreshold c =? 0 then 3 else SuccessThreshold c)
        (if FailureThreshold c =? 0 then 3 else FailureThreshold c)
        (if Period c <=? 0 then second * 30 else Period c)
        (if Timeout c <=? 0 then second * 1 else Timeout c) in
      Ok (mkUpstream c 0 0 0 0 0)
  | _ => Fail (ErrMsg "address required like host:port")
  end.

Definition Addr (u : Upstream) : bytes := CAddr (config u).
Definition Weight (u : Upstream) : Z := CWeight (config u).
Definition ConnsCount (u : Upstream) : Z := connections u.
Definition ConnsIncrease (u : Upstream) : Upstream :=
  mkUpstream (config u) (health u) (successCount u) (failureCount u)
    (i64 (connections u + 1)) (leastTime u).
Definition ConnsDecrease (u : Upstream) : Upstream :=
  mkUpstream (config u) (health u) (successCount u) (failureCount u)
    (i64 (connections u - 1)) (leastTime u).
Definition Healthy (u : Upstream) : bool := health u =? 1.
Definition Full (u : Upstream) : bool :=
  (0 <? MaxConnections (config u)) && (MaxConnections (config u) <=? connections u).
Definition Available (u : Upstream) : bool := Healthy u && negb (Full u).
Definition LeastTime (u : Upstream) : Z := leastTime u.

(** [healthyCheck], after the probe answered [err] in time [elapsed] *)
Definition healthyCheck (err : option error) (elapsed : Z) (u : Upstream) : Upstream :=
  match err with
  | Some _ =>
      let failure := u32 (failureCount u + 1) in
      if FailureThreshold (config u) <=? failure then
        mkUpstream (config u) 0 0 failure (connections u) elapsed
      else mkUpstream (config u) (health u) (successCount u) failure (connections u) elapsed
  | None =>
      let success := u32 (successCount u + 1) in
      if SuccessThreshold (config u) <=? success then
        mkUpstream (config u) 1 success 0 (connections u) elapsed
      else mkUpstream (config u) (health u) success (failureCount u) (connections u) elapsed
  end.

Abbreviation UpstreamPool := (list Upstream).

Fixpoint NewUpstreamPool (configs : list Config) : UpstreamPool :=
  match configs with
  | [] => []
  | c :: cs =>
      match NewUpstream c with
      | Ok b => b :: NewUpstreamPool cs
      | _ => NewUpstreamPool cs
      end
  end.

(** The first upstream with the address, updated *)
Fixpoint update_addr (f : Upstream -> Upstream) (addr : bytes) (ups : UpstreamPool)
  : UpstreamPool :=
  match ups with
  | [] => []
  | bk :: t => if bool_decide (Addr bk = addr) then f bk :: t else bk :: update_addr f addr t
  end.

Definition Pool_ConnsIncrease (addr : bytes) (ups : UpstreamPool) : UpstreamPool :=
  update_addr ConnsIncrease addr ups.
Definition Pool_ConnsDecrease (addr : bytes) (ups : UpstreamPool) : UpstreamPool :=
  update_addr ConnsDecrease addr ups.

Fixpoint Pool_HasHealthy (ups : UpstreamPool) : bool :=
  match ups with
  | [] => false
  | b :: t => if Healthy b then true else Pool_HasHealthy t
  end.

Fixpoint Pool_HealthyCount (ups : UpstreamPool) : Z :=
  match ups with
  | [] => 0
  | b :: t => (if Healthy b then 1 else 0) + Pool_HealthyCount t
  end.

(** * Selection (selector.go) *)

(** [Random.Select]: reservoir sampling over the available upstreams *)
Fixpoint Random_go (rnd : nat -> Z) (i : nat) (pool : UpstreamPool) (count : Z)
    (b : option nat) : option nat :=
  match pool with
  | [] => b
  | upstream :: t =>
      if Available upstream then
        let count := count + 1 in
        let b := if Z.rem (rnd (Z.to_nat (count - 1))) count =? 0 then Some i else b in
        Random_go rnd (S i) t count b
      else Random_go rnd (S i) t count b
  end.

Definition Random_Select (rnd : nat -> Z) (pool : UpstreamPool) : option nat :=
  Random_go rnd 0 pool 0 None.

(** [RoundRobin.Select]: [k] rounds of the loop are left. *)
Fixpoint RoundRobin_go (k : nat) (robin : Z) (pool : UpstreamPool)
  : outcome (option nat) * Z :=
  match k with
  | O => (Ok None, robin)
  | S k' =>
      let newRobin := u32 (robin + 1) in
      let i := newRobin mod u32 (len pool) in
      match idx pool i with
      | Ok b => if Available b then (Ok (Some (Z.to_nat i)), newRobin)
                else RoundRobin_go k' newRobin pool
      | _ => (Panic, newRobin)
      end
  end.

Definition RoundRobin_Select (robin : Z) (pool : UpstreamPool) : outcome (option nat) * Z :=
  RoundRobin_go (Z.to_nat (u32 (len pool))) robin pool.

(** The shared shape of [LeastConn.Select] and [LeastTime.Select]: the least
    [measure] among the available, reservoir sampling between equals.  [draw]
    numbers the calls of [rand.Int]. *)
Fixpoint Least_go (measure : Upstream -> Z) (rnd : nat -> Z) (i : nat) (pool : UpstreamPool)
    (min count : Z) (draw : nat) (best : option nat) : option nat :=
  match pool with
  | [] => best
  | b :: t =>
      if Available b then
        let m := measure b in
        let '(min, count) := if (min =? -1) || (m <? min) then (m, 0) else (min, count) in
        if m =? min then
          let count := count + 1 in
          let best := if Z.rem (rnd draw) count =? 0 then Some i else best in
          Least_go measure rnd (S i) t min count (S draw) best
        else Least_go measure rnd (S i) t min count draw best
      else Least_go measure rnd (S i) t min count draw best
  end.

Definition LeastConn_Select (rnd : nat -> Z) (pool : UpstreamPool) : option nat :=
  Least_go ConnsCount rnd 0 pool (-1) 0 0 None.
Definition LeastTime_Select (rnd : nat -> Z) (pool : UpstreamPool) : option nat :=
  Least_go LeastTime rnd 0 pool (-1) 0 0 None.

(** [fnv.New32a]: FNV-1a of 32 bits *)
Definition fnv_step (h : Z) (c : byte) : Z := u32 (Z.lxor h (b2z c) * 16777619).
Definition hash (s : bytes) : Z := fold_left fnv_step s 2166136261.

Fixpoint hashing_go (k : nat) (index : Z) (pool : UpstreamPool) : outcome (option nat) :=
  match k with
  | O => Ok None
  | S k' =>
      let i := index mod u32 (len pool) in
      b ← idx pool i;
      if Available b then Ok (Some (Z.to_nat i))
      else hashing_go k' (u32 (index + 1)) pool
  end.

Definition hashing (pool : UpstreamPool) (s : bytes) : outcome (option nat) :=
  let poolLen := u32 (len pool) in
  if poolLen =? 0 then Panic
  else hashing_go (Z.to_nat poolLen) (hash s mod poolLen) pool.

Definition IPHash_Select (rnd : nat -> Z) (pool : UpstreamPool) (srcAddr : bytes)
  : outcome (option nat) :=
  if bool_decide (srcAddr = []) then Ok (Random_Select rnd pool)
  else
    let host := match SplitHostPort srcAddr with Ok (h, _) => h | _ => srcAddr end in
    hashing pool host.

Definition AddrHash_Select (rnd : nat -> Z) (pool : UpstreamPool) (srcAddr : bytes)
  : outcome (option nat) :=
  if bool_decide (srcAddr = []) then Ok (Random_Select rnd pool)
  else hashing pool srcAddr.

(** ** Weighted round robin *)
Section WeightedRoundRobin.
(** [extmath.Gcdx] of the package things-go/x *)
Context (gcdx : Z -> Z -> Z).

Record WeightState := mkWeight { windex : Z; curWeight : Z }.

Definition NewWeight : WeightState := mkWeight (-1) 0.

Fixpoint weight_gcd_go (maxWeight g : Z) (pool : UpstreamPool) : Z * Z :=
  match pool with
  | [] => (maxWeight, g)
  | u :: t =>
      weight_gcd_go (if maxWeight <? Weight u then Weight u else maxWeight)
        (gcdx g (Weight u)) t
  end.

Definition getMaxWeightAndGCD (pool : UpstreamPool) : outcome (Z * Z) :=
  match pool with
  | [] => Panic
  | u :: t => Ok (weight_gcd_go (Weight u) (Weight u) t)
  end.

(** One step of the loop: the next index, and a new current weight at the start
    of every round *)
Definition weight_step (n maxWeight gcd : Z) (st : WeightState) : WeightState :=
  let index := Z.rem (windex st + 1) n in
  if index =? 0 then
    let cw := curWeight st - gcd in
    mkWeight index (if cw <=? 0 then maxWeight else cw)
  else mkWeight index (curWeight st).

Fixpoint Weight_go (k : nat) (pool : UpstreamPool) (maxWeight gcd : Z) (st : WeightState)
  : outcome (option nat) * WeightState :=
  match k with
  | O => (Ok None, st)
  | S k' =>
      let st := weight_step (len pool) maxWeight gcd st in
      match idx pool (windex st) with
      | Ok u =>
          if (curWeight st <=? Weight u) && Available u then
            (Ok (Some (Z.to_nat (windex st))), st)
          else Weight_go k' pool maxWeight gcd st
      | _ => (Panic, st)
      end
  end.

Definition Weight_Select (st : WeightState) (pool : UpstreamPool)
  : outcome (option nat) * WeightState :=
  match pool with
  | [] => (Ok None, st)
  | [_] => (Ok (Some 0%nat), st)
  | _ =>
      match getMaxWeightAndGCD pool with
      | Ok (maxWeight, gcd) => Weight_go (length pool) pool maxWeight gcd st
      | _ => (Panic, st)
      end
  end.

(** * The selectors and their registry *)

Inductive SelectorState :=
  | Random
  | RoundRobin (robin : Z)
  | LeastConn
  | IPHash
  | AddrHash
  | WeightSel (st : WeightState)
  | LeastTimeSel.

(** The interface [Selector] *)
Definition Select (sel : SelectorState) (rnd : nat -> Z) (pool : UpstreamPool) (srcAddr : bytes)
  : outcome (option nat) * SelectorState :=
  match sel with
  | Random => (Ok (Random_Select rnd pool), sel)
  | RoundRobin robin =>
      let '(o, robin) := RoundRobin_Select robin pool in (o, RoundRobin robin)
  | LeastConn => (Ok (LeastConn_Select rnd pool), sel)
  | IPHash => (IPHash_Select rnd pool srcAddr, sel)
  | AddrHash => (AddrHash_Select rnd pool srcAddr, sel)
  | WeightSel st => let '(o, st) := Weight_Select st pool in (o, WeightSel st)
  | LeastTimeSel => (Ok (LeastTime_Select rnd pool), sel)
  end.

(** The registry maps a method to what its constructor returns; a missing
    constructor is [None]. *)
Abbreviation registry := (gmap bytes SelectorState).

Definition RegisterSelector (method : bytes) (newSelector : option SelectorState)
  : io registry unit :=
  match newSelector with
  | None => io_panic
  | Some f => fun r =>
      match r !! method with
      | Some _ => (Panic, r)
      | None => (Ok tt, <[method := f]> r)
      end
  end.

(** [init] *)
Definition init_selectors : io registry unit :=
  _ ← RegisterSelector (lit "random") (Some Random);
  _ ← RegisterSelector (lit "roundrobin") (Some (RoundRobin 0));
  _ ← RegisterSelector (lit "leastconn") (Some LeastConn);
  _ ← RegisterSelector (lit "hash") (Some IPHash);
  _ ← RegisterSelector (lit "addrhash") (Some AddrHash);
  _ ← RegisterSelector (lit "leasttime") (Some LeastTimeSel);
  RegisterSelector (lit "weight") (Some (WeightSel NewWeight)).

(** The constructor found; calling a nil function panics. *)
Definition getNewSelectorFunction (r : registry) (method : bytes) : outcome SelectorState :=
  match r !! ToLower method with
  | Some f => Ok f
  | None => match r !! lit "roundrobin" with Some f => Ok f | None => Panic end
  end.

Definition HasSupportMethod (r : registry) (method : bytes) : bool :=
  match r !! ToLower method with Some _ => true | None => false end.

Definition Methods (r : registry) : list bytes := (map_to_list r).*1.

(** * The balancer (loadbalance.go) *)

Section Balancer.
Context {R : Type} `{!NameResolver R}.

Record Balanced := mkBalanced {
  bmethod : bytes;
  interval : Z;
  debug : bool;
  dns : option R;
  upstreams : UpstreamPool;
  selector : SelectorState;
  bclosed : bool;
}.

(** The options that change the balancing; the logger and the goroutine pool
    are not part of the state. *)
Inductive Option :=
  | WithDNSServer (dns : option R)
  | WithEnableDebug (b : bool)
  | WithInterval (interval : Z).

Definition apply_option (lb : Balanced) (o : Option) : Balanced :=
  match o with
  | WithDNSServer d =>
      mkBalanced (bmethod lb) (interval lb) (debug lb) d (upstreams lb) (selector lb) (bclosed lb)
  | WithEnableDebug b =>
      mkBalanced (bmethod lb) (interval lb) b (dns lb) (upstreams lb) (selector lb) (bclosed lb)
  | WithInterval i =>
      mkBalanced (bmethod lb) i (debug lb) (dns lb) (upstreams lb) (selector lb) (bclosed lb)
  end.

(** [New]; it starts the health checker when the interval is positive. *)
Definition New (r : registry) (method : bytes) (configs : list Config) (opts : list Option)
  : outcome Balanced :=
  sel ← getNewSelectorFunction r method;
  let lb := mkBalanced method (second * 30) false None (NewUpstreamPool configs) sel false in
  Ok (fold_left apply_option opts lb).

Definition set_pool (ups : UpstreamPool) (sel : SelectorState) (lb : Balanced) : Balanced :=
  mkBalanced (bmethod lb) (interval lb) (debug lb) (dns lb) ups sel (bclosed lb).

Definition Balanced_Select (rnd : nat -> Z) (srcAddr : bytes) : io Balanced bytes := fun lb =>
  let '(b, sel) := Select (selector lb) rnd (upstreams lb) srcAddr in
  let lb := set_pool (upstreams lb) sel lb in
  match b with
  | Ok None => (Ok [], lb)
  | Ok (Some i) =>
      match upstreams lb !! i with
      | Some u => (Ok (Addr u), lb)
      | None => (Panic, lb)
      end
  | Fail e => (Fail e, lb)
  | Panic => (Panic, lb)
  end.

Definition Balanced_ConnsIncrease (addr : bytes) (lb : Balanced) : Balanced :=
  set_pool (Pool_ConnsIncrease addr (upstreams lb)) (selector lb) lb.
Definition Balanced_ConnsDecrease (addr : bytes) (lb : Balanced) : Balanced :=
  set_pool (Pool_ConnsDecrease addr (upstreams lb)) (selector lb) lb.

(** [Close]: the second call finds the channel closed. *)
Definition Balanced_Close (lb : Balanced) : Balanced :=
  mkBalanced (bmethod lb) (interval lb) (debug lb) (dns lb) (upstreams lb) (selector lb) true.

Definition Balanced_HasHealthy (lb : Balanced) : bool := Pool_HasHealthy (upstreams lb).
Definition Balanced_HealthyCount (lb : Balanced) : Z := Pool_HealthyCount (upstreams lb).

Definition Reset (r : registry) (configs : list Config) : io Balanced unit := fun lb =>
  let lb := set_pool (NewUpstreamPool configs) (selector lb) lb in
  match getNewSelectorFunction r (bmethod lb) with
  | Ok sel => (Ok tt, set_pool (upstreams lb) sel lb)
  | Fail e => (Fail e, lb)
  | Panic => (Panic, lb)
  end.

Definition resolve (lb : Balanced) (addr : bytes) : bytes :=
  match dns lb with
  | Some d => if negb (bool_decide (public_dns_addr d = [])) then must_resolve d addr else addr
  | None => addr
  end.

(** One tick of [activeHealthChecker], when its checks have run: every upstream
    is probed at its resolved address within its timeout. *)
Definition health_tick (probe : bytes -> Z -> option error * Z) (lb : Balanced) : Balanced :=
  set_pool
    (map (fun u => let '(err, elapsed) := probe (resolve lb (Addr u)) (Timeout (config u)) in
                   healthyCheck err elapsed u) (upstreams lb))
    (selector lb) lb.

(** One check of a tick ends: the checks run in goroutines of their own, so
    they end in any order, also between other calls and after [Close]. *)
Definition check_done (i : nat) (err : option error) (elapsed : Z) (lb : Balanced) : Balanced :=
  set_pool (alter (healthyCheck err elapsed) i (upstreams lb)) (selector lb) lb.

End Balancer.
End WeightedRoundRobin.
Arguments Balanced : clear implicits.
Arguments Option : clear implicits.

(** * The contract of a selection

    A selection that [picks] returns an available upstream, and returns none
    only when no upstream is available. *)
Definition picks (pool : UpstreamPool) (o : option nat) : Prop :=
  match o with
  | Some i => exists u, pool !! i = Some u /\ Available u = true
  | None => forall u, u ∈ pool -> Available u = false
  end.

(** The reference scan: the first available of [k] upstreams, round the pool
    from position [start] *)
Fixpoint scan (k : nat) (start : Z) (pool : UpstreamPool) : option nat :=
  match k with
  | O => None
  | S k' =>
      let i := Z.to_nat (start mod len pool) in
      match pool !! i with
      | Some u => if Available u then Some i else scan k' (start + 1) pool
      | None => None
      end
  end.

Lemma idx_mod_pool (pool : UpstreamPool) (start : Z) :
  pool <> [] ->
  exists u, pool !! Z.to_nat (start mod len pool) = Some u /\
    idx pool (start mod len pool) = Ok u.
Proof.
  intros Hne. assert (0 < len pool) by (destruct pool; [done|simpl; lia]).
  pose proof (Z.mod_pos_bound start (len pool) ltac:(lia)).
  destruct (lookup_lt_is_Some_2 pool (Z.to_nat (start mod len pool))) as [u Hu]; [lia|].
  exists u. split; [done|]. by apply idx_in; [lia|].
Qed.

Lemma scan_Some (k : nat) (start : Z) (pool : UpstreamPool) (i : nat) :
  scan k start pool = Some i -> exists u, pool !! i = Some u /\ Available u = true.
Proof.
  revert start. induction k as [|k IH]; intros start; [done|]. cbn [scan].
  destruct (pool !! Z.to_nat _) as [u|] eqn:E; [|done].
  destruct (Available u) eqn:Ea; [|apply IH]. intros [= <-]. by exists u.
Qed.

Lemma scan_None (k : nat) (start : Z) (pool : UpstreamPool) (j : nat) :
  pool <> [] -> scan k start pool = None -> (j < k)%nat ->
  forall u, pool !! Z.to_nat ((start + Z.of_nat j) mod len pool) = Some u -> Available u = false.
Proof.
  intros Hne. revert start j. induction k as [|k IH]; intros start j Hs Hj u Hu; [lia|].
  cbn [scan] in Hs. destruct (idx_mod_pool pool start Hne) as (v & Hv & _). rewrite Hv in Hs.
  destruct (Available v) eqn:Ea; [done|]. destruct j as [|j].
  - rewrite Z.add_0_r in Hu. by simplify_eq.
  - eapply (IH (start + 1) j); [done|lia|].
    by replace (start + 1 + Z.of_nat j) with (start + Z.of_nat (S j)) by lia.
Qed.

(** One turn round the pool sees every upstream. *)
Lemma scan_picks (start : Z) (pool : UpstreamPool) : picks pool (scan (length pool) start pool).
Proof.
  destruct (decide (pool = [])) as [->|Hne]; [by intros u ?%elem_of_nil|].
  destruct (scan _ _ _) as [i|] eqn:E; [by eapply scan_Some|].
  intros u [i Hi]%list_elem_of_lookup.
  assert (Hl := lookup_lt_Some _ _ _ Hi).
  pose proof (Z.mod_pos_bound (Z.of_nat i - start) (len pool) ltac:(lia)).
  eapply (scan_None _ start pool (Z.to_nat ((Z.of_nat i - start) mod len pool)));
    [done|done|lia|].
  rewrite Z2Nat.id by lia. rewrite Z.add_mod_idemp_r by lia.
  replace (start + (Z.of_nat i - start)) with (Z.of_nat i) by lia.
  rewrite Z.mod_small by lia. by rewrite Nat2Z.id.
Qed.

(** ** Random *)
Lemma Random_go_spec (rnd : nat -> Z) (i : nat) (pool : UpstreamPool) (count : Z) (b : option nat) :
  0 <= count -> (b = None -> count = 0) ->
  match Random_go rnd i pool count b with
  | Some j => b = Some j \/ exists k u, j = (i + k)%nat /\ pool !! k = Some u /\ Available u = true
  | None => b = None /\ forall u, u ∈ pool -> Available u = false
  end.
Proof.
  revert i count b. induction pool as [|u pool IH]; intros i count b Hc Hb; simpl.
  { destruct b; [by left|]. split; [done|]. by intros u ?%elem_of_nil. }
  destruct (Available u) eqn:Ea.
  - set (b' := if _ =? 0 then Some i else b).
    assert (Hb' : b' <> None).
    { unfold b'. destruct (_ =? 0) eqn:E; [done|]. intros ->. rewrite Hb in E by done.
      change (0 + 1) with 1 in E. by rewrite Z.rem_1_r in E. }
    specialize (IH (S i) (count + 1) b' ltac:(lia) ltac:(done)).
    destruct (Random_go _ _ _ _ _) as [j|]; [|by destruct IH].
    destruct IH as [IH|(k & v & -> & Hk)].
    + unfold b' in IH. destruct (_ =? 0); [|by left]. injection IH as <-.
      right. exists 0%nat, u. split; [lia|done].
    + right. exists (S k), v. split; [lia|done].
  - specialize (IH (S i) count b Hc Hb).
    destruct (Random_go _ _ _ _ _) as [j|].
    + destruct IH as [IH|(k & v & -> & Hk)]; [by left|].
      right. exists (S k), v. split; [lia|done].
    + destruct IH as [-> IH]. split; [done|]. intros v [->|Hv]%elem_of_cons; [done|auto].
Qed.

Lemma Random_picks (rnd : nat -> Z) (pool : UpstreamPool) : picks pool (Random_Select rnd pool).
Proof.
  pose proof (Random_go_spec rnd 0 pool 0 None ltac:(lia) ltac:(done)) as H.
  unfold Random_Select, picks. destruct (Random_go _ _ _ _ _).
  - destruct H as [?|(k & u & -> & H)]; [done|by exists u].
  - by destruct H.
Qed.

(** ** Least connections, least time *)

(** [best] is the position of an available upstream of measure [min], the least
    among the [seen]. *)
Definition least_inv (measure : Upstream -> Z) (all : UpstreamPool) (i : nat) (min : Z)
    (best : option nat) : Prop :=
  match best with
  | None => min = -1 /\ forall k u, (k < i)%nat -> all !! k = Some u -> Available u = false
  | Some j => exists u, all !! j = Some u /\ Available u = true /\ measure u = min /\
      forall k v, (k < i)%nat -> all !! k = Some v -> Available v = true -> min <= measure v
  end.

Lemma Least_go_spec (measure : Upstream -> Z) (rnd : nat -> Z) (done_ pool : UpstreamPool)
    (min count : Z) (draw : nat) (best : option nat) :
  (forall u, u ∈ done_ ++ pool -> 0 <= measure u) -> 0 <= count ->
  least_inv measure (done_ ++ pool) (length done_) min best ->
  exists min', least_inv measure (done_ ++ pool) (length (done_ ++ pool)) min'
    (Least_go measure rnd (length done_) pool min count draw best).
Proof.
  revert done_ min count draw best.
  induction pool as [|u pool IH]; intros done_ min count draw best Hm Hc Hi.
  { rewrite app_nil_r in *. simpl. by exists min. }
  assert (Hu : (done_ ++ u :: pool) !! length done_ = Some u) by by apply list_lookup_middle.
  assert (Hmu : 0 <= measure u) by (apply Hm, elem_of_app; right; left).
  assert (Hstep : forall min' count' draw' best', 0 <= count' ->
    least_inv measure (done_ ++ u :: pool) (S (length done_)) min' best' ->
    exists m, least_inv measure (done_ ++ u :: pool) (length (done_ ++ u :: pool)) m
      (Least_go measure rnd (S (length done_)) pool min' count' draw' best')).
  { intros min' count' draw' best' Hc' Hi'.
    specialize (IH (done_ ++ [u]) min' count' draw' best').
    rewrite length_app, <- app_assoc in IH. simpl in IH. rewrite Nat.add_1_r in IH. by apply IH. }
  cbn [Least_go]. destruct (Available u) eqn:Ea.
  2: { apply Hstep; [done|]. unfold least_inv in *. destruct best as [j|].
       - destruct Hi as (v & Hv & Hav & Hmv & Hi). exists v. split_and!; [done..|].
         intros k w Hk Hw Haw. destruct (decide (k = length done_)) as [->|]; [congruence|].
         apply (Hi k); [lia|done|done].
       - destruct Hi as [? Hi]. split; [done|]. intros k w Hk Hw.
         destruct (decide (k = length done_)) as [->|]; [congruence|].
         apply (Hi k w); [lia|done]. }
  assert (Hbest : forall k v, (k < S (length done_))%nat ->
    (done_ ++ u :: pool) !! k = Some v -> Available v = true ->
    k = length done_ /\ v = u \/ (k < length done_)%nat).
  { intros k v Hk Hv _. destruct (decide (k = length done_)) as [->|]; [left|right; lia].
    by simplify_eq. }
  destruct ((min =? -1) || (measure u <? min)) eqn:E.
  - rewrite Z.eqb_refl. change (0 + 1) with 1. rewrite Z.rem_1_r. cbn [Z.eqb].
    apply Hstep; [lia|]. exists u. split_and!; [done|done|done|].
    intros k v Hk Hv Hav. destruct (Hbest k v Hk Hv Hav) as [[_ ->]|Hlt]; [lia|].
    apply orb_true_iff in E as [E|E]; zify_bool.
    + unfold least_inv in Hi. destruct best as [j|].
      * destruct Hi as (w & Hw & _ & Hmw & _).
        assert (0 <= measure w) by (apply Hm; by eapply list_elem_of_lookup_2). lia.
      * destruct Hi as [_ Hi]. by rewrite (Hi k v) in Hav.
    + unfold least_inv in Hi. destruct best as [j|]; [|lia].
      destruct Hi as (w & Hw & _ & Hmw & Hi). specialize (Hi k v Hlt Hv Hav). lia.
  - apply orb_false_iff in E as [E1 E2]. zify_bool.
    unfold least_inv in Hi. destruct best as [j|]; [|lia].
    destruct Hi as (w & Hw & Haw & Hmw & Hi).
    assert (Hi' : forall k v, (k < S (length done_))%nat -> (done_ ++ u :: pool) !! k = Some v ->
      Available v = true -> min <= measure v).
    { intros k v Hk Hv Hav. destruct (Hbest k v Hk Hv Hav) as [[_ ->]|Hlt]; [lia|]. by apply (Hi k). }
    destruct (Z.eqb_spec (measure u) min) as [Em|Em].
    + apply Hstep; [lia|]. destruct (_ =? 0); [exists u|exists w]; by split_and!.
    + apply Hstep; [lia|]. exists w. by split_and!.
Qed.

Lemma Least_picks (measure : Upstream -> Z) (rnd : nat -> Z) (pool : UpstreamPool) :
  (forall u, u ∈ pool -> 0 <= measure u) ->
  let o := Least_go measure rnd 0 pool (-1) 0 0 None in
  picks pool o /\
  forall i u v, o = Some i -> pool !! i = Some u -> v ∈ pool -> Available v = true ->
    measure u <= measure v.
Proof.
  intros Hm o. destruct (Least_go_spec measure rnd [] pool (-1) 0 0 None) as [min H];
    [done|done|split; [done|simpl; lia]|].
  cbn [app length] in H. fold o in H. unfold least_inv, picks in *. destruct o as [j|].
  - destruct H as (u & Hu & Ha & Hmu & H). split; [by exists u|].
    intros i w v [= <-] Hw [k Hk]%list_elem_of_lookup Hav. simplify_eq.
    apply (H k); [|done|done]. by eapply lookup_lt_Some.
  - destruct H as [_ H]. split; [|done]. intros u [k Hk]%list_elem_of_lookup.
    apply (H k); [by eapply lookup_lt_Some|done].
Qed.

(** ** Round robin and hashing follow the reference scan. *)
Lemma u32_small (z : Z) : 0 <= z < 2 ^ 32 -> u32 z = z.
Proof. apply Z.mod_small. Qed.

Lemma RoundRobin_go_scan (k : nat) (robin : Z) (pool : UpstreamPool) :
  len pool < 2 ^ 32 -> pool <> [] -> 0 <= robin -> robin + Z.of_nat k < 2 ^ 32 ->
  (RoundRobin_go k robin pool).1 = Ok (scan k (robin + 1) pool) /\
  robin <= (RoundRobin_go k robin pool).2 <= robin + Z.of_nat k.
Proof.
  intros Hl Hne. revert robin. induction k as [|k IH]; intros robin Hr Hk; [simpl; split; [done|lia]|].
  cbn [RoundRobin_go scan]. rewrite !u32_small by lia.
  destruct (idx_mod_pool pool (robin + 1) Hne) as (u & Hu & ->). rewrite Hu.
  destruct (Available u); [simpl; split; [done|lia]|].
  destruct (IH (robin + 1)) as [-> ?]; [lia|lia|]. split; [done|lia].
Qed.

Lemma hashing_go_scan (k : nat) (index : Z) (pool : UpstreamPool) :
  len pool < 2 ^ 32 -> pool <> [] -> 0 <= index -> index + Z.of_nat k <= 2 ^ 32 ->
  hashing_go k index pool = Ok (scan k index pool).
Proof.
  intros Hl Hne. revert index. induction k as [|k IH]; intros index Hi Hk; [done|].
  cbn [hashing_go scan]. rewrite u32_small by lia.
  destruct (idx_mod_pool pool index Hne) as (u & Hu & ->). rewrite Hu.
  unfold mbind, outcome_bind. destruct (Available u); [done|].
  destruct k as [|k]; [done|]. rewrite u32_small by lia. apply IH; lia.
Qed.

Lemma hashing_scan (pool : UpstreamPool) (s : bytes) :
  0 < len pool < 2 ^ 31 -> hashing pool s = Ok (scan (length pool) (hash s mod len pool) pool).
Proof.
  intros H. unfold hashing. rewrite u32_small by lia. zdecide.
  pose proof (Z.mod_pos_bound (hash s) (len pool) ltac:(lia)).
  rewrite Nat2Z.id. apply hashing_go_scan; [lia|intros ->; simpl in H; lia|lia|lia].
Qed.

(** ** Successive selections *)

(** [k] successive selections from the same pool *)
Fixpoint select_n (gcdx : Z -> Z -> Z) (k : nat) (sel : SelectorState) (pool : UpstreamPool)
  : list (outcome (option nat)) * SelectorState :=
  match k with
  | O => ([], sel)
  | S k' =>
      let '(o, sel) := Select gcdx sel (fun _ => 0) pool [] in
      let '(os, sel) := select_n gcdx k' sel pool in
      (o :: os, sel)
  end.

Definition all_available (pool : UpstreamPool) : Prop :=
  Forall (fun u => Available u = true) pool.

Lemma all_available_lookup (pool : UpstreamPool) (i : nat) (u : Upstream) :
  all_available pool -> pool !! i = Some u -> Available u = true.
Proof. intros H Hi. by eapply (proj1 (Forall_lookup _ _) H). Qed.

Lemma RoundRobin_available (robin : Z) (pool : UpstreamPool) :
  0 < len pool < 2 ^ 32 -> 0 <= robin -> robin + 1 < 2 ^ 32 -> all_available pool ->
  RoundRobin_Select robin pool =
    (Ok (Some (Z.to_nat ((robin + 1) mod len pool))), robin + 1).
Proof.
  intros Hl Hr Hr' Ha. unfold RoundRobin_Select. rewrite (u32_small (len pool)) by lia.
  rewrite Nat2Z.id. destruct pool as [|u0 pool]; [simpl in Hl; lia|].
  change (length (u0 :: pool)) with (S (length pool)). cbn [RoundRobin_go].
  rewrite !u32_small by (simpl in *; lia).
  destruct (idx_mod_pool (u0 :: pool) (robin + 1) ltac:(done)) as (u & Hu & E).
  rewrite E. by rewrite (all_available_lookup _ _ _ Ha Hu).
Qed.

(** ** The weighted round robin *)
Section WeightLaws.
Context (gcdx : Z -> Z -> Z).
(** What the package documents of [Gcdx]: the greatest common divisor. *)
Hypothesis gcdx_spec : forall a b, 0 < a -> 0 < b -> gcdx a b = Z.gcd a b.

Definition weights_pos (pool : UpstreamPool) : Prop := Forall (fun u => 0 < Weight u) pool.

Lemma weight_gcd_go_spec (pool : UpstreamPool) (m g : Z) :
  weights_pos pool -> 0 < g ->
  let '(m', g') := weight_gcd_go gcdx m g pool in
  m <= m' /\ 0 < g' /\ (g' | g) /\ (forall u, u ∈ pool -> Weight u <= m' /\ (g' | Weight u)) /\
  (m' = m \/ exists u, u ∈ pool /\ Weight u = m').
Proof.
  intros Hw. revert m g. induction Hw as [|u pool Hu Hw IH]; intros m g Hg; simpl.
  { split_and!; [lia|done|done| |by left]. by intros u ?%elem_of_nil. }
  rewrite gcdx_spec by done.
  assert (Hg' : 0 < Z.gcd g (Weight u)).
  { pose proof (Z.gcd_nonneg g (Weight u)).
    destruct (Z.eq_dec (Z.gcd g (Weight u)) 0) as [E|]; [apply Z.gcd_eq_0 in E; lia|lia]. }
  set (m1 := if m <? Weight u then Weight u else m).
  specialize (IH m1 _ Hg'). destruct (weight_gcd_go _ _ _ _) as [m' g'].
  destruct IH as (H1 & H2 & H3 & H4 & H5).
  assert (Hm1 : m <= m1 /\ Weight u <= m1 /\ (m1 = m \/ m1 = Weight u)).
  { unfold m1. destruct (Z.ltb_spec m (Weight u)); lia. }
  split_and!; [lia|done| | |].
  - etrans; [exact H3|apply Z.gcd_divide_l].
  - intros v [->|Hv]%elem_of_cons; [|by apply H4].
    split; [lia|]. etrans; [exact H3|apply Z.gcd_divide_r].
  - destruct H5 as [->|(v & Hv & E)]; [|right; exists v; split; [by right|done]].
    destruct Hm1 as (_ & _ & [->| ->]); [by left|]. right. exists u. split; [by left|done].
Qed.

(** The greatest weight, the divisor of them all *)
Lemma getMaxWeightAndGCD_spec (pool : UpstreamPool) :
  pool <> [] -> weights_pos pool ->
  exists m g, getMaxWeightAndGCD gcdx pool = Ok (m, g) /\ 0 < g <= m /\ (g | m) /\
    (exists p u, pool !! p = Some u /\ Weight u = m) /\
    forall u, u ∈ pool -> Weight u <= m /\ (g | Weight u).
Proof.
  intros Hne Hw. destruct pool as [|u pool]; [done|].
  apply Forall_cons in Hw as [Hu Hw]. unfold getMaxWeightAndGCD.
  pose proof (weight_gcd_go_spec pool (Weight u) (Weight u) Hw Hu) as H.
  destruct (weight_gcd_go _ _ _ _) as [m g]. destruct H as (H1 & H2 & H3 & H4 & H5).
  assert (Hall : forall v, v ∈ u :: pool -> Weight v <= m /\ (g | Weight v)).
  { intros v [->|Hv]%elem_of_cons; [done|by apply H4]. }
  assert (Hex : exists v, v ∈ u :: pool /\ Weight v = m).
  { destruct H5 as [->|(v & Hv & E)]; [exists u; split; [by left|done]|].
    exists v. split; [by right|done]. }
  exists m, g. destruct Hex as (v & Hv & E). destruct (Hall v Hv) as [_ Hd]. rewrite E in Hd.
  split_and!; [done|done|apply Z.divide_pos_le; [lia|done]|done| |done].
  apply list_elem_of_lookup in Hv as [p Hp]. by exists p, v.
Qed.

Section Pool.
Context (pool : UpstreamPool) (m g : Z).
Hypothesis Hlen : (2 <= length pool)%nat.
Hypothesis Havail : all_available pool.
Hypothesis Hg : 0 < g <= m.
Hypothesis Hdiv : (g | m).
Hypothesis Hmax : exists p u, pool !! p = Some u /\ Weight u = m.
Hypothesis Hall : forall u, u ∈ pool -> Weight u <= m /\ (g | Weight u).
Hypothesis Hpos : forall u, u ∈ pool -> 0 < Weight u.

Abbreviation n := (len pool).
Abbreviation step := (weight_step n m g).

Definition wvalid (st : WeightState) : Prop := -1 <= windex st < n /\ curWeight st <= m.

Definition hit (st : WeightState) : bool :=
  match pool !! Z.to_nat (windex st) with
  | Some u => curWeight st <=? Weight u
  | None => false
  end.

Lemma step_index (st : WeightState) :
  -1 <= windex st < n -> windex (step st) = (windex st + 1) mod n.
Proof.
  intros H. unfold weight_step. rewrite Z.rem_mod_nonneg by lia.
  by destruct (_ =? 0).
Qed.

Lemma step_valid (st : WeightState) :
  wvalid st -> wvalid (step st) /\ 0 <= windex (step st).
Proof.
  intros [Hi Hc]. pose proof (step_index st Hi) as E.
  pose proof (Z.mod_pos_bound (windex st + 1) n ltac:(lia)).
  unfold wvalid. rewrite E. split; [|lia]. split; [lia|].
  unfold weight_step. destruct (_ =? 0); simpl; [|lia].
  destruct (Z.leb_spec (curWeight st - g) 0); lia.
Qed.

Lemma Weight_go_step (k : nat) (st : WeightState) :
  wvalid st ->
  Weight_go (S k) pool m g st =
    if hit (step st) then (Ok (Some (Z.to_nat (windex (step st)))), step st)
    else Weight_go k pool m g (step st).
Proof.
  intros Hv. destruct (step_valid st Hv) as [[Hi _] H0].
  cbn [Weight_go]. unfold hit.
  destruct (lookup_lt_is_Some_2 pool (Z.to_nat (windex (step st)))) as [u Hu]; [lia|].
  rewrite Hu. rewrite (idx_in pool _ u) by done.
  rewrite (all_available_lookup _ _ _ Havail Hu), andb_true_r. done.
Qed.

(** A whole turn meets the upstream of greatest weight. *)
Lemma Weight_go_turn (j k : nat) (st : WeightState) (p : nat) (u : Upstream) :
  wvalid st -> pool !! p = Some u -> Weight u = m ->
  (windex st + 1 + Z.of_nat j) mod n = Z.of_nat p -> (j < k)%nat ->
  exists i st', Weight_go k pool m g st = (Ok (Some i), st').
Proof.
  intros Hv Hp Hu. revert k st Hv.
  induction j as [|j IH]; intros k st Hv Hj Hk; (destruct k as [|k]; [lia|]);
    rewrite Weight_go_step by done; destruct (step_valid st Hv) as [Hv' H0].
  - assert (Hh : hit (step st) = true); [|rewrite Hh; by eauto].
    unfold hit. rewrite step_index by apply Hv. rewrite Z.add_0_r in Hj.
    rewrite Hj, Nat2Z.id, Hp. apply Z.leb_le. rewrite Hu. apply Hv'.
  - destruct (hit (step st)); [by eauto|].
    apply (IH k); [done| |lia]. rewrite step_index by apply Hv.
    rewrite <- Hj, <- Z.add_assoc, Z.add_mod_idemp_l by lia. f_equal. lia.
Qed.

Lemma Weight_go_found (st : WeightState) :
  wvalid st -> exists i st', Weight_go (length pool) pool m g st = (Ok (Some i), st').
Proof.
  intros Hv. destruct Hmax as (p & u & Hp & Hu).
  assert (Hlt := lookup_lt_Some _ _ _ Hp).
  pose proof (Z.mod_pos_bound (Z.of_nat p - (windex st + 1)) n ltac:(lia)).
  apply (Weight_go_turn (Z.to_nat ((Z.of_nat p - (windex st + 1)) mod n)) _ st p u); [done..| |lia].
  rewrite Z2Nat.id by lia. rewrite Z.add_mod_idemp_r by lia.
  replace (_ + (Z.of_nat p - _)) with (Z.of_nat p) by lia. apply Z.mod_small. lia.
Qed.

Lemma Weight_go_more (k : nat) (st st' : WeightState) (i : nat) :
  wvalid st -> Weight_go k pool m g st = (Ok (Some i), st') ->
  Weight_go (S k) pool m g st = (Ok (Some i), st').
Proof.
  revert st. induction k as [|k IH]; intros st Hv; [done|].
  rewrite (Weight_go_step (S k)), (Weight_go_step k) by done.
  destruct (hit _); [done|]. apply IH, step_valid, Hv.
Qed.

(** A selection is the next step if that is a hit, and the selection from there
    if it is not. *)
Lemma Weight_go_unfold (st : WeightState) :
  wvalid st ->
  Weight_go (length pool) pool m g st =
    if hit (step st) then (Ok (Some (Z.to_nat (windex (step st)))), step st)
    else Weight_go (length pool) pool m g (step st).
Proof.
  intros Hv. destruct (Weight_go_found st Hv) as (i & st' & H).
  assert (G : forall k, k = length pool -> Weight_go k pool m g st = (Ok (Some i), st') ->
    Weight_go k pool m g st =
      if hit (step st) then (Ok (Some (Z.to_nat (windex (step st)))), step st)
      else Weight_go k pool m g (step st)); [|by apply G].
  intros [|k] Hk HS; [lia|]. rewrite Weight_go_step in HS by done.
  rewrite Weight_go_step at 1 by done.
  destruct (hit (step st)); [done|]. rewrite HS. symmetry.
  apply Weight_go_more; [apply step_valid, Hv|done].
Qed.

(** The states after each of [k] steps *)
Fixpoint wsteps (k : nat) (st : WeightState) : list WeightState :=
  match k with
  | O => []
  | S k' => step st :: wsteps k' (step st)
  end.

Fixpoint wstep_n (k : nat) (st : WeightState) : WeightState :=
  match k with O => st | S k' => wstep_n k' (step st) end.

Definition hits (k : nat) (st : WeightState) : list nat :=
  map (fun s => Z.to_nat (windex s)) (filter (fun s => hit s = true) (wsteps k st)).

Hypothesis Hsel : forall st, Weight_Select gcdx st pool = Weight_go (length pool) pool m g st.

(** Successive selections return the hits of a run that ends in a hit. *)
Lemma select_n_hits (k : nat) (st : WeightState) :
  wvalid st -> (k = 0%nat \/ hit (wstep_n k st) = true) ->
  select_n gcdx (length (hits k st)) (WeightSel st) pool =
    (map (fun i => Ok (Some i)) (hits k st), WeightSel (wstep_n k st)).
Proof.
  revert st. induction k as [|k IH]; intros st Hv Hk; [done|].
  destruct Hk as [?|Hk]; [done|]. destruct (step_valid st Hv) as [Hv' _].
  assert (IHs : k = 0%nat \/ hit (wstep_n k (step st)) = true) by (by right).
  specialize (IH (step st) Hv' IHs).
  unfold hits in *. cbn [wsteps wstep_n]. rewrite filter_cons.
  destruct (decide (hit (step st) = true)) as [Eh|Eh].
  - cbn [map length select_n]. unfold Select. rewrite Hsel, Weight_go_unfold, Eh by done.
    by rewrite IH.
  - apply not_true_is_false in Eh.
    destruct k as [|k]; [cbn [wstep_n] in Hk; congruence|].
    assert (Hlen' : exists l, length (map (fun s => Z.to_nat (windex s))
      (filter (fun s => hit s = true) (wsteps (S k) (step st)))) = S l).
    { rewrite length_map. cbn [wstep_n] in Hk. clear -Hk. 
      revert Hk. generalize (step st) as s. induction k as [|k IH]; intros s Hk.
      - cbn [wsteps]. rewrite filter_cons. rewrite decide_True by done. by eexists.
      - cbn [wsteps wstep_n] in *. rewrite filter_cons.
        destruct (decide _); [by eexists|]. by apply IH. }
    destruct Hlen' as [l El]. rewrite El in IH |- *. cbn [select_n] in IH |- *.
    unfold Select in IH |- *. rewrite Hsel in IH |- *. rewrite Weight_go_unfold, Eh by done.
    exact IH.
Qed.

Definition next_cw (st : WeightState) : Z :=
  let cw := curWeight st - g in if cw <=? 0 then m else cw.

(** A state at the end of a round, or before the first *)
Definition round_end (st : WeightState) : Prop := windex st = -1 \/ windex st = n - 1.

Lemma wsteps_app (a b : nat) (st : WeightState) :
  wsteps (a + b) st = wsteps a st ++ wsteps b (wstep_n a st).
Proof. revert st. induction a as [|a IH]; intros st; [done|]. cbn. by rewrite IH. Qed.

Lemma wstep_n_app (a b : nat) (st : WeightState) :
  wstep_n (a + b) st = wstep_n b (wstep_n a st).
Proof. revert st. induction a as [|a IH]; intros st; [done|]. cbn. by rewrite IH. Qed.

Lemma hits_app (a b : nat) (st : WeightState) :
  hits (a + b) st = hits a st ++ hits b (wstep_n a st).
Proof. unfold hits. by rewrite wsteps_app, filter_app, map_app. Qed.

Lemma wsteps_from (k j : nat) (c : Z) :
  (0 < j)%nat -> (j + k <= length pool)%nat ->
  wsteps k (mkWeight (Z.of_nat j - 1) c) = map (fun i => mkWeight (Z.of_nat i) c) (seq j k) /\
  wstep_n k (mkWeight (Z.of_nat j - 1) c) = mkWeight (Z.of_nat (j + k) - 1) c.
Proof.
  revert j. induction k as [|k IH]; intros j Hj Hk; [by rewrite Nat.add_0_r|].
  assert (E : step (mkWeight (Z.of_nat j - 1) c) = mkWeight (Z.of_nat (S j) - 1) c).
  { unfold weight_step. cbn [windex]. rewrite Z.rem_small by lia. zdecide.
    cbn [curWeight]. f_equal. lia. }
  cbn [wsteps wstep_n seq map]. rewrite E. destruct (IH (S j)) as [-> ->]; [lia|lia|].
  split; [|f_equal; lia]. do 2 f_equal. lia.
Qed.

Lemma wsteps_round (st : WeightState) :
  round_end st ->
  wsteps (length pool) st =
    map (fun i => mkWeight (Z.of_nat i) (next_cw st)) (seq 0 (length pool)) /\
  wstep_n (length pool) st = mkWeight (n - 1) (next_cw st).
Proof.
  intros Hst. assert (E : step st = mkWeight 0 (next_cw st)).
  { unfold weight_step, next_cw. destruct Hst as [-> | ->].
    - rewrite Z.rem_0_l by lia. done.
    - replace (n - 1 + 1) with n by lia. rewrite Z.rem_same by lia. done. }
  pose proof (wsteps_from (length pool - 1) 1 (next_cw st) ltac:(lia) ltac:(lia)) as [H1 H2].
  change (Z.of_nat 1 - 1) with 0 in H1, H2.
  replace (length pool) with (S (length pool - 1)) at 1 2 3 by lia.
  cbn [wsteps wstep_n seq map]. rewrite E, H1, H2. split; [done|]. f_equal. lia.
Qed.

Lemma count_filter_seq (P : nat -> bool) (i k : nat) :
  (i < k)%nat ->
  count_occ Nat.eq_dec (filter (fun j => P j = true) (seq 0 k)) i = if P i then 1%nat else 0%nat.
Proof.
  intros Hi. destruct (P i) eqn:E.
  - apply NoDup_count_occ'.
    + apply NoDup_ListNoDup, NoDup_filter, NoDup_seq.
    + apply list_elem_of_In, list_elem_of_filter. split; [done|]. apply elem_of_seq. lia.
  - apply count_occ_not_In. intros [? _]%list_elem_of_In%list_elem_of_filter. congruence.
Qed.

Lemma hits_round (st : WeightState) (i : nat) (u : Upstream) :
  round_end st -> pool !! i = Some u ->
  count_occ Nat.eq_dec (hits (length pool) st) i =
    if next_cw st <=? Weight u then 1%nat else 0%nat.
Proof.
  intros Hst Hi. unfold hits. rewrite (proj1 (wsteps_round st Hst)).
  pose (P i := hit (mkWeight (Z.of_nat i) (next_cw st))).
  assert (E : forall l, map (fun s => Z.to_nat (windex s)) (filter (fun s => hit s = true)
    (map (fun i => mkWeight (Z.of_nat i) (next_cw st)) l)) = filter (fun j => P j = true) l).
  { induction l as [|j l IH]; [done|]. cbn [map]. rewrite !filter_cons, <- IH. unfold P at 1.
    destruct (decide (hit _ = true)); [|done]. cbn [map windex]. by rewrite Nat2Z.id. }
  rewrite E, count_filter_seq by by eapply lookup_lt_Some.
  unfold P, hit. cbn [windex curWeight]. by rewrite Nat2Z.id, Hi.
Qed.

(** [q] rounds, with the current weight going down from [q * g] to [g] *)
Lemma hits_rounds (q : nat) (st : WeightState) :
  (0 < q)%nat -> round_end st -> next_cw st = Z.of_nat q * g ->
  wstep_n (length pool * q) st = mkWeight (n - 1) g /\
  forall i u, pool !! i = Some u ->
    count_occ Nat.eq_dec (hits (length pool * q) st) i = Z.to_nat (Z.min (Z.of_nat q) (Weight u / g)).
Proof.
  revert st. induction q as [|q IH]; intros st Hq Hst Hc; [lia|].
  destruct (wsteps_round st Hst) as [_ He].
  replace (length pool * S q)%nat with (length pool + length pool * q)%nat by lia.
  rewrite wstep_n_app, He.
  assert (Hhit : forall i u, pool !! i = Some u -> count_occ Nat.eq_dec (hits (length pool) st) i
    = if Z.of_nat (S q) <=? Weight u / g then 1%nat else 0%nat).
  { intros i u Hi. rewrite (hits_round st i u Hst Hi), Hc.
    destruct (proj2 (Hall u (list_elem_of_lookup_2 _ _ _ Hi))) as [w Hw]. rewrite Hw.
    rewrite Z.div_mul by lia.
    destruct (Z.leb_spec (Z.of_nat (S q)) w), (Z.leb_spec (Z.of_nat (S q) * g) (w * g)); try done; nia. }
  destruct (Nat.eq_dec q 0%nat) as [->|Hq0].
  - rewrite Nat.mul_0_r, Nat.add_0_r. split; [cbn [wstep_n]; f_equal; lia|].
    intros i u Hi. rewrite (Hhit i u Hi).
    destruct (proj2 (Hall u (list_elem_of_lookup_2 _ _ _ Hi))) as [w Hw].
    pose proof (Hpos u (list_elem_of_lookup_2 _ _ _ Hi)). rewrite Hw, Z.div_mul in * by lia.
    assert (0 < w) by nia. destruct (Z.leb_spec (Z.of_nat 1) w); lia.
  - assert (Hend : round_end (mkWeight (n - 1) (next_cw st))) by by right.
    assert (Hnext : next_cw (mkWeight (n - 1) (next_cw st)) = Z.of_nat q * g).
    { unfold next_cw at 1. cbn [curWeight]. rewrite Hc. zdecide.
      destruct (Z.leb_spec (Z.of_nat (S q) * g - g) 0); nia. }
    destruct (IH _ ltac:(lia) Hend Hnext) as [-> Hcnt]. split; [done|].
    intros i u Hi. rewrite hits_app, count_occ_app, He, (Hhit i u Hi), (Hcnt i u Hi).
    destruct (Z.leb_spec (Z.of_nat (S q)) (Weight u / g)); lia.
Qed.
(** One cycle: every upstream as often as its share of the weights *)
Lemma cycle (st : WeightState) :
  st = NewWeight \/ st = mkWeight (n - 1) g ->
  exists l,
    select_n gcdx (length l) (WeightSel st) pool =
      (map (fun i => Ok (Some i)) l, WeightSel (mkWeight (n - 1) g)) /\
    forall i u, pool !! i = Some u -> count_occ Nat.eq_dec l i = Z.to_nat (Weight u / g).
Proof.
  intros Hst. destruct Hdiv as [q Hq].
  assert (Hq0 : 0 < q) by nia.
  assert (Hv : wvalid st) by (unfold wvalid; destruct Hst as [-> | ->]; cbn [NewWeight windex curWeight]; lia).
  assert (Hend : round_end st) by (destruct Hst as [-> | ->]; [by left|by right]).
  assert (Hnext : next_cw st = Z.of_nat (Z.to_nat q) * g).
  { unfold next_cw. destruct Hst as [-> | ->]; cbn [NewWeight windex curWeight]; zdecide; lia. }
  destruct (hits_rounds (Z.to_nat q) st ltac:(lia) Hend Hnext) as [He Hcnt].
  exists (hits (length pool * Z.to_nat q) st). split.
  - rewrite (select_n_hits _ st Hv), He; [done|]. right. rewrite He.
    unfold hit. cbn [windex curWeight].
    destruct (lookup_lt_is_Some_2 pool (Z.to_nat (n - 1))) as [u Hu]; [lia|].
    rewrite Hu. apply Z.leb_le. assert (Hin := list_elem_of_lookup_2 _ _ _ Hu).
    apply Z.divide_pos_le; [by apply Hpos|by apply Hall].
  - intros i u Hi. rewrite (Hcnt i u Hi). f_equal. rewrite Z2Nat.id by lia.
    apply Z.min_r. assert (Hin := list_elem_of_lookup_2 _ _ _ Hi).
    apply Z.div_le_upper_bound; [lia|]. rewrite Z.mul_comm, <- Hq. by apply Hall.
Qed.

End Pool.
End WeightLaws.

(** ** No selection is lost to an index *)

Definition wf_sel (sel : SelectorState) : Prop :=
  match sel with
  | RoundRobin robin => 0 <= robin < 2 ^ 32
  | WeightSel st => -1 <= windex st
  | _ => True
  end.

(** The calls that divide by the length of an empty pool *)
Definition hash_on_empty (sel : SelectorState) (pool : UpstreamPool) (src : bytes) : Prop :=
  (sel = IPHash \/ sel = AddrHash) /\ pool = [] /\ src <> [].

Definition in_pool (pool : UpstreamPool) (o : option nat) : Prop :=
  forall i, o = Some i -> (i < length pool)%nat.

Lemma picks_in_pool (pool : UpstreamPool) (o : option nat) : picks pool o -> in_pool pool o.
Proof. intros H i ->. destruct H as (u & H & _). by eapply lookup_lt_Some. Qed.

Lemma Least_go_in (measure : Upstream -> Z) (rnd : nat -> Z) (i : nat) (pool : UpstreamPool)
    (min count : Z) (draw : nat) (best : option nat) (j : nat) :
  Least_go measure rnd i pool min count draw best = Some j ->
  best = Some j \/ (i <= j < i + length pool)%nat.
Proof.
  revert i min count draw best. induction pool as [|u pool IH]; intros i min count draw best; simpl;
    [by left|].
  destruct (Available u).
  2: { intros [?|?]%IH; [by left|right; lia]. }
  destruct (_ || _); [rewrite Z.eqb_refl|destruct (_ =? min)].
  - intros [E|?]%IH; [|right; lia].
    destruct (_ =? 0); [injection E as <-; right; lia|by left].
  - intros [E|?]%IH; [|right; lia].
    destruct (_ =? 0); [injection E as <-; right; lia|by left].
  - intros [?|?]%IH; [by left|right; lia].
Qed.

Lemma Least_in_pool (measure : Upstream -> Z) (rnd : nat -> Z) (pool : UpstreamPool) :
  in_pool pool (Least_go measure rnd 0 pool (-1) 0 0 None).
Proof. intros i [?|?]%Least_go_in; [done|lia]. Qed.

Lemma u32_range (z : Z) : 0 <= u32 z < 2 ^ 32.
Proof. apply Z.mod_pos_bound. lia. Qed.

Lemma mod_in_pool (pool : UpstreamPool) (z : Z) :
  pool <> [] -> (Z.to_nat (z mod len pool) < length pool)%nat.
Proof.
  intros Hne. assert (0 < len pool) by (destruct pool; [done|simpl; lia]).
  pose proof (Z.mod_pos_bound z (len pool) ltac:(lia)). lia.
Qed.

Lemma RoundRobin_go_total (k : nat) (robin : Z) (pool : UpstreamPool) :
  len pool < 2 ^ 32 -> pool <> [] -> 0 <= robin < 2 ^ 32 ->
  exists o robin', RoundRobin_go k robin pool = (Ok o, robin') /\ in_pool pool o /\
    0 <= robin' < 2 ^ 32.
Proof.
  intros Hl Hne. revert robin. induction k as [|k IH]; intros robin Hr; [by exists None, robin|].
  cbn [RoundRobin_go]. rewrite (u32_small (len pool)) by lia.
  destruct (idx_mod_pool pool (u32 (robin + 1)) Hne) as (u & Hu & ->).
  destruct (Available u); [|apply IH, u32_range].
  do 2 eexists. split; [done|]. split; [|apply u32_range].
  intros i [= <-]. by apply mod_in_pool.
Qed.

Lemma hashing_go_total (k : nat) (index : Z) (pool : UpstreamPool) :
  len pool < 2 ^ 32 -> pool <> [] ->
  exists o, hashing_go k index pool = Ok o /\ in_pool pool o.
Proof.
  intros Hl Hne. revert index. induction k as [|k IH]; intros index; [by exists None|].
  cbn [hashing_go]. rewrite (u32_small (len pool)) by lia.
  destruct (idx_mod_pool pool index Hne) as (u & Hu & ->). unfold mbind, outcome_bind.
  destruct (Available u); [|apply IH]. eexists. split; [done|].
  intros i [= <-]. by apply mod_in_pool.
Qed.

Lemma hashing_total (pool : UpstreamPool) (s : bytes) :
  len pool < 2 ^ 32 ->
  (pool = [] /\ hashing pool s = Panic) \/ exists o, hashing pool s = Ok o /\ in_pool pool o.
Proof.
  intros Hl. destruct (decide (pool = [])) as [->|Hne]; [by left|right].
  assert (0 < len pool) by (destruct pool; [done|simpl; lia]).
  unfold hashing. rewrite u32_small by lia. zdecide. by apply hashing_go_total.
Qed.

Lemma Weight_go_total (k : nat) (pool : UpstreamPool) (m g : Z) (st : WeightState) :
  pool <> [] -> -1 <= windex st ->
  exists o st', Weight_go k pool m g st = (Ok o, st') /\ in_pool pool o /\ -1 <= windex st'.
Proof.
  intros Hne. assert (Hp : 0 < len pool) by (destruct pool; [done|simpl; lia]).
  revert st. induction k as [|k IH]; intros st Hi; [by exists None, st|].
  cbn [Weight_go]. set (st1 := weight_step (len pool) m g st).
  assert (Hw : windex st1 = (windex st + 1) mod len pool).
  { unfold st1, weight_step. rewrite Z.rem_mod_nonneg by lia. by destruct (_ =? 0). }
  destruct (idx_mod_pool pool (windex st + 1) Hne) as (u & Hu & E). rewrite <- Hw in Hu, E.
  pose proof (Z.mod_pos_bound (windex st + 1) (len pool) Hp). rewrite E.
  destruct (_ && _); [|apply IH; lia].
  do 2 eexists. split; [done|]. split; [|lia]. intros i [= <-]. by eapply lookup_lt_Some.
Qed.

Lemma Weight_total (gcdx : Z -> Z -> Z) (pool : UpstreamPool) (st : WeightState) :
  -1 <= windex st ->
  exists o st', Weight_Select gcdx st pool = (Ok o, st') /\ in_pool pool o /\ -1 <= windex st'.
Proof.
  intros Hi. destruct pool as [|u [|v pool]].
  - by exists None, st.
  - exists (Some 0%nat), st. split_and!; [done| |done]. intros i [= <-]. simpl. lia.
  - unfold Weight_Select, getMaxWeightAndGCD. destruct (weight_gcd_go _ _ _ _).
    by apply Weight_go_total.
Qed.

(** A selection panics exactly when a hash policy meets an empty pool; what it
    returns is a position of the pool. *)
Lemma Select_total (gcdx : Z -> Z -> Z) (sel : SelectorState) (rnd : nat -> Z)
    (pool : UpstreamPool) (src : bytes) :
  len pool < 2 ^ 32 -> wf_sel sel ->
  (hash_on_empty sel pool src /\ Select gcdx sel rnd pool src = (Panic, sel)) \/
  (~ hash_on_empty sel pool src /\
   exists o sel', Select gcdx sel rnd pool src = (Ok o, sel') /\ in_pool pool o /\ wf_sel sel').
Proof.
  intros Hl Hw.
  assert (Hr : in_pool pool (Random_Select rnd pool)) by apply picks_in_pool, Random_picks.
  assert (Hhash : forall s, (pool = [] /\ hashing pool s = Panic) \/
    exists o, hashing pool s = Ok o /\ in_pool pool o) by (intros s; by apply hashing_total).
  destruct sel as [|robin| | | |st|]; unfold hash_on_empty.
  1, 3, 7: right; (split; [by intros [[|] _]|]); do 2 eexists;
    (split; [reflexivity|]); (split; [|done]); first [done|apply Least_in_pool].
  - right. split; [by intros [[|] _]|]. cbn [Select].
    destruct (decide (pool = [])) as [->|Hne].
    { exists None, (RoundRobin robin). split_and!; done. }
    destruct (RoundRobin_go_total (Z.to_nat (u32 (len pool))) robin pool Hl Hne Hw)
      as (o & r' & H & ? & ?).
    unfold RoundRobin_Select. rewrite H. by exists o, (RoundRobin r').
  - cbn [Select]. unfold IPHash_Select.
    destruct (decide (src = [])) as [->|Hs].
    { right. split; [by intros (_ & _ & ?)|]. do 2 eexists. by split. }
    rewrite bool_decide_false by done. cbv zeta. set (host := match _ with Ok _ => _ | _ => _ end).
    destruct (Hhash host) as [[-> ->]|(o & H & ?)]; [left; by auto|].
    destruct (decide (pool = [])) as [->|Hne]; [done|].
    rewrite H. right. split; [by intros (_ & ? & _)|by eauto 10].
  - cbn [Select]. unfold AddrHash_Select.
    destruct (decide (src = [])) as [->|Hs].
    { right. split; [by intros (_ & _ & ?)|]. do 2 eexists. by split. }
    rewrite bool_decide_false by done.
    destruct (Hhash src) as [[-> ->]|(o & H & ?)]; [left; by auto|].
    destruct (decide (pool = [])) as [->|Hne]; [done|].
    rewrite H. right. split; [by intros (_ & ? & _)|by eauto 10].
  - right. split; [by intros [[|] _]|]. cbn [Select].
    destruct (Weight_total gcdx pool st Hw) as (o & st' & -> & ? & ?). by exists o, (WeightSel st').
Qed.

(** ** Health *)

(** The checks of an upstream, in order *)
Definition checks (rs : list (option error * Z)) (u : Upstream) : Upstream :=
  fold_left (fun u r => healthyCheck r.1 r.2 u) rs u.

Definition failures (rs : list (option error * Z)) : Z :=
  len (filter (fun r => is_Some r.1) rs).

Lemma checks_config (rs : list (option error * Z)) (u : Upstream) :
  config (checks rs u) = config u.
Proof.
  revert u. induction rs as [|[e t] rs IH]; intros u; [done|].
  change (config (checks rs (healthyCheck e t u)) = config u). rewrite IH.
  unfold healthyCheck. destruct e; by case_match.
Qed.

Lemma checks_all_ok (ts : list Z) (u : Upstream) :
  0 <= successCount u -> successCount u + len ts < 2 ^ 32 ->
  let u' := checks (map (fun t => (None, t)) ts) u in
  successCount u' = successCount u + len ts /\
  (SuccessThreshold (config u) <= successCount u + len ts -> ts <> [] -> health u' = 1).
Proof.
  revert u. induction ts as [|t ts IH] using rev_ind; intros u H0 H32.
  { simpl. split; [lia|done]. }
  rewrite length_app in *. cbn [length] in *. unfold checks. rewrite map_app, fold_left_app.
  destruct (IH u H0 ltac:(lia)) as [Hs _]. cbn [map fold_left fst snd].
  fold (checks (map (fun t => (None, t)) ts) u).
  pose proof (checks_config (map (fun t => (None, t)) ts) u) as Hc.
  set (v := checks _ _) in *. unfold healthyCheck. rewrite Hs, Hc, u32_small by lia.
  destruct (Z.leb_spec (SuccessThreshold (config u)) (successCount u + len ts + 1)); simpl;
    (split; [lia|]); intros; [done|lia].
Qed.

Lemma checks_all_failed (rs : list (error * Z)) (u : Upstream) :
  0 <= failureCount u -> failureCount u + len rs < 2 ^ 32 ->
  let u' := checks (map (fun r => (Some r.1, r.2)) rs) u in
  failureCount u' = failureCount u + len rs /\
  (FailureThreshold (config u) <= failureCount u + len rs -> rs <> [] -> health u' = 0).
Proof.
  revert u. induction rs as [|r rs IH] using rev_ind; intros u H0 H32.
  { simpl. split; [lia|done]. }
  rewrite length_app in *. cbn [length] in *. unfold checks. rewrite map_app, fold_left_app.
  destruct (IH u H0 ltac:(lia)) as [Hs _]. cbn [map fold_left fst snd].
  fold (checks (map (fun r => (Some r.1, r.2)) rs) u).
  pose proof (checks_config (map (fun r => (Some r.1, r.2)) rs) u) as Hc.
  set (v := checks _ _) in *. unfold healthyCheck. rewrite Hs, Hc, u32_small by lia.
  destruct (Z.leb_spec (FailureThreshold (config u)) (failureCount u + len rs + 1)); simpl;
    (split; [lia|]); intros; [done|lia].
Qed.

(** ** Connection accounting *)

(** The first upstream with the address *)
Fixpoint find_addr (addr : bytes) (ups : UpstreamPool) : option Upstream :=
  match ups with
  | [] => None
  | u :: t => if bool_decide (Addr u = addr) then Some u else find_addr addr t
  end.

Definition conn_op (op : bytes * bool) (ups : UpstreamPool) : UpstreamPool :=
  if op.2 then Pool_ConnsIncrease op.1 ups else Pool_ConnsDecrease op.1 ups.

(** Increases less decreases of one address *)
Fixpoint balance (addr : bytes) (ops : list (bytes * bool)) : Z :=
  match ops with
  | [] => 0
  | (a, inc) :: t =>
      (if bool_decide (a = addr) then if inc then 1 else -1 else 0) + balance addr t
  end.

Lemma find_update (f : Upstream -> Upstream) (a addr : bytes) (ups : UpstreamPool) :
  (forall u, Addr (f u) = Addr u) ->
  find_addr addr (update_addr f a ups) =
    if bool_decide (a = addr) then f <$> find_addr addr ups else find_addr addr ups.
Proof.
  intros Hf. induction ups as [|u ups IH]; [by destruct (bool_decide _)|].
  cbn [update_addr find_addr]. destruct (decide (Addr u = a)) as [E|E].
  - rewrite (bool_decide_true (Addr u = a)) by done. cbn [find_addr]. rewrite Hf, E.
    by destruct (bool_decide (a = addr)).
  - rewrite (bool_decide_false (Addr u = a)) by done. cbn [find_addr]. rewrite IH.
    destruct (decide (Addr u = addr)) as [E'|E'].
    + rewrite !(bool_decide_true (Addr u = addr)) by done.
      rewrite bool_decide_false by congruence. done.
    + by rewrite (bool_decide_false (Addr u = addr)).
Qed.

Lemma i64_add (x d : Z) : i64 (i64 x + d) = i64 (x + d).
Proof.
  unfold i64. f_equal.
  replace ((x + 2 ^ 63) mod 2 ^ 64 - 2 ^ 63 + d + 2 ^ 63)
    with ((x + 2 ^ 63) mod 2 ^ 64 + d) by lia.
  rewrite Z.add_mod_idemp_l by lia. f_equal. lia.
Qed.

Lemma i64_range (x : Z) : - 2 ^ 63 <= i64 x < 2 ^ 63.
Proof. unfold i64. pose proof (Z.mod_pos_bound (x + 2 ^ 63) (2 ^ 64)). lia. Qed.

Lemma i64_small (x : Z) : - 2 ^ 63 <= x < 2 ^ 63 -> i64 x = x.
Proof. intros H. unfold i64. rewrite Z.mod_small; lia. Qed.

(** The connections of the upstream an address names *)
Definition conns_of (addr : bytes) (ups : UpstreamPool) : option Z :=
  connections <$> find_addr addr ups.

Lemma conn_op_conns (op : bytes * bool) (addr : bytes) (ups : UpstreamPool) :
  conns_of addr (conn_op op ups) =
    (if bool_decide (op.1 = addr) then fun o => (fun c => i64 (c + if op.2 then 1 else -1)) <$> o
     else fun o => o) (conns_of addr ups).
Proof.
  destruct op as [a inc]. unfold conns_of, conn_op, Pool_ConnsIncrease, Pool_ConnsDecrease.
  cbn [fst snd]. destruct inc; rewrite find_update by done;
    destruct (bool_decide (a = addr)); try done; by destruct (find_addr addr ups).
Qed.

(** * Reachable balancers *)

Definition std_registry : gmap bytes SelectorState := (init_selectors ∅).2.

Definition fresh_sel (sel : SelectorState) : bool :=
  match sel with
  | RoundRobin robin => robin =? 0
  | WeightSel st => (windex st =? -1) && (curWeight st =? 0)
  | _ => true
  end.

(** Same policy, whatever its state *)
Definition same_policy (s s' : SelectorState) : Prop :=
  match s, s' with
  | RoundRobin _, RoundRobin _ | WeightSel _, WeightSel _ => True
  | _, _ => s = s'
  end.

Lemma fresh_wf (sel : SelectorState) : fresh_sel sel = true -> wf_sel sel.
Proof.
  destruct sel; simpl; try done; intros H; zify_bool; [subst; lia|].
  destruct st as [i c]; simpl in *. lia.
Qed.

Lemma std_registry_fresh : map_Forall (fun _ sel => fresh_sel sel = true) std_registry.
Proof. apply (bool_decide_eq_true_1 (map_Forall _ std_registry)). vm_compute. reflexivity. Qed.

Lemma getNew_total (method : bytes) :
  exists sel, getNewSelectorFunction std_registry method = Ok sel /\ fresh_sel sel = true.
Proof.
  unfold getNewSelectorFunction.
  destruct (std_registry !! ToLower method) as [sel|] eqn:E.
  - exists sel. split; [done|]. by eapply std_registry_fresh.
  - exists (RoundRobin 0). by vm_compute.
Qed.

(** Well-formed upstreams: what [NewUpstream] establishes *)
Record wf_upstream (u : Upstream) : Prop := {
  wf_addr_ok : is_ok (SplitHostPort (Addr u)) = true;
  wf_weight : 1 <= Weight u;
  wf_success : 1 <= SuccessThreshold (config u);
  wf_failure : 1 <= FailureThreshold (config u);
  wf_timeout : 1 <= Timeout (config u);
  wf_health : health u = 0 \/ health u = 1;
  wf_counts : 0 <= successCount u < 2 ^ 32 /\ 0 <= failureCount u < 2 ^ 32;
  wf_conns : - 2 ^ 63 <= connections u < 2 ^ 63;
}.

(** The thresholds of a configuration are unsigned. *)
Definition config_ok (c : Config) : Prop := 0 <= SuccessThreshold c /\ 0 <= FailureThreshold c.

Lemma NewUpstream_wf (c : Config) (u : Upstream) :
  config_ok c -> NewUpstream c = Ok u -> wf_upstream u.
Proof.
  unfold config_ok, NewUpstream. intros Hc H.
  destruct (SplitHostPort (CAddr c)) eqn:E; try done. injection H as <-.
  split; cbn; try lia.
  - by rewrite E.
  - destruct (Z.leb_spec (CWeight c) 0); lia.
  - destruct (Z.eqb_spec (SuccessThreshold c) 0); lia.
  - destruct (Z.eqb_spec (FailureThreshold c) 0); lia.
  - destruct (Z.leb_spec (Timeout c) 0); unfold second; lia.
Qed.

Lemma NewUpstreamPool_wf (cs : list Config) :
  Forall config_ok cs -> Forall wf_upstream (NewUpstreamPool cs).
Proof.
  induction 1 as [|c cs Hc _ IH]; [by constructor|]. simpl.
  destruct (NewUpstream c) as [u| |] eqn:E; try done.
  constructor; [by eapply NewUpstream_wf|done].
Qed.

Lemma update_addr_wf (f : Upstream -> Upstream) (addr : bytes) (ups : UpstreamPool) :
  (forall u, wf_upstream u -> wf_upstream (f u)) ->
  Forall wf_upstream ups -> Forall wf_upstream (update_addr f addr ups).
Proof.
  intros Hf. induction 1 as [|u ups Hu Hups IH]; simpl; [by constructor|].
  destruct (bool_decide _); constructor; auto.
Qed.

Lemma update_addr_length (f : Upstream -> Upstream) (addr : bytes) (ups : UpstreamPool) :
  length (update_addr f addr ups) = length ups.
Proof. induction ups as [|u ups IH]; simpl; [done|]. destruct (bool_decide _); simpl; auto. Qed.

Lemma conns_wf (d : Z) (u : Upstream) :
  wf_upstream u -> wf_upstream (mkUpstream (config u) (health u) (successCount u) (failureCount u)
    (i64 (connections u + d)) (leastTime u)).
Proof. intros []. split; try done. apply i64_range. Qed.

Lemma healthyCheck_wf (err : option error) (t : Z) (u : Upstream) :
  wf_upstream u -> wf_upstream (healthyCheck err t u).
Proof.
  intros []. unfold healthyCheck. pose proof (u32_range (successCount u + 1)).
  pose proof (u32_range (failureCount u + 1)).
  destruct err; destruct (_ <=? _); split; cbn; auto; lia.
Qed.

Lemma Select_policy (gcdx : Z -> Z -> Z) (sel : SelectorState) (rnd : nat -> Z)
    (pool : UpstreamPool) (src : bytes) :
  same_policy sel (Select gcdx sel rnd pool src).2.
Proof.
  destruct sel; simpl; try done.
  - by destruct (RoundRobin_Select robin pool).
  - by destruct (Weight_Select gcdx st pool).
Qed.

Lemma same_policy_trans (a b c : SelectorState) :
  same_policy a b -> same_policy b c -> same_policy a c.
Proof. destruct a, b, c; simpl; first [done|congruence]. Qed.

Lemma same_policy_refl (a : SelectorState) : same_policy a a.
Proof. by destruct a. Qed.

Section Reachable.
Context (gcdx : Z -> Z -> Z) {R : Type}.

(** What every method keeps *)
Record lb_inv (lb : Balanced R) : Prop := {
  inv_ups : Forall wf_upstream (upstreams lb);
  inv_sel : wf_sel (selector lb);
  inv_policy : forall sel, getNewSelectorFunction std_registry (bmethod lb) = Ok sel ->
    same_policy sel (selector lb);
}.

Lemma set_pool_inv (f : UpstreamPool -> UpstreamPool) (lb : Balanced R) :
  (Forall wf_upstream (upstreams lb) -> Forall wf_upstream (f (upstreams lb))) ->
  lb_inv lb -> lb_inv (set_pool (f (upstreams lb)) (selector lb) lb).
Proof. intros Hf []. split; simpl; auto. Qed.

Lemma fold_option_keeps (opts : list (Option R)) (lb : Balanced R) :
  let lb' := fold_left apply_option opts lb in
  upstreams lb' = upstreams lb /\ selector lb' = selector lb /\ bmethod lb' = bmethod lb.
Proof.
  revert lb. induction opts as [|o opts IH]; intros lb; [done|].
  destruct (IH (apply_option lb o)) as (? & ? & ?). by destruct o.
Qed.

Lemma New_inv (method : bytes) (cs : list Config) (opts : list (Option R)) (lb : Balanced R) :
  Forall config_ok cs -> New std_registry method cs opts = Ok lb -> lb_inv lb.
Proof.
  intros Hc. unfold New. destruct (getNew_total method) as (sel & E & Hf). rewrite E.
  intros [= <-].
  match goal with |- lb_inv (fold_left _ _ ?l) => destruct (fold_option_keeps opts l) as (Hu & Hs & Hm) end.
  split; rewrite ?Hu, ?Hs, ?Hm; simpl.
  - by apply NewUpstreamPool_wf.
  - by apply fresh_wf.
  - intros sel' E'. rewrite E in E'. injection E' as <-. apply same_policy_refl.
Qed.

(** Steps whose new configurations are well-formed *)
Inductive reachable : Balanced R -> Prop :=
  | reach_new method cs opts lb :
      Forall config_ok cs -> New std_registry method cs opts = Ok lb -> reachable lb
  | reach_select lb rnd src o lb' :
      reachable lb -> len (upstreams lb) < 2 ^ 32 ->
      Balanced_Select gcdx rnd src lb = (o, lb') -> reachable lb'
  | reach_inc lb addr : reachable lb -> reachable (Balanced_ConnsIncrease addr lb)
  | reach_dec lb addr : reachable lb -> reachable (Balanced_ConnsDecrease addr lb)
  | reach_close lb : reachable lb -> reachable (Balanced_Close lb)
  | reach_reset lb cs o lb' :
      reachable lb -> Forall config_ok cs -> Reset std_registry cs lb = (o, lb') -> reachable lb'
  | reach_check lb i err t : reachable lb -> reachable (check_done i err t lb).

Lemma Forall_alter {A} (P : A -> Prop) (f : A -> A) (i : nat) (l : list A) :
  (forall x, P x -> P (f x)) -> Forall P l -> Forall P (alter f i l).
Proof. intros Hf H. apply Forall_alter; auto. Qed.

Lemma Balanced_Select_cases (rnd : nat -> Z) (src : bytes) (lb : Balanced R) :
  len (upstreams lb) < 2 ^ 32 -> lb_inv lb ->
  (hash_on_empty (selector lb) (upstreams lb) src /\
   Balanced_Select gcdx rnd src lb = (Panic, set_pool (upstreams lb) (selector lb) lb)) \/
  (~ hash_on_empty (selector lb) (upstreams lb) src /\
   exists a sel', Balanced_Select gcdx rnd src lb = (Ok a, set_pool (upstreams lb) sel' lb) /\
     wf_sel sel' /\ same_policy (selector lb) sel' /\
     (a = [] \/ exists u, u ∈ upstreams lb /\ a = Addr u)).
Proof.
  intros Hl [_ Hs _]. unfold Balanced_Select.
  pose proof (Select_policy gcdx (selector lb) rnd (upstreams lb) src) as Hp.
  destruct (Select_total gcdx (selector lb) rnd (upstreams lb) src Hl Hs)
    as [[H E]|(H & o & sel' & E & Hin & Hw)]; rewrite E in *; [by left|right].
  split; [done|]. destruct o as [i|].
  - destruct (lookup_lt_is_Some_2 (upstreams lb) i (Hin i eq_refl)) as [u Hu].
    cbn [upstreams set_pool]. rewrite Hu.
    exists (Addr u), sel'. split_and!; [done..|]. right. exists u. split; [|done].
    by eapply list_elem_of_lookup_2.
  - exists [], sel'. split_and!; [done..|by left].
Qed.

Lemma reachable_inv (lb : Balanced R) : reachable lb -> lb_inv lb.
Proof.
  induction 1 as [method cs opts lb Hc H|lb rnd src o lb' _ IH Hl H|lb addr _ IH|lb addr _ IH
    |lb _ IH|lb cs o lb' _ IH Hc H|lb i err t _ IH].
  - by eapply New_inv.
  - destruct (Balanced_Select_cases rnd src lb Hl IH) as [[_ E]|(_ & a & sel' & E & Hw & Hp & _)];
      rewrite E in H; injection H as _ <-; destruct IH; split; simpl; try done.
    intros sel Es. eapply same_policy_trans; [by eauto|done].
  - apply set_pool_inv; [|done]. apply update_addr_wf. intros u. apply (conns_wf 1).
  - apply set_pool_inv; [|done]. apply update_addr_wf. intros u. apply (conns_wf (-1)).
  - by destruct IH.
  - unfold Reset in H. cbn [bmethod set_pool] in H.
    destruct (getNew_total (bmethod lb)) as (sel & E & Hf). rewrite E in H.
    injection H as _ <-. split; simpl.
    + by apply NewUpstreamPool_wf.
    + by apply fresh_wf.
    + intros sel' E'. rewrite E in E'. injection E' as <-. apply same_policy_refl.
  - apply (set_pool_inv (alter (healthyCheck err t) i)); [|done].
    apply Forall_alter. intros u. apply healthyCheck_wf.
Qed.

(** A whole tick of the checker is a sequence of such checks. *)
Lemma tick_reachable `{!NameResolver R} (probe : bytes -> Z -> option error * Z) (lb : Balanced R) :
  reachable lb -> reachable (health_tick probe lb).
Proof.
  intros Hr. unfold health_tick.
  set (f := fun u => let '(err, elapsed) := probe _ _ in healthyCheck err elapsed u).
  assert (H : forall k, (k <= length (upstreams lb))%nat ->
    reachable (set_pool (map f (take k (upstreams lb)) ++ drop k (upstreams lb)) (selector lb) lb)).
  { induction k as [|k IH]; intros Hk.
    { cbn [map take drop app]. by destruct lb. }
    destruct (lookup_lt_is_Some_2 (upstreams lb) k) as [u Hu]; [lia|].
    destruct (probe (resolve lb (Addr u)) (Timeout (config u))) as [e t] eqn:Ep.
    specialize (IH ltac:(lia)). apply (reach_check _ k e t) in IH.
    unfold check_done in IH. cbn [upstreams selector set_pool] in IH.
    rewrite (drop_S _ _ _ Hu), alter_app_r_alt in IH
      by (rewrite length_map, length_take; lia).
    rewrite length_map, length_take, Nat.min_l, Nat.sub_diag in IH by lia.
    rewrite (take_S_r _ _ _ Hu), map_app, <- app_assoc. cbn [map app].
    unfold f at 2. rewrite Ep. exact IH. }
  specialize (H (length (upstreams lb)) ltac:(done)).
  by rewrite firstn_all, drop_all, app_nil_r in H.
Qed.

End Reachable.

(** * Properties *)

(** The contract of the policies.  Random, least-connections, least-time
    and both hash policies return an available upstream, and return none only
    when no upstream is available; so does round robin as long as its counter
    does not pass 2^32 during the call.  Least-connections and least-time
    return one of the least measure among the available. *)
Theorem Select_picks (gcdx : Z -> Z -> Z) (sel : SelectorState) (rnd : nat -> Z)
    (pool : UpstreamPool) (src : bytes) :
  len pool < 2 ^ 31 ->
  match sel with
  | Random => True
  | RoundRobin robin => 0 <= robin /\ robin + len pool < 2 ^ 32
  | LeastConn => forall u, u ∈ pool -> 0 <= ConnsCount u
  | LeastTimeSel => forall u, u ∈ pool -> 0 <= LeastTime u
  | IPHash | AddrHash => src = [] \/ pool <> []
  | WeightSel _ => False
  end ->
  exists o, (Select gcdx sel rnd pool src).1 = Ok o /\ picks pool o /\
    (forall i u v, o = Some i -> pool !! i = Some u -> v ∈ pool -> Available v = true ->
       (sel = LeastConn -> ConnsCount u <= ConnsCount v) /\
       (sel = LeastTimeSel -> LeastTime u <= LeastTime v)).
Proof.
  intros Hl Hs.
  assert (Hh : forall s, pool <> [] -> exists o, hashing pool s = Ok o /\ picks pool o).
  { intros s Hne. rewrite hashing_scan by (destruct pool; [done|simpl in *; lia]).
    eexists. split; [done|apply scan_picks]. }
  pose proof (Random_picks rnd pool) as Hr.
  destruct sel as [|robin| | | |st|]; try done; cbn [Select fst].
  - eexists. by split_and!.
  - unfold RoundRobin_Select. destruct (decide (pool = [])) as [->|Hne].
    { exists None. split; [done|]. split; [by intros u ?%elem_of_nil|done]. }
    rewrite u32_small, Nat2Z.id by lia.
    destruct (RoundRobin_go_scan (length pool) robin pool) as [E _]; [lia|done|lia|lia|].
    destruct (RoundRobin_go _ _ _). cbn [fst] in *. rewrite E.
    eexists. split; [done|]. split; [apply scan_picks|done].
  - destruct (Least_picks ConnsCount rnd pool Hs) as [? ?]. eexists. split; [done|]. split; [done|].
    intros. split; [|done]. by eauto.
  - unfold IPHash_Select. destruct (decide (src = [])) as [->|Hne].
    { eexists. by split_and!. }
    rewrite bool_decide_false by done. cbv zeta.
    destruct (Hh (match SplitHostPort src with Ok (h, _) => h | _ => src end)) as (o & E & ?);
      [by destruct Hs|]. rewrite E. by exists o.
  - unfold AddrHash_Select. destruct (decide (src = [])) as [->|Hne].
    { eexists. by split_and!. }
    rewrite bool_decide_false by done. destruct (Hh src) as (o & E & ?); [by destruct Hs|].
    rewrite E. by exists o.
  - destruct (Least_picks LeastTime rnd pool Hs) as [? ?]. eexists. split; [done|]. split; [done|].
    intros. split; [done|]. by eauto.
Qed.

(** Three upstreams to instantiate the theorems: [av] says which are available,
    [w] their weights. *)
Definition sample (av : list bool) (w : list Z) : UpstreamPool :=
  zip_with (fun a w => mkUpstream (mkConfig (lit "127.0.0.1:80") w 0 3 3 second second)
    (if a : bool then 1 else 0) 0 0 0 0) av w.

Lemma Select_picks_witness :
  exists o, (Select Z.gcd (RoundRobin 7) (fun _ => 0) (sample [false; true; false] [1; 1; 1]) []).1
    = Ok o /\ picks (sample [false; true; false] [1; 1; 1]) o /\
    (forall i u v, o = Some i -> sample [false; true; false] [1; 1; 1] !! i = Some u ->
       v ∈ sample [false; true; false] [1; 1; 1] -> Available v = true ->
       (RoundRobin 7 = LeastConn -> ConnsCount u <= ConnsCount v) /\
       (RoundRobin 7 = LeastTimeSel -> LeastTime u <= LeastTime v)).
Proof.
  apply (Select_picks Z.gcd (RoundRobin 7) (fun _ => 0) (sample [false; true; false] [1; 1; 1]) []);
    simpl; lia.
Defined.

(** Round robin is fair.  With every upstream available, successive
    selections go round the pool from the position after the counter, for as
    long as the counter does not wrap. *)
Theorem RoundRobin_fair (gcdx : Z -> Z -> Z) (k : nat) (robin : Z) (pool : UpstreamPool) :
  0 < len pool < 2 ^ 32 -> all_available pool -> 0 <= robin -> robin + Z.of_nat k < 2 ^ 32 ->
  select_n gcdx k (RoundRobin robin) pool =
    (map (fun j => Ok (Some (Z.to_nat ((robin + Z.of_nat j) mod len pool)))) (seq 1 k),
     RoundRobin (robin + Z.of_nat k)).
Proof.
  intros Hl Ha. revert robin. induction k as [|k IH]; intros robin Hr Hk.
  { cbn. do 2 f_equal. lia. }
  cbn [select_n Select seq map]. rewrite RoundRobin_available by (done || lia).
  rewrite IH by lia. f_equal; [|f_equal; lia]. f_equal.
  rewrite <- (seq_shift k 1), map_map. apply map_ext. intros j.
  by replace (robin + Z.of_nat (S j)) with (robin + 1 + Z.of_nat j) by lia.
Qed.

Lemma RoundRobin_fair_witness :
  select_n Z.gcd 4 (RoundRobin 1) (sample [true; true; true] [1; 1; 1]) =
    ([Ok (Some 2%nat); Ok (Some 0%nat); Ok (Some 1%nat); Ok (Some 2%nat)], RoundRobin 5).
Proof.
  etrans; [apply (RoundRobin_fair Z.gcd 4 1 (sample [true; true; true] [1; 1; 1]))|reflexivity];
    try (simpl; lia).
  by repeat constructor.
Defined.

(** C26: the weighted policy is proportional.  With two or more available
    upstreams of positive weights, starting fresh or after a full cycle, one
    cycle of selections returns every upstream exactly its weight divided by
    the common divisor many times, and ends where the next cycle starts. *)
Theorem Weight_cycle (gcdx : Z -> Z -> Z) (pool : UpstreamPool) (m g : Z) (st : WeightState) :
  (forall a b, 0 < a -> 0 < b -> gcdx a b = Z.gcd a b) ->
  (2 <= length pool)%nat -> all_available pool -> weights_pos pool ->
  getMaxWeightAndGCD gcdx pool = Ok (m, g) ->
  st = NewWeight \/ st = mkWeight (len pool - 1) g ->
  exists l,
    select_n gcdx (length l) (WeightSel st) pool =
      (map (fun i => Ok (Some i)) l, WeightSel (mkWeight (len pool - 1) g)) /\
    forall i u, pool !! i = Some u -> count_occ Nat.eq_dec l i = Z.to_nat (Weight u / g).
Proof.
  intros Hgcd Hlen Ha Hw Hmg Hst.
  destruct (getMaxWeightAndGCD_spec gcdx Hgcd pool) as (m' & g' & E & Hg & Hd & Hmax & Hall);
    [by destruct pool|done|].
  rewrite Hmg in E. injection E as <- <-.
  eapply cycle; try done.
  - intros u Hu. by eapply (proj1 (Forall_forall _ _) Hw).
  - intros s. destruct pool as [|u [|v pool]]; [simpl in Hlen; lia..|].
    unfold Weight_Select. by rewrite Hmg.
Qed.

Lemma Weight_cycle_witness :
  exists l,
    select_n Z.gcd (length l) (WeightSel NewWeight) (sample [true; true; true] [4; 2; 6]) =
      (map (fun i => Ok (Some i)) l, WeightSel (mkWeight 2 2)) /\
    forall i u, sample [true; true; true] [4; 2; 6] !! i = Some u ->
      count_occ Nat.eq_dec l i = Z.to_nat (Weight u / 2).
Proof.
  apply (Weight_cycle Z.gcd (sample [true; true; true] [4; 2; 6]) 6 2 NewWeight);
    [done|simpl; lia|by repeat constructor|by repeat constructor|reflexivity|by left].
Defined.

(** Where the policies miss.  The weighted policy returns the only member
    of a pool without asking whether it is available, and it can return none
    although an upstream is available (one turn of the pool is all it tries);
    round robin can miss the only available upstream when its 32-bit counter
    wraps during the call. *)
Theorem selection_gaps (gcdx : Z -> Z -> Z) :
  (Weight_Select gcdx NewWeight (sample [false] [1])).1 = Ok (Some 0%nat) /\
  (Weight_Select Z.gcd NewWeight (sample [false; true] [3; 1])).1 = Ok None /\
  (RoundRobin_Select (2 ^ 32 - 2) (sample [false; false; true] [1; 1; 1])).1 = Ok None.
Proof. split_and!; reflexivity. Qed.

(** Health has hysteresis.  As many successful checks as the success
    threshold make an upstream healthy, as many failed ones as the failure
    threshold make it unhealthy, whatever the counts were (below 2^32), and a
    check never changes the configuration. *)
Theorem health_thresholds (u : Upstream) (ts : list Z) (rs : list (error * Z)) :
  wf_upstream u ->
  successCount u + len ts < 2 ^ 32 -> failureCount u + len rs < 2 ^ 32 ->
  (SuccessThreshold (config u) <= len ts ->
     health (checks (map (fun t => (None, t)) ts) u) = 1) /\
  (FailureThreshold (config u) <= len rs ->
     health (checks (map (fun r => (Some r.1, r.2)) rs) u) = 0).
Proof.
  intros [_ _ Hs Hf _ _ [Hsc Hfc] _] H1 H2. split; intros H.
  - apply checks_all_ok; [lia|lia|lia|]. destruct ts; [simpl in H; lia|done].
  - apply checks_all_failed; [lia|lia|lia|]. destruct rs; [simpl in H; lia|done].
Qed.

Lemma sample_wf (u : Upstream) : NewUpstream (mkConfig (lit "a:1") 0 0 0 0 0 0) = Ok u -> wf_upstream u.
Proof. apply NewUpstream_wf. split; simpl; lia. Qed.

Lemma health_thresholds_witness :
  let u := mkUpstream (mkConfig (lit "a:1") 1 0 3 3 (second * 30) second) 0 0 0 0 0 in
  (3 <= 3 -> health (checks [(None, 1); (None, 1); (None, 1)] u) = 1) /\
  (3 <= 3 -> health (checks [(Some EOF, 1); (Some EOF, 1); (Some EOF, 1)] u) = 0).
Proof.
  apply (health_thresholds (mkUpstream (mkConfig (lit "a:1") 1 0 3 3 (second * 30) second) 0 0 0 0 0)
    [1; 1; 1] [(EOF, 1); (EOF, 1); (EOF, 1)]); [|simpl; lia..].
  apply sample_wf. reflexivity.
Defined.

(** Connection counts balance.  After any sequence of increases and
    decreases, the count of the upstream an address names is its old count plus
    the increases less the decreases of that address, as a signed 64-bit
    integer, whatever happened to other addresses. *)
Theorem connections_balance (ops : list (bytes * bool)) (addr : bytes) (ups : UpstreamPool) (c : Z) :
  - 2 ^ 63 <= c < 2 ^ 63 -> conns_of addr ups = Some c ->
  conns_of addr (fold_left (fun ups op => conn_op op ups) ops ups) = Some (i64 (c + balance addr ops)).
Proof.
  revert ups c. induction ops as [|[a inc] ops IH]; intros ups c Hc H; cbn [fold_left balance].
  { rewrite Z.add_0_r, i64_small by done. done. }
  pose proof (conn_op_conns (a, inc) addr ups) as E. rewrite H in E. cbn [fst snd] in E.
  destruct (bool_decide (a = addr)).
  - rewrite (IH _ (i64 (c + if inc then 1 else -1))); [|apply i64_range|exact E].
    rewrite i64_add. do 2 f_equal. lia.
  - by rewrite (IH _ c).
Qed.

Lemma connections_balance_witness :
  conns_of (lit "127.0.0.1:80") (fold_left (fun ups op => conn_op op ups)
    [(lit "127.0.0.1:80", true); (lit "x:1", true); (lit "127.0.0.1:80", true);
     (lit "127.0.0.1:80", false)] (sample [true] [1])) = Some (i64 (0 + 1)).
Proof.
  apply (connections_balance [(lit "127.0.0.1:80", true); (lit "x:1", true);
    (lit "127.0.0.1:80", true); (lit "127.0.0.1:80", false)] (lit "127.0.0.1:80")
    (sample [true] [1]) 0); [lia|reflexivity].
Defined.

(** C25: reachable balancers are well-formed and do not panic.  However New,
    Select, ConnsIncrease, ConnsDecrease, Close, Reset and the health checks
    interleave, every upstream keeps a valid address, a positive weight,
    positive thresholds and counters within their width, the policy stays the
    one the method names, and Select returns "" or the address of a member of
    the pool; it panics only if a hash policy is asked for a source in an empty
    pool. *)
Theorem balancer_safe (gcdx : Z -> Z -> Z) {R : Type}
    (lb : Balanced R) (rnd : nat -> Z) (src : bytes) :
  reachable gcdx lb -> len (upstreams lb) < 2 ^ 32 ->
  lb_inv lb /\
  match (Balanced_Select gcdx rnd src lb).1 with
  | Ok a => a = [] \/ exists u, u ∈ upstreams lb /\ a = Addr u
  | Fail _ => False
  | Panic => hash_on_empty (selector lb) (upstreams lb) src
  end.
Proof.
  intros Hr Hl. assert (Hi := reachable_inv gcdx lb Hr). split; [done|].
  destruct (Balanced_Select_cases gcdx rnd src lb Hl Hi) as [[H E]|(_ & a & sel' & E & _ & _ & H)];
    by rewrite E.
Qed.

Lemma balancer_safe_witness :
  let lb := mkBalanced (R := unit) (lit "hash") (second * 30) false None [] IPHash false in
  lb_inv lb /\ hash_on_empty IPHash [] (lit "1.2.3.4:5").
Proof.
  refine (balancer_safe Z.gcd (R := unit)
    (mkBalanced (lit "hash") (second * 30) false None [] IPHash false) (fun _ => 0)
    (lit "1.2.3.4:5") _ _); [|simpl; lia].
  apply (reach_new Z.gcd (lit "hash") [] []); [constructor|].
  vm_compute. reflexivity.
Defined.
