(* ===== verification/Shadowsocks.v ===== *)
(** connection/shadowsocks: the request header (request.go), the cipher state
    (encrypt.go) and the encrypting connection (conn.go).  The stream ciphers of
    github.com/things-go/encrypt are a class of operations with the laws the
    connection relies on; the entropy source is a reader. *)
From S2P Require Import Prelude GoStrings GoNet GoIO.
Open Scope Z_scope.

(** * The cipher library *)

(** A [cipher.Stream] is a state that [XORKeyStream] advances. *)
Class Encrypt := {
  Stream : Type;
  XORKeyStream : Stream -> bytes -> bytes * Stream;
  NewStream : bytes -> bytes -> bytes -> bool -> outcome Stream;
  GetCipher : bytes -> option (nat * nat);   (** IV length, key length *)
  Evp2Key : bytes -> nat -> bytes;
}.

(** What it documents: a stream does not see how its input is cut, a method's
    streams exist for a key and an IV of its lengths, and the decrypting stream
    undoes the encrypting stream of the same key and IV, in step with it. *)
Class EncryptLaws `{Encrypt} := {
  paired : Stream -> Stream -> Prop;
  xor_nil : forall s, XORKeyStream s [] = ([], s);
  xor_app : forall s a b,
    XORKeyStream s (a ++ b) =
      ((XORKeyStream s a).1 ++ (XORKeyStream (XORKeyStream s a).2 b).1,
       (XORKeyStream (XORKeyStream s a).2 b).2);
  xor_length : forall s a, length (XORKeyStream s a).1 = length a;
  paired_step : forall e d p, paired e d ->
    (XORKeyStream d (XORKeyStream e p).1).1 = p /\
    paired (XORKeyStream e p).2 (XORKeyStream d (XORKeyStream e p).1).2;
  new_paired : forall m il kl key iv, GetCipher m = Some (il, kl) ->
    length key = kl -> length iv = il ->
    exists e d, NewStream m key iv true = Ok e /\ NewStream m key iv false = Ok d /\ paired e d;
  key_length : forall p n, length (Evp2Key p n) = n;
}.

(** * Requests (request.go) *)

Definition AddrMask : Z := 15.
Definition typeIPv4 : Z := 1.
Definition typeDomain : Z := 3.
Definition typeIPv6 : Z := 4.

(** [rf n] is [io.ReadFull(r, buf)] with [len(buf) = n]. *)
Definition ParseRequest_on {S} (rf : nat → io S bytes) : io S bytes :=
  tmp ← rf 1%nat;
  addrType ← io_lift (idx tmp 0);
  let t := Z.land (b2z addrType) AddrMask in
  '(addr, port) ←
    (if t =? typeIPv4 then
       tmpAddr ← rf (Z.to_nat (IPv4len + 2));
       ip ← io_lift (slice tmpAddr 0 IPv4len);
       ph ← io_lift (idx tmpAddr IPv4len); pl ← io_lift (idx tmpAddr (IPv4len + 1));
       mret (ip_String ip, be16 ph pl)
     else if t =? typeIPv6 then
       tmpAddr ← rf (Z.to_nat (IPv6len + 2));
       ip ← io_lift (slice tmpAddr 0 IPv6len);
       ph ← io_lift (idx tmpAddr IPv6len); pl ← io_lift (idx tmpAddr (IPv6len + 1));
       mret (ip_String ip, be16 ph pl)
     else if t =? typeDomain then
       tmp ← rf 1%nat;
       l ← io_lift (idx tmp 0);
       let domainLen := b2z l in
       tmpAddr ← rf (Z.to_nat (domainLen + 2));
       name ← io_lift (slice tmpAddr 0 domainLen);
       ph ← io_lift (idx tmpAddr domainLen); pl ← io_lift (idx tmpAddr (domainLen + 1));
       mret (name, be16 ph pl)
     else io_fail (ErrMsg "address type [ %d ] not supported"));
  mret (JoinHostPort addr (Itoa port)).

Definition ParseRequest : io reader bytes := ParseRequest_on ReadFull.

(** The address type and bytes [ParseAddrSpec] chooses for a host *)
Definition host_addr (host : bytes) : Z * bytes :=
  let ip := ParseIP host in
  if negb (bool_decide (To4 ip = [])) then (typeIPv4, To4 ip)
  else if negb (bool_decide (To16 ip = [])) then (typeIPv6, To16 ip)
  else (typeDomain, host).

Definition ParseAddrSpec (addr : bytes) : outcome bytes :=
  '(host, portStr) ← match SplitHostPort addr with
    | Fail e => Fail (ErrWrap "shadowsocks: address error %s" e) | r => r end;
  port ← match Atoi portStr with
    | Fail _ => Fail (ErrMsg "shadowsocks: invalid port %s") | r => r end;
  let '(addrType, addrBytes) := host_addr host in
  Ok ([z2b addrType]
        ++ (if addrType =? typeDomain then [z2b (len addrBytes)] else [])
        ++ addrBytes ++ port_bytes port).

(** * Ciphers (encrypt.go) *)
Section Cipher.
Context `{Encrypt}.

Record Cipher := mkCipher {
  writer : option Stream;
  reader_ : option Stream;
  method : bytes;
  ivLen : nat;
  key : bytes;
  iv : option bytes;   (** [None] is the nil slice *)
}.

Definition NewCipher (method password : bytes) : outcome Cipher :=
  if bool_decide (password = []) then Fail (ErrMsg "empty password")
  else match GetCipher method with
       | None => Fail (ErrMsg "unsupported encryption method: ")
       | Some (il, kl) => Ok (mkCipher None None method il (Evp2Key password kl) None)
       end.

Definition Clone (c : Cipher) : Cipher :=
  mkCipher None None (method c) (ivLen c) (key c) (iv c).

(** A cipher and the entropy source *)
Record cstate := mkCstate { cip : Cipher; rnd : reader }.

Definition on_rnd {A} (m : io reader A) : io cstate A := fun s =>
  let '(o, r) := m (rnd s) in (o, mkCstate (cip s) r).

Definition set_iv (v : option bytes) (s : cstate) : cstate :=
  let c := cip s in
  mkCstate (mkCipher (writer c) (reader_ c) (method c) (ivLen c) (key c) v) (rnd s).
Definition set_writer (w : option Stream) (s : cstate) : cstate :=
  let c := cip s in
  mkCstate (mkCipher w (reader_ c) (method c) (ivLen c) (key c) (iv c)) (rnd s).
Definition set_reader (r : option Stream) (s : cstate) : cstate :=
  let c := cip s in
  mkCstate (mkCipher (writer c) r (method c) (ivLen c) (key c) (iv c)) (rnd s).

Definition initEncrypt : io cstate bytes :=
  c ← io_gets cip;
  v ← match iv c with
      | Some v => mret v
      | None =>
          v ← on_rnd (ReadFull (ivLen c));
          io_modify (set_iv (Some v));;
          mret v
      end;
  match NewStream (method c) (key c) v true with
  | Ok w => io_modify (set_writer (Some w));; mret v
  | Fail e => io_modify (set_writer None);; io_fail e
  | Panic => io_panic
  end.

(** [c.writer.XORKeyStream(dst, src)]: a nil stream panics *)
Definition encrypt (src : bytes) : io cstate bytes :=
  c ← io_gets cip;
  match writer c with
  | Some w =>
      let '(dst, w') := XORKeyStream w src in
      io_modify (set_writer (Some w'));; mret dst
  | None => io_panic
  end.

Definition initDecrypt (v : bytes) : io cstate unit :=
  c ← io_gets cip;
  match NewStream (method c) (key c) v false with
  | Ok r =>
      io_modify (set_reader (Some r));;
      io_modify (fun s => if Nat.eqb (length (default [] (iv (cip s)))) 0
                          then set_iv (Some v) s else s)
  | Fail e => io_modify (set_reader None);; io_fail e
  | Panic => io_panic
  end.

Definition decrypt (src : bytes) : io cstate bytes :=
  c ← io_gets cip;
  match reader_ c with
  | Some r =>
      let '(dst, r') := XORKeyStream r src in
      io_modify (set_reader (Some r'));; mret dst
  | None => io_panic
  end.

(** Run on a clone: the cipher itself is unchanged. *)
Definition on_clone {A} (m : io cstate A) : io cstate A := fun s =>
  let '(o, s') := m (mkCstate (Clone (cip s)) (rnd s)) in (o, mkCstate (cip s) (rnd s')).

Definition Encrypt_ (src : bytes) : io cstate bytes :=
  on_clone (v ← initEncrypt; dst ← encrypt src; mret (v ++ dst)).

Definition Decrypt_ (input : bytes) : io cstate bytes :=
  on_clone
    (c ← io_gets cip;
     if len input <? Z.of_nat (ivLen c) then io_fail (ErrMsg "invalid input data")
     else
       v ← io_lift (slice input 0 (Z.of_nat (ivLen c)));
       initDecrypt v;;
       src ← io_lift (slice_from input (Z.of_nat (ivLen c)));
       decrypt src).

(** * Connections (conn.go) *)

Record Conn := mkSConn { inner : conn; cs : cstate }.

Definition on_inner {A} (m : io conn A) : io Conn A := fun s =>
  let '(o, c) := m (inner s) in (o, mkSConn c (cs s)).
Definition on_cipher {A} (m : io cstate A) : io Conn A := fun s =>
  let '(o, c) := m (cs s) in (o, mkSConn (inner s) c).

(** [Read(b)] with [len(b) = n]; the pool's buffer is replaced by a fresh one
    when it is too small for [n]. *)
Definition Conn_Read (n : nat) : io Conn bytes :=
  c ← io_gets (fun s => cip (cs s));
  match reader_ c with
  | Some _ => mret tt
  | None =>
      v ← on_inner (on_rx (ReadFull (ivLen c)));
      on_cipher (initDecrypt v)
  end;;
  cipherData ← on_inner (on_rx (Read n));
  if Nat.ltb 0 (length cipherData) then on_cipher (decrypt cipherData) else mret [].

(** [io.ReadFull] on the connection; every read but the last one takes an event,
    so their number is fuel enough. *)
Fixpoint conn_readfull (fuel n : nat) (acc : bytes) : io Conn bytes :=
  match n, fuel with
  | O, _ => mret acc
  | _, O => io_fail (ErrMsg "multiple Read calls return no data or error")
  | _, S fuel =>
      r ← io_try (Conn_Read n);
      match r with
      | inr e => io_fail (full_err acc e)
      | inl b => conn_readfull fuel (n - length b) (acc ++ b)
      end
  end.

Definition Conn_ReadFull (n : nat) : io Conn bytes := fun s =>
  conn_readfull (S (length (rx (inner s)))) n [] s.

(** [Write(b)]: the count it returns *)
Definition Conn_Write (b : bytes) : io Conn Z :=
  c ← io_gets (fun s => cip (cs s));
  v ← match writer c with
      | Some _ => mret []
      | None => on_cipher initEncrypt
      end;
  dst ← on_cipher (encrypt b);
  let cipherData := v ++ dst in
  on_inner (Write cipherData);;
  mret (len cipherData - len v).

Definition Conn_Close : io Conn unit := on_inner Close.

Definition NewConnWithRawAddr (rawaddr : bytes) : io Conn unit :=
  r ← io_try (Conn_Write rawaddr);
  match r with
  | inl _ => mret tt
  | inr e => Conn_Close;; io_fail e
  end.

(** [Dial(addr, server, cipher)]: [dialed] is what [net.Dial] returned. *)
Definition Dial (addr : bytes) (dialed : outcome conn) (c : Cipher) (rnd : reader)
  : outcome Conn :=
  ra ← ParseAddrSpec addr;
  cn ← dialed;
  match NewConnWithRawAddr ra (mkSConn cn (mkCstate c rnd)) with
  | (Ok _, s) => Ok s
  | (Fail e, _) => Fail e
  | (Panic, _) => Panic
  end.

Definition Iv (s : Conn) : bytes := default [] (iv (cip (cs s))).
Definition Key (s : Conn) : bytes := key (cip (cs s)).

End Cipher.

(** * Laws of the request header *)

(** The host as the server prints it *)
Definition canon_host (host : bytes) : bytes :=
  if (host_addr host).1 =? typeDomain then host else ip_String (host_addr host).2.

Lemma host_addr_cases (host : bytes) :
  (exists a b c d, host_addr host = (typeIPv4, [a; b; c; d])) \/
  (exists ip, host_addr host = (typeIPv6, ip) /\ length ip = 16%nat) \/
  host_addr host = (typeDomain, host).
Proof.
  unfold host_addr. destruct (To4_cases (ParseIP host)) as [->|H4].
  - rewrite bool_decide_true by done. cbn [negb]. rewrite To16_ParseIP.
    destruct (ParseIP_length host) as [->|H16].
    + right; right. by rewrite bool_decide_true.
    + right; left. exists (ParseIP host). rewrite bool_decide_false; [done|].
      intros E. by rewrite E in H16.
  - left. destruct (To4 (ParseIP host)) as [|a [|b [|c [|d [|? ?]]]]]; try done.
    exists a, b, c, d. by rewrite bool_decide_false.
Qed.

(** The header bytes of a host and a port *)
Definition header_bytes (host : bytes) (port : Z) : bytes :=
  let '(t, b) := host_addr host in
  [z2b t] ++ (if t =? typeDomain then [z2b (len b)] else []) ++ b ++ port_bytes port.

Lemma reads_header (host : bytes) (port : Z) :
  ((host_addr host).1 = typeDomain -> len host <= 255) ->
  reads ParseRequest (header_bytes host port)
    (JoinHostPort (canon_host host) (Itoa (port mod 65536))).
Proof.
  unfold header_bytes, canon_host.
  destruct (host_addr_cases host) as [(a & b & c & d & ->)|[(ip & -> & Hl)| ->]]; intros Hd.
  - cbn [fst snd Z.eqb]. eapply reads_bind; [by apply reads_ReadFull|].
    eapply reads_lift; [reflexivity|]. change (b2z (z2b typeIPv4)) with 1.
    change (Z.land 1 AddrMask) with 1. cbn [Z.eqb app].
    apply (reads_bind_nil _ _ _ (ip_String [a; b; c; d], port mod 65536)); [|apply reads_ret].
    eapply reads_bind_nil; [by apply reads_ReadFull|].
    do 3 (eapply reads_lift; [reflexivity|]).
    rewrite port_bytes_be16. apply reads_ret.
  - cbn [fst snd]. change (typeIPv6 =? typeDomain) with false. cbn [app].
    change (z2b typeIPv6 :: ip ++ port_bytes port) with ([z2b typeIPv6] ++ (ip ++ port_bytes port)).
    eapply reads_bind; [by apply reads_ReadFull|].
    eapply reads_lift; [reflexivity|]. change (b2z (z2b typeIPv6)) with 4.
    change (Z.land 4 AddrMask) with 4. cbn [Z.eqb app].
    apply (reads_bind_nil _ _ _ (ip_String ip, port mod 65536)); [|apply reads_ret].
    eapply reads_bind_nil; [apply reads_ReadFull; rewrite length_app, Hl; done|].
    eapply reads_lift; [by apply slice_app_l; rewrite Hl|].
    eapply reads_lift; [by apply (idx_app_ok _ _ _ 0); rewrite ?Hl|].
    eapply reads_lift; [by apply (idx_app_ok _ _ _ 1); rewrite ?Hl|].
    rewrite port_bytes_be16. apply reads_ret.
  - specialize (Hd eq_refl). cbn [fst snd Z.eqb typeDomain].
    change ([z2b 3] ++ [z2b (len host)] ++ host ++ port_bytes port)
      with ([z2b 3] ++ ([z2b (len host)] ++ (host ++ port_bytes port))).
    eapply reads_bind; [by apply reads_ReadFull|].
    eapply reads_lift; [reflexivity|]. change (b2z (z2b 3)) with 3.
    change (Z.land 3 AddrMask) with 3. cbn [Z.eqb].
    apply (reads_bind_nil _ _ _ (host, port mod 65536)); [|apply reads_ret].
    eapply reads_bind; [by apply reads_ReadFull|].
    eapply reads_lift; [reflexivity|]. rewrite b2z_z2b_small by lia.
    eapply reads_bind_nil; [apply reads_ReadFull; rewrite length_app; simpl; lia|].
    eapply reads_lift; [by apply slice_app_l|].
    eapply reads_lift; [by apply (idx_app_ok _ _ _ 0); [lia|lia|]|].
    eapply reads_lift; [by apply (idx_app_ok _ _ _ 1); [lia|lia|]|].
    rewrite port_bytes_be16. apply reads_ret.
Qed.

Lemma ParseAddrSpec_header (host portStr : bytes) (port : Z) (addr : bytes) :
  SplitHostPort addr = Ok (host, portStr) -> Atoi portStr = Ok port ->
  ParseAddrSpec addr = Ok (header_bytes host port).
Proof.
  unfold ParseAddrSpec, header_bytes. intros -> H. cbn. rewrite H. cbn.
  by destruct (host_addr host).
Qed.

(** * Laws of connections *)
Section ConnLaws.
Context `{EncryptLaws}.

Lemma decrypt_ok (src : bytes) (s : cstate) (r : Stream) :
  reader_ (cip s) = Some r ->
  decrypt src s = (Ok (XORKeyStream r src).1, set_reader (Some (XORKeyStream r src).2) s).
Proof.
  intros E. unfold decrypt. rewrite bind_gets, E. by destruct (XORKeyStream r src).
Qed.

Lemma encrypt_ok (src : bytes) (s : cstate) (w : Stream) :
  writer (cip s) = Some w ->
  encrypt src s = (Ok (XORKeyStream w src).1, set_writer (Some (XORKeyStream w src).2) s).
Proof.
  intros E. unfold encrypt. rewrite bind_gets, E. by destruct (XORKeyStream w src).
Qed.

(** What a reader delivers once decrypted *)
Fixpoint dec (d : Stream) (r : reader) : reader :=
  match r with
  | [] => []
  | Seg b :: t => Seg (XORKeyStream d b).1 :: dec (XORKeyStream d b).2 t
  | RErr e :: t => RErr e :: dec d t
  end.

Lemma flat_dec (d : Stream) (r : reader) (bs : bytes) :
  flat r = map inl bs -> flat (dec d r) = map inl (XORKeyStream d bs).1.
Proof.
  revert d bs. induction r as [|[b|e] r IH]; intros d bs Hf.
  - destruct bs; [|done]. by rewrite xor_nil.
  - rewrite flat_cons in Hf. cbn [flat_ev] in Hf. cbn [dec]. rewrite flat_cons. cbn [flat_ev].
    assert (exists c, bs = b ++ c /\ flat r = map inl c) as (c & -> & Hc).
    { clear IH. revert bs Hf. induction b as [|x b IHb]; intros bs Hf; [by exists bs|].
      destruct bs as [|y bs]; [done|]. cbn in Hf. injection Hf as -> Hf.
      destruct (IHb bs Hf) as (c & -> & Hc). by exists c. }
    rewrite xor_app. cbn [fst]. rewrite map_app. f_equal. by apply IH.
  - destruct bs; discriminate Hf.
Qed.

(** The plaintext a connection is about to deliver, once it has read the IV *)
Definition plain (s : Conn) : option reader :=
  match reader_ (cip (cs s)) with
  | Some d => Some (dec d (rx (inner s)))
  | None => None
  end.

Lemma xor_take (d : Stream) (n : nat) (b : bytes) :
  (n <= length b)%nat ->
  (XORKeyStream d b).1 =
    (XORKeyStream d (take n b)).1 ++ (XORKeyStream (XORKeyStream d (take n b)).2 (drop n b)).1 /\
  (XORKeyStream d b).2 = (XORKeyStream (XORKeyStream d (take n b)).2 (drop n b)).2 /\
  length (XORKeyStream d (take n b)).1 = n.
Proof.
  intros Hn. assert (E := xor_app d (take n b) (drop n b)). rewrite take_drop in E.
  rewrite E. cbn [fst snd].
  split_and!; [done|done|]. rewrite xor_length, length_take. lia.
Qed.

(** Reading from the connection is reading from its plaintext. *)
Lemma Conn_Read_plain (n : nat) (s : Conn) (q : reader) :
  plain s = Some q ->
  exists s', Conn_Read n s = ((Read n q).1, s') /\ plain s' = Some (Read n q).2 /\
    tx (inner s') = tx (inner s) /\ wres (inner s') = wres (inner s) /\
    cs s' = set_reader (reader_ (cip (cs s'))) (cs s).
Proof.
  destruct s as [[r t w cl] [[wr [d|] m il k v] g]]; [|done]. intros [= <-].
  destruct r as [|[b|e] r]; [by eexists|..|by eexists].
  cbn [Read dec]. rewrite xor_length.
  unfold Conn_Read, mbind, io_bind, io_gets, on_inner, on_rx. cbn.
  destruct (Nat.leb_spec (length b) n) as [Hn|Hn]; cbn [fst snd].
  - destruct b as [|x b]; cbn [length Nat.ltb Nat.leb].
    + rewrite xor_nil. by eexists.
    + unfold on_cipher. erewrite decrypt_ok by done. by eexists.
  - destruct (xor_take d n b) as (E1 & E2 & E3); [lia|]. rewrite E1.
    rewrite take_app_length', drop_app_length' by done. rewrite E2.
    rewrite length_take_le by lia. destruct n as [|n].
    + rewrite take_0, drop_0, xor_nil. by eexists.
    + cbn [Nat.ltb Nat.leb]. unfold on_cipher. erewrite decrypt_ok by done. by eexists.
Qed.

(** What reading leaves of a connection *)
Definition kept (s s' : Conn) : Prop :=
  tx (inner s') = tx (inner s) /\ wres (inner s') = wres (inner s) /\
  cs s' = set_reader (reader_ (cip (cs s'))) (cs s).

Lemma kept_trans (s1 s2 s3 : Conn) : kept s1 s2 -> kept s2 s3 -> kept s1 s3.
Proof.
  intros (H1 & H2 & H3) (H4 & H5 & H6). split_and!; [congruence..|]. by rewrite H6, H3 at 1.
Qed.

Lemma kept_refl (s : Conn) : kept s s.
Proof. by destruct s as [i [[] g]]. Qed.

(** A computation on the connection that is one on its plaintext *)
Definition sim {A} (m : io Conn A) (m' : io reader A) : Prop := forall s q,
  plain s = Some q ->
  exists s', m s = ((m' q).1, s') /\ plain s' = Some (m' q).2 /\ kept s s'.

Lemma sim_ret {A} (a : A) : sim (mret a) (mret a).
Proof. intros s q Hp. exists s. split_and!; [done..|]. apply kept_refl. Qed.

Lemma sim_fail {A} (e : error) : sim (io_fail (A := A) e) (io_fail e).
Proof. intros s q Hp. exists s. split_and!; [done..|]. apply kept_refl. Qed.

Lemma sim_lift {A} (m : outcome A) : sim (io_lift m) (io_lift m).
Proof. intros s q Hp. exists s. split_and!; [done..|]. apply kept_refl. Qed.

(** One run of [m] that is a run of [m'] on the plaintext [q], seen from [s0] *)
Definition sim_at {A} (m : io Conn A) (m' : io reader A) (s0 s : Conn) (q : reader) : Prop :=
  exists s', m s = ((m' q).1, s') /\ plain s' = Some (m' q).2 /\ kept s0 s'.

Lemma sim_at_bind {A B} (m : io Conn A) (m' : io reader A) (f : A -> io Conn B)
    (f' : A -> io reader B) s0 s q :
  sim_at m m' s0 s q -> (forall a, sim (f a) (f' a)) -> sim_at (m ≫= f) (m' ≫= f') s0 s q.
Proof.
  intros (s1 & E & Hp1 & K1) Hf. unfold sim_at, mbind, io_bind. rewrite E.
  destruct (m' q) as [[a|e|] q1]; cbn [fst snd] in *; [|by exists s1..].
  destruct (Hf a s1 q1 Hp1) as (s2 & E2 & Hp2 & K2). exists s2. split_and!; [done..|].
  by eapply kept_trans.
Qed.

Lemma sim_bind {A B} (m : io Conn A) (m' : io reader A) (f : A -> io Conn B) (f' : A -> io reader B) :
  sim m m' -> (forall a, sim (f a) (f' a)) -> sim (m ≫= f) (m' ≫= f').
Proof. intros Hm Hf s q Hp. apply sim_at_bind; [by apply Hm|done]. Qed.

(** The first read takes the IV. *)
Lemma Conn_Read_iv (n : nat) (s : Conn) (v : bytes) (r' : reader) (cs1 : cstate) (d : Stream) :
  reader_ (cip (cs s)) = None ->
  ReadFull (ivLen (cip (cs s))) (rx (inner s)) = (Ok v, r') ->
  initDecrypt v (cs s) = (Ok tt, cs1) -> reader_ (cip cs1) = Some d ->
  Conn_Read n s = Conn_Read n (mkSConn (mkConn r' (tx (inner s)) (wres (inner s)) (closed (inner s))) cs1).
Proof.
  intros Hr Hv Hi Hd. unfold Conn_Read. rewrite !bind_gets. cbn [cs]. rewrite Hr, Hd.
  erewrite bind_ok; [|erewrite bind_ok; [|unfold on_inner; by erewrite on_rx_ok by done]].
  2: { unfold on_cipher. cbn [cs inner]. by rewrite Hi. }
  done.
Qed.

Lemma dec_length (d : Stream) (r : reader) : length (dec d r) = length r.
Proof. revert d. induction r as [|[b|e] r IH]; intros d; cbn; by rewrite ?IH. Qed.

Lemma conn_readfull_plain (fuel n : nat) (acc : bytes) (s : Conn) (q : reader) :
  plain s = Some q -> (length q < fuel)%nat ->
  exists s', conn_readfull fuel n acc s = ((readfull_go n acc q).1, s') /\
    plain s' = Some (readfull_go n acc q).2 /\ kept s s'.
Proof.
  revert n acc s q. induction fuel as [|fuel IH]; intros n acc s q Hp Hl; [lia|].
  destruct n as [|n].
  { exists s. split_and!; [by destruct q|by destruct q|apply kept_refl]. }
  cbn [conn_readfull]. destruct (Conn_Read_plain (S n) s q Hp) as (s1 & E & H1 & K1).
  change (kept s s1) in K1. unfold mbind, io_bind, io_try. rewrite E. clear E.
  destruct q as [|[b|e] q]; cbn [Read fst snd readfull_go] in *; [by exists s1| |by exists s1].
  destruct (Nat.leb_spec (length b) (S n)) as [Hb|Hb]; cbn [fst snd] in *.
  - rewrite (proj2 (Nat.ltb_ge _ _) Hb).
    destruct (IH (S n - length b)%nat (acc ++ b) s1 q H1) as (s2 & E2 & H2 & K2); [cbn in Hl; lia|].
    exists s2. split_and!; [done..|]. by eapply kept_trans.
  - rewrite (proj2 (Nat.ltb_lt _ _) Hb). rewrite length_take_le by lia. rewrite Nat.sub_diag.
    exists s1. split_and!; [by destruct fuel|done|done].
Qed.

Lemma Conn_ReadFull_sim (n : nat) : sim (Conn_ReadFull n) (ReadFull n).
Proof.
  intros s q Hp. apply conn_readfull_plain; [done|].
  unfold plain in Hp. destruct (reader_ _) as [d|]; [|done]. injection Hp as <-.
  rewrite dec_length. lia.
Qed.

(** A write on a connection that has a stream *)
Lemma Conn_Write_ok (b : bytes) (s : Conn) (e : Stream) :
  writer (cip (cs s)) = Some e -> wres (inner s) = [] ->
  Conn_Write b s = (Ok (len b),
    mkSConn (mkConn (rx (inner s)) (tx (inner s) ++ [(XORKeyStream e b).1]) [] (closed (inner s)))
      (set_writer (Some (XORKeyStream e b).2) (cs s))).
Proof.
  intros He Hw. unfold Conn_Write. rewrite bind_gets, He.
  erewrite bind_ok by done. erewrite bind_ok; [|unfold on_cipher; by erewrite encrypt_ok by done].
  cbv zeta. erewrite bind_ok; [|unfold on_inner; cbn [inner]; by rewrite Write_ok].
  cbn. rewrite xor_length. by rewrite Z.sub_0_r.
Qed.

(** The first write, which sends the IV in front *)
Lemma Conn_Write_first (b v : bytes) (s : Conn) (cs1 : cstate) (e : Stream) :
  writer (cip (cs s)) = None -> wres (inner s) = [] ->
  initEncrypt (cs s) = (Ok v, cs1) -> writer (cip cs1) = Some e ->
  Conn_Write b s = (Ok (len b),
    mkSConn (mkConn (rx (inner s)) (tx (inner s) ++ [v ++ (XORKeyStream e b).1]) [] (closed (inner s)))
      (set_writer (Some (XORKeyStream e b).2) cs1)).
Proof.
  intros Hn Hw Hi He. unfold Conn_Write. rewrite bind_gets, Hn.
  erewrite bind_ok by (unfold on_cipher; by rewrite Hi).
  erewrite bind_ok; [|unfold on_cipher; cbn [cs]; by erewrite encrypt_ok by done].
  cbv zeta. erewrite bind_ok; [|unfold on_inner; cbn [inner]; by rewrite Write_ok].
  cbn. rewrite length_app, xor_length. unfold mret, io_ret. repeat f_equal. lia.
Qed.

(** [initEncrypt] on a cipher that has no IV yet draws one. *)
Lemma initEncrypt_draw (s : cstate) (v : bytes) (g' : reader) (e : Stream) :
  iv (cip s) = None -> ReadFull (ivLen (cip s)) (rnd s) = (Ok v, g') ->
  NewStream (method (cip s)) (key (cip s)) v true = Ok e ->
  initEncrypt s = (Ok v, set_writer (Some e) (set_iv (Some v) (mkCstate (cip s) g'))).
Proof.
  intros Hn Hv He. unfold initEncrypt. rewrite bind_gets, Hn.
  erewrite bind_ok; [|erewrite bind_ok; [|unfold on_rnd; by rewrite Hv]; rewrite bind_modify; done].
  cbn [cip set_iv]. rewrite He. by rewrite bind_modify.
Qed.

Lemma initDecrypt_ok (s : cstate) (v : bytes) (d : Stream) :
  NewStream (method (cip s)) (key (cip s)) v false = Ok d ->
  exists s1, initDecrypt v s = (Ok tt, s1) /\ reader_ (cip s1) = Some d /\
    writer (cip s1) = writer (cip s) /\ method (cip s1) = method (cip s) /\
    key (cip s1) = key (cip s) /\ rnd s1 = rnd s /\
    (iv (cip s) = None -> iv (cip s1) = Some v).
Proof.
  intros Hd. unfold initDecrypt. rewrite bind_gets, Hd, bind_modify.
  unfold io_modify. eexists. split; [done|].
  destruct s as [[wr rd m il k [w|]] g]; cbn; [|done].
  by destruct (Nat.eqb (length w) 0).
Qed.

(** Consecutive writes *)
Fixpoint write_all (ws : list bytes) : io Conn unit :=
  match ws with
  | [] => mret tt
  | w :: t => Conn_Write w;; write_all t
  end.

Lemma write_all_ok (ws : list bytes) (s : Conn) (e : Stream) :
  writer (cip (cs s)) = Some e -> wres (inner s) = [] ->
  exists s', write_all ws s = (Ok tt, s') /\
    concat (tx (inner s')) = concat (tx (inner s)) ++ (XORKeyStream e (concat ws)).1.
Proof.
  revert s e. induction ws as [|w ws IH]; intros s e He Hw.
  - exists s. split; [done|]. cbn [concat]. by rewrite xor_nil, app_nil_r.
  - cbn [write_all concat]. erewrite bind_ok by (by apply Conn_Write_ok).
    match goal with |- context [write_all ws ?s1] =>
      destruct (IH s1 (XORKeyStream e w).2) as (s' & E & Et); [done|done|] end.
    exists s'. split; [done|]. rewrite Et. cbn [inner tx]. rewrite concat_app, xor_app.
    cbn. by rewrite app_nil_r, <- app_assoc.
Qed.

(** * Properties *)

Lemma NewCipher_fresh (meth pw : bytes) (c : Cipher) (v : bytes) :
  NewCipher meth pw = Ok c -> length v = ivLen c ->
  writer c = None /\ reader_ c = None /\ iv c = None /\
  exists e d, NewStream (method c) (key c) v true = Ok e /\
    NewStream (method c) (key c) v false = Ok d /\ paired e d.
Proof.
  unfold NewCipher. case_bool_decide; [done|].
  destruct (GetCipher meth) as [[il kl]|] eqn:E; [|done]. intros [= <-] Hv.
  split_and!; [done..|]. eapply new_paired; [done|apply key_length|done].
Qed.

(** The first write of a client and what the server makes of its IV *)
Lemma first_write (meth pw v b : bytes) (c : Cipher) (cn : conn) (g : reader)
    (gtl : list (byte + error)) :
  NewCipher meth pw = Ok c -> length v = ivLen c -> flat g = map inl v ++ gtl ->
  wres cn = [] -> tx cn = [] ->
  exists e d s, NewStream (method c) (key c) v true = Ok e /\
    NewStream (method c) (key c) v false = Ok d /\ paired e d /\
    Conn_Write b (mkSConn cn (mkCstate c g)) = (Ok (len b), s) /\
    tx (inner s) = [v ++ (XORKeyStream e b).1] /\ wres (inner s) = [] /\
    writer (cip (cs s)) = Some (XORKeyStream e b).2.
Proof.
  intros Hc Hv Hg Hw Ht. destruct (NewCipher_fresh _ _ _ v Hc Hv) as (Hwr & Hrd & Hiv & e & d & He & Hd & Hp).
  destruct (ReadFull_ok v g gtl Hg) as (g' & Hg' & _). rewrite Hv in Hg'.
  exists e, d. eexists. split_and!; [done..| | | |].
  - eapply (Conn_Write_first b v); [done|done|by apply initEncrypt_draw|done].
  - cbn. by rewrite Ht.
  - done.
  - done.
Qed.

Lemma ReadFull_shrinks (n : nat) (r r' : reader) (o : outcome bytes) :
  ReadFull n r = (o, r') -> (length r' <= length r)%nat.
Proof.
  unfold ReadFull. generalize (@nil byte). revert n. induction r as [|[b|e] r IH]; intros n acc.
  - destruct n; intros [= <- <-]; done.
  - destruct n as [|n]; cbn [readfull_go]; [intros [= <- <-]; done|].
    destruct (Nat.ltb _ _); [intros [= <- <-]; cbn; lia|]. intros Hr%IH. cbn. lia.
  - destruct n; intros [= <- <-]; cbn; lia.
Qed.

(** What the server knows after the IV *)
Lemma server_iv (meth pw v rest : bytes) (tl : list (byte + error)) (c : Cipher) (srv : Conn) (d : Stream) :
  NewCipher meth pw = Ok c -> length v = ivLen c -> cip (cs srv) = c ->
  NewStream (method c) (key c) v false = Ok d ->
  flat (rx (inner srv)) = map inl (v ++ rest) ++ tl ->
  exists srv1, (forall n, Conn_Read n srv = Conn_Read n srv1) /\
    reader_ (cip (cs srv1)) = Some d /\ flat (rx (inner srv1)) = map inl rest ++ tl /\
    tx (inner srv1) = tx (inner srv) /\ wres (inner srv1) = wres (inner srv) /\
    writer (cip (cs srv1)) = None /\ method (cip (cs srv1)) = method c /\
    key (cip (cs srv1)) = key c /\ iv (cip (cs srv1)) = Some v /\ rnd (cs srv1) = rnd (cs srv) /\
    (length (rx (inner srv1)) <= length (rx (inner srv)))%nat.
Proof.
  intros Hc Hv <- Hd Hf. destruct (NewCipher_fresh _ _ _ v Hc Hv) as (Hwr & Hrd & Hiv & _).
  rewrite map_app, <- app_assoc in Hf.
  destruct (ReadFull_ok v _ _ Hf) as (r' & Hr' & Fr'). rewrite Hv in Hr'.
  destruct (initDecrypt_ok (cs srv) v d Hd) as (s1 & Hi & H1 & H2 & H3 & H4 & H5 & H6).
  exists (mkSConn (mkConn r' (tx (inner srv)) (wres (inner srv)) (closed (inner srv))) s1).
  cbn [inner cs rx tx wres]. split_and!; try done; [|by rewrite H2|by apply H6|].
  - intros n. by eapply Conn_Read_iv.
  - by eapply ReadFull_shrinks.
Qed.

Ltac solve_sim :=
  repeat first
    [ apply sim_bind; [|intro] | apply Conn_ReadFull_sim | apply sim_lift | apply sim_ret
    | apply sim_fail | progress cbv zeta
    | match goal with |- sim (match ?x with _ => _ end) _ => destruct x end ].

(** The first full read, which takes the IV *)
Lemma Conn_ReadFull_first (n : nat) (srv srv1 : Conn) (q : reader) :
  (forall n, Conn_Read n srv = Conn_Read n srv1) -> plain srv1 = Some q -> (0 < n)%nat ->
  (length (rx (inner srv1)) <= length (rx (inner srv)))%nat ->
  sim_at (Conn_ReadFull n) (ReadFull n) srv1 srv q.
Proof.
  intros Hr Hq Hn Hl. unfold sim_at, Conn_ReadFull.
  assert (E : conn_readfull (S (length (rx (inner srv)))) n [] srv =
              conn_readfull (S (length (rx (inner srv)))) n [] srv1).
  { destruct n as [|n]; [lia|]. cbn [conn_readfull]. unfold mbind, io_bind, io_try. by rewrite Hr. }
  rewrite E. apply conn_readfull_plain; [done|].
  unfold plain in Hq. destruct (reader_ _) as [d|]; [|done]. injection Hq as <-.
  rewrite dec_length. lia.
Qed.

(** The request parser on a fresh connection is the parser of its plaintext. *)
Lemma ParseRequest_first (srv srv1 : Conn) (q : reader) :
  (forall n, Conn_Read n srv = Conn_Read n srv1) -> plain srv1 = Some q ->
  (length (rx (inner srv1)) <= length (rx (inner srv)))%nat ->
  sim_at (ParseRequest_on Conn_ReadFull) ParseRequest srv1 srv q.
Proof.
  intros Hr Hq Hl. apply sim_at_bind; [by apply Conn_ReadFull_first; [..|lia|]|].
  intros tmp. solve_sim.
Qed.

(** What a client that dialed and wrote has put on the wire, as a server reads it *)
Lemma Dial_served (meth pw host v : bytes) (port : Z) (c : Cipher) (cn : conn)
    (g : reader) (gtl : list (byte + error)) (ws : list bytes) :
  NewCipher meth pw = Ok c -> length v = ivLen c -> flat g = map inl v ++ gtl ->
  wres cn = [] -> tx cn = [] ->
  plain_host host -> 0 <= port < 65536 ->
  ((host_addr host).1 = typeDomain -> len host <= 255) ->
  exists s s', Dial (JoinHostPort host (Itoa port)) (Ok cn) c g = Ok s /\
    write_all ws s = (Ok tt, s') /\
    forall srv, cip (cs srv) = c ->
      flat (rx (inner srv)) = map inl (concat (tx (inner s'))) ->
      exists srv1 q q', (forall n, Conn_Read n srv = Conn_Read n srv1) /\
        plain srv1 = Some q /\
        (length (rx (inner srv1)) <= length (rx (inner srv)))%nat /\
        ParseRequest q = (Ok (JoinHostPort (canon_host host) (Itoa port)), q') /\
        flat q' = map inl (concat ws).
Proof.
  intros Hc Hv Hg Hw Ht Hh Hp Hd.
  destruct (first_write meth pw v (header_bytes host port) c cn g gtl)
    as (e & d & s & He & Hd' & Hpair & Hwrite & Htx & Hwres & Hwr); [done..|].
  assert (Hdial : Dial (JoinHostPort host (Itoa port)) (Ok cn) c g = Ok s).
  { unfold Dial. erewrite ParseAddrSpec_header;
      [|by apply SplitHostPort_JoinHostPort; [|apply plain_port_Itoa; lia]
       |apply Atoi_Itoa; unfold max_int64; lia].
    cbn [mbind outcome_bind]. unfold NewConnWithRawAddr.
    erewrite bind_ok; [|by apply io_try_ok, Hwrite]. done. }
  destruct (write_all_ok ws s _ Hwr Hwres) as (s' & Hall & Hcat).
  exists s, s'. split_and!; [done|done|]. intros srv Hsrv Hf.
  rewrite Hcat, Htx in Hf. cbn [concat] in Hf. rewrite app_nil_r, <- app_assoc in Hf.
  rewrite <- (app_nil_r (map inl _)) in Hf.
  destruct (server_iv meth pw v _ [] c srv d Hc Hv Hsrv Hd' Hf) as (srv1 & Hr & Hrd & Hfl & _ & _ & _ & _ & _ & _ & _ & Hlen).
  destruct (paired_step e d (header_bytes host port ++ concat ws) Hpair) as [Hplain _].
  rewrite xor_app in Hplain. cbn [fst snd] in Hplain.
  rewrite app_nil_r in Hfl. apply (flat_dec d) in Hfl. rewrite Hplain, map_app in Hfl.
  destruct (reads_full (reads_header host port Hd) _ _ Hfl) as (q' & Hq & Fq).
  rewrite Z.mod_small in Hq by done.
  exists srv1, (dec d (rx (inner srv1))), q'. split_and!; [done| |done|done|done].
  unfold plain. by rewrite Hrd.
Qed.

(** Reads of the given sizes, one after the other *)
Fixpoint read_sizes (ns : list nat) : io Conn bytes :=
  match ns with
  | [] => mret []
  | n :: ns => a ← Conn_Read n; b ← read_sizes ns; mret (a ++ b)
  end.

Lemma Read_prefix (n : nat) (q q' : reader) (bs b : bytes) :
  flat q = map inl bs -> Read n q = (Ok b, q') -> exists bs', bs = b ++ bs' /\ flat q' = map inl bs'.
Proof.
  intros Hf Hr. destruct q as [|[x|e] q]; [done| |done].
  assert (Hx : exists bs', bs = x ++ bs' /\ flat q = map inl bs').
  { change (flat (Seg x :: q)) with (map inl x ++ flat q) in Hf. symmetry in Hf.
    apply map_eq_app in Hf as (l1 & l2 & -> & H1 & H2). exists l2. split; [|done]. f_equal.
    by apply (inj (fmap (M := list) (@inl byte error))) in H1. }
  destruct Hx as (bs' & -> & Hq). cbn [Read] in Hr. destruct (Nat.leb (length x) n); injection Hr as <- <-.
  - by exists bs'.
  - exists (drop n x ++ bs'). split; [by rewrite app_assoc, take_drop|].
    change (flat (Seg (drop n x) :: q)) with (map inl (drop n x) ++ flat q). by rewrite Hq, map_app.
Qed.

Lemma read_sizes_prefix (ns : list nat) (s s' : Conn) (q : reader) (bs out : bytes) :
  plain s = Some q -> flat q = map inl bs -> read_sizes ns s = (Ok out, s') ->
  exists rest q', bs = out ++ rest /\ plain s' = Some q' /\ flat q' = map inl rest.
Proof.
  revert s q bs out. induction ns as [|n ns IH]; intros s q bs out Hp Hf Ho; cbn [read_sizes] in Ho.
  { injection Ho as <- <-. by exists bs, q. }
  destruct (Conn_Read_plain n s q Hp) as (s1 & E & Hp1 & _). unfold mbind, io_bind in Ho. rewrite E in Ho.
  destruct (Read n q) as [[b|e|] q1] eqn:Eq; cbn [fst snd] in *; [|done..].
  destruct (read_sizes ns s1) as [[o|e|] s2] eqn:E2; [|done..]. injection Ho as <- <-.
  destruct (Read_prefix n q q1 bs b Hf Eq) as (bs' & -> & Hf1).
  destruct (IH s1 q1 bs' o Hp1 Hf1 E2) as (rest & q' & -> & Hp' & Hf'). exists rest, q'. by rewrite app_assoc.
Qed.

(** A stream of plaintext is read in full, and then is at its end. *)
Lemma plain_reads_all (s : Conn) (q : reader) (bs : bytes) :
  plain s = Some q -> flat q = map inl bs ->
  exists s', Conn_ReadFull (length bs) s = (Ok bs, s') /\ forall n, (0 < n)%nat -> (Conn_ReadFull n s').1 = Fail EOF.
Proof.
  intros Hp Hf. destruct (ReadFull_ok bs q []) as (q' & Hr & Hq'); [by rewrite app_nil_r|].
  destruct (Conn_ReadFull_sim (length bs) s q Hp) as (s' & E & Hp' & _). rewrite Hr in E, Hp'.
  exists s'. split; [exact E|]. intros n Hn. destruct (Conn_ReadFull_sim n s' q' Hp') as (s2 & E2 & _).
  destruct (ReadFull_short [] n q' Hq' Hn) as (q2 & E3). by rewrite E2, E3.
Qed.

(** C30: an address and a stream sent through a shadowsocks client arrive at the
    server.  A client that dials [host:port] through a server and then makes any
    sequence of writes puts bytes on the wire such that, however the network cuts
    them, a server connection with the same method and password parses from them
    the host (as an address prints) and the port; a full read of that connection
    then gives exactly the client's data, after which it is at its end; and
    whatever sizes it is read in, what the reads give is a front part of that
    data. *)
Theorem Dial_request (meth pw host v : bytes) (port : Z) (c : Cipher) (cn : conn)
    (g : reader) (gtl : list (byte + error)) (ws : list bytes) :
  NewCipher meth pw = Ok c -> length v = ivLen c -> flat g = map inl v ++ gtl ->
  wres cn = [] -> tx cn = [] ->
  plain_host host -> 0 <= port < 65536 ->
  ((host_addr host).1 = typeDomain -> len host <= 255) ->
  exists s s', Dial (JoinHostPort host (Itoa port)) (Ok cn) c g = Ok s /\
    write_all ws s = (Ok tt, s') /\
    forall srv, cip (cs srv) = c ->
      flat (rx (inner srv)) = map inl (concat (tx (inner s'))) ->
      exists srv2, ParseRequest_on Conn_ReadFull srv = (Ok (JoinHostPort (canon_host host) (Itoa port)), srv2) /\
        (exists srv3, Conn_ReadFull (length (concat ws)) srv2 = (Ok (concat ws), srv3) /\
           forall n, (0 < n)%nat -> (Conn_ReadFull n srv3).1 = Fail EOF) /\
        (forall ns out srv3, read_sizes ns srv2 = (Ok out, srv3) -> exists rest, concat ws = out ++ rest).
Proof.
  intros Hc Hv Hg Hw Ht Hh Hp Hd.
  destruct (Dial_served meth pw host v port c cn g gtl ws) as (s & s' & H1 & H2 & H3); [done..|].
  exists s, s'. split_and!; [done|done|]. intros srv Hs Hf.
  destruct (H3 srv Hs Hf) as (srv1 & q & q' & Hr & Hq & Hl & Hpr & Hq').
  destruct (ParseRequest_first srv srv1 q Hr Hq Hl) as (srv2 & E & Hp2 & _). rewrite Hpr in E, Hp2. cbn [fst snd] in *.
  exists srv2. split; [exact E|]. split; [by eapply plain_reads_all|].
  intros ns out srv3 Ho. destruct (read_sizes_prefix ns srv2 srv3 q' _ out Hp2 Hq' Ho) as (rest & _ & ? & _). by exists rest.
Qed.

(** The server's replies reuse the client's IV.  A connection that has
    read before it writes sends the IV it received and draws none of its own, so
    a reply to [p] bytes equal to the client's first message is the client's
    first message: both directions use one key stream. *)
Theorem reply_reuses_iv (meth pw v p : bytes) (c : Cipher) (cn : conn) (g : reader)
    (gtl : list (byte + error)) :
  NewCipher meth pw = Ok c -> length v = ivLen c -> flat g = map inl v ++ gtl ->
  wres cn = [] -> tx cn = [] ->
  exists ck s, Conn_Write p (mkSConn cn (mkCstate c g)) = (Ok (len p), s) /\
    tx (inner s) = [ck] /\
    forall srv tl n data s1, cip (cs srv) = c -> wres (inner srv) = [] ->
      flat (rx (inner srv)) = map inl ck ++ tl -> Conn_Read n srv = (Ok data, s1) ->
      exists s2, Conn_Write p s1 = (Ok (len p), s2) /\
        tx (inner s2) = tx (inner srv) ++ [ck] /\ rnd (cs s2) = rnd (cs srv).
Proof.
  intros Hc Hv Hg Hw Ht.
  destruct (first_write meth pw v p c cn g gtl)
    as (e & d & s & He & Hd & Hpair & Hwrite & Htx & _); [done..|].
  exists (v ++ (XORKeyStream e p).1), s. split_and!; [done|done|].
  intros srv tl n data s1 Hsrv Hws Hf Hread.
  destruct (server_iv meth pw v _ tl c srv d Hc Hv Hsrv Hd Hf)
    as (srv1 & Hr & Hrd & _ & Etx & Ews & Ewr & Em & Ek & Eiv & Ernd & _).
  assert (exists q, plain srv1 = Some q) as [q Hq] by (unfold plain; rewrite Hrd; eauto).
  destruct (Conn_Read_plain n srv1 q Hq) as (s1' & E & _ & Etx1 & Ews1 & Ecs).
  rewrite <- Hr, Hread in E. injection E as _ <-.
  eexists. split_and!.
  - eapply (Conn_Write_first p v); [by rewrite Ecs|by rewrite Ews1, Ews| |].
    + unfold initEncrypt. rewrite bind_gets, Ecs. cbn [cip set_reader iv method key].
      rewrite Eiv. erewrite bind_ok by done. by rewrite Em, Ek, He, bind_modify.
    + done.
  - cbn. by rewrite Etx1, Etx.
  - cbn. by rewrite Ernd.
Qed.

(** Packets round-trip.  An encrypted packet is the IV and as many bytes as
    the data; decrypting it with the same method and password gives the data back
    and leaves the cipher as it was; anything shorter than an IV is refused. *)
Theorem Encrypt_Decrypt (meth pw v src : bytes) (c : Cipher) (g : reader)
    (gtl : list (byte + error)) :
  NewCipher meth pw = Ok c -> length v = ivLen c -> flat g = map inl v ++ gtl ->
  exists ct s, Encrypt_ src (mkCstate c g) = (Ok (v ++ ct), s) /\
    length ct = length src /\ cip s = c /\
    (forall t, cip t = c -> Decrypt_ (v ++ ct) t = (Ok src, t)) /\
    (forall t short, cip t = c -> (length short < ivLen c)%nat ->
       Decrypt_ short t = (Fail (ErrMsg "invalid input data"), t)).
Proof.
  intros Hc Hv Hg. destruct (NewCipher_fresh _ _ _ v Hc Hv) as (Hwr & Hrd & Hiv & e & d & He & Hd & Hp).
  destruct (ReadFull_ok v g gtl Hg) as (g' & Hg' & _). rewrite Hv in Hg'.
  destruct (paired_step e d src Hp) as [Hplain _].
  exists (XORKeyStream e src).1. eexists. split_and!.
  - unfold Encrypt_, on_clone. erewrite bind_ok; [|by apply initEncrypt_draw].
    erewrite bind_ok; [|by eapply encrypt_ok]. done.
  - apply xor_length.
  - done.
  - intros t Ht. unfold Decrypt_, on_clone. rewrite bind_gets. cbn [cip Clone ivLen].
    rewrite Ht, length_app. zdecide.
    erewrite bind_lift by (apply slice_app_l; lia).
    destruct (initDecrypt_ok (mkCstate (Clone c) (rnd t)) v d) as (s1 & Hi & H1 & _ & _ & _ & H5 & _); [done|].
    erewrite bind_ok by done.
    erewrite bind_lift by (apply slice_from_app; lia).
    erewrite decrypt_ok by done. rewrite Hplain. cbn. rewrite H5. subst c. by destruct t.
  - intros t short Ht Hl. unfold Decrypt_, on_clone. rewrite bind_gets. cbn [cip Clone ivLen].
    rewrite Ht. zdecide. subst c. by destruct t.
Qed.
End ConnLaws.

(** * A concrete cipher library *)
Module Sample.

(** A byte cipher with ciphertext feedback: direction, key byte, last cipher byte *)
Definition stream : Type := bool * byte * byte.

Definition step (s : stream) (b : byte) : byte * stream :=
  let '(enc, k, last) := s in
  if enc then
    let c := z2b (b2z b + b2z k + b2z last) in (c, (enc, k, c))
  else (z2b (b2z b - b2z k - b2z last), (enc, k, b)).

Fixpoint xor (s : stream) (src : bytes) : bytes * stream :=
  match src with
  | [] => ([], s)
  | b :: t => let '(c, s1) := step s b in let '(cs, s2) := xor s1 t in (c :: cs, s2)
  end.

#[export] Instance sample : Encrypt := {
  Stream := stream;
  XORKeyStream := xor;
  NewStream := fun m key iv enc =>
    match key, iv with
    | [k], [a; b] => Ok (enc, k, z2b (b2z a + 2 * b2z b))
    | _, _ => Fail (ErrMsg "invalid key or iv size")
    end;
  GetCipher := fun m => if bool_decide (m = lit "feedback") then Some (2%nat, 1%nat) else None;
  Evp2Key := fun p n => take n (p ++ replicate n zero);
}.

Lemma step_inverse (k last b : byte) :
  (step (false, k, last) (step (true, k, last) b).1).1 = b.
Proof.
  cbn. apply b2z_inj. rewrite !b2z_z2b.
  pose proof (b2z_range b). Z.div_mod_to_equations. lia.
Qed.

#[export] Instance sample_laws : EncryptLaws.
Proof.
  refine (@Build_EncryptLaws sample
    (fun e d : stream => exists k l, e = (true, k, l) /\ d = (false, k, l)) _ _ _ _ _ _).
  - done.
  - intros s a b. cbn. revert s. induction a as [|x a IH]; intros s; cbn [app xor].
    + cbn. by destruct (xor s b).
    + destruct (step s x) as [c s1]. rewrite IH.
      destruct (xor s1 a) as [ca s2]. cbn. by destruct (xor s2 b).
  - intros s a. cbn. revert s. induction a as [|x a IH]; intros s; [done|]. cbn [xor].
    destruct (step s x) as [c s1]. specialize (IH s1). destruct (xor s1 a). cbn in *. by rewrite IH.
  - intros e d p (k & l & -> & ->). cbn. revert l.
    induction p as [|x p IH]; intros l; [split; [done|]; by exists k, l|].
    pose proof (step_inverse k l x) as Hs. cbn [xor]. cbn [step] in *.
    destruct (IH (z2b (b2z x + b2z k + b2z l))) as [Hp (k' & l' & Ee & Ed)].
    destruct (xor (true, k, _) p) as [cp s2] eqn:E1. cbn [fst snd xor step] in *.
    destruct (xor (false, k, _) cp) as [pp s3] eqn:E2. cbn [fst snd] in *.
    split; [by rewrite Hs, Hp|]. by exists k', l'.
  - intros m il kl key iv. cbn. case_bool_decide; [|done]. intros [= <- <-] Hk Hi.
    destruct key as [|k [|? ?]]; try done. destruct iv as [|a [|b [|? ?]]]; try done.
    eexists _, _. split_and!; [done|done|]. by eexists _, _.
  - intros p n. cbn. rewrite length_take, length_app, length_replicate. lia.
Qed.

Definition sample_cipher : Cipher := mkCipher None None (lit "feedback") 2 (lit "s") None.

End Sample.
Import Sample.

Lemma Dial_request_witness :
  exists s s', Dial (lit "example.com:443") (Ok (conn_of [])) sample_cipher [Seg (lit "iv")] = Ok s /\
    write_all [lit "GET"; lit "/"] s = (Ok tt, s').
Proof.
  assert (H1 : NewCipher (lit "feedback") (lit "secret") = Ok sample_cipher) by reflexivity.
  assert (H2 : plain_host (lit "example.com")) by (apply (bool_decide_eq_true_1 _); reflexivity).
  assert (H3 : (host_addr (lit "example.com")).1 = typeDomain -> len (lit "example.com") <= 255)
    by (intros _; apply Z.leb_le; reflexivity).
  destruct (Dial_request (lit "feedback") (lit "secret") (lit "example.com") (lit "iv") 443
    sample_cipher (conn_of []) [Seg (lit "iv")] [] [lit "GET"; lit "/"] H1 eq_refl eq_refl
    eq_refl eq_refl H2 ltac:(lia) H3) as (s & s' & D & W & _).
  exists s, s'. exact (conj D W).
Defined.

Lemma reply_reuses_iv_witness :
  exists ck s, Conn_Write (lit "hi") (mkSConn (conn_of []) (mkCstate sample_cipher [Seg (lit "iv")]))
    = (Ok 2, s) /\ tx (inner s) = [ck].
Proof.
  destruct (reply_reuses_iv (lit "feedback") (lit "secret") (lit "iv") (lit "hi") sample_cipher
    (conn_of []) [Seg (lit "iv")] []) as (ck & s & H1 & H2 & _); try reflexivity.
  exists ck, s. exact (conj H1 H2).
Defined.

Lemma Encrypt_Decrypt_witness :
  exists ct s, Encrypt_ (lit "hi") (mkCstate sample_cipher [Seg (lit "iv")]) = (Ok (lit "iv" ++ ct), s) /\
    Decrypt_ (lit "iv" ++ ct) (mkCstate sample_cipher []) = (Ok (lit "hi"), mkCstate sample_cipher []).
Proof.
  destruct (Encrypt_Decrypt (lit "feedback") (lit "secret") (lit "iv") (lit "hi") sample_cipher
    [Seg (lit "iv")] []) as (ct & s & H1 & _ & _ & H2 & _); try reflexivity.
  exists ct, s. exact (conj H1 (H2 (mkCstate sample_cipher []) eq_refl)).
Defined.
