(* ===== verification/Outil.v ===== *)
(** pkg/outil: substrings by runes, sub-slices, and resolving through an optional
    resolver; with Go's conversion between strings and runes. *)
From S2P Require Import Prelude GoStrings Iface.
Open Scope Z_scope.

(** * Runes *)

Definition RuneError : Z := 65533.

(** The rune a byte sequence starts with and its width, as [utf8.DecodeRune] *)
Definition in_range (lo hi : Z) (b : byte) : bool := (lo <=? b2z b) && (b2z b <=? hi).
Definition cont (b : byte) : bool := in_range 128 191 b.
Definition low6 (b : byte) : Z := Z.land (b2z b) 63.

Definition DecodeRune (s : bytes) : Z * nat :=
  let err := (RuneError, 1%nat) in
  match s with
  | [] => (RuneError, 0%nat)
  | b0 :: t =>
      let z := b2z b0 in
      if z <? 128 then (z, 1%nat)
      else if in_range 194 223 b0 then
        match t with
        | b1 :: _ => if cont b1 then (Z.land z 31 * 64 + low6 b1, 2%nat) else err
        | _ => err
        end
      else if in_range 224 239 b0 then
        match t with
        | b1 :: b2 :: _ =>
            let lo := if z =? 224 then 160 else 128 in
            let hi := if z =? 237 then 159 else 191 in
            if in_range lo hi b1 && cont b2
            then (Z.land z 15 * 4096 + low6 b1 * 64 + low6 b2, 3%nat) else err
        | _ => err
        end
      else if in_range 240 244 b0 then
        match t with
        | b1 :: b2 :: b3 :: _ =>
            let lo := if z =? 240 then 144 else 128 in
            let hi := if z =? 244 then 143 else 191 in
            if in_range lo hi b1 && cont b2 && cont b3
            then (Z.land z 7 * 262144 + low6 b1 * 4096 + low6 b2 * 64 + low6 b3, 4%nat) else err
        | _ => err
        end
      else err
  end.

(** [[]rune(s)]: every rune takes a byte at least. *)
Fixpoint runes_go (fuel : nat) (s : bytes) : list Z :=
  match fuel, s with
  | S f, _ :: _ => let '(r, n) := DecodeRune s in r :: runes_go f (drop n s)
  | _, _ => []
  end.
Definition runes (s : bytes) : list Z := runes_go (length s) s.

(** [utf8.AppendRune] *)
Definition tail6 (r : Z) : byte := z2b (128 + Z.land r 63).
Definition encode_rune (r : Z) : bytes :=
  if (0 <=? r) && (r <? 128) then [z2b r]
  else if (128 <=? r) && (r <? 2048) then [z2b (192 + Z.shiftr r 6); tail6 r]
  else
    let r := if (r <? 0) || (1114111 <? r) || ((55296 <=? r) && (r <=? 57343))
             then RuneError else r in
    if r <? 65536 then [z2b (224 + Z.shiftr r 12); tail6 (Z.shiftr r 6); tail6 r]
    else [z2b (240 + Z.shiftr r 18); tail6 (Z.shiftr r 12); tail6 (Z.shiftr r 6); tail6 r].

(** [string(rs)] *)
Definition string_of_runes (rs : list Z) : bytes := concat (map encode_rune rs).

(** Go's [int] wraps around at 64 bits. *)
Definition wrap64 (z : Z) : Z := (z + 2 ^ 63) mod 2 ^ 64 - 2 ^ 63.

(** * Substrings (com.go) *)
Section SubStr.
(** The capacity the runtime gives a slice of so many runes *)
Context (rune_cap : Z -> Z).

(** [rs[i:j]]: a slice may grow into its capacity, which holds zeros. *)
Definition slice_cap (rs : list Z) (i j : Z) : outcome (list Z) :=
  if (0 <=? i) && (i <=? j) && (j <=? rune_cap (len rs)) then
    Ok (take (Z.to_nat (j - i))
         (drop (Z.to_nat i) (rs ++ replicate (Z.to_nat (rune_cap (len rs) - len rs)) 0)))
  else Panic.

Definition SubStr (str : bytes) (start length_ : Z) : outcome bytes :=
  if len str =? 0 then Ok []
  else
    let rs := runes str in
    let start := if start <? 0 then 0 else start in
    let end_ := wrap64 (start + length_) in
    let end_ := if (end_ <? 0) || (len str <=? end_) then len rs else end_ in
    r ← slice_cap rs start end_;
    Ok (string_of_runes r).

End SubStr.

Definition SubBytes (b : bytes) (start length_ : Z) : outcome bytes :=
  if len b =? 0 then Ok b
  else
    let start := if start <? 0 then 0 else start in
    let end_ := wrap64 (start + length_) in
    let end_ := if (end_ <? 0) || (len b <=? end_) then len b else end_ in
    slice b start end_.

(** [Resolve]: [None] is the nil resolver. *)
Definition Resolve {R} `{NameResolver R} (dnsResolver : option R) (address : bytes) : bytes :=
  match dnsResolver with
  | Some d => must_resolve d address
  | None => address
  end.

(** * Laws *)

Definition is_ascii (b : byte) : bool := b2z b <? 128.

Lemma runes_go_ascii (f : nat) (s : bytes) :
  Forall (fun b => is_ascii b = true) s -> (length s <= f)%nat -> runes_go f s = map b2z s.
Proof.
  intros Hs. revert f. induction Hs as [|b s Hb Hs IH]; intros f Hf; [by destruct f|].
  destruct f as [|f]; [simpl in Hf; lia|]. cbn [runes_go DecodeRune].
  unfold is_ascii in Hb. rewrite Hb. cbn [drop map]. rewrite drop_0. f_equal. apply IH. simpl in Hf. lia.
Qed.

Lemma runes_ascii (s : bytes) :
  Forall (fun b => is_ascii b = true) s -> runes s = map b2z s.
Proof. intros H. by apply runes_go_ascii. Qed.

Lemma string_of_ascii (s : bytes) :
  Forall (fun b => is_ascii b = true) s -> string_of_runes (map b2z s) = s.
Proof.
  induction 1 as [|b s Hb Hs IH]; [done|]. unfold string_of_runes in *. cbn [map concat].
  rewrite IH. unfold encode_rune, is_ascii in *. pose proof (b2z_range b).
  rewrite Hb. rewrite (proj2 (Z.leb_le 0 _)) by lia. cbn [andb app]. by rewrite z2b_b2z.
Qed.

Lemma wrap64_small (z : Z) : - 2 ^ 63 <= z < 2 ^ 63 -> wrap64 z = z.
Proof. intros H. unfold wrap64. rewrite Z.mod_small; lia. Qed.

(** On ASCII text [SubStr] is the slice of the bytes, and does not panic inside
    the text. *)
Lemma SubStr_ascii (rune_cap : Z -> Z) (s : bytes) (start length_ : Z) :
  (forall n, n <= rune_cap n) -> Forall (fun b => is_ascii b = true) s ->
  0 <= start <= len s -> 0 <= length_ -> start + length_ < 2 ^ 63 ->
  SubStr rune_cap s start length_ = Ok (take (Z.to_nat length_) (drop (Z.to_nat start) s)).
Proof.
  intros Hcap Hs Hst Hl Hov. unfold SubStr. destruct (Z.eqb_spec (len s) 0) as [E|E].
  { destruct s; [|simpl in E; lia]. by rewrite drop_nil, take_nil. }
  rewrite (proj2 (Z.ltb_ge start 0)) by lia. rewrite wrap64_small by lia.
  rewrite (proj2 (Z.ltb_ge (start + length_) 0)) by lia. cbn [orb].
  rewrite runes_ascii by done. unfold slice_cap. rewrite !length_map.
  pose proof (Hcap (len s)).
  set (end_ := if len s <=? start + length_ then len s else start + length_).
  assert (start <= end_ <= len s) as He.
  { unfold end_. destruct (Z.leb_spec (len s) (start + length_)); lia. }
  zdecide. cbn [mbind outcome_bind]. f_equal.
  rewrite skipn_app, firstn_app.
  replace (Z.to_nat (end_ - start) - length (drop (Z.to_nat start) (map b2z s)))%nat with 0%nat
    by (rewrite length_drop, length_map; lia).
  cbn [firstn]. rewrite app_nil_r, skipn_map, firstn_map, string_of_ascii.
  - unfold end_. destruct (Z.leb_spec (len s) (start + length_)).
    + rewrite !take_ge; [done|rewrite length_drop; lia..].
    + f_equal. lia.
  - by apply Forall_take, Forall_drop.
Qed.

(** A limit between the number of runes and the number of bytes makes [SubStr]
    panic when the slice has no room for it. *)
Lemma SubStr_panics (rune_cap : Z -> Z) (s : bytes) (n : Z) :
  0 <= n < len s -> n < 2 ^ 63 -> rune_cap (len (runes s)) < n -> SubStr rune_cap s 0 n = Panic.
Proof.
  intros Hn Hov Hc. unfold SubStr. cbn [Z.ltb Z.compare]. rewrite Z.add_0_l.
  rewrite wrap64_small by lia. zdecide. unfold slice_cap. zdecide. done.
Qed.

(** [SubBytes] stays inside its slice. *)
Lemma SubBytes_spec (b : bytes) (start length_ : Z) :
  0 <= start <= len b -> 0 <= length_ -> start + length_ < 2 ^ 63 ->
  SubBytes b start length_ = Ok (take (Z.to_nat length_) (drop (Z.to_nat start) b)).
Proof.
  intros Hst Hl Hov. unfold SubBytes. destruct (Z.eqb_spec (len b) 0) as [E|E].
  { destruct b; [|simpl in E; lia]. by rewrite drop_nil, take_nil. }
  rewrite (proj2 (Z.ltb_ge start 0)) by lia. rewrite wrap64_small by lia.
  rewrite (proj2 (Z.ltb_ge (start + length_) 0)) by lia. cbn [orb]. unfold slice.
  destruct (Z.leb_spec (len b) (start + length_)); zdecide; f_equal.
  - rewrite !take_ge; [done|rewrite length_drop; lia..].
  - f_equal. lia.
Qed.
