(* ===== verification/Httpc.v ===== *)
(** pkg/httpc: decoding the first segment of a connection to the HTTP proxy into
    a request, a TLS client hello included, and checking its proxy credentials.
    [url.Parse] is an input: it gives the host of a URL or nothing. *)
From S2P Require Import Prelude GoStrings GoNet GoIO GoBase64 Iface Outil Sni Enet.
Open Scope Z_scope.

Section Httpc.
Context {C : Type} `{!Authenticator C}.
Context (url_host : bytes -> option bytes) (rune_cap : Z -> Z).

Record Request := mkRequest {
  RawHeader : bytes;
  Host : bytes;
  Method : bytes;
  RawURL : bytes;
  hostOrURL : bytes;
  basicAuthCenter : option C;
  IsSNI : bool;
}.

Definition IsHTTPS (sf : Request) : bool := bool_decide (Method sf = lit "CONNECT").

Definition Established : bytes :=
  lit "HTTP/1.1 200 Connection established" ++ CRLF ++ CRLF.

Definition HTTPSReply : io conn unit := Write Established.

(** The loop of [getHeader] over the lines *)
Fixpoint header_go (key : bytes) (lines : list bytes) : bytes :=
  match lines with
  | [] => []
  | line :: t =>
      match SplitN2 (Trim line (CRLF ++ lit " ")) (lit ":") with
      | [k; v] =>
          if bool_decide (key = ToUpper (Trim k (lit " "))) then Trim v (lit " ")
          else header_go key t
      | _ => header_go key t
      end
  end.

Definition getHeader (key : bytes) (sf : Request) : bytes :=
  header_go (ToUpper key) (Split (RawHeader sf) CRLF).

Definition getHTTPRawURL (sf : Request) : bytes :=
  if negb (HasPrefix (hostOrURL sf) (lit "/")) then hostOrURL sf
  else
    let host := getHeader (lit "host") sf in
    if negb (bool_decide (host = [])) then lit "http://" ++ host ++ hostOrURL sf else [].

(** The replies to a request without and with wrong credentials *)
Definition quote : byte := z2b 34.
Definition required : bytes := lit "HTTP/1.1 407 Proxy Authentication Required" ++ CRLF.
Definition reply_required : bytes :=
  required ++ lit "Proxy-Authenticate: Basic realm=" ++ [quote; quote] ++ CRLF ++ CRLF
    ++ lit "Proxy Authentication Required".
Definition reply_wrong : bytes := required ++ CRLF ++ lit "Proxy Authentication Required".

(** [fmt.Fprintf(sf.conn, ...)] whose error is dropped *)
Definition send (b : bytes) : io conn unit := _ ← io_try (Write b); mret tt.

Definition GetProxyAuthUserPassPair (sf : Request) : io conn bytes :=
  let authorization := Trim (getHeader (lit "Proxy-Authorization") sf) (lit " " ++ CRLF ++ [z2b 9]) in
  if bool_decide (authorization = []) then
    send reply_required;; Close;; io_fail (ErrMsg "require auth header data")
  else
    match Fields authorization with
    | [_; b] =>
        match DecodeString b with
        | Ok user => mret user
        | Fail e => Close;; io_fail (ErrWrap "authorization data parse error,ERR:%s" e)
        | Panic => io_panic
        end
    | _ => Close;; io_fail (ErrMsg "authorization data error,ERR:%s")
    end.

Definition GetProxyAuthUserPass (sf : Request) : io conn (bytes * bytes) :=
  userPass ← GetProxyAuthUserPassPair sf;
  match Split userPass (lit ":") with
  | [u; p] => mret (u, p)
  | _ => io_fail (ErrMsg "invalid user password pair")
  end.

(** The URL [BasicAuth] asks about *)
Definition auth_target (sf : Request) : bytes :=
  if IsHTTPS sf then lit "https://" ++ Host sf else getHTTPRawURL sf.

(** [BasicAuth]; [remote] and [local] are the addresses of the connection. *)
Definition BasicAuth (remote local : bytes) (sf : Request) : io conn unit :=
  match basicAuthCenter sf with
  | None => mret tt
  | Some center =>
      userIP ← io_lift (idx (Split remote (lit ":")) 0);
      localIP ← io_lift (idx (Split local (lit ":")) 0);
      user ← GetProxyAuthUserPassPair sf;
      if auth_verify center user userIP localIP (auth_target sf) then mret tt
      else send reply_wrong;; Close;; io_fail (ErrMsg "basic auth fail")
  end.

(** The method and target of the first segment, and whether it is a TLS hello.
    [fmt.Sscanf("%s%s")] takes the first two fields of the line. *)
Definition decode_line (RawHeader : bytes) : io conn (bytes * bytes * bool) :=
  match ServerNameFromBytes RawHeader with
  | Panic => io_panic
  | Ok serverName => mret (lit "SNI", lit "https://" ++ serverName ++ lit ":443", true)
  | Fail _ =>
      match cut [z2b 10] RawHeader with
      | None =>
          _ ← io_lift (SubStr rune_cap RawHeader 0 50);
          Close;; io_fail (ErrMsg "http decoder data line err:%s")
      | Some (line, _) =>
          match Fields line with
          | m :: u :: _ => mret (m, u, false)
          | _ =>
              _ ← io_lift (SubStr rune_cap RawHeader 0 50);
              Close;; io_fail (ErrMsg "http decoder data err:%s")
          end
      end
  end.

(** The host of the request, with the port when it has none *)
Definition with_port (host port : bytes) : bytes :=
  if Contains host (lit ":") then host else host ++ lit ":" ++ port.

Definition New (remote local : bytes) (bufSize : nat) (center : option C) : io conn Request :=
  r ← io_try (on_rx (Read bufSize));
  match r with
  | inr e => Close;; io_fail e
  | inl raw =>
      '(m, u, sni) ← decode_line raw;
      let req := mkRequest raw [] (ToUpper m) [] u center sni in
      BasicAuth remote local req;;
      if IsHTTPS req then
        mret (mkRequest raw (with_port u (lit "443")) (Method req) [] u center sni)
      else
        let url := getHTTPRawURL req in
        match url_host url with
        | None => io_fail (ErrMsg "parse")
        | Some h => mret (mkRequest raw (with_port h (lit "80")) (Method req) url u center sni)
        end
  end.

End Httpc.
Arguments Request : clear implicits.

(** * Laws *)

Definition host_part (addr : bytes) : bytes := default [] (head (Split addr (lit ":"))).

Lemma split_host (addr : bytes) : idx (Split addr (lit ":")) 0 = Ok (host_part addr).
Proof.
  unfold host_part. destruct (Split addr (lit ":")) as [|h t] eqn:E; [|done].
  by destruct (Split_nonempty addr (lit ":")).
Qed.

(** The credentials in a request, when it carries well-formed ones *)
Definition credentials (raw : bytes) : option bytes :=
  match Fields (Trim (header_go (lit "PROXY-AUTHORIZATION") (Split raw CRLF))
                  (lit " " ++ CRLF ++ [z2b 9])) with
  | [_; b] => match DecodeString b with Ok up => Some up | _ => None end
  | _ => None
  end.

Section Laws.
Context {C : Type} `{!Authenticator C}.
Context (url_host : bytes -> option bytes) (rune_cap : Z -> Z).
Implicit Types (req : Request C).

Lemma GetProxyAuth_inv req (s s' : conn) (up : bytes) :
  GetProxyAuthUserPassPair req s = (Ok up, s') ->
  credentials (RawHeader req) = Some up /\ s' = s.
Proof.
  unfold GetProxyAuthUserPassPair, credentials, getHeader.
  change (ToUpper (lit "Proxy-Authorization")) with (lit "PROXY-AUTHORIZATION").
  set (a := Trim _ _). case_bool_decide as Ha.
  - intros H. io_inv H. io_inv H. done.
  - destruct (Fields a) as [|k [|b [|? ?]]]; try (intros H; io_inv H; done).
    destruct (DecodeString b); [|intros H; io_inv H; done|done]. by intros [= <- <-].
Qed.

Lemma GetProxyAuth_ok req (s : conn) (up : bytes) :
  credentials (RawHeader req) = Some up -> GetProxyAuthUserPassPair req s = (Ok up, s).
Proof.
  unfold GetProxyAuthUserPassPair, credentials, getHeader.
  change (ToUpper (lit "Proxy-Authorization")) with (lit "PROXY-AUTHORIZATION").
  set (a := Trim _ _). case_bool_decide as Ha.
  - rewrite Ha. done.
  - destruct (Fields a) as [|k [|b [|? ?]]]; try done.
    destruct (DecodeString b); [|done|done]. by intros [= <-].
Qed.

Lemma BasicAuth_inv (c : C) req (remote local : bytes) (s s' : conn) :
  basicAuthCenter req = Some c -> BasicAuth remote local req s = (Ok tt, s') ->
  exists up, credentials (RawHeader req) = Some up /\
    auth_verify c up (host_part remote) (host_part local) (auth_target req) = true /\ s' = s.
Proof.
  intros Hc. unfold BasicAuth. rewrite Hc, !split_host. intros H.
  io_inv H. injection H0 as <- <-. io_inv H. injection H0 as <- <-.
  io_inv H. apply GetProxyAuth_inv in H0 as [Hp ->].
  destruct (auth_verify c a _ _ _) eqn:E.
  - exists a. injection H as <-. by rewrite E.
  - io_inv H. io_inv H. done.
Qed.

(** What is left of a request that was decoded *)
Lemma New_authorised_inv (remote local : bytes) (n : nat) (center : option C) (s s' : conn) req :
  New url_host rune_cap remote local n center s = (Ok req, s') ->
  exists r0 req0 s0, Read n (rx s) = (Ok (RawHeader req), r0) /\
    s0 = mkConn r0 (tx s) (wres s) (closed s) /\
    RawHeader req0 = RawHeader req /\ basicAuthCenter req0 = center /\ Host req0 = [] /\
    Method req0 = Method req /\ hostOrURL req0 = hostOrURL req /\
    BasicAuth remote local req0 s0 = (Ok tt, s') /\
    (IsHTTPS req = false -> RawURL req = getHTTPRawURL req0).
Proof.
  unfold New. intros H. io_inv H. unfold io_try, on_rx in H0.
  destruct (Read n (rx s)) as [[raw|e|] r0] eqn:Er; [| |done].
  2: { injection H0 as <- <-. io_inv H. done. }
  injection H0 as <- <-. cbn beta iota in H.
  assert (D : forall o c2, decode_line rune_cap raw (mkConn r0 (tx s) (wres s) (closed s)) = (Ok o, c2) ->
    c2 = mkConn r0 (tx s) (wres s) (closed s)).
  { intros o c2. unfold decode_line.
    destruct (ServerNameFromBytes raw); [by intros [= _ <-]| |done].
    destruct (cut _ raw) as [[line ?]|].
    - destruct (Fields line) as [|m [|u ?]]; [intros H1; io_inv H1; io_inv H1; done..|by intros [= _ <-]].
    - intros H1. io_inv H1. io_inv H1. done. }
  apply bind_inv in H as ([[m u] sni] & s2 & Hd & H). apply D in Hd as ->.
  apply bind_inv in H as ([] & s3 & Hb & H).
  eexists r0, _, _. destruct (IsHTTPS (mkRequest raw [] (ToUpper m) [] u center sni)) eqn:Eh.
  - injection H as <- <-. cbn [RawHeader]. split_and!; try exact Hb; try done.
    intros Hn. unfold IsHTTPS in *. cbn [Method] in *. congruence.
  - destruct (url_host _); [|done]. injection H as <- <-. cbn [RawHeader].
    split_and!; try exact Hb; done.
Qed.

(** A request that is decoded with an authentication center in place was
    authorised.  It carried credentials, base64 in a Proxy-Authorization header,
    and the center accepted them for the peer's and the local host and the URL of
    the request; the URL of a CONNECT is always "https://" without a host, so a
    center that decides by target is not told it.  Nothing was sent before. *)
Theorem New_authorised (remote local : bytes) (n : nat) (c : C) (s s' : conn) req :
  New url_host rune_cap remote local n (Some c) s = (Ok req, s') ->
  exists up, credentials (RawHeader req) = Some up /\
    auth_verify c up (host_part remote) (host_part local)
      (if IsHTTPS req then lit "https://" else RawURL req) = true /\
    tx s' = tx s /\ closed s' = closed s.
Proof.
  intros H. apply New_authorised_inv in H as (r0 & req0 & s0 & Hr & -> & Hraw & Hc & Hh & Hm & Hu & Hb & Hurl).
  eapply BasicAuth_inv in Hb as (up & Hp & Hv & ->); [|done].
  exists up. rewrite <- Hraw. split_and!; [done| |done|done].
  unfold auth_target in Hv. assert (IsHTTPS req0 = IsHTTPS req) as E
    by (unfold IsHTTPS; by rewrite Hm). rewrite E, Hh in Hv.
  destruct (IsHTTPS req); [done|]. by rewrite Hurl.
Qed.

(** The decoder can be made to panic by text.  A first segment that is no
    TLS hello and has no line break is answered by an error that quotes its first
    50 runes; when it has more than 50 bytes but its runes do not fill 50 places
    the quoting panics instead, and the connection is left open. *)
Theorem New_panics_on_text (remote local : bytes) (n : nat) (center : option C) (raw : bytes)
    (e : error) (r : reader) :
  (length raw <= n)%nat -> ServerNameFromBytes raw = Fail e -> z2b 10 ∉ raw ->
  50 < len raw -> rune_cap (len (runes raw)) < 50 ->
  New url_host rune_cap remote local n center (conn_of (Seg raw :: r)) = (Panic, conn_of r).
Proof.
  intros Hn Hs Hl Hlen Hcap. unfold New.
  erewrite bind_ok; [|by apply io_try_ok, on_rx_ok, Read_seg]. cbn beta iota.
  unfold decode_line. rewrite Hs. rewrite (proj2 (cut_byte_None (z2b 10) raw)) by done.
  rewrite SubStr_panics by lia. done.
Qed.
End Laws.

(** * Examples *)

(** A center that knows one pair *)
#[local] Instance one_pair : Authenticator bytes := fun c up _ _ _ => bool_decide (up = c).

Definition sample_raw : bytes :=
  lit "CONNECT a:443 HTTP/1.1" ++ CRLF
    ++ lit "proxy-authorization: Basic dTpw" ++ CRLF ++ CRLF.

Definition sample_request : Request bytes :=
  mkRequest sample_raw (lit "a:443") (lit "CONNECT") [] (lit "a:443") (Some (lit "u:p")) false.

Lemma New_authorised_witness :
  exists up, credentials sample_raw = Some up /\
    auth_verify (lit "u:p") up (lit "10.0.0.1") (lit "10.0.0.2") (lit "https://") = true.
Proof.
  assert (E : New (fun _ => None) (fun n => n) (lit "10.0.0.1:5000") (lit "10.0.0.2:80") 4096
    (Some (lit "u:p")) (conn_of [Seg sample_raw]) = (Ok sample_request, conn_of []))
    by (vm_compute; reflexivity).
  destruct (New_authorised (fun _ => None) (fun n => n) _ _ _ _ _ _ _ E) as (up & H1 & H2 & _).
  exists up. split; [exact H1|exact H2].
Defined.

Definition sample_text : bytes := concat (repeat [z2b 228; z2b 184; z2b 150] 17).

Lemma New_panics_on_text_witness :
  New (C := bytes) (fun _ => None) (fun n => n) (lit "10.0.0.1:5000") (lit "10.0.0.2:80") 4096 None
    (conn_of [Seg sample_text]) = (Panic, conn_of []).
Proof.
  apply (New_panics_on_text _ _ _ _ _ _ _ (ErrMsg "SNI: not TLS")).
  - apply Nat.leb_le. vm_compute. reflexivity.
  - vm_compute. reflexivity.
  - apply (bool_decide_eq_true_1 _). vm_compute. reflexivity.
  - vm_compute. reflexivity.
  - vm_compute. reflexivity.
Defined.
