(* ===== verification/Cs.v ===== *)
(** cs: dialing through an HTTPS proxy and proxy URLs, and what the HTTP proxy of
    pkg/httpc makes of such a client. *)
From S2P Require Import Prelude GoStrings GoNet GoIO GoBase64 Iface Outil Sni Enet Httpc.
Open Scope Z_scope.

(** * Proxy URLs (proxy.go) *)

(** [ParseProxyURL]; [parse] is [url.Parse]. *)
Definition ParseProxyURL {U} (parse : bytes -> outcome U) (proxyURL : bytes) : outcome U :=
  if HasPrefix proxyURL (lit "socks5://") || HasPrefix proxyURL (lit "https://")
  then parse proxyURL
  else Fail (ErrMsg "invalid proxy url").

(** A [*url.Userinfo]: the user and the password, when one is set *)
Record Userinfo := mkUserinfo { Username : bytes; Password : option bytes }.

(** [ProxyAuth]; the argument is the user info of a URL that is not nil. *)
Definition ProxyAuth (user : option (option Userinfo)) : option (bytes * bytes) :=
  match user with
  | Some (Some u) => Some (Username u, default [] (Password u))
  | _ => None
  end.

(** * HTTPS proxies (proxy_forward.go) *)

Definition connect_request (addr : bytes) (auth : option (bytes * bytes)) : bytes :=
  lit "CONNECT " ++ addr ++ lit " HTTP/1.1" ++ CRLF
    ++ lit "Host: " ++ addr ++ CRLF
    ++ lit "Proxy-Host: " ++ addr ++ CRLF
    ++ lit "Proxy-Connection: Keep-Alive" ++ CRLF
    ++ lit "Connection: Keep-Alive" ++ CRLF
    ++ (match auth with
        | Some (user, pwd) =>
            lit "Proxy-Authorization: Basic " ++ b64_encode (user ++ lit ":" ++ pwd) ++ CRLF
        | None => []
        end)
    ++ CRLF.

(** [HTTPS.Dial] on the connection to the proxy *)
Definition HTTPS_Dial (auth : option (bytes * bytes)) (addr : bytes) : io conn unit :=
  w ← io_try (Write (connect_request addr auth));
  match w with
  | inr e => Close;; io_fail (ErrWrap "connecting to proxy, %#v" e)
  | inl _ =>
      r ← io_try (on_rx (Read 1024));
      match r with
      | inr e => Close;; io_fail (ErrWrap "ead reply from proxy, %#v" e)
      | inl reply =>
          if negb (Contains reply (lit "200")) then
            Close;; io_fail (ErrMsg "greeting to proxy, response %s")
          else mret tt
      end
  end.

(** * Laws of text *)

(** Visible ASCII *)
Definition visible (c : byte) : bool := (33 <=? b2z c) && (b2z c <=? 126).
Abbreviation visible_text s := (Forall (fun c => visible c = true) s).

Lemma visible_not (s : bytes) (z : Z) : visible_text s -> 0 <= z <= 32 -> z2b z ∉ s.
Proof.
  intros Hs Hz Hin. apply (proj1 (Forall_forall _ _) Hs) in Hin. unfold visible in Hin.
  zify_bool. rewrite b2z_z2b_small in *; lia.
Qed.

Lemma visible_space (c : byte) : visible c = true -> is_space c = false.
Proof.
  unfold visible, is_space. intros H. zify_bool.
  destruct (Z.leb_spec 9 (b2z c)), (Z.leb_spec (b2z c) 13), (Z.eqb_spec (b2z c) 32); try done; lia.
Qed.

Lemma fields_token (t cur s : bytes) :
  visible_text t -> fields_go cur (t ++ s) = fields_go (rev t ++ cur) s.
Proof.
  intros Ht. revert cur. induction Ht as [|c t Hc Ht IH]; intros cur; [done|].
  cbn [app fields_go rev]. rewrite (visible_space c Hc), IH. by rewrite <- app_assoc.
Qed.

Lemma Fields_cons (t s : bytes) :
  visible_text t -> t <> [] -> Fields (t ++ " "%char :: s) = t :: Fields s.
Proof.
  intros Ht Hne. unfold Fields. rewrite fields_token by done. rewrite app_nil_r.
  cbn [fields_go]. change (is_space " ") with true. cbn match.
  destruct (rev t) as [|x r] eqn:E.
  - by apply (f_equal (@rev byte)) in E; rewrite rev_involutive in E.
  - by rewrite <- E, rev_involutive.
Qed.

Lemma Fields_one (t : bytes) : visible_text t -> t <> [] -> Fields t = [t].
Proof.
  intros Ht Hne. unfold Fields. rewrite <- (app_nil_r t) at 1. rewrite fields_token by done.
  rewrite app_nil_r. cbn [fields_go].
  destruct (rev t) as [|x r] eqn:E.
  - by apply (f_equal (@rev byte)) in E; rewrite rev_involutive in E.
  - by rewrite <- E, rev_involutive.
Qed.

Lemma trim_left_id (s cs : bytes) :
  (forall c, head s = Some c -> c ∉ cs) -> trim_left s cs = s.
Proof.
  intros H. destruct s as [|c s]; [done|]. cbn [trim_left].
  rewrite bool_decide_false; [done|]. by apply H.
Qed.

Lemma head_rev (s : bytes) : head (rev s) = last s.
Proof.
  rewrite <- (rev_involutive s). generalize (rev s). intros l. rewrite rev_involutive.
  destruct l as [|x l]; [done|]. simpl. by rewrite last_snoc.
Qed.

Lemma Trim_id (s cs : bytes) :
  (forall c, head s = Some c -> c ∉ cs) -> (forall c, last s = Some c -> c ∉ cs) ->
  Trim s cs = s.
Proof.
  intros Hh Hl. unfold Trim. rewrite (trim_left_id s) by done.
  rewrite trim_left_id by (intros c Hc; apply Hl; by rewrite <- head_rev). apply rev_involutive.
Qed.

Lemma Trim_skip (c : byte) (s cs : bytes) : c ∈ cs -> Trim (c :: s) cs = Trim s cs.
Proof. intros H. unfold Trim. cbn [trim_left]. by rewrite bool_decide_true. Qed.

Lemma last_visible (s : bytes) (c : byte) :
  visible_text s -> last s = Some c -> visible c = true.
Proof.
  intros Hs Hl. apply (proj1 (Forall_forall _ _) Hs).
  apply last_Some in Hl as [l ->]. set_solver.
Qed.

Lemma visible_not_in (c : byte) (cs : bytes) :
  visible c = true -> Forall (fun x => visible x = false) cs -> c ∉ cs.
Proof.
  intros Hc Hcs Hin. apply (proj1 (Forall_forall _ _) Hcs) in Hin. congruence.
Qed.

Lemma b64_visible (s : bytes) : visible_text (b64_encode s).
Proof.
  eapply Forall_impl; [apply b64_encode_plain|]. intros c H.
  unfold b64_plain in H. unfold visible. zify_bool. by zdecide.
Qed.

Lemma line_free_no_cr (s : bytes) : z2b 13 ∉ s -> line_free s.
Proof.
  intros H. unfold line_free. destruct (cut CRLF s) as [[a b]|] eqn:E; [|done].
  apply cut_Some in E as ->. exfalso. apply H. unfold CRLF.
  apply elem_of_app. right. apply elem_of_app. left. left.
Qed.

Lemma trim_left_snoc (l cs : bytes) (c : byte) :
  c ∉ cs -> exists l', trim_left (l ++ [c]) cs = l' ++ [c].
Proof.
  intros Hc. induction l as [|x l [l' IH]]; cbn [app trim_left].
  - rewrite bool_decide_false by done. by exists [].
  - case_bool_decide; [by exists l'|]. by exists (x :: l).
Qed.

Lemma Trim_head (c : byte) (s cs : bytes) : c ∉ cs -> head (Trim (c :: s) cs) = Some c.
Proof.
  intros Hc. unfold Trim. rewrite (trim_left_id (c :: s)) by (intros x [= <-]; done).
  cbn [rev]. destruct (trim_left_snoc (rev s) cs c Hc) as [l' ->].
  by rewrite rev_app_distr.
Qed.

(** * Header lines *)

Definition header_line (name value : bytes) : bytes := name ++ lit ": " ++ value.

Definition eol_space : bytes := CRLF ++ lit " ".

Lemma eol_space_dark : Forall (fun x => visible x = false) eol_space.
Proof. repeat constructor. Qed.

Lemma Trim_visible_ends (s cs : bytes) (c d : byte) :
  Forall (fun x => visible x = false) cs -> head s = Some c -> visible c = true ->
  last s = Some d -> visible d = true -> Trim s cs = s.
Proof.
  intros Hcs Hh Hc Hl Hd. apply Trim_id; intros x Hx; eapply visible_not_in; try done; congruence.
Qed.

Lemma header_line_split (name value : bytes) (d : byte) :
  visible_text name -> name <> [] -> colon ∉ name -> last value = Some d -> visible d = true ->
  SplitN2 (Trim (header_line name value) eol_space) (lit ":") = [name; lit " " ++ value].
Proof.
  intros Hn Hne Hc Hl Hd. unfold header_line.
  destruct name as [|n name]; [done|].
  erewrite (Trim_visible_ends _ _ n d); [| |done| |
    by rewrite last_app, last_app, Hl|done].
  - unfold SplitN2. change (lit ":") with [colon].
    change ((n :: name) ++ lit ": " ++ value) with ((n :: name) ++ colon :: (lit " " ++ value)).
    by rewrite cut_byte_app.
  - apply eol_space_dark.
  - by apply Forall_cons in Hn as [? _].
Qed.

Lemma header_line_skip (key name value : bytes) (d : byte) (t : list bytes) :
  visible_text name -> name <> [] -> colon ∉ name -> last value = Some d -> visible d = true ->
  key <> ToUpper (Trim name (lit " ")) ->
  header_go key (header_line name value :: t) = header_go key t.
Proof.
  intros Hn Hne Hc Hl Hd Hk. cbn [header_go]. fold eol_space.
  erewrite header_line_split by done. by rewrite bool_decide_false.
Qed.

Lemma header_line_hit (key name value : bytes) (c d : byte) (t : list bytes) :
  visible_text name -> name <> [] -> colon ∉ name ->
  head value = Some c -> visible c = true -> last value = Some d -> visible d = true ->
  key = ToUpper (Trim name (lit " ")) ->
  header_go key (header_line name value :: t) = value.
Proof.
  intros Hn Hne Hc Hh Hvc Hl Hd Hk. cbn [header_go]. fold eol_space.
  erewrite header_line_split by done. rewrite bool_decide_true by done.
  change (lit " " ++ value) with (" "%char :: value). rewrite Trim_skip by left.
  eapply Trim_visible_ends; try done. repeat constructor.
Qed.

(** * A client of the proxy *)

Definition connect_line (addr : bytes) : bytes := lit "CONNECT " ++ addr ++ lit " HTTP/1.1".

Definition connect_headers (addr : bytes) (auth : option (bytes * bytes)) : list bytes :=
  [header_line (lit "Host") addr; header_line (lit "Proxy-Host") addr;
   header_line (lit "Proxy-Connection") (lit "Keep-Alive");
   header_line (lit "Connection") (lit "Keep-Alive")]
  ++ match auth with
     | Some (u, p) =>
         [header_line (lit "Proxy-Authorization") (lit "Basic " ++ b64_encode (Format u p))]
     | None => []
     end.

Lemma connect_request_lines (addr : bytes) (auth : option (bytes * bytes)) :
  connect_request addr auth = request (connect_line addr) (connect_headers addr auth) [].
Proof.
  unfold connect_request, request, connect_line, connect_headers, header_line, Format.
  destruct auth as [[u p]|]; cbn [app Join]; rewrite <- ?app_assoc; reflexivity.
Qed.

(** The target: visible text with a port *)
Definition target_ok (addr : bytes) : Prop := visible_text addr /\ colon ∈ addr.

Lemma target_last (addr : bytes) : target_ok addr -> exists d, last addr = Some d /\ visible d = true.
Proof.
  intros [Hv Hc]. destruct (last addr) as [d|] eqn:E.
  - exists d. split; [done|]. by eapply last_visible.
  - apply last_None in E as ->. by apply elem_of_nil in Hc.
Qed.

Lemma line_free_app (name s : bytes) :
  z2b 13 ∉ name -> z2b 13 ∉ s -> line_free (name ++ s).
Proof. intros Hn Hs. apply line_free_no_cr. intros [?|?]%elem_of_app; done. Qed.

Lemma connect_line_ok (addr : bytes) : target_ok addr -> header_ok (connect_line addr).
Proof.
  intros [Hv _]. split; [done|]. apply line_free_app; [by apply (bool_decide_eq_true_1 _)|].
  intros [H|H]%elem_of_app; [by eapply (visible_not addr 13)|].
  revert H. by apply (bool_decide_eq_true_1 _).
Qed.

Lemma header_line_ok (name value : bytes) :
  z2b 13 ∉ name -> z2b 13 ∉ value -> header_ok (header_line name value).
Proof.
  intros Hn Hv. split; [by destruct name|]. apply line_free_app; [done|].
  intros [H|H]%elem_of_app; [|done]. revert H. by apply (bool_decide_eq_true_1 _).
Qed.

Lemma connect_headers_ok (addr : bytes) (auth : option (bytes * bytes)) :
  target_ok addr -> Forall header_ok (connect_headers addr auth).
Proof.
  intros [Hv _]. assert (Ha : z2b 13 ∉ addr) by (by eapply (visible_not addr 13)).
  unfold connect_headers. apply Forall_app. split.
  - repeat constructor; first
      [ by apply header_line_ok; [by apply (bool_decide_eq_true_1 _)|done]
      | by apply header_line_ok; apply (bool_decide_eq_true_1 _) ].
  - destruct auth as [[u p]|]; [|constructor]. constructor; [|constructor].
    apply header_line_ok; [by apply (bool_decide_eq_true_1 _)|].
    intros [H|H]%elem_of_app; [revert H; by apply (bool_decide_eq_true_1 _)|].
    by eapply (visible_not _ 13), H; [apply b64_visible|].
Qed.

Lemma not_tls (b0 : byte) (t : bytes) :
  (4 <= length t)%nat -> b0 <> z2b 22 ->
  ServerNameFromBytes (b0 :: t) = Fail (ErrMsg "SNI: not TLS").
Proof.
  intros Hl Hb. unfold ServerNameFromBytes, ServerNameFromConn, getServername.
  destruct (Peek_enough 5 (b0 :: t) [] (NewReader [Seg (b0 :: t)])) as (s & E & _).
  { by repeat constructor. }
  { apply Nat.leb_le. reflexivity. }
  { apply Nat.leb_le. reflexivity. }
  { cbn. by rewrite !app_nil_r. }
  { simpl. lia. }
  cbn [take] in E.
  erewrite bind_ok by done. erewrite bind_lift by reflexivity.
  by rewrite bool_decide_false by done.
Qed.

Lemma connect_line_skip (key addr : bytes) (t : list bytes) :
  head key <> Some "C"%char -> header_go key (connect_line addr :: t) = header_go key t.
Proof.
  intros Hk. cbn [header_go]. fold eol_space.
  rewrite (Trim_visible_ends _ _ "C"%char "1"%char); [|apply eol_space_dark|done|done| |done].
  2: { unfold connect_line. by rewrite last_app, last_app. }
  unfold SplitN2. destruct (cut (lit ":") (connect_line addr)) as [[a b]|] eqn:E; [|done].
  apply cut_Some in E. rewrite bool_decide_false; [done|]. intros ->.
  destruct a as [|x a]; cbn in E; [discriminate E|]. injection E as <- _.
  apply Hk. assert (Ht : head (Trim ("C"%char :: a) (lit " ")) = Some "C"%char)
    by (apply Trim_head; by apply (bool_decide_eq_true_1 _)).
  unfold ToUpper. destruct (Trim ("C"%char :: a) (lit " ")) as [|y r]; [discriminate Ht|].
  by injection Ht as ->.
Qed.

Lemma connect_auth_header (addr u p : bytes) :
  target_ok addr ->
  header_go (lit "PROXY-AUTHORIZATION") (Split (connect_request addr (Some (u, p))) CRLF)
    = lit "Basic " ++ b64_encode (Format u p).
Proof.
  intros Ha. rewrite connect_request_lines, Split_request;
    [|by apply connect_line_ok|by apply connect_headers_ok].
  destruct (target_last addr Ha) as (d & Hd & Hvd).
  cbn [app]. rewrite connect_line_skip by done. unfold connect_headers. cbn [app].
  assert (V : forall s : bytes, bool_decide (visible_text s) = true -> visible_text s)
    by (intros s; apply bool_decide_eq_true_1).
  assert (N : forall s : bytes, bool_decide (colon ∉ s) = true -> colon ∉ s)
    by (intros s; apply bool_decide_eq_true_1).
  do 2 (erewrite header_line_skip; [|apply V; reflexivity|done|apply N; reflexivity|exact Hd|exact Hvd|done]).
  do 2 (erewrite header_line_skip;
    [|apply V; reflexivity|done|apply N; reflexivity|reflexivity|reflexivity|done]).
  destruct (last (b64_encode (Format u p))) as [e|] eqn:El.
  - eapply header_line_hit; [apply V; reflexivity|done|apply N; reflexivity|reflexivity|reflexivity
      |by rewrite last_app, El| |reflexivity].
    eapply last_visible; [apply b64_visible|exact El].
  - apply last_None in El. exfalso. apply (f_equal (@length byte)) in El. revert El.
    unfold Format. destruct u as [|x [|y [|z u]]], p as [|q [|r p]]; done.
Qed.

(** * The client against the proxy *)
Section Proxy.
Context {C : Type} `{!Authenticator C}.
Context (url_host : bytes -> option bytes) (rune_cap : Z -> Z).

Lemma connect_credentials (addr u p : bytes) :
  target_ok addr -> credentials (connect_request addr (Some (u, p))) = Some (Format u p).
Proof.
  intros Ha. unfold credentials. rewrite connect_auth_header by done.
  assert (Hb := b64_visible (Format u p)).
  destruct (last (b64_encode (Format u p))) as [e|] eqn:El.
  - assert (visible e = true) by (by eapply last_visible).
    erewrite (Trim_visible_ends _ _ "B"%char e); [|by repeat constructor|done|done
      |by rewrite last_app, El|done].
    change (lit "Basic " ++ b64_encode (Format u p))
      with (lit "Basic" ++ " "%char :: b64_encode (Format u p)).
    rewrite Fields_cons; [|by apply (bool_decide_eq_true_1 _)|done].
    rewrite Fields_one; [|done|by intros E; rewrite E in El].
    by rewrite DecodeString_encode.
  - apply last_None in El. exfalso. apply (f_equal (@length byte)) in El. revert El.
    unfold Format. destruct u as [|x [|y [|z u]]], p as [|q [|r p]]; done.
Qed.

Lemma connect_decode (addr : bytes) (auth : option (bytes * bytes)) (s : conn) :
  target_ok addr ->
  decode_line rune_cap (connect_request addr auth) s =
    (Ok (lit "CONNECT", addr, false), s).
Proof.
  intros [Hv Hc]. unfold decode_line.
  change (connect_request addr auth) with ("C"%char :: tail (connect_request addr auth)) at 1.
  rewrite not_tls; [| |done].
  2: { unfold connect_request. simpl. lia. }
  assert (E : exists t, connect_request addr auth =
    (connect_line addr ++ [z2b 13]) ++ z2b 10 :: t).
  { unfold connect_request, connect_line. eexists. rewrite <- !app_assoc. reflexivity. }
  destruct E as [t ->]. rewrite cut_byte_app.
  2: { unfold connect_line. rewrite !elem_of_app.
       intros [[H|[H|H]]|H]; [revert H; by apply (bool_decide_eq_true_1 _)
         |by eapply (visible_not addr 10)
         |revert H; by apply (bool_decide_eq_true_1 _)
         |revert H; by apply (bool_decide_eq_true_1 _)]. }
  unfold connect_line. rewrite <- !app_assoc.
  change (lit "CONNECT " ++ ?x) with (lit "CONNECT" ++ " "%char :: x).
  rewrite Fields_cons; [|by apply (bool_decide_eq_true_1 _)|done].
  change (addr ++ lit " HTTP/1.1" ++ [z2b 13]) with (addr ++ " "%char :: (lit "HTTP/1.1" ++ [z2b 13])).
  rewrite Fields_cons; [done|done|]. intros ->. by apply elem_of_nil in Hc.
Qed.

(** Whether a center lets a client with these credentials through *)
Definition allowed (center : option C) (remote local : bytes) (auth : option (bytes * bytes)) : bool :=
  match center, auth with
  | None, _ => true
  | Some c, Some (u, p) =>
      auth_verify c (Format u p) (host_part remote) (host_part local) (lit "https://")
  | Some _, None => false
  end.

Lemma no_auth_header (addr : bytes) :
  target_ok addr ->
  header_go (lit "PROXY-AUTHORIZATION") (Split (connect_request addr None) CRLF) = [].
Proof.
  intros Ha. rewrite connect_request_lines, Split_request;
    [|by apply connect_line_ok|by apply connect_headers_ok].
  destruct (target_last addr Ha) as (d & Hd & Hvd).
  cbn [app]. rewrite connect_line_skip by done. unfold connect_headers. cbn [app].
  assert (V : forall s : bytes, bool_decide (visible_text s) = true -> visible_text s)
    by (intros s; apply bool_decide_eq_true_1).
  assert (N : forall s : bytes, bool_decide (colon ∉ s) = true -> colon ∉ s)
    by (intros s; apply bool_decide_eq_true_1).
  do 2 (erewrite header_line_skip; [|apply V; reflexivity|done|apply N; reflexivity|exact Hd|exact Hvd|done]).
  do 2 (erewrite header_line_skip;
    [|apply V; reflexivity|done|apply N; reflexivity|reflexivity|reflexivity|done]).
  reflexivity.
Qed.

Lemma HTTPS_Dial_reply (auth : option (bytes * bytes)) (addr reply : bytes) (r : reader) :
  (length reply <= 1024)%nat ->
  HTTPS_Dial auth addr (conn_of (Seg reply :: r)) =
    if Contains reply (lit "200") then (Ok tt, mkConn r [connect_request addr auth] [] false)
    else (Fail (ErrMsg "greeting to proxy, response %s"),
          mkConn r [connect_request addr auth] [] true).
Proof.
  intros Hl. unfold HTTPS_Dial. erewrite bind_ok; [|by apply io_try_ok, Write_ok].
  cbn beta iota. erewrite bind_ok; [|by apply io_try_ok, on_rx_ok, Read_seg].
  cbn beta iota. by destruct (Contains reply (lit "200")).
Qed.

(** What a proxy makes of a CONNECT request: a request for its target when the
    credentials are let through, an answer without 200 and a closed connection
    otherwise *)
Lemma proxy_decodes (addr : bytes) (auth : option (bytes * bytes)) (center : option C)
    (remote local : bytes) (n : nat) (srx : reader) :
  target_ok addr -> (length (connect_request addr auth) <= n)%nat ->
  let raw := connect_request addr auth in
  exists e reply,
    New url_host rune_cap remote local n center (conn_of (Seg raw :: srx)) =
      (if allowed center remote local auth
       then (Ok (mkRequest raw addr (lit "CONNECT") [] addr center false), conn_of srx)
       else (Fail e, mkConn srx [reply] [] true)) /\
    Contains reply (lit "200") = false /\ (length reply <= 1024)%nat.
Proof.
  intros Ha Hn raw. unfold New.
  erewrite bind_ok; [|by apply io_try_ok, on_rx_ok, Read_seg]. cbn beta iota.
  erewrite bind_ok; [|by apply connect_decode]. cbn beta iota zeta.
  change (ToUpper (lit "CONNECT")) with (lit "CONNECT").
  assert (Hport : with_port addr (lit "443") = addr).
  { unfold with_port. destruct Ha as [_ Hc]. change (lit ":") with [colon]. by rewrite (proj2 (Contains_byte colon addr)). }
  assert (Hw : Contains reply_wrong (lit "200") = false /\ (length reply_wrong <= 1024)%nat)
    by (split; [reflexivity|apply Nat.leb_le; reflexivity]).
  assert (Hr : Contains reply_required (lit "200") = false /\ (length reply_required <= 1024)%nat)
    by (split; [reflexivity|apply Nat.leb_le; reflexivity]).
  destruct (BasicAuth remote local (mkRequest raw [] (lit "CONNECT") [] addr center false)
    (conn_of srx)) as [o s'] eqn:Eb.
  unfold mbind, io_bind. cbn [rx tx wres closed conn_of]. fold (conn_of srx). rewrite Eb.
  unfold BasicAuth in Eb. cbn [basicAuthCenter] in Eb. destruct center as [c|]; cbn [allowed].
  2: { injection Eb as <- <-. cbn beta iota. exists EOF, reply_wrong. by rewrite Hport. }
  rewrite !split_host in Eb. change (auth_target _) with (lit "https://") in Eb.
  erewrite bind_lift in Eb by done. erewrite bind_lift in Eb by done.
  destruct auth as [[u p]|].
  - erewrite bind_ok in Eb; [|by apply GetProxyAuth_ok, connect_credentials].
    destruct (auth_verify c (Format u p) _ _ _).
    + injection Eb as <- <-. cbn beta iota. exists EOF, reply_wrong. by rewrite Hport.
    + injection Eb as <- <-. by eexists _, reply_wrong.
  - unfold GetProxyAuthUserPassPair, getHeader in Eb. cbn [RawHeader] in Eb.
    change (ToUpper _) with (lit "PROXY-AUTHORIZATION") in Eb.
    unfold raw in Eb. rewrite no_auth_header in Eb by done.
    injection Eb as <- <-. by eexists _, reply_required.
Qed.

(** C31: a client that dials through the HTTPS proxy reaches its target exactly
    when the proxy's center lets it.  The proxy decodes the client's CONNECT
    request to the target address, whatever the credentials contain; if there is
    no center, or the center accepts the client's user and password, the proxy
    sends nothing until it answers 200 and the client's dial succeeds on that
    answer; otherwise the proxy answers 407, closes, and the dial fails and closes
    too. *)
Theorem connect_through_proxy (addr : bytes) (auth : option (bytes * bytes)) (center : option C)
    (remote local : bytes) (n : nat) (crx srx : reader) :
  target_ok addr -> (length (connect_request addr auth) <= n)%nat ->
  let raw := connect_request addr auth in
  let '(o, s') := New url_host rune_cap remote local n center (conn_of (Seg raw :: srx)) in
  if allowed center remote local auth then
    exists req, o = Ok req /\ s' = conn_of srx /\ Host req = addr /\ RawHeader req = raw /\
      IsHTTPS req = true /\ IsSNI req = false /\
      HTTPSReply s' = (Ok tt, mkConn srx [Established] [] false) /\
      HTTPS_Dial auth addr (conn_of (Seg Established :: crx)) = (Ok tt, mkConn crx [raw] [] false)
  else
    exists e reply e', o = Fail e /\ s' = mkConn srx [reply] [] true /\
      HTTPS_Dial auth addr (conn_of (Seg reply :: crx)) = (Fail e', mkConn crx [raw] [] true).
Proof.
  intros Ha Hn raw.
  destruct (proxy_decodes addr auth center remote local n srx Ha Hn) as (e & reply & E & H2 & Hl).
  unfold raw. rewrite E. clear E.
  destruct (allowed center remote local auth).
  - eexists. by split_and!.
  - exists e, reply. eexists. split_and!; [done..|]. rewrite HTTPS_Dial_reply, H2 by done. done.
Qed.
End Proxy.

#[local] Instance one_pair : Authenticator bytes := fun c up _ _ _ => bool_decide (up = c).

Lemma connect_through_proxy_witness :
  let raw := connect_request (lit "a.b:443") (Some (lit "u", lit "p")) in
  exists req, (New (fun _ => None) (fun n => n) (lit "10.0.0.1:5000") (lit "10.0.0.2:80") 4096
      (Some (lit "u:p")) (conn_of [Seg raw])).1 = Ok req /\ Host req = lit "a.b:443".
Proof.
  pose proof (connect_through_proxy (fun _ => None) (fun n => n) (lit "a.b:443")
    (Some (lit "u", lit "p")) (Some (lit "u:p")) (lit "10.0.0.1:5000") (lit "10.0.0.2:80") 4096 [] [])
    as H.
  cbv zeta in H |- *. destruct (New _ _ _ _ _ _ _) as [o s']. 
  destruct H as (req & H1 & _ & H2 & _).
  - split; apply (bool_decide_eq_true_1 _); vm_compute; reflexivity.
  - apply Nat.leb_le. vm_compute. reflexivity.
  - exists req. split; [exact H1|exact H2].
Defined.
