(* ===== verification/UdpRelay.v ===== *)
(** services/udp with connection.Manager: the UDP relay keeps one connection to
    its parent per source address.  Its goroutines (packet handlers that share a
    dial through singleflight, one receiver per connection, the collector of idle
    sessions, [Stop]) are the events of a step function; the [connItem]s are
    shared through a heap of sessions.  Logging is left out. *)
From S2P Require Import Prelude GoStrings GoNet GoIO Captain.
Open Scope Z_scope.

(** * State *)

(** A [connItem] with its connection: [c_sent] is what was written to it. *)
Record connItem := mkItem {
  srcAddr : bytes;
  lastActiveTime : Z;
  c_closed : bool;
  c_sent : list bytes;
}.

(** Where the receiver goroutine of a connection is: in its loop, or in the
    deferred function before [conns.Remove] or before [Close] *)
Inductive receiver := Receiving | Removing | Closing.

(** How [cfg.ParentType] makes [handle] relay *)
Inductive parent := Stream | Packet.

Definition parent_of (ParentType : bytes) : option parent :=
  if bool_decide (ParentType ∈ map lit ["tcp"; "tls"; "stcp"; "kcp"]%string) then Some Stream
  else if bool_decide (ParentType = lit "udp") then Some Packet
  else None.

Record UDP := mkUDP {
  conns : gmap bytes nat;             (** the manager's table: source to session *)
  items : gmap nat connItem;          (** the sessions ever created *)
  receivers : gmap nat receiver;
  flights : gmap bytes (list bytes);  (** [single.Do] calls: the packets waiting *)
  ready : list (nat * bytes);         (** handlers about to write to a session *)
  snapshot : list (bytes * nat);      (** what is left of the collector's [Items()] *)
  now_ : Z;                           (** the tick the collector works for *)
  removing : option bytes;            (** the key the collector will remove *)
  outbox : list (nat * bytes * bytes);  (** datagrams sent: session read, address, data *)
  packets : list (bytes * bytes);     (** packets handled: source, data *)
  clock : Z;                          (** [time.Now().Unix()] *)
  stopped : bool;
}.

Definition UDP_init (t : Z) : UDP := mkUDP ∅ ∅ ∅ ∅ [] [] t None [] [] t false.



Definition next (s : UDP) : nat := fresh (dom (items s) : gset nat).

(** ** Updates *)
Definition set_conns c s := mkUDP c (items s) (receivers s) (flights s) (ready s) (snapshot s)
  (now_ s) (removing s) (outbox s) (packets s) (clock s) (stopped s).
Definition set_items i s := mkUDP (conns s) i (receivers s) (flights s) (ready s) (snapshot s)
  (now_ s) (removing s) (outbox s) (packets s) (clock s) (stopped s).
Definition set_receivers r s := mkUDP (conns s) (items s) r (flights s) (ready s) (snapshot s)
  (now_ s) (removing s) (outbox s) (packets s) (clock s) (stopped s).
Definition set_flights f s := mkUDP (conns s) (items s) (receivers s) f (ready s) (snapshot s)
  (now_ s) (removing s) (outbox s) (packets s) (clock s) (stopped s).
Definition set_ready r s := mkUDP (conns s) (items s) (receivers s) (flights s) r (snapshot s)
  (now_ s) (removing s) (outbox s) (packets s) (clock s) (stopped s).
Definition set_snapshot l n s := mkUDP (conns s) (items s) (receivers s) (flights s) (ready s) l
  n (removing s) (outbox s) (packets s) (clock s) (stopped s).
Definition set_removing k s := mkUDP (conns s) (items s) (receivers s) (flights s) (ready s)
  (snapshot s) (now_ s) k (outbox s) (packets s) (clock s) (stopped s).
Definition add_out o s := mkUDP (conns s) (items s) (receivers s) (flights s) (ready s)
  (snapshot s) (now_ s) (removing s) (outbox s ++ [o]) (packets s) (clock s) (stopped s).
Definition add_packet p s := mkUDP (conns s) (items s) (receivers s) (flights s) (ready s)
  (snapshot s) (now_ s) (removing s) (outbox s) (packets s ++ [p]) (clock s) (stopped s).
Definition set_clock t s := mkUDP (conns s) (items s) (receivers s) (flights s) (ready s)
  (snapshot s) (now_ s) (removing s) (outbox s) (packets s) t (stopped s).
Definition set_stopped s := mkUDP (conns s) (items s) (receivers s) (flights s) (ready s)
  (snapshot s) (now_ s) (removing s) (outbox s) (packets s) (clock s) true.

Definition set_item (i : nat) (it : connItem) (s : UDP) : UDP := set_items (<[i := it]> (items s)) s.

(** [atomic.StoreInt64(&item.lastActiveTime, time.Now().Unix())] *)
Definition touch (t : Z) (it : connItem) : connItem :=
  mkItem (srcAddr it) t (c_closed it) (c_sent it).
(** [item.targetConn.Close()] *)
Definition close_item (it : connItem) : connItem :=
  mkItem (srcAddr it) (lastActiveTime it) true (c_sent it).
(** [item.targetConn.Write(b)]: its error is dropped or logged *)
Definition write_item (b : bytes) (it : connItem) : connItem :=
  if c_closed it then it
  else mkItem (srcAddr it) (lastActiveTime it) (c_closed it) (c_sent it ++ [b]).

Definition upd_item (f : connItem -> connItem) (i : nat) (s : UDP) : UDP :=
  set_items (alter f i (items s)) s.

(** * Operations *)

Section Relay.
(** The kind of the parent, and [udpIdleTime] *)
Context (kind : parent) (udpIdleTime : Z).

(** What is written to the parent for a packet: a stream datagram addressed with
    the source, or the data itself *)
Definition wire (src data : bytes) : option bytes :=
  match kind with
  | Stream =>
      match (a ← ParseAddrSpec src; StreamDatagram_Header (mkStreamDatagram zero a data)) with
      | Ok header => Some (header ++ data)
      | _ => None
      end
  | Packet => Some data
  end.

(** A handler enters [single.Do(srcAddr, ...)]: it joins a dial in flight, finds
    the session of the table, or starts a dial. *)
Definition handle_enter (src data : bytes) (s : UDP) : UDP :=
  let s := add_packet (src, data) s in
  match flights s !! src with
  | Some waiting => set_flights (<[src := waiting ++ [data]]> (flights s)) s
  | None =>
      match conns s !! src with
      | Some i => set_ready (ready s ++ [(i, data)]) s
      | None => set_flights (<[src := [data]]> (flights s)) s
      end
  end.

(** The dial of [src] ends.  With a connection, the function given to [Do] stores
    a new session and starts its receiver, and every waiting handler goes on; with
    an error they all return. *)
Definition dial_end (src : bytes) (connected : bool) (s : UDP) : option UDP :=
  match flights s !! src with
  | None => None
  | Some waiting =>
      let s := set_flights (delete src (flights s)) s in
      if connected then
        let i := next s in
        let s := set_item i (mkItem src (clock s) false []) s in
        let s := set_conns (<[src := i]> (conns s)) s in
        let s := set_receivers (<[i := Receiving]> (receivers s)) s in
        Some (set_ready (ready s ++ map (fun d => (i, d)) waiting) s)
      else Some s
  end.

(** The k-th handler that has its session touches it and writes; [ok] is false when
    the write fails though the connection is open. *)
Definition handle_write (k : nat) (ok : bool) (s : UDP) : option UDP :=
  match ready s !! k with
  | None => None
  | Some (i, data) =>
      let s := set_ready (delete k (ready s)) s in
      match items s !! i with
      | None => None
      | Some it =>
          let s := upd_item (touch (clock s)) i s in
          Some (match wire (srcAddr it) data with
                | Some b => if ok then upd_item (write_item b) i s else s
                | None => s
                end)
      end
  end.

(** One round of the receiver of session [i]: what its read gave, and whether
    the write to the source succeeded *)
Inductive received :=
  | RData (data : bytes) (written : bool)
  | RSkip      (** a parse error the stream receiver skips *)
  | RError.

Definition receive (i : nat) (r : received) (s : UDP) : option UDP :=
  match receivers s !! i, items s !! i with
  | Some Receiving, Some it =>
      match r with
      | RData data written =>
          if c_closed it then None
          else
            let s := upd_item (touch (clock s)) i s in
            if written then Some (add_out (i, srcAddr it, data) s)
            else Some (match kind with
                       | Stream => s
                       | Packet => set_receivers (<[i := Removing]> (receivers s)) s
                       end)
      | RSkip => match kind with Stream => Some s | Packet => None end
      | RError => Some (set_receivers (<[i := Removing]> (receivers s)) s)
      end
  | _, _ => None
  end.

(** The deferred function of the receiver: [conns.Remove(srcAddr)], then
    [targetConn.Close()] *)
Definition receiver_remove (i : nat) (s : UDP) : option UDP :=
  match receivers s !! i, items s !! i with
  | Some Removing, Some it =>
      let s := set_conns (delete (srcAddr it) (conns s)) s in
      Some (set_receivers (<[i := Closing]> (receivers s)) s)
  | _, _ => None
  end.

Definition receiver_close (i : nat) (s : UDP) : option UDP :=
  match receivers s !! i with
  | Some Closing => Some (set_receivers (delete i (receivers s)) (upd_item close_item i s))
  | _ => None
  end.

(** [Manager.Watch]: a tick takes a snapshot of the table ... *)
Definition watch_tick (s : UDP) : option UDP :=
  match stopped s, snapshot s, removing s with
  | false, [], None => Some (set_snapshot (map_to_list (conns s)) (clock s) s)
  | _, _, _ => None
  end.

(** ... the callback of [New] closes the idle sessions in it ... *)
Definition watch_item (s : UDP) : option UDP :=
  match snapshot s, removing s with
  | (k, i) :: rest, None =>
      match items s !! i with
      | None => None
      | Some it =>
          let s := set_snapshot rest (now_ s) s in
          if udpIdleTime <? now_ s - lastActiveTime it then
            Some (set_removing (Some k) (upd_item close_item i s))
          else Some s
      end
  | _, _ => None
  end.

(** ... and their keys are removed. *)
Definition watch_remove (s : UDP) : option UDP :=
  match removing s with
  | Some k => Some (set_removing None (set_conns (delete k (conns s)) s))
  | None => None
  end.

(** [Stop]: no more packets are read (handlers already started go on) and the
    collector's ticks end; the sessions of the table are closed. *)
Definition Stop (s : UDP) : UDP :=
  set_stopped (foldr (fun kv s => upd_item close_item kv.2 s) s (map_to_list (conns s))).

(** * Runs *)

Inductive event :=
  | EPacket (src data : bytes)
  | EDial (src : bytes) (connected : bool)
  | EWrite (k : nat) (ok : bool)
  | EReceive (i : nat) (r : received)
  | ERemove (i : nat)
  | EClose (i : nat)
  | ETick
  | EItem
  | EWatchRemove
  | EClock (d : Z)
  | EStop.

Definition step (e : event) (s : UDP) : option UDP :=
  match e with
  | EPacket src data => Some (handle_enter src data s)
  | EDial src connected => dial_end src connected s
  | EWrite k ok => handle_write k ok s
  | EReceive i r => receive i r s
  | ERemove i => receiver_remove i s
  | EClose i => receiver_close i s
  | ETick => watch_tick s
  | EItem => watch_item s
  | EWatchRemove => watch_remove s
  | EClock d => if 0 <=? d then Some (set_clock (clock s + d) s) else None
  | EStop => if stopped s then None else Some (Stop s)
  end.

Fixpoint run (es : list event) (s : UDP) : option UDP :=
  match es with
  | [] => Some s
  | e :: es => match step e s with Some s => run es s | None => None end
  end.

Definition reachable (s : UDP) : Prop := exists t es, run es (UDP_init t) = Some s.

(** What becomes of the packets that a step deals with: each, with its source, goes
    out on a connection, or is dropped: with a connection that is closed, a write
    that fails or a dial that fails. *)
Definition step_fates (e : event) (s : UDP) : list (bytes * bytes * option nat) :=
  match e with
  | EWrite k ok =>
      match ready s !! k with
      | Some (i, d) =>
          match items s !! i with
          | Some it => [(srcAddr it, d, if c_closed it || negb ok then None else Some i)]
          | None => []
          end
      | None => []
      end
  | EDial src false => map (fun d => (src, d, None)) (default [] (flights s !! src))
  | _ => []
  end.
Fixpoint fates (es : list event) (s : UDP) : list (bytes * bytes * option nat) :=
  match es with
  | [] => []
  | e :: es => step_fates e s ++ match step e s with Some s => fates es s | None => [] end
  end.

End Relay.

(** The data that went out on the connection [i], in order *)
Definition carried (i : nat) (l : list (bytes * bytes * option nat)) : list bytes :=
  omap (fun p => if bool_decide (p.2 = Some i) then Some p.1.2 else None) l.

(** The packets no step has dealt with yet: those whose handler is about to write,
    and those waiting for a dial *)
Definition src_at (s : UDP) (i : nat) : bytes := default [] (srcAddr <$> items s !! i).
Definition flying (m : gmap bytes (list bytes)) : list (bytes * bytes) :=
  concat (map (fun kw => map (pair kw.1) kw.2) (map_to_list m)).
Definition awaiting (s : UDP) : list (bytes * bytes) :=
  map (fun p => (src_at s p.1, p.2)) (ready s) ++ flying (flights s).

(** * Invariants *)
Section Laws.
Context (kind : parent) (udpIdleTime : Z).

(** The source of a session *)
Definition source_of (s : UDP) (i : nat) (k : bytes) : Prop :=
  exists it, items s !! i = Some it /\ srcAddr it = k.

(** What was written to a session of [k] for a packet *)
Definition wired (s : UDP) (k b : bytes) : Prop :=
  exists d, (k, d) ∈ packets s /\ wire kind k d = Some b.

Record relay_inv (s : UDP) : Prop := {
  inv_conns : forall k i, conns s !! k = Some i -> source_of s i k;
  inv_flights : forall k w, flights s !! k = Some w ->
    conns s !! k = None /\ Forall (fun d => (k, d) ∈ packets s) w;
  inv_ready : Forall (fun p => exists k, source_of s p.1 k /\ (k, p.2) ∈ packets s) (ready s);
  inv_snapshot : Forall (fun p => source_of s p.2 p.1) (snapshot s);
  inv_receivers : forall i r, receivers s !! i = Some r -> is_Some (items s !! i);
  inv_open : forall i it, items s !! i = Some it -> c_closed it = false ->
    is_Some (receivers s !! i);
  inv_sent : forall i it, items s !! i = Some it -> Forall (wired s (srcAddr it)) (c_sent it);
  inv_outbox : Forall (fun p => source_of s p.1.1 p.1.2) (outbox s);
}.

Lemma relay_inv_init (t : Z) : relay_inv (UDP_init t).
Proof. split; cbn; first [apply Forall_nil_2 | intros *; by rewrite lookup_empty]. Qed.

(** Updates of one session that keep its source *)
Record keeps_source (f : connItem -> connItem) : Prop := {
  ks_src : forall it, srcAddr (f it) = srcAddr it;
  ks_closed : forall it, c_closed (f it) = false -> c_closed it = false;
}.

Lemma touch_keeps (t : Z) : keeps_source (touch t).
Proof. by split. Qed.
Lemma close_keeps : keeps_source close_item.
Proof. by split. Qed.
Lemma write_keeps (b : bytes) : keeps_source (write_item b).
Proof. split; intros it; unfold write_item; by destruct (c_closed it) eqn:E; cbn; rewrite ?E. Qed.
Hint Resolve touch_keeps close_keeps write_keeps : core.

Lemma source_upd (f : connItem -> connItem) (i j : nat) (k : bytes) (s : UDP) :
  keeps_source f -> source_of s j k -> source_of (upd_item f i s) j k.
Proof.
  intros [Hf _] (it & Hj & Hk). unfold source_of, upd_item. cbn.
  destruct (decide (i = j)) as [->|Hn].
  - exists (f it). rewrite lookup_alter_eq, Hj. split; [done|]. by rewrite Hf.
  - exists it. by rewrite lookup_alter_ne.
Qed.

Lemma relay_inv_upd (f : connItem -> connItem) (i : nat) (s : UDP) :
  keeps_source f ->
  (forall it, items s !! i = Some it -> Forall (wired s (srcAddr it)) (c_sent it) ->
     Forall (wired s (srcAddr it)) (c_sent (f it))) ->
  relay_inv s -> relay_inv (upd_item f i s).
Proof.
  intros Hf Hs [A B C D E F G H]. split; cbn.
  - intros k j Hk. by apply source_upd, A.
  - exact B.
  - eapply Forall_impl; [exact C|]. intros p (k & Hk & Hp). exists k. split; [by apply source_upd|done].
  - eapply Forall_impl; [exact D|]. intros p. by apply source_upd.
  - intros j r Hj. apply E in Hj as [it Hit].
    destruct (decide (i = j)) as [->|Hn];
      [rewrite lookup_alter_eq, Hit|rewrite lookup_alter_ne by done]; eauto.
  - intros j it. destruct (decide (i = j)) as [->|Hn];
      [rewrite lookup_alter_eq|rewrite lookup_alter_ne by done; apply F].
    destruct (items s !! j) as [it0|] eqn:Ej; [|done]. intros [= <-] Hc.
    apply (F j it0 Ej). by apply (ks_closed f Hf it0).
  - intros j it. destruct (decide (i = j)) as [->|Hn];
      [rewrite lookup_alter_eq|rewrite lookup_alter_ne by done; apply G].
    destruct (items s !! j) as [it0|] eqn:Ej; [|done]. intros [= <-].
    rewrite (ks_src f Hf). apply Hs; [done|by eapply G].
  - eapply Forall_impl; [exact H|]. intros p. by apply source_upd.
Qed.

Lemma relay_inv_touch (t : Z) (i : nat) (s : UDP) : relay_inv s -> relay_inv (upd_item (touch t) i s).
Proof. by apply relay_inv_upd. Qed.
Lemma relay_inv_close (i : nat) (s : UDP) : relay_inv s -> relay_inv (upd_item close_item i s).
Proof. by apply relay_inv_upd. Qed.

Lemma relay_inv_write (i : nat) (it : connItem) (d b : bytes) (s : UDP) :
  items s !! i = Some it -> (srcAddr it, d) ∈ packets s -> wire kind (srcAddr it) d = Some b ->
  relay_inv s -> relay_inv (upd_item (write_item b) i s).
Proof.
  intros Hi Hd Hw. apply relay_inv_upd; [done|]. intros it0 Hi0 Hall. simplify_eq.
  unfold write_item. destruct (c_closed it); [done|]. cbn. apply Forall_app. split; [done|].
  constructor; [|done]. by exists d.
Qed.

(** Changes outside the sessions *)
Lemma relay_inv_drop_conn (k : bytes) (s : UDP) :
  relay_inv s -> relay_inv (set_conns (delete k (conns s)) s).
Proof.
  intros [A B C D E F G H]. split; cbn; try done.
  - intros k' i. rewrite lookup_delete_Some. intros [_ Hk]. by apply A.
  - intros k' w Hk. destruct (B k' w Hk) as [Hn Hw]. split; [|done].
    destruct (decide (k = k')) as [->|Hne]; [by rewrite lookup_delete_eq|by rewrite lookup_delete_ne].
Qed.

Lemma relay_inv_receiver (i : nat) (r : receiver) (s : UDP) :
  is_Some (items s !! i) -> relay_inv s ->
  relay_inv (set_receivers (<[i := r]> (receivers s)) s).
Proof.
  intros Hi [A B C D E F G H]. split; cbn; try done.
  - intros j r'. destruct (decide (i = j)) as [->|Hn];
      [done|rewrite lookup_insert_ne by done; apply E].
  - intros j it Hj Hc. destruct (decide (i = j)) as [->|Hn];
      [by rewrite lookup_insert_eq|rewrite lookup_insert_ne by done; by eapply F].
Qed.

Lemma relay_inv_ready (l : list (nat * bytes)) (s : UDP) :
  Forall (fun p => exists k, source_of s p.1 k /\ (k, p.2) ∈ packets s) l ->
  relay_inv s -> relay_inv (set_ready l s).
Proof. intros Hl [A B C D E F G H]. by split. Qed.

Lemma relay_inv_flight (k : bytes) (w : list bytes) (s : UDP) :
  conns s !! k = None -> Forall (fun d => (k, d) ∈ packets s) w ->
  relay_inv s -> relay_inv (set_flights (<[k := w]> (flights s)) s).
Proof.
  intros Hk Hw [A B C D E F G H]. split; cbn; try done.
  intros k' w'. destruct (decide (k = k')) as [->|Hn].
  - rewrite lookup_insert_eq. by intros [= <-].
  - rewrite lookup_insert_ne by done. apply B.
Qed.

Lemma relay_inv_land (k : bytes) (s : UDP) :
  relay_inv s -> relay_inv (set_flights (delete k (flights s)) s).
Proof.
  intros [A B C D E F G H]. split; cbn; try done.
  intros k' w. rewrite lookup_delete_Some. intros [_ Hk]. by apply B.
Qed.

Lemma relay_inv_packet (p : bytes * bytes) (s : UDP) : relay_inv s -> relay_inv (add_packet p s).
Proof.
  intros [A B C D E F G H].
  assert (Hm : forall q, q ∈ packets s -> q ∈ packets s ++ [p]) by (intros; apply elem_of_app; by left).
  split; cbn; try done.
  - intros k w Hk. destruct (B k w Hk) as [? Hw]. split; [done|].
    eapply Forall_impl; [exact Hw|]. intros d. apply Hm.
  - eapply Forall_impl; [exact C|]. intros q (k & ? & ?). exists k. split; [done|]. by apply Hm.
  - intros i it Hi. eapply Forall_impl; [by eapply G|].
    intros b (d & ? & ?). exists d. split; [|done]. by apply Hm.
Qed.

Lemma next_fresh (s : UDP) : items s !! next s = None.
Proof. apply (not_elem_of_dom (D := gset nat)); unfold next; apply is_fresh. Qed.

(** A new session in an empty place of the table *)
Lemma relay_inv_session (k : bytes) (t : Z) (s : UDP) :
  flights s !! k = None -> relay_inv s ->
  let i := next s in
  relay_inv (set_receivers (<[i := Receiving]> (receivers s))
    (set_conns (<[k := i]> (conns s)) (set_item i (mkItem k t false []) s))) /\
  source_of (set_item i (mkItem k t false []) s) i k.
Proof.
  intros Hf [A B C D E F G H] i.
  assert (Hi : items s !! i = None) by apply next_fresh. clearbody i.
  assert (Hsrc : forall j k', source_of s j k' -> source_of (set_item i (mkItem k t false []) s) j k').
  { intros j k' (it & Hj & Hk'). exists it. split; [|done]. cbn.
    rewrite lookup_insert_ne; [done|]. intros ->. congruence. }
  assert (Hnew : source_of (set_item i (mkItem k t false []) s) i k)
    by (eexists; split; [apply lookup_insert_eq|done]).
  split; [|done]. split; cbn.
  - intros k' j. destruct (decide (k = k')) as [->|Hn].
    + rewrite lookup_insert_eq. by intros [= <-].
    + rewrite lookup_insert_ne by done. intros Hj. by apply Hsrc, A.
  - intros k' w Hk. destruct (decide (k = k')) as [->|Hn]; [congruence|].
    rewrite lookup_insert_ne by done. by apply B.
  - eapply Forall_impl; [exact C|]. intros p (k' & ? & ?). exists k'. split; [by apply Hsrc|done].
  - eapply Forall_impl; [exact D|]. intros p. apply Hsrc.
  - intros j r. destruct (decide (i = j)) as [->|Hn]; [rewrite !lookup_insert_eq; eauto|].
    rewrite !lookup_insert_ne by done. apply E.
  - intros j it. destruct (decide (i = j)) as [->|Hn]; [rewrite !lookup_insert_eq; eauto|].
    rewrite !lookup_insert_ne by done. apply F.
  - intros j it. destruct (decide (i = j)) as [->|Hn].
    + rewrite lookup_insert_eq. intros [= <-]. constructor.
    + rewrite lookup_insert_ne by done. apply G.
  - eapply Forall_impl; [exact H|]. intros p. apply Hsrc.
Qed.

Lemma relay_inv_dial (k : bytes) (connected : bool) (s s' : UDP) :
  dial_end k connected s = Some s' -> relay_inv s -> relay_inv s'.
Proof.
  unfold dial_end. destruct (flights s !! k) as [w|] eqn:Ef; [|done]. intros H Hinv.
  destruct (inv_flights s Hinv k w Ef) as [_ Hw].
  apply (relay_inv_land k) in Hinv. destruct connected; [|by injection H as <-].
  destruct (relay_inv_session k (clock s) (set_flights (delete k (flights s)) s)) as [Hi Hsrc];
    [by apply lookup_delete_eq|done|].
  injection H as <-. apply relay_inv_ready; [|exact Hi].
  apply Forall_app. split; [exact (inv_ready _ Hi)|].
  apply Forall_fmap. eapply Forall_impl; [exact Hw|]. intros d Hd. exists k. split; [exact Hsrc|exact Hd].
Qed.

Lemma relay_inv_enter (src data : bytes) (s : UDP) : relay_inv s -> relay_inv (handle_enter src data s).
Proof.
  intros Hinv. apply (relay_inv_packet (src, data)) in Hinv. unfold handle_enter.
  set (s1 := add_packet (src, data) s) in *.
  assert (Hd : (src, data) ∈ packets s1) by (apply elem_of_app; right; by left).
  destruct (flights s1 !! src) as [w|] eqn:Ef.
  - destruct (inv_flights _ Hinv src w Ef) as [Hn Hw]. apply relay_inv_flight; [done| |done].
    apply Forall_app. by split; [|constructor].
  - destruct (conns s1 !! src) as [i|] eqn:Ec.
    + apply relay_inv_ready; [|done]. apply Forall_app. split; [exact (inv_ready _ Hinv)|].
      constructor; [|done]. exists src. split; [by apply (inv_conns _ Hinv)|done].
    + apply relay_inv_flight; [done| |done]. by constructor.
Qed.

Lemma relay_inv_handle_write (k : nat) (ok : bool) (s s' : UDP) :
  handle_write kind k ok s = Some s' -> relay_inv s -> relay_inv s'.
Proof.
  unfold handle_write. destruct (ready s !! k) as [[i d]|] eqn:Er; [|done].
  intros H Hinv. pose proof (inv_ready _ Hinv) as Hready.
  destruct (proj1 (Forall_lookup _ _) Hready _ _ Er) as (src & (it & Hit & Hsrc) & Hp). cbn in Hit, Hp.
  cbn [items set_ready] in H. rewrite Hit in H. injection H as <-.
  assert (H1 : relay_inv (upd_item (touch (clock s)) i (set_ready (delete k (ready s)) s))).
  { apply relay_inv_touch, relay_inv_ready; [|done].
    by apply Forall_delete. }
  destruct (wire kind (srcAddr it) d) as [b|] eqn:Ew; [|exact H1].
  destruct ok; [|exact H1].
  eapply (relay_inv_write i (touch (clock s) it) d b); [|cbn; by rewrite Hsrc|done|exact H1].
  cbn. by rewrite lookup_alter_eq, Hit.
Qed.

Lemma relay_inv_receive (i : nat) (r : received) (s s' : UDP) :
  receive kind i r s = Some s' -> relay_inv s -> relay_inv s'.
Proof.
  unfold receive. destruct (receivers s !! i) as [[]|] eqn:Er; try done.
  destruct (items s !! i) as [it|] eqn:Ei; [|done]. intros H Hinv. destruct r as [d w| |].
  - destruct (c_closed it); [done|]. pose proof (relay_inv_touch (clock s) i s Hinv) as H1.
    destruct w.
    + injection H as <-. destruct H1. split; try done. cbn. apply Forall_app. split; [done|].
      constructor; [|done]. apply source_upd; [done|]. by exists it.
    + injection H as <-. destruct kind; [exact H1|].
      apply (relay_inv_receiver i Removing (upd_item (touch (clock s)) i s)); [|exact H1].
      cbn. rewrite lookup_alter_eq, Ei. by eexists.
  - destruct kind; [by injection H as <-|done].
  - injection H as <-. apply relay_inv_receiver; [rewrite Ei; by eexists|done].
Qed.

Lemma relay_inv_Stop (s : UDP) : relay_inv s -> relay_inv (Stop s).
Proof.
  intros Hinv. unfold Stop.
  assert (G : relay_inv (foldr (fun kv s => upd_item close_item kv.2 s) s (map_to_list (conns s)))).
  { generalize (map_to_list (conns s)). intros l. induction l as [|p l IH]; [done|].
    by apply relay_inv_close. }
  destruct G. by split.
Qed.

Lemma relay_inv_step (e : event) (s s' : UDP) :
  step kind udpIdleTime e s = Some s' -> relay_inv s -> relay_inv s'.
Proof.
  intros H Hinv. destruct e; cbn in H.
  - injection H as <-. by apply relay_inv_enter.
  - by eapply relay_inv_dial.
  - by eapply relay_inv_handle_write.
  - by eapply relay_inv_receive.
  - unfold receiver_remove in H. destruct (receivers s !! i) as [[]|] eqn:Er; try done.
    destruct (items s !! i) as [it|] eqn:Ei; [|done]. injection H as <-.
    apply (relay_inv_receiver i Closing (set_conns (delete (srcAddr it) (conns s)) s)).
    + cbn. rewrite Ei. by eexists.
    + by apply relay_inv_drop_conn.
  - unfold receiver_close in H. destruct (receivers s !! i) as [[]|] eqn:Er; try done.
    injection H as <-. pose proof (relay_inv_close i s Hinv) as [A B C D E F G I].
    split; try done; cbn in *.
    + intros j r. rewrite lookup_delete_Some. intros [_ Hj]. by eapply E.
    + intros j it Hj Hc. destruct (decide (i = j)) as [->|Hn].
      * rewrite lookup_alter_eq in Hj. destruct (items s !! j); [|done]. injection Hj as <-. done.
      * rewrite lookup_delete_ne by done. by eapply F.
  - unfold watch_tick in H. destruct (stopped s), (snapshot s) eqn:Es, (removing s); try done.
    injection H as <-. destruct Hinv as [A B C D E F G I]. split; try done. cbn.
    apply Forall_forall. intros [k i] Hin. apply A. by apply elem_of_map_to_list in Hin.
  - unfold watch_item in H. destruct (snapshot s) as [|[k i] l] eqn:Es; [done|].
    destruct (removing s); [done|]. destruct (items s !! i) as [it|] eqn:Ei; [|done].
    assert (H1 : relay_inv (set_snapshot l (now_ s) s)).
    { destruct Hinv as [A B C D E F G I]. split; try done. cbn. rewrite Es in D.
      by apply Forall_cons in D as [_ D]. }
    destruct (udpIdleTime <? _); injection H as <-; [|done].
    apply (relay_inv_close i) in H1. destruct H1. by split.
  - unfold watch_remove in H. destruct (removing s) as [k|]; [|done]. injection H as <-.
    apply (relay_inv_drop_conn k) in Hinv. destruct Hinv. by split.
  - destruct (0 <=? d); [|done]. injection H as <-. destruct Hinv. by split.
  - destruct (stopped s); [done|]. injection H as <-. by apply relay_inv_Stop.
Qed.

Lemma run_inv (es : list event) (s s' : UDP) :
  run kind udpIdleTime es s = Some s' -> relay_inv s -> relay_inv s'.
Proof.
  revert s. induction es as [|e es IH]; intros s H Hi; [by injection H as <-|].
  cbn [run] in H. destruct (step kind udpIdleTime e s) as [s1|] eqn:E; [|done].
  eapply IH; [done|]. by eapply relay_inv_step.
Qed.

Lemma relay_reachable_inv (s : UDP) : reachable kind udpIdleTime s -> relay_inv s.
Proof. intros (t & es & H). eapply run_inv; [done|apply relay_inv_init]. Qed.
End Laws.

(** * Orphans *)

(** An open connection of source [k] with its receiver running that the table has
    lost, so that neither the collector nor [Stop] will close it *)
Definition alive (s : UDP) (i : nat) (k : bytes) : Prop :=
  exists it, items s !! i = Some it /\ srcAddr it = k /\ c_closed it = false.

Record orphan (s : UDP) (i : nat) (k : bytes) : Prop := {
  or_alive : alive s i k;
  or_receiving : receivers s !! i = Some Receiving;
  or_conns : forall k', conns s !! k' <> Some i;
  or_snapshot : Forall (fun p => p.2 <> i) (snapshot s);
}.

(** Events that do not end the receiver of [i] *)
Definition spares (i : nat) (e : event) : Prop :=
  match e with
  | EReceive j RError | EReceive j (RData _ false) => j <> i
  | _ => True
  end.

Lemma alive_upd (f : connItem -> connItem) (i j : nat) (k : bytes) (s : UDP) :
  (forall it, srcAddr (f it) = srcAddr it) ->
  i <> j \/ (forall it, c_closed (f it) = c_closed it) ->
  alive s i k -> alive (upd_item f j s) i k.
Proof.
  intros Hs Hc (it & Hi & Hk & Ho). unfold alive, upd_item. cbn.
  destruct (decide (j = i)) as [->|Hn].
  - exists (f it). rewrite lookup_alter_eq, Hi. destruct Hc as [?|Hc]; [done|].
    by rewrite Hs, Hc.
  - exists it. by rewrite lookup_alter_ne.
Qed.

Lemma orphan_upd (f : connItem -> connItem) (i j : nat) (k : bytes) (s : UDP) :
  (forall it, srcAddr (f it) = srcAddr it) ->
  i <> j \/ (forall it, c_closed (f it) = c_closed it) ->
  orphan s i k -> orphan (upd_item f j s) i k.
Proof. intros Hs Hc [A B C D]. split; try done. by apply alive_upd. Qed.

Lemma orphan_touch (t : Z) (i j : nat) (k : bytes) (s : UDP) :
  orphan s i k -> orphan (upd_item (touch t) j s) i k.
Proof. apply orphan_upd; [done|by right]. Qed.

Lemma orphan_receiver (i j : nat) (k : bytes) (r : receiver) (s : UDP) :
  i <> j -> orphan s i k -> orphan (set_receivers (<[j := r]> (receivers s)) s) i k.
Proof. intros Hn [A B C D]. split; try done. cbn. by rewrite lookup_insert_ne. Qed.

Lemma orphan_drop_conn (i : nat) (k k' : bytes) (s : UDP) :
  orphan s i k -> orphan (set_conns (delete k' (conns s)) s) i k.
Proof.
  intros [A B C D]. split; try done. cbn. intros k2 [_ Hk]%lookup_delete_Some. by apply (C k2).
Qed.

Lemma orphan_dial (kind : parent) (src : bytes) (b : bool) (i : nat) (k : bytes) (s s' : UDP) :
  dial_end src b s = Some s' -> orphan s i k -> orphan s' i k.
Proof.
  unfold dial_end. destruct (flights s !! src) as [w|]; [|done]. intros H [A B C D].
  destruct b; injection H as <-; [|by split].
  assert (Hn : next (set_flights (delete src (flights s)) s) <> i).
  { intros E. destruct A as (it & Hi & _). rewrite <- E in Hi.
    by rewrite (next_fresh (set_flights (delete src (flights s)) s)) in Hi. }
  split; cbn; try done.
  - destruct A as (it & Hi & ?). exists it. cbn. by rewrite lookup_insert_ne.
  - by rewrite lookup_insert_ne.
  - intros k'. destruct (decide (src = k')) as [->|Hk].
    + rewrite lookup_insert_eq. by intros [= E].
    + rewrite lookup_insert_ne by done. apply C.
Qed.

Lemma orphan_Stop (i : nat) (k : bytes) (s : UDP) : orphan s i k -> orphan (Stop s) i k.
Proof.
  intros Ho. unfold Stop.
  assert (G : Forall (fun p => p.2 <> i) (map_to_list (conns s))).
  { apply Forall_forall. intros [k' j] Hin; cbn; intros ->. apply elem_of_map_to_list in Hin.
    by apply (or_conns _ _ _ Ho k'). }
  assert (G' : orphan (foldr (fun kv s => upd_item close_item kv.2 s) s (map_to_list (conns s))) i k).
  { induction G as [|p l Hp Hl IH]; [done|]. cbn. apply orphan_upd; [done|by left|done]. }
  destruct G'. by split.
Qed.

Lemma orphan_step (kind : parent) (idle : Z) (i : nat) (k : bytes) (e : event) (s s' : UDP) :
  spares i e -> step kind idle e s = Some s' -> orphan s i k -> orphan s' i k.
Proof.
  intros He H Ho. destruct e; cbn in H.
  - injection H as <-. unfold handle_enter. cbn. destruct Ho as [A B C D].
    repeat case_match; by split.
  - by eapply orphan_dial.
  - unfold handle_write in H. destruct (ready s !! k0) as [[j d]|]; [|done].
    cbn in H. destruct (items s !! j) as [it|]; [|done]. injection H as <-.
    assert (H1 : orphan (upd_item (touch (clock s)) j (set_ready (delete k0 (ready s)) s)) i k)
      by (apply orphan_touch; destruct Ho; by split).
    destruct (wire _ _ _), ok; try exact H1. apply orphan_upd; [| |exact H1].
    + intros it0. unfold write_item. by destruct (c_closed it0).
    + right. intros it0. unfold write_item. destruct (c_closed it0) eqn:E; by rewrite ?E.
  - unfold receive in H. destruct (receivers s !! i0) as [[]|] eqn:Er; try done.
    destruct (items s !! i0) as [it|]; [|done]. destruct r as [d [|]| |].
    + destruct (c_closed it); [done|]. injection H as <-.
      pose proof (orphan_touch (clock s) i i0 k s Ho) as []. by split.
    + destruct (c_closed it); [done|]. injection H as <-. cbn in He.
      destruct kind; [by apply orphan_touch|].
      apply (orphan_receiver i i0 k Removing (upd_item (touch (clock s)) i0 s)); [congruence|].
      by apply orphan_touch.
    + destruct kind; [by injection H as <-|done].
    + injection H as <-. apply orphan_receiver; [cbn in He; congruence|done].
  - unfold receiver_remove in H. destruct (receivers s !! i0) as [[]|] eqn:Er; try done.
    destruct (items s !! i0) as [it|]; [|done]. injection H as <-.
    apply (orphan_receiver i i0 k Closing (set_conns (delete (srcAddr it) (conns s)) s)).
    + intros ->. by rewrite (or_receiving _ _ _ Ho) in Er.
    + by apply orphan_drop_conn.
  - unfold receiver_close in H. destruct (receivers s !! i0) as [[]|] eqn:Er; try done.
    injection H as <-. assert (Hn : i <> i0) by (intros ->; by rewrite (or_receiving _ _ _ Ho) in Er).
    pose proof (orphan_upd close_item i i0 k s (fun _ => eq_refl) (or_introl Hn) Ho) as [A B C D].
    split; try done. cbn. by rewrite lookup_delete_ne.
  - unfold watch_tick in H. destruct (stopped s), (snapshot s), (removing s); try done.
    injection H as <-. pose proof Ho as [A B C D]. split; try done. cbn.
    apply Forall_forall. intros [k' j] Hin; cbn; intros ->. apply elem_of_map_to_list in Hin. by apply (C k').
  - unfold watch_item in H. destruct (snapshot s) as [|[k' j] l] eqn:Es; [done|].
    destruct (removing s); [done|]. destruct (items s !! j) as [it|]; [|done].
    pose proof (or_snapshot _ _ _ Ho) as Hs. rewrite Es in Hs. apply Forall_cons in Hs as [Hj Hl].
    assert (H1 : orphan (set_snapshot l (now_ s) s) i k) by (destruct Ho; by split).
    destruct (idle <? _); injection H as <-; [|done].
    pose proof (orphan_upd close_item i j k _ (fun _ => eq_refl) (or_introl (not_eq_sym Hj)) H1) as [A B C D].
    by split.
  - unfold watch_remove in H. destruct (removing s) as [k'|]; [|done]. injection H as <-.
    apply (orphan_drop_conn i k k') in Ho. destruct Ho. by split.
  - destruct (0 <=? d); [|done]. injection H as <-. destruct Ho. by split.
  - destruct (stopped s); [done|]. injection H as <-. by apply orphan_Stop.
Qed.

Lemma orphan_run (kind : parent) (idle : Z) (i : nat) (k : bytes) (es : list event) (s s' : UDP) :
  Forall (spares i) es -> run kind idle es s = Some s' -> orphan s i k -> orphan s' i k.
Proof.
  intros He. revert s. induction He as [|e es He Hes IH]; intros s H Ho; [by injection H as <-|].
  cbn [run] in H. destruct (step kind idle e s) as [s1|] eqn:E; [|done].
  eapply IH; [done|]. by eapply orphan_step.
Qed.

(** * A pass of the collector *)
Section Pass.
Context (kind : parent) (idle : Z).

(** Whether a session is idle for the current tick *)
Definition idleb (s : UDP) (i : nat) : bool :=
  match items s !! i with
  | Some it => idle <? now_ s - lastActiveTime it
  | None => false
  end.

Definition is_watch (e : event) : Prop := e = EItem \/ e = EWatchRemove.

Definition hit_key (s : UDP) (k : bytes) (p : bytes * nat) : bool := bool_decide (p.1 = k) && idleb s p.2.
Definition hit_session (s : UDP) (j : nat) (p : bytes * nat) : bool := bool_decide (p.2 = j) && idleb s p.2.

Lemma idleb_close (s : UDP) (i j : nat) : idleb (upd_item close_item i s) j = idleb s j.
Proof.
  unfold idleb. cbn. destruct (decide (i = j)) as [->|Hn].
  - rewrite lookup_alter_eq. by destruct (items s !! j).
  - by rewrite lookup_alter_ne.
Qed.

Lemma existsb_ext {A} (f g : A -> bool) (l : list A) :
  (forall x, f x = g x) -> existsb f l = existsb g l.
Proof. intros H. induction l as [|x l IH]; [done|]. cbn. by rewrite H, IH. Qed.

(** The loop over a snapshot, undisturbed *)
Lemma watch_loop (l : list (bytes * nat)) (s : UDP) :
  snapshot s = l -> removing s = None -> Forall (fun p => is_Some (items s !! p.2)) l ->
  exists es s', run kind idle es s = Some s' /\ Forall is_watch es /\
    snapshot s' = [] /\ removing s' = None /\
    (forall k, conns s' !! k = if existsb (hit_key s k) l then None else conns s !! k) /\
    (forall j, items s' !! j =
       if existsb (hit_session s j) l then close_item <$> items s !! j else items s !! j).
Proof.
  revert s. induction l as [|[k i] l IH]; intros s Hs Hr Hl.
  { exists [], s. by split_and!. }
  apply Forall_cons in Hl as [[it Hi] Hl]. cbn in Hi.
  assert (E : step kind idle EItem s = Some (if idleb s i
    then set_removing (Some k) (upd_item close_item i (set_snapshot l (now_ s) s))
    else set_snapshot l (now_ s) s)).
  { unfold step, watch_item, idleb. rewrite Hs, Hr, Hi. by destruct (idle <? _). }
  destruct (idleb s i) eqn:Ei.
  - set (s1 := set_removing None (set_conns (delete k (conns s))
      (upd_item close_item i (set_snapshot l (now_ s) s)))).
    destruct (IH s1) as (es & s' & H1 & H2 & H3 & H4 & H5 & H6); [done|done| |].
    { eapply Forall_impl; [exact Hl|]. intros p [it' Hp]. cbn.
      destruct (decide (i = p.2)) as [->|Hn];
        [rewrite lookup_alter_eq, Hp|rewrite lookup_alter_ne by done; rewrite Hp]; by eexists. }
    assert (Hid : forall j, idleb s1 j = idleb s j) by (intros j; apply (idleb_close s i j)).
    exists (EItem :: EWatchRemove :: es), s'. split_and!; [|constructor; [by left|constructor; [by right|done]]|done|done| |].
    + cbn [run]. rewrite E. exact H1.
    + intros k'. rewrite H5. cbn [existsb]. unfold hit_key at 2. cbn [fst snd]. rewrite Ei, andb_true_r.
      rewrite (existsb_ext (hit_key s1 k') (hit_key s k')) by (intros p; unfold hit_key; by rewrite Hid).
      cbn. case_bool_decide as Hk; cbn [orb]; [subst k'|by rewrite lookup_delete_ne].
      rewrite lookup_delete_eq. by destruct (existsb _ l).
    + intros j. rewrite H6. cbn [existsb]. unfold hit_session at 2. cbn [fst snd]. rewrite Ei, andb_true_r.
      rewrite (existsb_ext (hit_session s1 j) (hit_session s j)) by (intros p; unfold hit_session; by rewrite Hid).
      cbn. case_bool_decide as Hk; cbn [orb]; [subst j|by rewrite lookup_alter_ne].
      rewrite lookup_alter_eq, Hi. by destruct (existsb _ l).
  - destruct (IH (set_snapshot l (now_ s) s)) as (es & s' & H1 & H2 & H3 & H4 & H5 & H6); [done..|].
    exists (EItem :: es), s'. split_and!; [|constructor; [by left|done]|done|done| |].
    + cbn [run]. rewrite E. exact H1.
    + intros k'. rewrite H5. cbn [existsb]. unfold hit_key at 2. cbn [fst snd]. by rewrite Ei, andb_false_r.
    + intros j. rewrite H6. cbn [existsb]. unfold hit_session at 2. cbn [fst snd]. by rewrite Ei, andb_false_r.
Qed.
End Pass.

Lemma hit_key_table (idle : Z) (s : UDP) (m : gmap bytes nat) (k : bytes) :
  existsb (hit_key idle s k) (map_to_list m) =
    match m !! k with Some i => idleb idle s i | None => false end.
Proof.
  apply eq_true_iff_eq. rewrite existsb_exists. unfold hit_key. split.
  - intros ([k' i] & Hin & Hp). apply andb_true_iff in Hp as [Hk Hi].
    apply bool_decide_eq_true in Hk. cbn in Hk, Hi. subst k'.
    apply list_elem_of_In, elem_of_map_to_list in Hin. by rewrite Hin.
  - destruct (m !! k) as [i|] eqn:E; [|done]. intros Hi. exists (k, i). split.
    + by apply list_elem_of_In, elem_of_map_to_list.
    + cbn. by rewrite bool_decide_true.
Qed.

Lemma hit_session_table (idle : Z) (s : UDP) (m : gmap bytes nat) (k : bytes) (i : nat) :
  m !! k = Some i -> existsb (hit_session idle s i) (map_to_list m) = idleb idle s i.
Proof.
  intros Hk. apply eq_true_iff_eq. rewrite existsb_exists. unfold hit_session. split.
  - intros ([k' j] & Hin & Hp). apply andb_true_iff in Hp as [Hj Hi].
    apply bool_decide_eq_true in Hj. cbn in Hj, Hi. by subst j.
  - intros Hi. exists (k, i). split.
    + by apply list_elem_of_In, elem_of_map_to_list.
    + cbn. by rewrite bool_decide_true.
Qed.

(** * What a stream parent reads *)

Fixpoint parse_all (n : nat) : io reader (list Datagram) :=
  match n with
  | O => mret []
  | S n => d ← ParseStreamDatagram; ds ← parse_all n; mret (d :: ds)
  end.

Lemma wire_stream (src d b : bytes) (a : AddrSpec) :
  ParseAddrSpec src = Ok a -> wf_addr a -> len d <= 2097151 -> wire Stream src d = Some b ->
  reads ParseStreamDatagram b (mkDatagram zero a d).
Proof.
  intros Ha Hw Hd. unfold wire. rewrite Ha. cbn [mbind outcome_bind].
  destruct (reads_StreamDatagram (mkStreamDatagram zero a d) Hw Hd) as (bs & Hb & Hr).
  unfold StreamDatagram_Bytes, StreamDatagram_Header, StreamDatagram_values in *.
  destruct (addr_bytes _) as [ab|]; [|done]. destruct (DataLen _) as [[ds n]| |]; [|done..].
  cbn in Hb |- *. injection Hb as <-. by intros [= <-].
Qed.

Lemma reads_parse_all (src : bytes) (a : AddrSpec) (bs ds : list bytes) :
  ParseAddrSpec src = Ok a -> wf_addr a -> Forall (fun d => len d <= 2097151) ds ->
  Forall2 (fun b d => wire Stream src d = Some b) bs ds ->
  reads (parse_all (length ds)) (concat bs) (map (mkDatagram zero a) ds).
Proof.
  intros Ha Hw Hl Hf. induction Hf as [|b d bs ds Hb Hf IH]; [apply reads_ret|].
  apply Forall_cons in Hl as [Hd Hl]. cbn [concat length parse_all map].
  eapply reads_bind; [by eapply wire_stream|].
  eapply reads_bind_nil; [by apply IH|]. apply reads_ret.
Qed.

(** ** Nothing is lost *)

Lemma perm_eq {A} (l l' : list A) : l = l' -> l ≡ₚ l'.
Proof. by intros ->. Qed.

Lemma flying_delete (m : gmap bytes (list bytes)) (k : bytes) (w : list bytes) :
  m !! k = Some w -> flying m ≡ₚ map (pair k) w ++ flying (delete k m).
Proof. intros H. unfold flying. by rewrite <- (map_to_list_delete m k w H). Qed.

Lemma flying_insert (m : gmap bytes (list bytes)) (k : bytes) (w : list bytes) :
  m !! k = None -> flying (<[k := w]> m) ≡ₚ map (pair k) w ++ flying m.
Proof. intros H. unfold flying. by rewrite (map_to_list_insert m k w H). Qed.

Lemma flying_join (m : gmap bytes (list bytes)) (k d : bytes) (w : list bytes) :
  m !! k = Some w -> flying (<[k := w ++ [d]]> m) ≡ₚ flying m ++ [(k, d)].
Proof.
  intros H. rewrite <- insert_delete_eq, flying_insert by apply lookup_delete_eq.
  rewrite (flying_delete m k w H), map_app. cbn. rewrite <- !app_assoc. f_equiv. apply Permutation_app_comm.
Qed.

(** The log [l] accounts for the packets, and for what every connection carried. *)
Record accounts (kind : parent) (l : list (bytes * bytes * option nat)) (s : UDP) : Prop := {
  ac_packets : packets s ≡ₚ map fst l ++ awaiting s;
  ac_sent : forall i it, items s !! i = Some it -> c_sent it = omap (wire kind (srcAddr it)) (carried i l);
  ac_new : forall i, items s !! i = None -> carried i l = [];
}.

(** Steps that neither take nor deal with a packet *)
Record still (s s' : UDP) : Prop := {
  st_packets : packets s' = packets s;
  st_ready : ready s' = ready s;
  st_flights : flights s' = flights s;
  st_items : forall i, (fun it => (srcAddr it, c_sent it)) <$> items s' !! i = (fun it => (srcAddr it, c_sent it)) <$> items s !! i;
}.

Lemma still_src (s s' : UDP) (i : nat) :
  (fun it => (srcAddr it, c_sent it)) <$> items s' !! i = (fun it => (srcAddr it, c_sent it)) <$> items s !! i ->
  src_at s' i = src_at s i.
Proof. unfold src_at. destruct (items s' !! i), (items s !! i); cbn; by intros [=]. Qed.

Lemma accounts_still (kind : parent) (l : list (bytes * bytes * option nat)) (s s' : UDP) :
  still s s' -> accounts kind l s -> accounts kind l s'.
Proof.
  intros [A B C D] [E F G]. split.
  - rewrite A. unfold awaiting. rewrite B, C, E. unfold awaiting. f_equiv. f_equiv. apply perm_eq.
    apply map_ext. intros p. by rewrite (still_src _ _ _ (D p.1)).
  - intros i it Hi. specialize (D i). rewrite Hi in D. destruct (items s !! i) as [it0|] eqn:E0; [|done].
    injection D as -> ->. by apply F.
  - intros i Hi. apply G. specialize (D i). rewrite Hi in D. by destruct (items s !! i).
Qed.

Lemma still_refl (s : UDP) : still s s.
Proof. by split. Qed.
Lemma still_trans (s1 s2 s3 : UDP) : still s1 s2 -> still s2 s3 -> still s1 s3.
Proof. intros [A1 B1 C1 D1] [A2 B2 C2 D2]. split; [congruence..|]. intros i. by rewrite D2, D1. Qed.

Lemma still_upd (f : connItem -> connItem) (i : nat) (s : UDP) :
  (forall it, srcAddr (f it) = srcAddr it /\ c_sent (f it) = c_sent it) -> still s (upd_item f i s).
Proof.
  intros Hf. split; [done..|]. intros j. cbn. destruct (decide (i = j)) as [->|Hn];
    [rewrite lookup_alter_eq|by rewrite lookup_alter_ne].
  destruct (items s !! j) as [it|]; [|done]. cbn. by destruct (Hf it) as [-> ->].
Qed.
#[local] Hint Resolve still_refl : core.

Lemma still_close_all (l : list (bytes * nat)) (s : UDP) :
  still s (foldr (fun kv s => upd_item close_item kv.2 s) s l).
Proof. induction l as [|p l IH]; [done|]. eapply still_trans; [exact IH|by apply still_upd]. Qed.

Lemma still_step (kind : parent) (idle : Z) (e : event) (s s' : UDP) :
  match e with EPacket _ _ | EDial _ _ | EWrite _ _ => False | _ => True end ->
  step kind idle e s = Some s' -> still s s'.
Proof.
  destruct e as [| | |i r|i|i| | | |d|]; try done; intros _ H; cbn [step] in H.
  - unfold receive in H. destruct (receivers s !! i) as [[]|]; try done. destruct (items s !! i) as [it|]; [|done].
    destruct r as [d w| |].
    + destruct (c_closed it); [done|]. pose proof (still_upd (touch (clock s)) i s ltac:(done)) as [A B C D].
      destruct w; [by injection H as <-|]. destruct kind; injection H as <-; by split.
    + destruct kind; [by injection H as <-|done].
    + by injection H as <-.
  - unfold receiver_remove in H. destruct (receivers s !! i) as [[]|]; try done.
    destruct (items s !! i); [|done]. by injection H as <-.
  - unfold receiver_close in H. destruct (receivers s !! i) as [[]|]; try done. injection H as <-.
    destruct (still_upd close_item i s ltac:(done)). by split.
  - unfold watch_tick in H. destruct (stopped s), (snapshot s), (removing s); try done. by injection H as <-.
  - unfold watch_item in H. destruct (snapshot s) as [|[k i] l]; [done|]. destruct (removing s); [done|].
    destruct (items s !! i) as [it|]; [|done]. destruct (idle <? _); injection H as <-; [|done].
    destruct (still_upd close_item i (set_snapshot l (now_ s) s) ltac:(done)). by split.
  - unfold watch_remove in H. destruct (removing s); [|done]. by injection H as <-.
  - destruct (0 <=? d); [|done]. by injection H as <-.
  - destruct (stopped s); [done|]. injection H as <-. destruct (still_close_all (map_to_list (conns s)) s). by split.
Qed.

Lemma accounts_enter (kind : parent) (l : list (bytes * bytes * option nat)) (src d : bytes) (s : UDP) :
  relay_inv kind s -> accounts kind l s -> accounts kind l (handle_enter src d s).
Proof.
  intros Hi [A B C]. unfold handle_enter. destruct (flights (add_packet (src, d) s) !! src) as [w|] eqn:Ef.
  - split; [|done..]. cbn [packets set_flights add_packet]. unfold awaiting. cbn [ready flights set_flights add_packet].
    rewrite (flying_join _ _ d w Ef), A. unfold awaiting. by rewrite <- !app_assoc.
  - cbn [conns add_packet]. destruct (conns s !! src) as [i|] eqn:Ec.
    + split; [|done..]. cbn. unfold awaiting. cbn. rewrite map_app. cbn.
      destruct (inv_conns _ _ Hi _ _ Ec) as (it & Hit & Hs). unfold src_at at 2. cbn. rewrite Hit. cbn. rewrite Hs, A.
      unfold awaiting. rewrite <- !app_assoc. f_equiv. f_equiv; [done|apply Permutation_app_comm].
    + split; [|done..]. cbn [packets set_flights add_packet]. unfold awaiting. cbn [ready flights set_flights add_packet].
      rewrite (flying_insert _ _ [d] Ef), A. unfold awaiting. cbn. rewrite <- !app_assoc. f_equiv.
      f_equiv; [done|]. symmetry. apply Permutation_cons_append.
Qed.

Lemma carried_app (i : nat) (l l' : list (bytes * bytes * option nat)) : carried i (l ++ l') = carried i l ++ carried i l'.
Proof. apply omap_app. Qed.
Lemma carried_dropped (i : nat) (src : bytes) (w : list bytes) : carried i (map (fun d => (src, d, None)) w) = [].
Proof. by induction w. Qed.

Lemma accounts_dial (kind : parent) (l : list (bytes * bytes * option nat)) (src : bytes) (ok : bool) (s s' : UDP) :
  relay_inv kind s -> dial_end src ok s = Some s' -> accounts kind l s ->
  accounts kind (l ++ step_fates (EDial src ok) s) s'.
Proof.
  intros Hi H [A B C]. unfold dial_end in H. destruct (flights s !! src) as [w|] eqn:Ef; [|done].
  pose proof (flying_delete _ _ _ Ef) as Hp. destruct ok; injection H as <-; cbn [step_fates].
  - rewrite app_nil_r. set (s0 := set_flights _ s).
    assert (Hn : items s !! next s0 = None) by exact (next_fresh s0).
    split; unfold awaiting; cbn [packets ready flights items set_ready set_receivers set_conns set_item set_items set_flights s0].
    + rewrite A. unfold awaiting. f_equiv. rewrite Hp, map_app, <- app_assoc. apply perm_eq. f_equal.
      * apply map_ext_in. intros [i d] Hin%list_elem_of_In. cbn.
        destruct (proj1 (Forall_forall _ _) (inv_ready _ _ Hi) _ Hin) as (k & (it & Hit & _) & _). cbn in Hit.
        unfold src_at. cbn. rewrite lookup_insert_ne; [done|]. intros <-. by rewrite Hn in Hit.
      * f_equal. rewrite map_map. apply map_ext. intros d. cbn. unfold src_at. cbn. by rewrite lookup_insert_eq.
    + intros i it. destruct (decide (next s0 = i)) as [<-|Hne];
        [rewrite lookup_insert_eq|rewrite lookup_insert_ne by done; apply B].
      intros [= <-]. by rewrite (C _ Hn).
    + intros i Hit. apply C. destruct (decide (next s0 = i)) as [<-|Hne]; [done|].
      by rewrite lookup_insert_ne in Hit.
  - rewrite Ef. cbn [default]. split; cbn [items set_flights].
    + cbn [packets set_flights]. rewrite A, map_app, map_map. unfold awaiting. cbn. rewrite Hp, <- app_assoc. f_equiv.
      rewrite !app_assoc. f_equiv. apply Permutation_app_comm.
    + intros i it Hit. rewrite carried_app, carried_dropped, app_nil_r. by apply B.
    + intros i Hit. rewrite carried_app, carried_dropped, app_nil_r. by apply C.
Qed.

Lemma accounts_write (kind : parent) (l : list (bytes * bytes * option nat)) (k : nat) (ok : bool) (s s' : UDP) :
  handle_write kind k ok s = Some s' -> accounts kind l s -> accounts kind (l ++ step_fates (EWrite k ok) s) s'.
Proof.
  intros H [A B C]. unfold handle_write in H. cbn [step_fates].
  destruct (ready s !! k) as [[i d]|] eqn:Er; [|done]. cbn [items set_ready] in H.
  destruct (items s !! i) as [it|] eqn:Ei; [|done]. injection H as <-.
  set (s' := match wire kind _ d with Some _ => _ | None => _ end).
  set (b := match wire kind (srcAddr it) d with Some b => if c_closed it || negb ok then [] else [b] | None => [] end).
  assert (Hs : packets s' = packets s /\ ready s' = delete k (ready s) /\ flights s' = flights s /\
    items s' !! i = Some (mkItem (srcAddr it) (clock s) (c_closed it) (c_sent it ++ b)) /\
    forall j, j <> i -> items s' !! j = items s !! j).
  { unfold s', b. destruct (wire kind (srcAddr it) d) as [m|]; [destruct ok|]; cbn [negb]; rewrite ?orb_true_r, ?orb_false_r;
      cbn; (split_and!; [done..| |intros j Hj; by rewrite ?lookup_alter_ne by done]);
      rewrite ?lookup_alter_eq, Ei; cbn; unfold write_item, touch; cbn; by destruct (c_closed it); rewrite ?app_nil_r. }
  destruct Hs as (P1 & P2 & P3 & P4 & P5). clearbody s'.
  assert (Hsrc : forall j, src_at s' j = src_at s j).
  { intros j. unfold src_at. destruct (decide (j = i)) as [->|Hn]; [by rewrite P4, Ei|by rewrite P5]. }
  split.
  - rewrite P1, A. unfold awaiting. rewrite P2, P3, map_app. cbn [map fst].
    rewrite (delete_Permutation (ready s) k (i, d) Er) at 1. cbn [map fst snd].
    rewrite (map_ext (fun p => (src_at s' p.1, p.2)) (fun p => (src_at s p.1, p.2))) by (intros p; by rewrite Hsrc).
    unfold src_at at 1. rewrite Ei. cbn. by rewrite <- !app_assoc.
  - intros j jt Hj. rewrite carried_app. destruct (decide (j = i)) as [->|Hn].
    + rewrite P4 in Hj. injection Hj as <-. cbn [srcAddr c_sent]. rewrite omap_app, <- (B i it Ei). f_equal.
      unfold b, carried. cbn. destruct (c_closed it || negb ok); cbn; [by destruct (wire _ _ _)|].
      rewrite bool_decide_true by done. cbn. by destruct (wire _ _ _).
    + rewrite P5 in Hj by done. rewrite (B j jt Hj). f_equal. unfold carried. cbn.
      rewrite bool_decide_false; [by rewrite app_nil_r|]. destruct (c_closed it || negb ok); [done|]. by intros [= ->].
  - intros j Hj. rewrite carried_app. assert (Hn : j <> i) by (intros ->; by rewrite P4 in Hj).
    rewrite P5 in Hj by done. rewrite (C j Hj). unfold carried. cbn.
    rewrite bool_decide_false; [done|]. destruct (c_closed it || negb ok); [done|]. by intros [= ->].
Qed.

Lemma accounts_step (kind : parent) (idle : Z) (l : list (bytes * bytes * option nat)) (e : event) (s s' : UDP) :
  relay_inv kind s -> step kind idle e s = Some s' -> accounts kind l s -> accounts kind (l ++ step_fates e s) s'.
Proof.
  intros Hi H Ha. destruct e as [src d|src ok|k ok| | | | | | | |];
    try (cbn [step_fates]; rewrite app_nil_r; refine (accounts_still _ _ _ _ (still_step _ _ _ _ _ _ H) Ha); exact I).
  - cbn in H. injection H as <-. rewrite app_nil_r. by apply accounts_enter.
  - by apply accounts_dial.
  - by apply accounts_write.
Qed.

Lemma accounts_run (kind : parent) (idle : Z) (l : list (bytes * bytes * option nat)) (es : list event) (s s' : UDP) :
  relay_inv kind s -> run kind idle es s = Some s' -> accounts kind l s -> accounts kind (l ++ fates kind idle es s) s'.
Proof.
  revert l s. induction es as [|e es IH]; intros l s Hi H Ha.
  { injection H as <-. cbn. by rewrite app_nil_r. }
  cbn [run fates] in *. destruct (step kind idle e s) as [s1|] eqn:E; [|done]. rewrite app_assoc.
  apply IH; [by eapply relay_inv_step|done|by eapply accounts_step].
Qed.

Lemma accounts_init (kind : parent) (t : Z) : accounts kind [] (UDP_init t).
Proof. by split. Qed.

(** The parent encodes every packet of a source that parses. *)
Lemma wire_total (src d : bytes) (a : AddrSpec) :
  ParseAddrSpec src = Ok a -> wf_addr a -> len d <= 2097151 -> exists b, wire Stream src d = Some b.
Proof.
  intros Ha Hw Hd. unfold wire. rewrite Ha. cbn [mbind outcome_bind].
  destruct (reads_StreamDatagram (mkStreamDatagram zero a d) Hw Hd) as (bs & Hb & _).
  unfold StreamDatagram_Bytes, StreamDatagram_Header, StreamDatagram_values in *.
  destruct (addr_bytes _) as [ab|]; [|done]. destruct (DataLen _) as [[ds n]| |]; [|done..]. cbn. by eexists.
Qed.

Lemma omap_total {A B} (f : A -> option B) (l : list A) :
  Forall (fun x => exists y, f x = Some y) l -> Forall2 (fun y x => f x = Some y) (omap f l) l.
Proof. induction 1 as [|x l [y Hy] Hl IH]; [constructor|]. cbn. rewrite Hy. by constructor. Qed.

Lemma wires_total (src : bytes) (a : AddrSpec) (ds : list bytes) :
  ParseAddrSpec src = Ok a -> wf_addr a -> Forall (fun d => len d <= 2097151) ds ->
  Forall2 (fun b d => wire Stream src d = Some b) (omap (wire Stream src) ds) ds.
Proof.
  intros Ha Hw Hl. apply omap_total. eapply Forall_impl; [exact Hl|]. intros d Hd. by eapply wire_total.
Qed.

Lemma carried_in (i : nat) (d : bytes) (l : list (bytes * bytes * option nat)) :
  d ∈ carried i l -> exists k, (k, d, Some i) ∈ l.
Proof.
  intros ([[k d'] o] & Hin & H)%list_elem_of_omap. cbn in H. case_bool_decide as Ho; [|done]. injection H as ->.
  cbn in Ho. subst o. by exists k.
Qed.

(** * Properties *)

(** C12: the UDP relay never mixes its sources up.  In every state the service
    can reach: a session in the table is the one dialed for its source; while a
    dial for a source is in flight the table has no session for it, so a dial
    never replaces one; every handler about to write has a session of its
    packet's source; everything written to a session encodes a packet of its
    source; every datagram sent to an address was read from a session of that
    address; and every open connection has a receiver that will close it. *)
Theorem relay_sound (kind : parent) (idle : Z) (s : UDP) :
  reachable kind idle s ->
  (forall k i, conns s !! k = Some i -> source_of s i k) /\
  (forall k w, flights s !! k = Some w -> conns s !! k = None) /\
  (forall i d, (i, d) ∈ ready s -> exists k, source_of s i k /\ (k, d) ∈ packets s) /\
  (forall i it b, items s !! i = Some it -> b ∈ c_sent it ->
     exists d, (srcAddr it, d) ∈ packets s /\ wire kind (srcAddr it) d = Some b) /\
  (forall i a d, (i, a, d) ∈ outbox s -> source_of s i a) /\
  (forall i it, items s !! i = Some it -> c_closed it = false -> is_Some (receivers s !! i)).
Proof.
  intros Hr. apply relay_reachable_inv in Hr as [A B C D E F G H]. split_and!.
  - exact A.
  - intros k w Hk. by apply (B k w).
  - intros i d Hin. by apply (proj1 (Forall_forall _ _) C (i, d)).
  - intros i it b Hi Hb. by apply (proj1 (Forall_forall _ _) (G i it Hi) b).
  - intros i a d Hin. by apply (proj1 (Forall_forall _ _) H (i, a, d)).
  - exact F.
Qed.

(** C13: a stream parent reads exactly the packets of the source.  Every packet
    that was handled is accounted for once: it went out on a connection, was dropped
    with a connection that was closed, a write that failed or a dial that failed, or
    its handler has not come to its write yet.  And what was written to a connection
    for a source that parses is, however it is cut, read by the parent's parser as
    exactly the packets that went out on it, each with the source's address, in the
    order of their writes. *)
Theorem stream_parent_reads (idle t : Z) (es : list event) (s : UDP) :
  run Stream idle es (UDP_init t) = Some s ->
  packets s ≡ₚ map fst (fates Stream idle es (UDP_init t)) ++ awaiting s /\
  forall i it a, items s !! i = Some it -> ParseAddrSpec (srcAddr it) = Ok a -> wf_addr a ->
    Forall (fun p => len p.2 <= 2097151) (packets s) ->
    let ds := carried i (fates Stream idle es (UDP_init t)) in
    reads (parse_all (length ds)) (concat (c_sent it)) (map (mkDatagram zero a) ds).
Proof.
  intros H. destruct (accounts_run Stream idle [] es _ _ (relay_inv_init Stream t) H (accounts_init Stream t)) as [A B _].
  split; [exact A|]. intros i it a Hi Ha Hw Hl ds. rewrite (B i it Hi). cbn [app].
  assert (Hd : Forall (fun d => len d <= 2097151) ds).
  { apply Forall_forall. intros d [k Hk]%carried_in. apply (proj1 (Forall_forall _ _) Hl (k, d)). rewrite A.
    apply elem_of_app. left. by apply (list_elem_of_fmap_2 fst _ (k, d, Some i)). }
  eapply reads_parse_all; [exact Ha|exact Hw|exact Hd|]. by eapply wires_total.
Qed.

(** An undisturbed pass of the collector closes and forgets exactly the
    idle sessions.  From a reachable state in which the collector waits for its
    tick, the tick and the loop over the table end in a state where the table
    holds the sessions that were active within the idle time, and those
    connections that were not are closed. *)
Theorem watch_collects (kind : parent) (idle : Z) (s : UDP) :
  reachable kind idle s -> stopped s = false -> snapshot s = [] -> removing s = None ->
  exists es s', Forall is_watch es /\ run kind idle (ETick :: es) s = Some s' /\
    snapshot s' = [] /\ removing s' = None /\
    forall k i, conns s !! k = Some i -> exists it, items s !! i = Some it /\
      if idle <? clock s - lastActiveTime it
      then conns s' !! k = None /\ items s' !! i = Some (close_item it)
      else conns s' !! k = Some i /\ items s' !! i = Some it.
Proof.
  intros Hr Hst Hsn Hrm. apply relay_reachable_inv in Hr.
  set (s1 := set_snapshot (map_to_list (conns s)) (clock s) s).
  destruct (watch_loop kind idle (map_to_list (conns s)) s1)
    as (es & s' & H1 & H2 & H3 & H4 & H5 & H6); [done|done| |].
  { apply Forall_forall. intros [k i] Hin%elem_of_map_to_list.
    apply (inv_conns _ _ Hr) in Hin as (it & Hi & _). by eexists. }
  exists es, s'. split_and!; [done| |done|done|].
  - cbn [run step]. unfold watch_tick. by rewrite Hst, Hsn, Hrm.
  - intros k i Hk. destruct (inv_conns _ _ Hr k i Hk) as (it & Hi & _). exists it. split; [done|].
    rewrite H5, H6, hit_key_table, Hk. erewrite hit_session_table by exact Hk.
    unfold idleb. cbn. rewrite Hi. by destruct (idle <? _).
Qed.

Definition source0 : bytes := lit "10.0.0.1:5000".

(** Two packets of one source with an idle period between them, and the first
    connection's receiver noticing its end only after the second dial *)
Definition race : list event :=
  [EPacket source0 (lit "a"); EDial source0 true; EWrite 0 true; EClock 11; ETick; EItem; EWatchRemove;
   EPacket source0 (lit "b"); EDial source0 true; EWrite 0 true;
   EReceive 0 RError; ERemove 0; EClose 0].

(** The table loses live connections.  The receiver of a session that the
    collector has closed removes its source from the table when it ends, even if
    the table by then holds a new session of that source: there is a run after
    which a connection is open and its receiver is running but the table does not
    have it; from then on no event, neither the collector nor [Stop], closes it as
    long as its own receiver does not fail, and the next packet of the source
    opens another connection beside it. *)
Theorem stale_remove_orphans (kind : parent) :
  exists s i, run kind 10 race (UDP_init 0) = Some s /\ orphan s i source0 /\
    (forall es s', Forall (spares i) es -> run kind 10 es s = Some s' -> orphan s' i source0) /\
    exists s2 j, run kind 10 [EPacket source0 (lit "c"); EDial source0 true] s = Some s2 /\
      conns s2 !! source0 = Some j /\ j <> i /\ alive s2 j source0 /\ alive s2 i source0.
Proof.
  assert (H : exists s, run kind 10 race (UDP_init 0) = Some s /\ orphan s 1 source0 /\
    exists s2, run kind 10 [EPacket source0 (lit "c"); EDial source0 true] s = Some s2 /\
      conns s2 !! source0 = Some 2%nat /\ alive s2 2 source0 /\ alive s2 1 source0).
  { destruct kind; (eexists; split; [vm_compute; reflexivity|]; split).
    1,3: split; [eexists; vm_compute; by split_and!|reflexivity
      |intros k' Hk; vm_compute in Hk; discriminate Hk|constructor].
    all: eexists; split; [vm_compute; reflexivity|]; split; [reflexivity|].
    all: split; eexists; vm_compute; by split_and!. }
  destruct H as (s & H1 & H2 & s2 & H3 & H4 & H5 & H6). exists s, 1%nat. split_and!; [done|done| |].
  - intros es s' He Hr. by eapply orphan_run.
  - exists s2, 2%nat. by split_and!.
Qed.

(** * Witnesses *)

Definition sample_state : UDP :=
  default (UDP_init 0) (run Stream 10 [EPacket source0 (lit "a"); EDial source0 true; EWrite 0 true]
    (UDP_init 0)).

Lemma sample_run :
  run Stream 10 [EPacket source0 (lit "a"); EDial source0 true; EWrite 0 true] (UDP_init 0) =
    Some sample_state.
Proof. vm_compute. reflexivity. Qed.

Lemma sample_reachable : reachable Stream 10 sample_state.
Proof. eexists _, _. exact sample_run. Qed.

Lemma relay_sound_witness : conns sample_state !! source0 = Some 0%nat /\ source_of sample_state 0 source0.
Proof.
  split; [vm_compute; reflexivity|].
  apply (proj1 (relay_sound Stream 10 sample_state sample_reachable)). vm_compute. reflexivity.
Defined.

Definition sample_item : connItem :=
  default (mkItem [] 0 true []) (items sample_state !! 0%nat).

Lemma stream_parent_reads_witness :
  packets sample_state ≡ₚ [(source0, lit "a")] /\
  exists a, reads (parse_all 1) (concat (c_sent sample_item)) [mkDatagram zero a (lit "a")].
Proof.
  destruct (stream_parent_reads 10 0 [EPacket source0 (lit "a"); EDial source0 true; EWrite 0 true] sample_state sample_run)
    as [H1 H2]. split; [exact H1|].
  exists (mkAddrSpec [] (IPv4 (z2b 10) (z2b 0) (z2b 0) (z2b 1)) 5000 ATYPIPv4).
  apply (H2 0%nat sample_item).
  - vm_compute. reflexivity.
  - vm_compute. reflexivity.
  - constructor. lia.
  - apply Forall_cons. split; [apply Z.leb_le; vm_compute; reflexivity|constructor].
Defined.

Lemma watch_collects_witness :
  exists es s', run Stream 10 (ETick :: es) sample_state = Some s' /\ conns s' !! source0 = Some 0%nat.
Proof.
  destruct (watch_collects Stream 10 sample_state sample_reachable) as (es & s' & _ & H & _ & _ & Hall);
    [vm_compute; reflexivity..|].
  destruct (Hall source0 0%nat) as (it & Hi & Hc); [vm_compute; reflexivity|].
  exists es, s'. split; [exact H|].
  assert (E : items sample_state !! 0%nat = Some sample_item) by (vm_compute; reflexivity).
  rewrite E in Hi. injection Hi as <-. 
  change (10 <? clock sample_state - lastActiveTime sample_item) with false in Hc. exact (proj1 Hc).
Defined.
