(* ===== verification/TcpSvc.v ===== *)
(** services/tcp: the TCP service forwards streams to a stream parent, or takes the
    datagrams that the UDP service packs into its streams and sends them to a UDP
    parent, a connection per source.  A stream handler, the receivers of the UDP
    connections, with the buffers they take from the pool of the process, the
    collector of idle sessions and the other users of the pool are the events of a
    step function.  The dial of a source, which handlers share through singleflight,
    is one step with the lookup, and so are the two appends that build a reply;
    listeners, dials and certificates are inputs. *)
From S2P Require Import Prelude GoStrings GoNet GoIO Iface Binding Captain Outil UdpRelay.
Open Scope Z_scope.

(** * Configuration *)

Record Config := mkConfig {
  ParentType : bytes; Parent : bytes; LocalType : bytes; Local : bytes;
  CertFile : bytes; KeyFile : bytes; CaCertFile : bytes; StcpMethod : bytes; RawProxyURL : bytes;
}.

(** What [inspectConfig] is told: the validator, the certificate, the CA file, the
    cipher methods and the proxy URL *)
Record checks := mkChecks {
  valid : option error; pair : outcome bytes; ca : option error;
  methods : list bytes; proxy : option error;
}.

(** Either end is of the given kind. *)
Definition uses (c : Config) (kind : string) : bool :=
  bool_decide (ParentType c = lit kind) || bool_decide (LocalType c = lit kind).

Definition no_error (e : option error) : outcome unit :=
  match e with Some e => Fail e | None => Ok tt end.

(** The result is the key of the certificate, if one is loaded. *)
Definition inspectConfig (k : checks) (c : Config) : outcome bytes :=
  _ ← no_error (valid k);
  key ← (if uses c "tls" then
           if bool_decide (CertFile c = []) || bool_decide (KeyFile c = [])
           then Fail (ErrMsg "cert file and key file required")
           else
             key ← pair k;
             _ ← (if negb (bool_decide (CaCertFile c = []))
                  then match ca k with Some e => Fail (ErrWrap "read ca file %+v" e) | None => Ok tt end
                  else Ok tt);
             Ok key
         else Ok []);
  _ ← (if uses c "stcp" && negb (bool_decide (StcpMethod c ∈ methods k))
       then Fail (ErrMsg "stcp cipher method support one of %s") else Ok tt);
  _ ← (if negb (bool_decide (RawProxyURL c = []))
       then match proxy k with Some e => Fail (ErrWrap "new proxyURL, %+v" e) | None => Ok tt end
       else Ok tt);
  Ok key.

(** The service object: whether its context is cancelled, its listener is open, and
    its collector runs *)
Record service := mkService { cancelled : bool; listening : option bool; watching : bool }.

Definition Start (k : checks) (listen : outcome unit) (c : Config) : outcome unit * service :=
  match (_ ← inspectConfig k c; listen) with
  | Ok _ => (Ok tt, mkService false (Some true) (bool_decide (ParentType c = lit "udp")))
  | o => (o, mkService true None false)
  end.

(** * A stream parent ([proxyStream2Stream]) *)

(** The table holds the client connections by their address; [s_closed] are those
    closed through it. *)
Record stream_state := mkStream {
  s_conns : gmap bytes nat; s_closed : list nat; inConn : conn; targetConn : option conn;
}.

Definition stream2stream (dial : outcome conn) (srcAddr : bytes) (me : nat) : io stream_state unit :=
  t ← io_lift dial;
  io_modify (fun s => mkStream (<[srcAddr := me]> (s_conns s))
    (match s_conns s !! srcAddr with Some j => s_closed s ++ [j] | None => s_closed s end) (inConn s) (Some t)).

(** The deferred functions, once the copying is over *)
Definition stream2stream_done (srcAddr : bytes) (s : stream_state) : stream_state :=
  mkStream (delete srcAddr (s_conns s)) (s_closed s) (inConn s) (option_map (fun t => (Close t).2) (targetConn s)).

Definition close_in (s : stream_state) : stream_state :=
  mkStream (s_conns s) (s_closed s) (Close (inConn s)).2 (targetConn s).

(** [handler] with a stream parent; [copy] is what the copying makes of the two
    connections. *)
Definition handler (c : Config) (dial : outcome conn) (srcAddr : bytes) (me : nat)
    (copy : conn -> conn -> conn * conn) (s : stream_state) : stream_state :=
  close_in
    (if bool_decide (ParentType c ∈ map lit ["tcp"; "tls"; "stcp"; "kcp"]%string) then
       match stream2stream dial srcAddr me s with
       | (Ok _, s) =>
           stream2stream_done srcAddr
             (match targetConn s with
              | Some t => let '(i, t) := copy (inConn s) t in mkStream (s_conns s) (s_closed s) i (Some t)
              | None => s
              end)
       | (_, s) => s
       end
     else s).

(** * A UDP parent ([proxyStream2UDP]) *)

(** [ikey] is the source the session is kept under, [isrc] what it resolved to, and
    [t_sent] what was written to its UDP connection. *)
Record connItem := mkItem {
  ikey : bytes; stream : nat; isrc : bytes; lastActiveTime : Z; t_closed : bool; t_sent : list bytes;
}.

(** Where a stream handler is: about to read, with a datagram for a session, or
    gone *)
Inductive hstate := Reading | Holding (i : nat) (data : bytes) | Returned.

(** What [append] to a buffer of the pool yields: a part of the buffer, or an array
    of its own when the buffer is too small *)
Inductive slice_ := Alias (b n : nat) | Own (c : bytes).

(** Where a receiver with its buffer [b] is: about to read from the UDP connection,
    with [n] bytes read, or with the reply built *)
Inductive rphase := RWait (b : nat) | RHeld (b n : nat) | RBuilt (b : nat) (x : slice_).

(** The pool, with the buffers its other users hold, and the bytes of the buffers;
    a receiver without a phase has no buffer yet.  [arrived] lists what was read from
    the UDP connections of the sessions. *)
Record buffers := mkBuffers {
  bpool : pool * list nat; mem : gmap nat bytes; phases : gmap nat rphase; arrived : list (nat * bytes);
}.
Definition set_pool x (u : buffers) := mkBuffers (x, (bpool u).2) (mem u) (phases u) (arrived u).
Definition set_mem x (u : buffers) := mkBuffers (bpool u) x (phases u) (arrived u).
Definition set_phases x (u : buffers) := mkBuffers (bpool u) (mem u) x (arrived u).
Definition add_arrived x (u : buffers) := mkBuffers (bpool u) (mem u) (phases u) (arrived u ++ [x]).

Record TCP := mkTCP {
  streams : list (conn * hstate);
  userConns : gmap bytes nat;
  items : list connItem;
  receivers : list nat;
  bufs : buffers;
  snapshot : list (bytes * nat);
  now_ : Z;
  removing : option bytes;
  parsed : list (nat * bytes * bytes);   (** datagrams read: stream, source, data *)
  clock : Z;
  stopped : bool;
}.

(** [cap] is the size of the buffers of the pool. *)
Definition TCP_init (t : Z) (cap : nat) (cs : list conn) : TCP :=
  mkTCP (map (fun c => (c, Reading)) cs) ∅ [] [] (mkBuffers (NewPool cap, []) ∅ ∅ []) [] t None [] t false.

Definition set_streams x s := mkTCP x (userConns s) (items s) (receivers s) (bufs s) (snapshot s) (now_ s) (removing s) (parsed s) (clock s) (stopped s).
Definition set_conns x s := mkTCP (streams s) x (items s) (receivers s) (bufs s) (snapshot s) (now_ s) (removing s) (parsed s) (clock s) (stopped s).
Definition set_items x s := mkTCP (streams s) (userConns s) x (receivers s) (bufs s) (snapshot s) (now_ s) (removing s) (parsed s) (clock s) (stopped s).
Definition set_receivers x s := mkTCP (streams s) (userConns s) (items s) x (bufs s) (snapshot s) (now_ s) (removing s) (parsed s) (clock s) (stopped s).
Definition set_bufs x s := mkTCP (streams s) (userConns s) (items s) (receivers s) x (snapshot s) (now_ s) (removing s) (parsed s) (clock s) (stopped s).
Definition set_snapshot x n s := mkTCP (streams s) (userConns s) (items s) (receivers s) (bufs s) x n (removing s) (parsed s) (clock s) (stopped s).
Definition set_removing x s := mkTCP (streams s) (userConns s) (items s) (receivers s) (bufs s) (snapshot s) (now_ s) x (parsed s) (clock s) (stopped s).
Definition add_parsed p s := mkTCP (streams s) (userConns s) (items s) (receivers s) (bufs s) (snapshot s) (now_ s) (removing s) (parsed s ++ [p]) (clock s) (stopped s).
Definition set_clock x s := mkTCP (streams s) (userConns s) (items s) (receivers s) (bufs s) (snapshot s) (now_ s) (removing s) (parsed s) x (stopped s).
Definition set_stopped s := mkTCP (streams s) (userConns s) (items s) (receivers s) (bufs s) (snapshot s) (now_ s) (removing s) (parsed s) (clock s) true.

Definition upd_stream (f : conn * hstate -> conn * hstate) (j : nat) (s : TCP) : TCP :=
  set_streams (alter f j (streams s)) s.
Definition close_stream (j : nat) : TCP -> TCP := upd_stream (fun p => ((Close p.1).2, p.2)) j.
Definition set_hstate (j : nat) (h : hstate) : TCP -> TCP := upd_stream (fun p => (p.1, h)) j.

Definition upd_item (f : connItem -> connItem) (i : nat) (s : TCP) : TCP := set_items (alter f i (items s)) s.
Definition touch (t : Z) (it : connItem) : connItem :=
  mkItem (ikey it) (stream it) (isrc it) t (t_closed it) (t_sent it).
Definition close_target (it : connItem) : connItem :=
  mkItem (ikey it) (stream it) (isrc it) (lastActiveTime it) true (t_sent it).
Definition write_target (b : bytes) (it : connItem) : connItem :=
  mkItem (ikey it) (stream it) (isrc it) (lastActiveTime it) (t_closed it) (t_sent it ++ [b]).

(** The text of an error, as far as the model keeps it, and the text after which
    the handler reads on *)
Fixpoint error_text (e : error) : bytes :=
  match e with
  | ErrMsg m => lit m
  | ErrWrap m e => lit m ++ error_text e
  | _ => []
  end.
Definition retries (e : error) : bool := Contains (error_text e) (lit "n != int(").

Section Sessions.
Context (udpIdleTime : Z) (resolve : bytes -> option bytes).

(** The handler returns: [defer inConn.Close()]. *)
Definition stream_return (j : nat) (s : TCP) : TCP := set_hstate j Returned (close_stream j s).

(** A new session; an address that does not resolve prints as nil. *)
Definition new_item (j : nat) (src : bytes) (s : TCP) : TCP :=
  let i := length (items s) in
  set_receivers (receivers s ++ [i])
    (set_conns (<[src := i]> (userConns s))
      (set_items (items s ++ [mkItem src j (default (lit "<nil>") (resolve src)) 0 false []]) s)).

(** A turn of the loop up to the session of the datagram; [dialed] is whether the
    UDP dial succeeds, when there is one. *)
Definition stream_read (j : nat) (dialed : bool) (s : TCP) : option TCP :=
  match streams s !! j with
  | Some (c, Reading) =>
      if stopped s then Some (stream_return j s)
      else
        let '(o, c) := if closed c then (Fail ErrClosed, c) else on_rx ParseStreamDatagram c in
        let s := upd_stream (fun p => (c, p.2)) j s in
        match o with
        | Fail e => Some (if retries e then s else stream_return j s)
        | Panic => Some (stream_return j s)
        | Ok da =>
            let src := AddrSpec_String (Addr da) in
            let s := add_parsed (j, src, DData da) s in
            match userConns s !! src with
            | Some i => Some (set_hstate j (Holding i (DData da)) s)
            | None =>
                if dialed then Some (set_hstate j (Holding (length (items s)) (DData da)) (new_item j src s))
                else Some (stream_return j s)
            end
        end
  | _ => None
  end.

(** The rest of the turn; [w] is how the write to the UDP connection ends. *)
Definition stream_send (j : nat) (w : option error) (s : TCP) : option TCP :=
  match streams s !! j with
  | Some (_, Holding i data) =>
      it ← items s !! i;
      let s := upd_item (touch (clock s)) i s in
      match (if t_closed it then Some ErrClosed else w) with
      | None => Some (set_hstate j Reading (upd_item (write_target data) i s))
      | Some _ => Some (stream_return j s)
      end
  | _ => None
  end.

(** The reply of a session: the datagram addressed with its source *)
Definition frame (src data : bytes) : outcome bytes :=
  a ← ParseAddrSpec src;
  header ← StreamDatagram_Header (mkStreamDatagram zero a data);
  Ok (header ++ data).

Definition set_phase (i : nat) (x : rphase) (s : TCP) : TCP :=
  set_bufs (set_phases (<[i := x]> (phases (bufs s))) (bufs s)) s.

(** The end of a receiver with the buffer [b]: [Put], [Remove], and both connections
    are closed. *)
Definition receiver_end (i b : nat) (it : connItem) (s : TCP) : TCP :=
  let u := bufs s in
  set_bufs (set_phases (delete i (phases u)) (set_pool (Pool_Put b (bpool u).1).2 u))
    (set_receivers (List.filter (fun k => negb (Nat.eqb k i)) (receivers s))
      (upd_item close_target i (close_stream (stream it) (set_conns (delete (ikey it) (userConns s)) s)))).

(** The receiver of the session [i] starts with a buffer. *)
Definition receiver_start (i pick : nat) (s : TCP) : option TCP :=
  match bool_decide (i ∈ receivers s), phases (bufs s) !! i, Pool_Get pick (bpool (bufs s)).1 with
  | true, None, (Ok b, p) => Some (set_phase i (RWait b) (set_bufs (set_pool p (bufs s)) s))
  | _, _, _ => None
  end.

(** What is written to the front of a buffer *)
Definition overwrite (new old : bytes) : bytes := new ++ drop (length new) old.
Definition write_buf (b : nat) (c : bytes) (u : buffers) : buffers :=
  set_mem (<[b := overwrite c (default [] (mem u !! b))]> (mem u)) u.

(** A turn of the receiver: the read from the UDP connection *)
Definition receive (i : nat) (r : bytes + error) (s : TCP) : option TCP :=
  match phases (bufs s) !! i with
  | Some (RWait b) =>
      it ← items s !! i;
      match (if t_closed it then inr ErrClosed else r) with
      | inr _ => Some (receiver_end i b it s)
      | inl data =>
          let d := take (default 0%nat (caps (bpool (bufs s)).1 !! b)) data in
          let s := upd_item (touch (clock s)) i s in
          Some (set_phase i (RHeld b (length d)) (set_bufs (add_arrived (i, d) (write_buf b d (bufs s))) s))
      end
  | _ => None
  end.

(** [buf := Get()] and [Put(buf)] *)
Definition get_put (pick : nat) : io pool nat := b ← Pool_Get pick; Pool_Put b;; mret b.

(** ... and the two appends, from the bytes that the buffer of the receiver holds by
    then: the second one moves to an array of its own when the buffer is too
    small. *)
Definition build (i pick : nat) (s : TCP) : option TCP :=
  match phases (bufs s) !! i with
  | Some (RHeld b n) =>
      it ← items s !! i;
      let u := bufs s in
      match frame (isrc it) (take n (default [] (mem u !! b))),
            get_put pick (bpool u).1 with
      | Ok m, (Ok b', p) =>
          let u := set_pool p u in
          let fits n := Nat.leb n (default 0%nat (caps p !! b')) in
          let h := (length m - n)%nat in   (** the length of the header *)
          Some (if fits (length m)
                then set_phase i (RBuilt b (Alias b' (length m))) (set_bufs (write_buf b' m u) s)
                else set_phase i (RBuilt b (Own m))
                       (set_bufs (if fits h then write_buf b' (take h m) u else u) s))
      | _, _ => Some (receiver_end i b it s)
      end
  | _ => None
  end.

(** [c.Write(tmpBuf)] of what the slice holds by then; how it ends is not looked
    at. *)
Definition content (u : buffers) (x : slice_) : bytes :=
  match x with Alias b n => take n (default [] (mem u !! b)) | Own c => c end.
Definition flush (i : nat) (s : TCP) : option TCP :=
  match phases (bufs s) !! i with
  | Some (RBuilt b x) =>
      it ← items s !! i;
      Some (set_phase i (RWait b)
        (upd_stream (fun p => (if closed p.1 then p.1 else (Write (content (bufs s) x) p.1).2, p.2)) (stream it) s))
  | _ => None
  end.

(** The other users of the pool take and put back buffers, and write in them. *)
Definition others_use (u : use) (s : TCP) : option TCP :=
  p ← use_step u (bpool (bufs s));
  Some (set_bufs (mkBuffers p (mem (bufs s)) (phases (bufs s)) (arrived (bufs s))) s).

(** The collector: a tick takes the table, an idle session has both connections
    closed, and its key is removed. *)
Definition watch_tick (s : TCP) : option TCP :=
  match stopped s, snapshot s, removing s with
  | false, [], None => Some (set_snapshot (map_to_list (userConns s)) (clock s) s)
  | _, _, _ => None
  end.
Definition watch_item (s : TCP) : option TCP :=
  match snapshot s, removing s with
  | (k, i) :: rest, None =>
      it ← items s !! i;
      let s := set_snapshot rest (now_ s) s in
      Some (if udpIdleTime <? now_ s - lastActiveTime it
            then set_removing (Some k) (upd_item close_target i (close_stream (stream it) s)) else s)
  | _, _ => None
  end.
Definition watch_remove (s : TCP) : option TCP :=
  k ← removing s;
  Some (set_removing None (set_conns (delete k (userConns s)) s)).

(** [Stop]: the context is cancelled and every session of the table is closed. *)
Definition close_session (i : nat) (s : TCP) : TCP :=
  match items s !! i with
  | Some it => upd_item close_target i (close_stream (stream it) s)
  | None => s
  end.
Definition Stop (s : TCP) : TCP :=
  set_stopped (foldr (fun kv s => close_session kv.2 s) s (map_to_list (userConns s))).

Inductive event :=
  | ERead (j : nat) (dialed : bool)
  | ESend (j : nat) (w : option error)
  | EBegin (i pick : nat)
  | EReceive (i : nat) (r : bytes + error)
  | EBuild (i pick : nat)
  | EFlush (i : nat)
  | EUse (u : use)
  | EOther (b : nat) (c : bytes)
  | ETick | EItem | ERemove
  | EClock (d : Z)
  | EStop.

Definition step (e : event) (s : TCP) : option TCP :=
  match e with
  | ERead j dialed => stream_read j dialed s
  | ESend j w => stream_send j w s
  | EBegin i pick => receiver_start i pick s
  | EReceive i r => receive i r s
  | EBuild i pick => build i pick s
  | EFlush i => flush i s
  | EUse u => others_use u s
  | EOther b c => Some (set_bufs (write_buf b c (bufs s)) s)
  | ETick => watch_tick s
  | EItem => watch_item s
  | ERemove => watch_remove s
  | EClock d => if 0 <=? d then Some (set_clock (clock s + d) s) else None
  | EStop => if stopped s then None else Some (Stop s)
  end.

Fixpoint run (es : list event) (s : TCP) : option TCP :=
  match es with [] => Some s | e :: es => s ← step e s; run es s end.

(** No receiver other than [i] is between its read and its write. *)
Definition busy (x : rphase) : bool := match x with RWait _ => false | _ => true end.
Definition alone (i : option nat) (s : TCP) : bool :=
  forallb (fun kv => bool_decide (Some kv.1 = i) || negb (busy kv.2)) (map_to_list (phases (bufs s))).

(** The runs in which a reply, from its read to its write, is not disturbed by that
    of another session or by another user of the pool *)
Definition calm (e : event) (s : TCP) : bool :=
  match e with
  | EReceive i _ | EBuild i _ => alone (Some i) s
  | EOther _ _ => alone None s
  | _ => true
  end.
Fixpoint prompt (es : list event) (s : TCP) : bool :=
  match es with
  | [] => true
  | e :: es => calm e s && match step e s with Some s => prompt es s | None => true end
  end.

End Sessions.

(** * Laws of the sessions *)
Section Laws.
Context (udpIdleTime : Z) (cap : nat) (resolve : bytes -> option bytes).
Implicit Types (s : TCP).

(** The runs from a start with streams that nothing was written to *)
Definition run_to (cs : list conn) (t : Z) (es : list event) s : Prop :=
  Forall (fun c => tx c = []) cs /\ run udpIdleTime resolve es (TCP_init t cap cs) = Some s.
Definition reachable s : Prop := exists t cs es, run_to cs t es s.

(** The session [i] is kept for the source [k]. *)
Definition session_of s (i : nat) (k : bytes) : Prop := exists it, items s !! i = Some it /\ ikey it = k.

(** The buffer of a receiver *)
Definition own_buf (x : rphase) : nat := match x with RWait b | RHeld b _ | RBuilt b _ => b end.

Record tcp_inv s : Prop := {
  inv_conns : forall k i, userConns s !! k = Some i -> session_of s i k;
  inv_snapshot : forall k i, (k, i) ∈ snapshot s -> session_of s i k;
  inv_held : forall j c i d, streams s !! j = Some (c, Holding i d) -> exists k, session_of s i k /\ (j, k, d) ∈ parsed s;
  inv_sent : forall i it b, items s !! i = Some it -> b ∈ t_sent it -> exists j, (j, ikey it, b) ∈ parsed s;
  inv_open : forall i it, items s !! i = Some it -> t_closed it = false -> i ∈ receivers s;
  inv_src : forall i it, items s !! i = Some it -> isrc it = default (lit "<nil>") (resolve (ikey it));
}.

(** Every buffer at hand has the capacity of the pool. *)
Definition sized (p : pool) (b : nat) : Prop := default 0%nat (caps p !! b) = capacity p.
Record pool_ok (u : buffers) : Prop := {
  ok_capacity : capacity (bpool u).1 = cap;
  ok_free : forall b, b ∈ free (bpool u).1 -> sized (bpool u).1 b;
  ok_own : forall i x, phases u !! i = Some x -> sized (bpool u).1 (own_buf x);
}.

(** Updates of a session that keep what it is *)
Record keeps (f : connItem -> connItem) : Prop := {
  k_key : forall it, ikey (f it) = ikey it;
  k_stream : forall it, stream (f it) = stream it;
  k_src : forall it, isrc (f it) = isrc it;
  k_closed : forall it, t_closed (f it) = false -> t_closed it = false;
}.

Lemma touch_keeps_item (t : Z) : keeps (touch t).
Proof. by split. Qed.
Lemma close_target_keeps : keeps close_target.
Proof. by split. Qed.
Lemma write_target_keeps (b : bytes) : keeps (write_target b).
Proof. by split. Qed.
#[local] Hint Resolve touch_keeps_item close_target_keeps write_target_keeps : core.

Lemma alter_inv {A} (f : A -> A) (i k : nat) (l : list A) (y : A) :
  alter f i l !! k = Some y -> (i <> k /\ l !! k = Some y) \/ (i = k /\ exists x, l !! k = Some x /\ y = f x).
Proof.
  intros H. destruct (decide (i = k)) as [<-|Hn].
  - rewrite list_lookup_alter_eq in H. destruct (l !! i) as [x|]; [|done]. injection H as <-. eauto.
  - rewrite list_lookup_alter_ne in H by done. eauto.
Qed.

Lemma item_upd (f : connItem -> connItem) (i k : nat) s (it : connItem) :
  keeps f -> items s !! k = Some it ->
  exists it', items (upd_item f i s) !! k = Some it' /\ ikey it' = ikey it /\ stream it' = stream it /\ isrc it' = isrc it.
Proof.
  intros [Hk Hs Hr _] H. cbn. destruct (decide (i = k)) as [<-|Hn].
  - exists (f it). by rewrite list_lookup_alter_eq, H, Hk, Hs, Hr.
  - exists it. by rewrite list_lookup_alter_ne.
Qed.

Lemma session_upd (f : connItem -> connItem) (i k : nat) (a : bytes) s :
  keeps f -> session_of s k a -> session_of (upd_item f i s) k a.
Proof. intros Hf (it & Hi & <-). destruct (item_upd f i k s it Hf Hi) as (it' & H & Ha & _). by exists it'. Qed.

Lemma inv_upd_item (f : connItem -> connItem) (i : nat) s :
  keeps f ->
  (forall it b, items s !! i = Some it -> b ∈ t_sent (f it) -> b ∈ t_sent it \/ exists j, (j, ikey it, b) ∈ parsed s) ->
  tcp_inv s -> tcp_inv (upd_item f i s).
Proof.
  intros Hf Hw [A B C D E F]. split; cbn.
  - intros k n H. by apply session_upd, A.
  - intros k n H. by apply session_upd, B.
  - intros j c n d (k & Hk & Hp)%C. exists k. split; [by apply session_upd|done].
  - intros n it b [[_ H]|[<- (it0 & H & ->)]]%alter_inv Hb; [by eapply D|].
    rewrite (k_key _ Hf). destruct (Hw it0 b H Hb) as [Hb'|?]; [by eapply D|done].
  - intros n it [[_ H]|[<- (it0 & H & ->)]]%alter_inv Hc; [by eapply E|].
    eapply E; [exact H|]. by apply (k_closed _ Hf).
  - intros n it [[_ H]|[<- (it0 & H & ->)]]%alter_inv; [by eapply F|].
    rewrite (k_src _ Hf), (k_key _ Hf). by eapply F.
Qed.

Lemma inv_touch (t : Z) (i : nat) s : tcp_inv s -> tcp_inv (upd_item (touch t) i s).
Proof. apply inv_upd_item; [done|]. by left. Qed.
Lemma inv_close_target (i : nat) s : tcp_inv s -> tcp_inv (upd_item close_target i s).
Proof. apply inv_upd_item; [done|]. by left. Qed.

Lemma inv_upd_stream (f : conn * hstate -> conn * hstate) (j : nat) s :
  (forall p i d, streams s !! j = Some p -> (f p).2 = Holding i d ->
     p.2 = Holding i d \/ exists k, session_of s i k /\ (j, k, d) ∈ parsed s) ->
  tcp_inv s -> tcp_inv (upd_stream f j s).
Proof.
  intros Hf [A B C D E F]. split; cbn; try done.
  intros k c i d [[_ H]|[<- ([c0 h] & H & Hp)]]%alter_inv; [by eapply C|].
  destruct (Hf _ i d H) as [Hh|?]; [by rewrite <- Hp|cbn in Hh; subst h; by eapply C|done].
Qed.

Lemma inv_close_stream (j : nat) s : tcp_inv s -> tcp_inv (close_stream j s).
Proof. apply inv_upd_stream. by left. Qed.

Lemma inv_set_hstate (j : nat) (h : hstate) s :
  (forall i d, h = Holding i d -> exists k, session_of s i k /\ (j, k, d) ∈ parsed s) ->
  tcp_inv s -> tcp_inv (set_hstate j h s).
Proof. intros Hh. apply inv_upd_stream. intros p i d _ Hp. right. by apply Hh. Qed.

Lemma inv_stream_return (j : nat) s : tcp_inv s -> tcp_inv (stream_return j s).
Proof. intros Hi. apply inv_set_hstate; [done|]. by apply inv_close_stream. Qed.

Lemma inv_remove (k : bytes) s : tcp_inv s -> tcp_inv (set_conns (delete k (userConns s)) s).
Proof.
  intros [A B C D E F]. split; cbn; try done. intros a i [_ H]%lookup_delete_Some. by apply A.
Qed.

Lemma inv_removing (k : option bytes) s : tcp_inv s -> tcp_inv (set_removing k s).
Proof. by intros []. Qed.
Lemma inv_bufs (u : buffers) s : tcp_inv s -> tcp_inv (set_bufs u s).
Proof. by intros []. Qed.

Lemma inv_parsed (p : nat * bytes * bytes) s : tcp_inv s -> tcp_inv (add_parsed p s).
Proof.
  intros [A B C D E F]. split; cbn; try done.
  - intros j c i d (k & Hk & Hp)%C. exists k. split; [done|]. set_solver.
  - intros i it b Hi Hb. destruct (D i it b Hi Hb) as [j Hj]. exists j. set_solver.
Qed.

Lemma lookup_snoc {A} (l : list A) (x y : A) (i : nat) :
  (l ++ [x]) !! i = Some y -> l !! i = Some y \/ (i = length l /\ y = x).
Proof.
  intros [H|[Hl H]]%lookup_app_Some; [by left|]. right. apply list_lookup_singleton_Some in H as [? <-].
  split; [lia|done].
Qed.

Lemma item_new (j i : nat) (src : bytes) s (it : connItem) :
  items s !! i = Some it -> items (new_item resolve j src s) !! i = Some it.
Proof. intros H. cbn. by apply lookup_app_l_Some. Qed.

Lemma session_new (j i : nat) (src k : bytes) s :
  session_of s i k -> session_of (new_item resolve j src s) i k.
Proof. intros (it & H & Hk). exists it. split; [by apply item_new|done]. Qed.

Lemma inv_new_item (j : nat) (src : bytes) s : tcp_inv s -> tcp_inv (new_item resolve j src s).
Proof.
  intros [A B C D E F]. split.
  - intros k i H. cbn in H. apply lookup_insert_Some in H as [[<- <-]|[_ H]].
    + eexists. cbn. by rewrite lookup_app_r, Nat.sub_diag by lia.
    + by apply session_new, A.
  - intros k i H. by apply session_new, B.
  - intros n c i d (k & Hk & Hp)%C. exists k. split; [by apply session_new|done].
  - intros i it b [H|[_ ->]]%lookup_snoc Hb; [by eapply D|]. by apply not_elem_of_nil in Hb.
  - intros i it [H|[-> ->]]%lookup_snoc Hc; cbn; [|set_solver]. apply elem_of_app. left. by eapply E.
  - intros i it [H|[_ ->]]%lookup_snoc; [by eapply F|done].
Qed.

Lemma inv_stream_read (j : nat) (dialed : bool) s s' :
  tcp_inv s -> stream_read resolve j dialed s = Some s' -> tcp_inv s'.
Proof.
  intros Hi. unfold stream_read. destruct (streams s !! j) as [[c []]|] eqn:Ej; [|done..].
  destruct (stopped s); [intros [= <-]; by apply inv_stream_return|].
  destruct (if closed c then _ else _) as [o c'] eqn:Er.
  set (s1 := upd_stream (fun p => (c', p.2)) j s).
  assert (H1 : tcp_inv s1) by (apply inv_upd_stream; [by left|done]).
  destruct o as [da|e|]; cbn zeta; [|intros [= <-]; destruct (retries e); [done|by apply inv_stream_return]
    |intros [= <-]; by apply inv_stream_return].
  set (src := AddrSpec_String (Addr da)). set (s2 := add_parsed (j, src, DData da) s1).
  assert (H2 : tcp_inv s2) by by apply inv_parsed.
  assert (Hp : (j, src, DData da) ∈ parsed s2) by (cbn; set_solver).
  destruct (userConns s2 !! src) as [i|] eqn:Eu.
  - intros [= <-]. apply inv_set_hstate; [|done]. intros i' d [= <- <-]. exists src.
    split; [by apply (inv_conns _ H2)|done].
  - destruct dialed; intros [= <-]; [|by apply inv_stream_return].
    apply inv_set_hstate; [|by apply inv_new_item]. intros i' d [= <- <-]. exists src. split; [|done].
    eexists. cbn. by rewrite lookup_app_r, Nat.sub_diag by lia.
Qed.

Lemma inv_stream_send (j : nat) (w : option error) s s' :
  tcp_inv s -> stream_send j w s = Some s' -> tcp_inv s'.
Proof.
  intros Hi. unfold stream_send. destruct (streams s !! j) as [[c [|i d|]]|] eqn:Ej; [done| |done..].
  destruct (items s !! i) as [it|] eqn:Ei; [|done]. cbn [mbind option_bind]. cbv zeta.
  apply (inv_held _ Hi) in Ej as (k & (it0 & H0 & Hk) & Hp). rewrite Ei in H0. injection H0 as <-.
  destruct (if t_closed it then _ else _); intros [= <-]; [by apply inv_stream_return, inv_touch|].
  apply inv_set_hstate; [done|]. apply inv_upd_item; [done| |by apply inv_touch].
  intros it' b. cbn. rewrite list_lookup_alter_eq, Ei. intros [= <-] [Hb|Hb]%elem_of_app; [by left|].
  apply list_elem_of_singleton in Hb as ->. right. exists j. cbn. by rewrite Hk.
Qed.

Lemma inv_receiver_end (i b : nat) (it : connItem) s : tcp_inv s -> tcp_inv (receiver_end i b it s).
Proof.
  intros Hi. unfold receiver_end. cbv zeta. apply inv_bufs.
  set (s1 := upd_item close_target i _).
  assert (H : tcp_inv s1) by (apply inv_close_target, inv_close_stream, inv_remove; done).
  destruct H as [A B C D E F]. split; try done.
  intros n it' Hn Hc. cbn. apply list_elem_of_In, List.filter_In.
  split; [apply list_elem_of_In; by eapply E|]. destruct (Nat.eqb_spec n i) as [->|]; [|done].
  cbn in Hn. apply alter_inv in Hn as [[? _]|[_ (x & _ & ->)]]; [done|]. discriminate Hc.
Qed.

Lemma inv_receiver (i pick : nat) (r : bytes + error) (e : event) s s' :
  e = EBegin i pick \/ e = EReceive i r \/ e = EBuild i pick \/ e = EFlush i ->
  tcp_inv s -> step udpIdleTime resolve e s = Some s' -> tcp_inv s'.
Proof.
  intros He Hi. destruct He as [-> |[-> |[-> | ->]]]; cbn [step].
  - unfold receiver_start. destruct (bool_decide _); [|done]. destruct (phases _ !! i); [done|].
    destruct (Pool_Get _ _) as [[]]; [|done..]. intros [= <-]. by apply inv_bufs, inv_bufs.
  - unfold receive. destruct (phases _ !! i) as [[]|]; [|done..]. destruct (items s !! i) as [it|]; [|done].
    cbn [mbind option_bind]. destruct (if t_closed it then _ else _); intros [= <-].
    + by apply inv_bufs, inv_bufs, inv_touch.
    + by apply inv_receiver_end.
  - unfold build. destruct (phases _ !! i) as [[]|]; [done| |done..]. destruct (items s !! i) as [it|]; [|done].
    cbn [mbind option_bind]. cbv zeta. destruct (frame _ _); [|intros [= <-]; by apply inv_receiver_end..].
    destruct (get_put _ _) as [[]]; [|intros [= <-]; by apply inv_receiver_end..].
    destruct (Nat.leb (length a) _); intros [= <-]; repeat apply inv_bufs; done.
  - unfold flush. destruct (phases _ !! i) as [[]|]; [done..| |done]. destruct (items s !! i) as [it|]; [|done].
    cbn [mbind option_bind]. intros [= <-]. apply inv_bufs, inv_upd_stream; [by left|done].
Qed.

Lemma inv_watch_tick s s' : tcp_inv s -> watch_tick s = Some s' -> tcp_inv s'.
Proof.
  intros Hi. unfold watch_tick. destruct (stopped s); [done|]. destruct (snapshot s); [|done].
  destruct (removing s); [done|]. intros [= <-]. destruct Hi as [A B C D E F]. split; cbn; try done.
  intros k i H%elem_of_map_to_list. by apply A.
Qed.

Lemma inv_watch_item s s' : tcp_inv s -> watch_item udpIdleTime s = Some s' -> tcp_inv s'.
Proof.
  intros Hi. unfold watch_item. destruct (snapshot s) as [|[k i] rest] eqn:Es; [done|].
  destruct (removing s); [done|]. destruct (items s !! i) as [it|]; [|done]. cbn [mbind option_bind].
  set (s1 := set_snapshot rest (now_ s) s).
  assert (H1 : tcp_inv s1).
  { destruct Hi as [A B C D E F]. split; cbn; try done. intros k' i' H. apply B. rewrite Es. set_solver. }
  intros [= <-]. destruct (_ <? _); [|done]. by apply inv_removing, inv_close_target, inv_close_stream.
Qed.

Lemma inv_Stop s : tcp_inv s -> tcp_inv (Stop s).
Proof.
  intros Hi. unfold Stop. set (s1 := foldr _ _ _).
  assert (H : tcp_inv s1); [|by destruct H].
  unfold s1. induction (map_to_list _) as [|kv l IH]; [done|]. cbn. unfold close_session at 1.
  destruct (items _ !! kv.2); [|done]. by apply inv_close_target, inv_close_stream.
Qed.

Lemma inv_step (e : event) s s' : tcp_inv s -> step udpIdleTime resolve e s = Some s' -> tcp_inv s'.
Proof.
  intros Hi. destruct e as [j d|j w|i k|i r|i k|i|u|b c| | | |d|].
  - by apply inv_stream_read.
  - by apply inv_stream_send.
  - eapply (inv_receiver i k (inr EOF)); [by left|done].
  - eapply (inv_receiver i 0 r); [by right; left|done].
  - eapply (inv_receiver i k (inr EOF)); [by right; right; left|done].
  - eapply (inv_receiver i 0 (inr EOF)); [by right; right; right|done].
  - cbn [step]. unfold others_use. destruct (use_step _ _); [|done]. intros [= <-]. by apply inv_bufs.
  - intros [= <-]. by apply inv_bufs.
  - by apply inv_watch_tick.
  - by apply inv_watch_item.
  - cbn [step]. unfold watch_remove. destruct (removing s); [|done]. intros [= <-]. by apply inv_removing, inv_remove.
  - cbn [step]. destruct (0 <=? d); [|done]. intros [= <-]. by destruct Hi.
  - cbn [step]. destruct (stopped s); [done|]. intros [= <-]. by apply inv_Stop.
Qed.

(** ** The buffers *)

(** A use of the pool keeps the buffers at hand as they should be. *)
Record grows (p p' : pool) : Prop := {
  gr_capacity : capacity p' = capacity p;
  gr_sized : forall b, sized p b -> sized p' b;
  gr_free : forall b, b ∈ free p' -> b ∈ free p \/ sized p' b;
}.

Lemma get_grows (pick : nat) (p : pool) :
  (forall b, b ∈ free p -> sized p b) ->
  exists b p', Pool_Get pick p = (Ok b, p') /\ grows p p' /\ sized p' b.
Proof.
  intros Hf. unfold Pool_Get, take_at, make_buf. destruct (free p !! pick) as [b|] eqn:E.
  - eexists b, _. split; [reflexivity|]. assert (b ∈ free p) by by eapply list_elem_of_lookup_2.
    split; [|by apply Hf]. split; [done|done|]. intros b' Hb. left. cbn in Hb.
    by eapply elem_of_sublist, sublist_delete.
  - set (id := fresh _). eexists id, _. split; [reflexivity|]. unfold sized. cbn.
    rewrite lookup_insert_eq. split; [|done]. split; [done| |by left]. unfold sized. cbn. intros b Hb.
    destruct (decide (id = b)) as [<-|Hn]; [by rewrite lookup_insert_eq|by rewrite lookup_insert_ne].
Qed.

Lemma put_grows (b : nat) (p : pool) : grows p (Pool_Put b p).2.
Proof.
  unfold Pool_Put, checked_put. case_bool_decide as Hb; [|by split; [| |left]]. split; [done|done|].
  cbn. intros b' [?| ->%list_elem_of_singleton]%elem_of_app; [by left|by right].
Qed.

Lemma get_put_grows (pick : nat) (p : pool) :
  (forall b, b ∈ free p -> sized p b) ->
  exists b p', get_put pick p = (Ok b, p') /\ grows p p' /\ sized p' b.
Proof.
  intros Hf. destruct (get_grows pick p Hf) as (b & p1 & E & [G1 G2 G3] & Hb).
  exists b, (Pool_Put b p1).2. destruct (put_grows b p1) as [P1 P2 P3]. split_and!.
  - unfold get_put, mbind, io_bind. rewrite E. unfold Pool_Put, checked_put. by rewrite bool_decide_true.
  - split; [congruence|auto|]. intros b' [H|H]%P3; [|by right]. apply G3 in H as [?|?]; [by left|right; auto].
  - by apply P2.
Qed.

Lemma use_grows (u : use) (p p' : pool) (l l' : list nat) :
  (forall b, b ∈ free p -> sized p b) -> use_step u (p, l) = Some (p', l') -> grows p p'.
Proof.
  intros Hf. destruct u as [pick|b|i]; cbn [use_step].
  - destruct (get_grows pick p Hf) as (b & p1 & E & G & _). rewrite E. by intros [= <- _].
  - case_bool_decide; [|done]. pose proof (put_grows b p) as G. destruct (Pool_Put b p) as [[] p1]; [|done..].
    by intros [= <- _].
  - intros [= <- _]. split; [done|done|]. intros b Hb. left. cbn in Hb. by eapply elem_of_sublist, sublist_delete.
Qed.

Lemma pool_ok_grows (u u' : buffers) :
  grows (bpool u).1 (bpool u').1 ->
  (forall i x, phases u' !! i = Some x ->
     sized (bpool u').1 (own_buf x) \/ exists x', phases u !! i = Some x' /\ own_buf x' = own_buf x) ->
  pool_ok u -> pool_ok u'.
Proof.
  intros [G1 G2 G3] Hp [A B C]. split.
  - by rewrite G1.
  - intros b [H|H]%G3; auto.
  - intros i x [H|(x' & H & <-)]%Hp; [done|]. by eapply G2, C.
Qed.

Lemma grows_refl (p : pool) : grows p p.
Proof. split; auto. Qed.
#[local] Hint Resolve grows_refl put_grows : core.

Lemma pool_ok_phase (i : nat) (x : rphase) s (u : buffers) :
  (sized (bpool u).1 (own_buf x) \/ exists x', phases u !! i = Some x' /\ own_buf x' = own_buf x) ->
  pool_ok u -> pool_ok (bufs (set_phase i x (set_bufs u s))).
Proof.
  intros Hx. apply pool_ok_grows; [done|]. cbn. intros k y. rewrite lookup_insert_Some.
  intros [[<- <-]|[_ H]]; [done|]. right. by exists y.
Qed.

Lemma pool_ok_end (i b : nat) (it : connItem) s : pool_ok (bufs s) -> pool_ok (bufs (receiver_end i b it s)).
Proof.
  apply pool_ok_grows; cbn; [done|]. intros k x [_ H]%lookup_delete_Some. right. by exists x.
Qed.

Lemma stream_read_bufs (j : nat) (dialed : bool) s s' : stream_read resolve j dialed s = Some s' -> bufs s' = bufs s.
Proof.
  unfold stream_read. destruct (streams s !! j) as [[c []]|]; [|done..].
  destruct (stopped s); [by intros [= <-]|]. destruct (if closed c then _ else _) as [[da|e|] c'];
    [cbn zeta; destruct (userConns _ !! _); [|destruct dialed]; by intros [= <-]
    |destruct (retries e); by intros [= <-]|by intros [= <-]].
Qed.

Lemma stream_send_bufs (j : nat) (w : option error) s s' : stream_send j w s = Some s' -> bufs s' = bufs s.
Proof.
  unfold stream_send. destruct (streams s !! j) as [[c [|i d|]]|]; [done| |done..].
  destruct (items s !! i); [|done]. cbn. destruct (if t_closed _ then _ else _); by intros [= <-].
Qed.

Lemma watch_bufs (e : event) s s' :
  match e with ETick | EItem | ERemove | EClock _ | EStop => True | _ => False end ->
  step udpIdleTime resolve e s = Some s' -> bufs s' = bufs s.
Proof.
  destruct e as [| | | | | | | | | | |d|]; try done; intros _; cbn [step].
  - unfold watch_tick. destruct (stopped s), (snapshot s), (removing s); try done. by intros [= <-].
  - unfold watch_item. destruct (snapshot s) as [|[k i] rest]; [done|]. destruct (removing s); [done|].
    destruct (items s !! i) as [it|]; [|done]. cbn. intros [= <-]. by destruct (_ <? _).
  - unfold watch_remove. destruct (removing s); [|done]. by intros [= <-].
  - destruct (0 <=? d); [|done]. by intros [= <-].
  - destruct (stopped s); [done|]. intros [= <-]. unfold Stop. cbn.
    induction (map_to_list _) as [|kv l IH]; [done|]. cbn. unfold close_session at 1. by destruct (items _ !! kv.2).
Qed.

Lemma pool_ok_step (e : event) s s' :
  pool_ok (bufs s) -> step udpIdleTime resolve e s = Some s' -> pool_ok (bufs s').
Proof.
  intros Hp H. pose proof Hp as [Hc Hf Ho].
  destruct e as [j d|j w|i k|i r|i k|i|u|b c| | | |d|]; cbn [step] in H;
    [by rewrite (stream_read_bufs _ _ _ _ H)|by rewrite (stream_send_bufs _ _ _ _ H)|..
    |by rewrite (watch_bufs ETick _ _ I H)|by rewrite (watch_bufs EItem _ _ I H)
    |by rewrite (watch_bufs ERemove _ _ I H)|by rewrite (watch_bufs (EClock d) _ _ I H)
    |by rewrite (watch_bufs EStop _ _ I H)].
  - unfold receiver_start in H. destruct (bool_decide _); [|done]. destruct (phases _ !! i) eqn:Ei; [done|].
    destruct (get_grows k _ Hf) as (b & p & E & G & Hb). rewrite E in H. injection H as <-.
    apply pool_ok_phase; [by left|]. apply (pool_ok_grows (bufs s)); [done| |done]. right. eauto.
  - unfold receive in H. destruct (phases _ !! i) as [[b| |]|] eqn:Ei; [|done..].
    destruct (items s !! i) as [it|]; [|done]. cbn [mbind option_bind] in H.
    destruct (if t_closed it then _ else _); injection H as <-; [|by apply pool_ok_end].
    apply pool_ok_phase; [right; by exists (RWait b)|]. apply (pool_ok_grows (bufs s)); [done| |done].
    right. eauto.
  - unfold build in H. destruct (phases _ !! i) as [[|b n|]|] eqn:Ei; [done| |done..].
    destruct (items s !! i) as [it|]; [|done]. cbn [mbind option_bind] in H. cbv zeta in H.
    destruct (frame _ _) as [m| |]; [|injection H as <-; by apply pool_ok_end..].
    destruct (get_put_grows k _ Hf) as (b' & p & E & G & Hb). rewrite E in H.
    assert (Hu : pool_ok (set_pool p (bufs s))) by (apply (pool_ok_grows (bufs s)); [done| |done]; right; eauto).
    assert (Hw : forall c, pool_ok (write_buf b' c (set_pool p (bufs s))))
      by (intros c; apply (pool_ok_grows (set_pool p (bufs s))); [done|right; eauto|done]).
    destruct (Nat.leb (length m) _); [|destruct (Nat.leb (length m - n) _)]; injection H as <-;
      (apply pool_ok_phase; [right; by exists (RHeld b n)|done]).
  - unfold flush in H. destruct (phases _ !! i) as [[| |b x]|] eqn:Ei; [done..| |done].
    destruct (items s !! i) as [it|]; [|done]. cbn [mbind option_bind] in H. injection H as <-.
    apply (pool_ok_phase i (RWait b) s (bufs s)); [|done]. right. by exists (RBuilt b x).
  - unfold others_use in H. destruct (bpool (bufs s)) as [p l] eqn:E.
    destruct (use_step u (p, l)) as [[p' l']|] eqn:Eu; [|done]. injection H as <-.
    apply (pool_ok_grows (bufs s)); [|right; eauto|done]. rewrite E. cbn. by eapply use_grows.
  - injection H as <-. apply (pool_ok_grows (bufs s)); [done| |done]. right. eauto.
Qed.

(** ** Replies that are not disturbed *)

(** [m] is a reply on the stream [j]: what arrived for a session that was opened
    from it, addressed with the source of the session. *)
Definition answers s (j : nat) (m : bytes) : Prop :=
  exists i it d, items s !! i = Some it /\ stream it = j /\ (i, d) ∈ arrived (bufs s) /\ frame (isrc it) d = Ok m.

Record told s : Prop := {
  told_tx : forall j p m, streams s !! j = Some p -> m ∈ tx p.1 -> answers s j m;
  told_held : forall i b n, phases (bufs s) !! i = Some (RHeld b n) ->
    (i, take n (default [] (mem (bufs s) !! b))) ∈ arrived (bufs s);
  told_built : forall i b x, phases (bufs s) !! i = Some (RBuilt b x) ->
    exists it d, items s !! i = Some it /\ (i, d) ∈ arrived (bufs s) /\ frame (isrc it) d = Ok (content (bufs s) x);
}.

(** The steps that leave the buffers, and what was written to the streams, alone *)
Record same s s' : Prop := {
  sm_mem : mem (bufs s') = mem (bufs s);
  sm_arrived : arrived (bufs s') = arrived (bufs s);
  sm_phases : forall i x, phases (bufs s') !! i = Some x -> busy x = true -> phases (bufs s) !! i = Some x;
  sm_items : forall i it, items s !! i = Some it ->
    exists it', items s' !! i = Some it' /\ stream it' = stream it /\ isrc it' = isrc it;
  sm_tx : forall j p, streams s' !! j = Some p -> exists q, streams s !! j = Some q /\ tx p.1 = tx q.1;
}.

Lemma same_of s s' :
  bufs s' = bufs s -> items s' = items s -> streams s' = streams s -> same s s'.
Proof. intros Hb Hi Hj. split; rewrite ?Hb, ?Hi, ?Hj; eauto. Qed.

Lemma same_trans s1 s2 s3 : same s1 s2 -> same s2 s3 -> same s1 s3.
Proof.
  intros [A1 B1 C1 D1 E1] [A2 B2 C2 D2 E2]. split; [congruence|congruence|auto| |].
  - intros i it H. destruct (D1 i it H) as (it1 & H1 & S1 & R1). destruct (D2 i it1 H1) as (it2 & H2 & S2 & R2).
    exists it2. split_and!; [done|congruence|congruence].
  - intros j p H. destruct (E2 j p H) as (q & Hq & Q1). destruct (E1 j q Hq) as (q1 & Hq1 & Q2).
    exists q1. split; [done|congruence].
Qed.

Lemma same_item (f : connItem -> connItem) (i : nat) s : keeps f -> same s (upd_item f i s).
Proof.
  intros Hf. split; cbn; try done; [|by eauto]. intros k it H.
  destruct (item_upd f i k s it Hf H) as (it' & H' & _ & S & R). by exists it'.
Qed.

Lemma same_stream (f : conn * hstate -> conn * hstate) (j : nat) s :
  (forall p, streams s !! j = Some p -> tx (f p).1 = tx p.1) -> same s (upd_stream f j s).
Proof.
  intros Hf. split; cbn; try done; [by eauto|]. intros k p [[_ H]|[<- (q & H & ->)]]%alter_inv; [by exists p|].
  exists q. split; [done|by apply Hf].
Qed.

Lemma same_new (j : nat) (src : bytes) s : same s (new_item resolve j src s).
Proof. split; cbn; try done; [|by eauto]. intros i it H. exists it. split_and!; [by apply lookup_app_l_Some|done..]. Qed.

Lemma same_return (j : nat) s : same s (stream_return j s).
Proof. eapply same_trans; apply same_stream; done. Qed.

Lemma same_end (i b : nat) (it : connItem) s : same s (receiver_end i b it s).
Proof.
  eapply same_trans; [apply (same_of s (set_conns (delete (ikey it) (userConns s)) s)); done|].
  eapply same_trans; [apply (same_stream (fun p => ((Close p.1).2, p.2)) (stream it)); done|].
  eapply same_trans; [apply (same_item close_target i), close_target_keeps|].
  split; cbn; try done; [|by eauto..]. by intros k x [_ H]%lookup_delete_Some.
Qed.

Lemma same_session (i : nat) s : same s (close_session i s).
Proof.
  unfold close_session. destruct (items s !! i) as [it|]; [|by apply same_of].
  eapply same_trans; [by apply (same_stream (fun p => ((Close p.1).2, p.2)) (stream it))|]. by apply same_item.
Qed.

Lemma same_Stop s : same s (Stop s).
Proof.
  assert (H : forall l : list (bytes * nat), same s (foldr (fun kv s => close_session kv.2 s) s l)).
  { induction l as [|kv l IH]; [by apply same_of|]. cbn. eapply same_trans; [exact IH|apply same_session]. }
  unfold Stop. eapply same_trans; [apply H|by apply same_of].
Qed.

Lemma same_stream_read (j : nat) (dialed : bool) s s' : stream_read resolve j dialed s = Some s' -> same s s'.
Proof.
  unfold stream_read. destruct (streams s !! j) as [[c []]|] eqn:Ej; [|done..].
  destruct (stopped s); [intros [= <-]; apply same_return|].
  destruct (if closed c then _ else _) as [o c'] eqn:Er.
  assert (H1 : same s (upd_stream (fun p => (c', p.2)) j s)).
  { apply same_stream. intros p Hp. rewrite Ej in Hp. injection Hp as <-. cbn.
    destruct (closed c); [by injection Er as _ <-|]. unfold on_rx in Er.
    destruct (ParseStreamDatagram (rx c)). by injection Er as _ <-. }
  destruct o as [da|e|]; cbn zeta.
  - set (s2 := add_parsed _ _). assert (H2 : same s s2) by (eapply same_trans; [exact H1|by apply same_of]).
    destruct (userConns _ !! _); [intros [= <-]; eapply same_trans; [exact H2|by apply same_stream]|].
    destruct dialed; intros [= <-]; (eapply same_trans; [exact H2|]); [|apply same_return].
    eapply same_trans; [apply same_new|]. by apply same_stream.
  - intros [= <-]. destruct (retries e); [done|]. eapply same_trans; [exact H1|apply same_return].
  - intros [= <-]. eapply same_trans; [exact H1|apply same_return].
Qed.

Lemma same_stream_send (j : nat) (w : option error) s s' : stream_send j w s = Some s' -> same s s'.
Proof.
  unfold stream_send. destruct (streams s !! j) as [[c [|i d|]]|]; [done| |done..].
  destruct (items s !! i); [|done]. cbn [mbind option_bind]. cbv zeta.
  destruct (if t_closed _ then _ else _); intros [= <-].
  - eapply same_trans; [by apply (same_item (touch (clock s)) i)|apply same_return].
  - eapply same_trans; [by apply (same_item (touch (clock s)) i)|].
    eapply same_trans; [by apply (same_item (write_target d) i)|]. by apply same_stream.
Qed.

Lemma same_watch (e : event) s s' :
  match e with ETick | EItem | ERemove | EClock _ | EStop => True | _ => False end ->
  step udpIdleTime resolve e s = Some s' -> same s s'.
Proof.
  destruct e as [| | | | | | | | | | |d|]; try done; intros _; cbn [step].
  - unfold watch_tick. destruct (stopped s), (snapshot s), (removing s); try done. intros [= <-]. by apply same_of.
  - unfold watch_item. destruct (snapshot s) as [|[k i] rest]; [done|]. destruct (removing s); [done|].
    destruct (items s !! i) as [it|]; [|done]. cbn [mbind option_bind]. intros [= <-].
    eapply same_trans; [by apply (same_of s (set_snapshot rest (now_ s) s))|].
    destruct (_ <? _); [|by apply same_of].
    eapply same_trans; [by apply (same_stream (fun p => ((Close p.1).2, p.2)) (stream it))|].
    eapply same_trans; [by apply (same_item close_target i)|]. by apply same_of.
  - unfold watch_remove. destruct (removing s); [|done]. intros [= <-]. by apply same_of.
  - destruct (0 <=? d); [|done]. intros [= <-]. by apply same_of.
  - destruct (stopped s); [done|]. intros [= <-]. apply same_Stop.
Qed.

Lemma told_same s s' : same s s' -> told s -> told s'.
Proof.
  intros [A B C D E] [F G H].
  assert (Ha : forall j m, answers s j m -> answers s' j m).
  { intros j m (i & it & d & Hi & Hj & Hd & Hm). destruct (D i it Hi) as (it' & Hi' & Hs & Hr).
    exists i, it', d. rewrite B, Hs, Hr. by split_and!. }
  split.
  - intros j p m (q & Hq & Ht)%E Hm. apply Ha. rewrite Ht in Hm. by eapply F.
  - intros i b n Hi. rewrite A, B. by apply G, C.
  - intros i b x Hi. destruct (H i b x) as (it & d & Hi' & Hd & Hf); [by apply C|].
    destruct (D i it Hi') as (it' & Hi2 & Hs & Hr). exists it', d. rewrite B, Hr. split_and!; [done..|].
    rewrite Hf. unfold content. by rewrite A.
Qed.

(** While one receiver is at it, the phases of the others say nothing. *)
Lemma alone_busy (o : option nat) s (i : nat) (x : rphase) :
  alone o s = true -> phases (bufs s) !! i = Some x -> busy x = true -> o = Some i.
Proof.
  intros Ha Hi Hb. unfold alone in Ha. rewrite forallb_forall in Ha. specialize (Ha (i, x)). cbn in Ha.
  rewrite Hb in Ha. cbn in Ha. rewrite orb_false_r, bool_decide_eq_true in Ha. symmetry. apply Ha.
  by apply list_elem_of_In, elem_of_map_to_list.
Qed.

Lemma overwrite_take (m old : bytes) : take (length m) (overwrite m old) = m.
Proof. unfold overwrite. by rewrite take_app_length. Qed.

Lemma told_receive (i : nat) (r : bytes + error) s s' :
  alone (Some i) s = true -> receive i r s = Some s' -> told s -> told s'.
Proof.
  intros Ha H Ht. unfold receive in H. destruct (phases _ !! i) as [[b| |]|] eqn:Ei; [|done..].
  destruct (items s !! i) as [it|] eqn:Hi; [|done]. cbn [mbind option_bind] in H.
  destruct (if t_closed it then _ else _) as [d|e]; injection H as <-; [|by eapply told_same; [apply same_end|]].
  apply (told_same _ _ (same_item (touch (clock s)) i s (touch_keeps_item _))) in Ht.
  set (d' := take _ d). set (s1 := upd_item _ i s) in *. destruct Ht as [F G H].
  assert (Hn : forall k x, phases (bufs (set_phase i (RHeld b (length d'))
    (set_bufs (add_arrived (i, d') (write_buf b d' (bufs s1))) s1))) !! k = Some x -> busy x = true ->
    k = i /\ x = RHeld b (length d')).
  { intros k x Hk Hb. cbn in Hk. apply lookup_insert_Some in Hk as [[<- <-]|[Hn Hk]]; [done|].
    pose proof (alone_busy _ _ _ _ Ha Hk Hb) as [= ->]. done. }
  split.
  - intros j p m Hj Hm. destruct (F j p m Hj Hm) as (k & it' & d0 & Hk & Hs & Hd & Hf).
    exists k, it', d0. split_and!; [done..| |done]. cbn. apply elem_of_app. by left.
  - intros k b' n Hk. destruct (Hn _ _ Hk eq_refl) as [-> [= -> ->]]. cbn. rewrite lookup_insert_eq. cbn.
    rewrite overwrite_take. set_solver.
  - intros k b' x Hk. by destruct (Hn _ _ Hk eq_refl) as [-> ?].
Qed.

Lemma told_build (i pick : nat) s s' :
  alone (Some i) s = true -> build i pick s = Some s' -> told s -> told s'.
Proof.
  intros Ha H Ht. unfold build in H. destruct (phases _ !! i) as [[|b n|]|] eqn:Ei; [done| |done..].
  destruct (items s !! i) as [it|] eqn:Hi; [|done]. cbn [mbind option_bind] in H. cbv zeta in H.
  destruct (frame _ _) as [m| |] eqn:Ef; [|injection H as <-; by eapply told_same; [apply same_end|]..].
  destruct (get_put _ _) as [[b'| |] p]; [|injection H as <-; by eapply told_same; [apply same_end|]..].
  destruct Ht as [F G H'].
  assert (Hgo : forall u x, arrived u = arrived (bufs s) -> phases u = phases (bufs s) -> content u x = m ->
    told (set_phase i (RBuilt b x) (set_bufs u s))).
  { intros u x Hua Hup Hx.
    assert (Hn : forall k y, phases (bufs (set_phase i (RBuilt b x) (set_bufs u s))) !! k = Some y -> busy y = true ->
      k = i /\ y = RBuilt b x).
    { intros k y Hk Hb. cbn in Hk. rewrite Hup in Hk. apply lookup_insert_Some in Hk as [[<- <-]|[Hn Hk]]; [done|].
      by pose proof (alone_busy _ _ _ _ Ha Hk Hb) as [= ->]. }
    split.
    - intros j q y Hj Hm. destruct (F j q y Hj Hm) as (k & it' & d0 & Hk & Hs & Hd & Hf).
      exists k, it', d0. cbn. by rewrite Hua.
    - intros k b0 n0 Hk. by destruct (Hn _ _ Hk eq_refl) as [-> ?].
    - intros k b0 y Hk. destruct (Hn _ _ Hk eq_refl) as [-> [= -> ->]]. exists it, (take n (default [] (mem (bufs s) !! b))).
      cbn. rewrite Hua. split_and!; [done|by apply G|]. rewrite Ef. f_equal. symmetry. exact Hx. }
  destruct (Nat.leb (length m) _); [|destruct (Nat.leb (length m - n) _)]; injection H as <-.
  - apply Hgo; [done..|]. cbn. rewrite lookup_insert_eq. apply overwrite_take.
  - by apply Hgo.
  - by apply Hgo.
Qed.

Lemma write_tx (b m : bytes) (c : conn) : m ∈ tx (Write b c).2 -> m ∈ tx c \/ m = b.
Proof. unfold Write. destruct (wres c) as [|[]]; cbn; set_solver. Qed.

Lemma told_flush (i : nat) s s' : flush i s = Some s' -> told s -> told s'.
Proof.
  intros H [F G K]. unfold flush in H. destruct (phases _ !! i) as [[| |b x]|] eqn:Ei; [done..| |done].
  destruct (items s !! i) as [it|] eqn:Hi; [|done]. cbn [mbind option_bind] in H. injection H as <-.
  destruct (K i b x Ei) as (it' & d & Hit & Hd & Hf). rewrite Hi in Hit. injection Hit as <-. split.
  - intros j p m Hj Hm. cbn in Hj. apply alter_inv in Hj as [[_ Hj]|[<- ([c h] & Hj & ->)]]; [by eapply F|].
    cbn in Hm. destruct (closed c); [by eapply F|]. apply write_tx in Hm as [Hm| ->]; [by eapply F|].
    by exists i, it, d.
  - intros k b' n Hk. cbn in Hk. apply lookup_insert_Some in Hk as [[_ ?]|[_ Hk]]; [done|by apply G].
  - intros k b' y Hk. cbn in Hk. apply lookup_insert_Some in Hk as [[_ ?]|[_ Hk]]; [done|by apply (K k b')].
Qed.

Lemma told_step (e : event) s s' :
  calm e s = true -> told s -> step udpIdleTime resolve e s = Some s' -> told s'.
Proof.
  intros Hc Ht H. destruct e as [j d|j w|i k|i r|i k|i|u|b c| | | |d|]; cbn [step calm] in *;
    [by eapply told_same; [eapply same_stream_read|]|by eapply told_same; [eapply same_stream_send|]|..
    |by eapply told_same; [exact (same_watch ETick _ _ I H)|]|by eapply told_same; [exact (same_watch EItem _ _ I H)|]
    |by eapply told_same; [exact (same_watch ERemove _ _ I H)|]|by eapply told_same; [exact (same_watch (EClock d) _ _ I H)|]
    |by eapply told_same; [exact (same_watch EStop _ _ I H)|]].
  - unfold receiver_start in H. destruct (bool_decide _); [|done]. destruct (phases _ !! i) eqn:Ei; [done|].
    destruct (Pool_Get _ _) as [[b| |] p]; [|done..]. injection H as <-. eapply told_same; [|exact Ht].
    split; cbn; try done; [|by eauto..]. intros k' x [[<- <-]|[_ Hk]]%lookup_insert_Some Hb; [done|exact Hk].
  - by eapply told_receive.
  - by eapply told_build.
  - by eapply told_flush.
  - unfold others_use in H. destruct (use_step _ _) as [q|]; [|done]. injection H as <-. eapply told_same; [|exact Ht].
    split; cbn; by eauto.
  - injection H as <-. destruct Ht as [F G K].
    assert (Hn : forall i x, phases (bufs s) !! i = Some x -> busy x = false).
    { intros i x Hi. destruct (busy x) eqn:Eb; [|done]. by pose proof (alone_busy _ _ _ _ Hc Hi Eb). }
    split; [exact F| |]; cbn; [intros i b' n Hi|intros i b' x Hi]; by apply Hn in Hi.
Qed.

Lemma told_run (es : list event) s s' :
  prompt udpIdleTime resolve es s = true -> told s -> run udpIdleTime resolve es s = Some s' -> told s'.
Proof.
  revert s. induction es as [|e es IH]; intros s Hc Ht; cbn [run prompt] in *; [by intros [= <-]|].
  apply andb_true_iff in Hc as [He Hc]. destruct (step _ _ e s) as [s1|] eqn:E; [|done].
  apply IH; [done|]. by eapply told_step.
Qed.

Lemma told_init (t : Z) (cs : list conn) : Forall (fun c => tx c = []) cs -> told (TCP_init t cap cs).
Proof.
  intros Hcs. split; cbn; [|by intros *; rewrite lookup_empty..].
  intros j p m (c & -> & Hc)%list_lookup_fmap_Some_1. rewrite Forall_lookup in Hcs. cbn. rewrite (Hcs j c Hc).
  by intros ?%not_elem_of_nil.
Qed.

(** ** The states of a run *)

Lemma inv_init (t : Z) (cs : list conn) : tcp_inv (TCP_init t cap cs).
Proof.
  split; cbn; try by intros *; rewrite ?lookup_nil, ?lookup_empty.
  - intros k i H'. by apply not_elem_of_nil in H'.
  - by intros j c i d (c' & ? & _)%list_lookup_fmap_Some_1.
Qed.

Lemma inv_run (es : list event) s s' :
  tcp_inv s -> pool_ok (bufs s) -> run udpIdleTime resolve es s = Some s' -> tcp_inv s' /\ pool_ok (bufs s').
Proof.
  revert s. induction es as [|e es IH]; intros s Hi Hp; cbn [run]; [by intros [= <-]|].
  destruct (step _ _ e s) as [s1|] eqn:E; [|done]. apply IH; [by eapply inv_step|by eapply pool_ok_step].
Qed.

Lemma run_app (es fs : list event) s :
  run udpIdleTime resolve (es ++ fs) s = (s1 ← run udpIdleTime resolve es s; run udpIdleTime resolve fs s1).
Proof. revert s. induction es as [|e es IH]; intros s; [done|]. cbn [run app]. destruct (step _ _ e s); [apply IH|done]. Qed.

Lemma inv_reachable s : reachable s -> tcp_inv s /\ pool_ok (bufs s).
Proof.
  intros (t & cs & es & _ & H). eapply inv_run; [apply inv_init| |exact H].
  split; cbn; [done|by intros b ?%not_elem_of_nil|by intros *; rewrite lookup_empty].
Qed.

(** ** A datagram from one service to the other *)

Lemma alter_at {A} (f : A -> A) (i : nat) (l : list A) (x : A) : l !! i = Some x -> alter f i l !! i = Some (f x).
Proof. intros H. by rewrite list_lookup_alter_eq, H. Qed.

Lemma read_turn (j : nat) (c : conn) (da : Datagram) (r' : reader) s :
  streams s !! j = Some (c, Reading) -> stopped s = false -> closed c = false ->
  ParseStreamDatagram (rx c) = (Ok da, r') ->
  exists i s', stream_read resolve j true s = Some s' /\
    streams s' !! j = Some (mkConn r' (tx c) (wres c) false, Holding i (DData da)) /\
    userConns s' !! AddrSpec_String (Addr da) = Some i /\ clock s' = clock s /\ stopped s' = false /\
    snapshot s' = snapshot s /\ removing s' = removing s /\
    (forall k, k <> AddrSpec_String (Addr da) -> userConns s' !! k = userConns s !! k) /\
    match userConns s !! AddrSpec_String (Addr da) with
    | Some i0 => i = i0 /\ items s' = items s
    | None => i = length (items s) /\ items s' = items s ++
        [mkItem (AddrSpec_String (Addr da)) j (default (lit "<nil>") (resolve (AddrSpec_String (Addr da)))) 0 false []]
    end.
Proof.
  intros Hj Hs Hc Hp. unfold stream_read. rewrite Hj, Hs, Hc, (on_rx_ok _ c da r' Hp). cbn zeta.
  cbn [userConns add_parsed upd_stream set_streams]. rewrite Hc.
  destruct (userConns s !! AddrSpec_String (Addr da)) as [i|] eqn:Eu; eexists _, _; (split; [reflexivity|]);
    cbn; (split; [rewrite (alter_at _ _ _ (mkConn r' (tx c) (wres c) false, Reading));
      [reflexivity|by rewrite (alter_at _ _ _ _ Hj)]|]).
  - by split_and!.
  - split_and!; [by rewrite lookup_insert_eq|done|done|done|done| |done|done].
    intros k Hk. by rewrite lookup_insert_ne.
Qed.

Lemma send_turn (j i : nat) (c : conn) (d : bytes) (it : connItem) s :
  streams s !! j = Some (c, Holding i d) -> items s !! i = Some it -> t_closed it = false ->
  exists s', stream_send j None s = Some s' /\ streams s' !! j = Some (c, Reading) /\
    items s' !! i = Some (mkItem (ikey it) (stream it) (isrc it) (clock s) false (t_sent it ++ [d])) /\
    userConns s' = userConns s /\ receivers s' = receivers s.
Proof.
  intros Hj Hi Hc. unfold stream_send. rewrite Hj, Hi. cbn [mbind option_bind]. rewrite Hc. cbn zeta.
  eexists. split; [reflexivity|]. cbn. split_and!; [by rewrite (alter_at _ _ _ _ Hj)| |done|done].
  rewrite (alter_at _ _ _ (touch (clock s) it)); [|by rewrite (alter_at _ _ _ _ Hi)].
  by unfold write_target, touch; cbn; rewrite Hc.
Qed.

(** What a reply is read back as *)
Lemma frame_reads (src d : bytes) (a : AddrSpec) :
  ParseAddrSpec src = Ok a -> wf_addr a -> len d <= 2097151 ->
  exists m, frame src d = Ok m /\ reads ParseStreamDatagram m (mkDatagram zero a d).
Proof.
  intros Ha Hw Hd. destruct (reads_StreamDatagram (mkStreamDatagram zero a d) Hw Hd) as (bs & Hb & Hr).
  exists bs. split; [|done]. unfold frame. rewrite Ha. cbn [mbind outcome_bind].
  unfold StreamDatagram_Bytes, StreamDatagram_Header, StreamDatagram_values in *.
  destruct (addr_bytes _) as [ab|]; [|done]. destruct (DataLen _) as [[ds n]| |]; [|done..]. exact Hb.
Qed.

(** ** A stream that was closed *)

(** Nothing is read any more from the stream [j], which [n] datagrams came from. *)
Definition parsed_of (j : nat) s : list (nat * bytes * bytes) :=
  List.filter (fun p => Nat.eqb p.1.1 j) (parsed s).
Definition cut (j : nat) (l : list (nat * bytes * bytes)) s : Prop :=
  parsed_of j s = l /\ exists p, streams s !! j = Some p /\ closed p.1 = true.

Lemma cut_stream (f : conn * hstate -> conn * hstate) (j k : nat) (l : list (nat * bytes * bytes)) s :
  (forall p, streams s !! k = Some p -> closed p.1 = true -> closed (f p).1 = true) ->
  cut j l s -> cut j l (upd_stream f k s).
Proof.
  intros Hf (Hp & p & Hj & Hc). split; [done|]. cbn. destruct (decide (k = j)) as [->|Hn].
  - exists (f p). split; [by rewrite (alter_at _ _ _ _ Hj)|]. by apply Hf.
  - exists p. by rewrite list_lookup_alter_ne.
Qed.

Lemma cut_close (j k : nat) (l : list (nat * bytes * bytes)) s : cut j l s -> cut j l (close_stream k s).
Proof. by apply cut_stream. Qed.
Lemma cut_hstate (j k : nat) (h : hstate) (l : list (nat * bytes * bytes)) s : cut j l s -> cut j l (set_hstate k h s).
Proof. by apply cut_stream. Qed.
Lemma cut_return (j k : nat) (l : list (nat * bytes * bytes)) s : cut j l s -> cut j l (stream_return k s).
Proof. intros H. by apply cut_hstate, cut_close. Qed.
#[local] Hint Resolve cut_close cut_hstate cut_return : core.

Lemma cut_read (j k : nat) (dialed : bool) (l : list (nat * bytes * bytes)) s s' :
  cut j l s -> stream_read resolve k dialed s = Some s' -> cut j l s'.
Proof.
  intros Hc. unfold stream_read. destruct (streams s !! k) as [[c []]|] eqn:Ek; [|done..].
  destruct (stopped s); [intros [= <-]; auto|].
  destruct (closed c) eqn:Ec.
  - cbn zeta. intros [= <-]. change (retries ErrClosed) with false. cbv iota. apply cut_return.
    apply cut_stream; [|done]. intros p Hp. rewrite Hp in Ek. by injection Ek as ->.
  - assert (Hn : k <> j).
    { intros ->. destruct Hc as (_ & p & Hp & Hc). rewrite Hp in Ek. injection Ek as ->. cbn in Hc. congruence. }
    destruct (on_rx ParseStreamDatagram c) as [o c'].
    assert (H1 : cut j l (upd_stream (fun p => (c', p.2)) k s)).
    { destruct Hc as (Hp & p & Hj & Hc). split; [done|]. exists p. cbn. by rewrite list_lookup_alter_ne. }
    destruct o as [da|e|]; cbn zeta; [|intros [= <-]; destruct (retries e); auto|intros [= <-]; auto].
    assert (H2 : cut j l (add_parsed (k, AddrSpec_String (Addr da), DData da) (upd_stream (fun p => (c', p.2)) k s))).
    { destruct H1 as (Hp & Hq). split; [|done]. unfold parsed_of in *. cbn in *.
      rewrite List.filter_app, Hp. cbn. rewrite (proj2 (Nat.eqb_neq k j) Hn). by rewrite app_nil_r. }
    destruct (userConns _ !! _); [intros [= <-]; auto|]. destruct dialed; intros [= <-]; [|auto].
    apply cut_hstate. exact H2.
Qed.

Lemma cut_of (j : nat) (l : list (nat * bytes * bytes)) s s' :
  parsed s' = parsed s -> streams s' = streams s -> cut j l s -> cut j l s'.
Proof. intros Hp Hs [H1 H2]. unfold cut, parsed_of in *. by rewrite Hp, Hs. Qed.

Lemma cut_end (i b j : nat) (it : connItem) (l : list (nat * bytes * bytes)) s :
  cut j l s -> cut j l (receiver_end i b it s).
Proof. intros Hc. exact (cut_close j (stream it) l s Hc). Qed.
#[local] Hint Resolve cut_end : core.

Lemma cut_receiver (i pick j : nat) (r : bytes + error) (e : event) (l : list (nat * bytes * bytes)) s s' :
  e = EBegin i pick \/ e = EReceive i r \/ e = EBuild i pick \/ e = EFlush i ->
  cut j l s -> step udpIdleTime resolve e s = Some s' -> cut j l s'.
Proof.
  intros He Hc. destruct He as [-> |[-> |[-> | ->]]]; cbn [step].
  - unfold receiver_start. destruct (bool_decide _); [|done]. destruct (phases _ !! i); [done|].
    destruct (Pool_Get _ _) as [[]]; [|done..]. by intros [= <-].
  - unfold receive. destruct (phases _ !! i) as [[]|]; [|done..]. destruct (items s !! i) as [it|]; [|done].
    cbn [mbind option_bind]. destruct (if t_closed it then _ else _); intros [= <-]; [exact Hc|auto].
  - unfold build. destruct (phases _ !! i) as [[]|]; [done| |done..]. destruct (items s !! i) as [it|]; [|done].
    cbn [mbind option_bind]. cbv zeta. destruct (frame _ _); [|intros [= <-]; auto..].
    destruct (get_put _ _) as [[]]; [|intros [= <-]; auto..]. by destruct (Nat.leb (length a) _); intros [= <-].
  - unfold flush. destruct (phases _ !! i) as [[]|]; [done..| |done]. destruct (items s !! i) as [it|]; [|done].
    cbn [mbind option_bind]. intros [= <-].
    eapply cut_of; [| |eapply (cut_stream _ j (stream it)); [|exact Hc]]; [done|reflexivity|].
    intros [c h] _ Hcl. cbn in *. by rewrite Hcl.
Qed.

Lemma cut_step (e : event) (j : nat) (l : list (nat * bytes * bytes)) s s' :
  cut j l s -> step udpIdleTime resolve e s = Some s' -> cut j l s'.
Proof.
  intros Hc. destruct e as [k d|k w|i k|i r|i k|i|u|b c| | | |d|].
  - by apply cut_read.
  - cbn [step]. unfold stream_send. destruct (streams s !! k) as [[c [|i d|]]|]; [done| |done..].
    destruct (items s !! i); [|done]. cbn [mbind option_bind]. cbv zeta.
    destruct (if t_closed _ then _ else _); intros [= <-]; [by apply cut_return|by apply cut_hstate].
  - eapply (cut_receiver i k j (inr EOF)); [by left|done].
  - eapply (cut_receiver i 0 j r); [by right; left|done].
  - eapply (cut_receiver i k j (inr EOF)); [by right; right; left|done].
  - eapply (cut_receiver i 0 j (inr EOF)); [by right; right; right|done].
  - cbn [step]. unfold others_use. destruct (use_step _ _); [|done]. by intros [= <-].
  - by intros [= <-].
  - cbn [step]. unfold watch_tick. destruct (stopped s); [done|]. destruct (snapshot s); [|done].
    destruct (removing s); [done|]. by intros [= <-].
  - cbn [step]. unfold watch_item. destruct (snapshot s) as [|[k i] rest]; [done|]. destruct (removing s); [done|].
    destruct (items s !! i) as [it|]; [|done]. cbn [mbind option_bind]. intros [= <-].
    destruct (_ <? _); [exact (cut_close j (stream it) l _ Hc)|exact Hc].
  - cbn [step]. unfold watch_remove. destruct (removing s); [|done]. by intros [= <-].
  - cbn [step]. destruct (0 <=? d); [|done]. by intros [= <-].
  - cbn [step]. destruct (stopped s); [done|]. intros [= <-]. unfold Stop.
    assert (H : cut j l (foldr (fun kv s => close_session kv.2 s) s (map_to_list (userConns s)))); [|exact H].
    induction (map_to_list _) as [|kv q IH]; [done|]. cbn. unfold close_session at 1.
    destruct (items _ !! kv.2); [|done]. exact (cut_close j _ l _ IH).
Qed.

Lemma cut_run (es : list event) (j : nat) (l : list (nat * bytes * bytes)) s s' :
  cut j l s -> run udpIdleTime resolve es s = Some s' -> cut j l s'.
Proof.
  revert s. induction es as [|e es IH]; intros s Hi; cbn [run]; [by intros [= <-]|].
  destruct (step _ _ e s) as [s1|] eqn:E; [|done]. apply IH. by eapply cut_step.
Qed.

(** ** A reply that is not disturbed *)

(** The receiver of the session [i], which starts or has written its last reply *)
Definition reply_events (i pick : nat) (data : bytes) s : list event :=
  match phases (bufs s) !! i with Some _ => [] | None => [EBegin i pick] end ++
  [EReceive i (inl data); EBuild i pick; EFlush i].
Definition between_replies (i : nat) s : Prop :=
  forall x, phases (bufs s) !! i = Some x -> busy x = false.

Lemma start_turn (i pick : nat) s :
  i ∈ receivers s -> pool_ok (bufs s) -> between_replies i s ->
  exists b s0, run udpIdleTime resolve (match phases (bufs s) !! i with Some _ => [] | None => [EBegin i pick] end) s = Some s0 /\
    phases (bufs s0) !! i = Some (RWait b) /\ pool_ok (bufs s0) /\
    items s0 = items s /\ streams s0 = streams s /\ clock s0 = clock s.
Proof.
  intros Hr Hp Hb. destruct (phases (bufs s) !! i) as [[b|b n|b x]|] eqn:Ei.
  - exists b, s. by split_and!.
  - by apply Hb in Ei.
  - by apply Hb in Ei.
  - destruct (get_grows pick _ (ok_free _ Hp)) as (b & p & E & _).
    assert (Hs : step udpIdleTime resolve (EBegin i pick) s =
      Some (set_phase i (RWait b) (set_bufs (set_pool p (bufs s)) s))).
    { cbn [step]. unfold receiver_start. by rewrite bool_decide_true, Ei, E. }
    eexists b, _. cbn [run]. rewrite Hs. split; [reflexivity|]. pose proof (pool_ok_step _ _ _ Hp Hs).
    split_and!; [by cbn; rewrite lookup_insert_eq|done..].
Qed.

Lemma receive_turn (i b : nat) (it : connItem) (data : bytes) s :
  phases (bufs s) !! i = Some (RWait b) -> pool_ok (bufs s) -> items s !! i = Some it -> t_closed it = false ->
  exists s1, receive i (inl data) s = Some s1 /\ phases (bufs s1) !! i = Some (RHeld b (length (take cap data))) /\
    take (length (take cap data)) (default [] (mem (bufs s1) !! b)) = take cap data /\
    items s1 !! i = Some (touch (clock s) it) /\ streams s1 = streams s.
Proof.
  intros Hi Hp Hit Hc. unfold receive. rewrite Hi, Hit. cbn [mbind option_bind]. rewrite Hc.
  pose proof (ok_own _ Hp i _ Hi) as Hb. unfold sized in Hb. cbn [own_buf] in Hb. rewrite Hb, (ok_capacity _ Hp).
  generalize (take cap data). intros d. eexists. split; [reflexivity|]. cbn. rewrite !lookup_insert_eq. cbn.
  split_and!; [done|apply overwrite_take|by rewrite (alter_at _ _ _ _ Hit)|done].
Qed.

Lemma build_turn (i b n pick : nat) (it : connItem) (m : bytes) s :
  phases (bufs s) !! i = Some (RHeld b n) -> pool_ok (bufs s) -> items s !! i = Some it ->
  frame (isrc it) (take n (default [] (mem (bufs s) !! b))) = Ok m ->
  exists x s2, build i pick s = Some s2 /\ phases (bufs s2) !! i = Some (RBuilt b x) /\ content (bufs s2) x = m /\
    items s2 = items s /\ streams s2 = streams s.
Proof.
  intros Hi Hp Hit Hf. unfold build. rewrite Hi, Hit. cbn [mbind option_bind]. cbv zeta. rewrite Hf.
  destruct (get_put_grows pick _ (ok_free _ Hp)) as (b' & p & -> & _).
  destruct (Nat.leb (length m) _); eexists _, _; (split; [reflexivity|]); cbn; rewrite !lookup_insert_eq; [|done].
  split_and!; [done|cbn; rewrite lookup_insert_eq; apply overwrite_take|done..].
Qed.

Lemma build_alias (i pick b n b' : nat) (it : connItem) (m : bytes) s (p : pool) :
  phases (bufs s) !! i = Some (RHeld b n) -> items s !! i = Some it ->
  frame (isrc it) (take n (default [] (mem (bufs s) !! b))) = Ok m ->
  get_put pick (bpool (bufs s)).1 = (Ok b', p) -> (length m <= default 0 (caps p !! b'))%nat ->
  exists s', build i pick s = Some s' /\
    bufs s' = set_phases (<[i := RBuilt b (Alias b' (length m))]> (phases (bufs s))) (write_buf b' m (set_pool p (bufs s))) /\
    items s' = items s /\ streams s' = streams s.
Proof.
  intros Hi Hit Hf Hg Hl. unfold build. rewrite Hi, Hit. cbn [mbind option_bind]. cbv zeta. rewrite Hf, Hg.
  rewrite (proj2 (Nat.leb_le _ _) Hl). by eexists.
Qed.

Lemma flush_turn (i b : nat) (x : slice_) (it : connItem) (c : conn) (h : hstate) s :
  phases (bufs s) !! i = Some (RBuilt b x) -> items s !! i = Some it ->
  streams s !! stream it = Some (c, h) -> closed c = false -> wres c = [] ->
  exists s3, flush i s = Some s3 /\
    streams s3 !! stream it = Some (mkConn (rx c) (tx c ++ [content (bufs s) x]) [] false, h).
Proof.
  intros Hi Hit Hj Ho Hw. unfold flush. rewrite Hi, Hit. cbn [mbind option_bind]. eexists. split; [reflexivity|].
  cbn. rewrite (alter_at _ _ _ _ Hj). cbn. by rewrite Ho, Write_ok, Ho by done.
Qed.

(** The receiver turns a datagram of its target into a message on the stream. *)
Lemma reply_turn (i pick : nat) (it : connItem) (c : conn) (h : hstate) (data m : bytes) s :
  i ∈ receivers s -> pool_ok (bufs s) -> between_replies i s -> items s !! i = Some it -> t_closed it = false ->
  streams s !! stream it = Some (c, h) -> closed c = false -> wres c = [] ->
  frame (isrc it) (take cap data) = Ok m ->
  exists s', run udpIdleTime resolve (reply_events i pick data s) s = Some s' /\
    streams s' !! stream it = Some (mkConn (rx c) (tx c ++ [m]) [] false, h).
Proof.
  intros Hr Hp Hb Hi Hc Hj Ho Hw Hf.
  destruct (start_turn i pick s Hr Hp Hb) as (b & s0 & E0 & P0 & K0 & I0 & J0 & _).
  rewrite <- I0 in Hi. rewrite <- J0 in Hj.
  destruct (receive_turn i b it data s0 P0 K0 Hi Hc) as (s1 & E1 & P1 & M1 & I1 & J1).
  assert (K1 : pool_ok (bufs s1)) by (eapply (pool_ok_step (EReceive i (inl data))); [exact K0|exact E1]).
  destruct (build_turn i b _ pick _ m s1 P1 K1 I1) as (x & s2 & E2 & P2 & M2 & I2 & J2); [by rewrite M1|].
  destruct (flush_turn i b x (touch (clock s0) it) c h s2) as (s3 & E3 & J3); [done|by rewrite I2|by rewrite J2, J1|done..|].
  exists s3. unfold reply_events. rewrite run_app, E0. cbn [mbind option_bind run step]. rewrite E1.
  cbn [mbind option_bind]. rewrite E2. cbn [mbind option_bind]. rewrite E3. by rewrite <- M2.
Qed.
End Laws.

Lemma close_session_closed (i k : nat) (s : TCP) (it : connItem) :
  items s !! i = Some it ->
  exists it', items (close_session k s) !! i = Some it' /\ stream it' = stream it /\
    (t_closed it = true \/ k = i -> t_closed it' = true).
Proof.
  intros Hi. unfold close_session. destruct (items s !! k) as [it0|] eqn:Ek.
  - cbn. destruct (decide (k = i)) as [->|Hn].
    + exists (close_target it). by rewrite (alter_at _ _ _ _ Hi).
    + exists it. rewrite list_lookup_alter_ne by done. split_and!; [done|done|]. by intros [?|?].
  - exists it. split_and!; [done|done|]. intros [?| ->]; [done|]. congruence.
Qed.

Lemma close_session_stream (j k : nat) (s : TCP) (p : conn * hstate) :
  streams s !! j = Some p ->
  exists p', streams (close_session k s) !! j = Some p' /\
    (closed p.1 = true \/ (exists it, items s !! k = Some it /\ stream it = j) -> closed p'.1 = true).
Proof.
  intros Hj. unfold close_session. destruct (items s !! k) as [it0|] eqn:Ek.
  - cbn. destruct (decide (stream it0 = j)) as [Hs|Hn].
    + rewrite Hs. exists ((Close p.1).2, p.2). by rewrite (alter_at _ _ _ _ Hj).
    + exists p. rewrite list_lookup_alter_ne by done. split; [done|]. intros [?|(it & [= <-] & ?)]; done.
  - exists p. split; [done|]. by intros [?|(it & ? & _)].
Qed.

(** What the loop of [Stop] closes *)
Lemma close_all (l : list (bytes * nat)) (s : TCP) :
  (forall i it, items s !! i = Some it -> exists it',
     items (foldr (fun kv s => close_session kv.2 s) s l) !! i = Some it' /\ stream it' = stream it /\
     (i ∈ map snd l -> t_closed it' = true)) /\
  (forall i it p, items s !! i = Some it -> streams s !! stream it = Some p -> exists p',
     streams (foldr (fun kv s => close_session kv.2 s) s l) !! stream it = Some p' /\
     (i ∈ map snd l -> closed p'.1 = true)).
Proof.
  induction l as [|[k n] l [IH1 IH2]]; split; cbn [foldr map snd].
  - intros i it Hi. exists it. split_and!; [done|done|]. by intros ?%not_elem_of_nil.
  - intros i it p Hi Hp. exists p. split; [done|]. by intros ?%not_elem_of_nil.
  - intros i it Hi. destruct (IH1 i it Hi) as (it1 & H1 & E1 & C1).
    destruct (close_session_closed i n _ it1 H1) as (it2 & H2 & E2 & C2). exists it2.
    split_and!; [done|congruence|]. intros [->|Hin]%elem_of_cons; apply C2; [by right|left; by apply C1].
  - intros i it p Hi Hp. destruct (IH1 i it Hi) as (it1 & H1 & E1 & _).
    destruct (IH2 i it p Hi Hp) as (p1 & G1 & D1).
    destruct (close_session_stream _ n _ p1 G1) as (p2 & G2 & D2). exists p2. split; [done|].
    intros [->|Hin]%elem_of_cons; apply D2; [right; by exists it1|left; by apply D1].
Qed.

(** What a configuration that passes has *)
Lemma inspectConfig_ok (k : checks) (c : Config) (key : bytes) :
  inspectConfig k c = Ok key ->
  valid k = None /\
  (uses c "tls" = true -> CertFile c <> [] /\ KeyFile c <> [] /\ inspectConfig k c = pair k) /\
  (uses c "stcp" = true -> StcpMethod c ∈ methods k) /\ (RawProxyURL c <> [] -> proxy k = None).
Proof.
  intros E. rewrite E. unfold inspectConfig in E. rewrite outcome_bind_ok in E. destruct E as ([] & E1 & E).
  rewrite outcome_bind_ok in E. destruct E as (key' & E2 & E). rewrite outcome_bind_ok in E. destruct E as ([] & E3 & E).
  rewrite outcome_bind_ok in E. destruct E as ([] & E4 & E). injection E as ->. split_and!.
  - unfold no_error in E1. by destruct (valid k).
  - intros Ht. rewrite Ht in E2. destruct (bool_decide_reflect (CertFile c = [])); [done|].
    destruct (bool_decide_reflect (KeyFile c = [])); [done|]. split_and!; [done..|]. cbn [orb] in E2.
    rewrite outcome_bind_ok in E2. destruct E2 as (key' & E & E2). rewrite outcome_bind_ok in E2.
    destruct E2 as ([] & _ & [= ->]). by rewrite E.
  - intros Hs. rewrite Hs in E3. destruct (bool_decide_reflect (StcpMethod c ∈ methods k)); [done|].
    by cbn [andb negb] in E3.
  - intros Hp. rewrite bool_decide_false in E4 by done. cbn [negb] in E4. by destruct (proxy k).
Qed.

(** * Properties *)

(** C15: the TCP service never mixes its sources up.  In every state it can
    reach: a session in the table is kept under its own source; a handler about to
    write has a datagram it read for that session's source; every datagram sent to
    the UDP parent on a session was read, from some stream, with the session's
    source; and a session whose UDP connection is open has a receiver.  In the runs
    in which nobody else reads or builds a reply, or writes in a buffer of the pool,
    while one receiver is between its read and its write, every message on a stream
    carries what arrived on the UDP connection of a session that was opened from
    that stream, addressed with its source. *)
Theorem tcp_sound (idle : Z) (cap : nat) (resolve : bytes -> option bytes) (s : TCP) :
  reachable idle cap resolve s ->
  (forall k i, userConns s !! k = Some i -> session_of s i k) /\
  (forall j c i d, streams s !! j = Some (c, Holding i d) ->
     exists k, session_of s i k /\ (j, k, d) ∈ parsed s) /\
  (forall i it b, items s !! i = Some it -> b ∈ t_sent it -> exists j, (j, ikey it, b) ∈ parsed s) /\
  (forall i it, items s !! i = Some it -> t_closed it = false -> i ∈ receivers s) /\
  (forall t cs es, run_to idle cap resolve cs t es s -> prompt idle resolve es (TCP_init t cap cs) = true ->
     forall j c h m, streams s !! j = Some (c, h) -> m ∈ tx c ->
       exists i it d, items s !! i = Some it /\ stream it = j /\ (i, d) ∈ arrived (bufs s) /\
         frame (default (lit "<nil>") (resolve (ikey it))) d = Ok m).
Proof.
  intros [[A B C D E F] _]%inv_reachable. split_and!; [exact A|exact C|exact D|exact E|].
  intros t cs es [Hcs Hrun] Hp j c h m Hj Hm.
  assert (Ht : told s) by (eapply told_run; [exact Hp|by apply told_init|exact Hrun]).
  destruct (told_tx _ Ht _ _ _ Hj Hm) as (i & it & d & Hi & Hs & Hd & Hf).
  exists i, it, d. by rewrite <- (F i it Hi).
Qed.

(** C14: a datagram goes through both services.  What the UDP service writes to a
    stream parent for a packet of the source [src], read by the TCP service from a
    stream that is open, however it was cut, is written as the same data on the UDP
    connection kept for that source, dialed now unless the table has an open one;
    and the data that comes back on it, up to the buffer, to a receiver that starts
    or has written its last reply is a message on the stream of the session which
    the UDP service reads as a datagram for what the source resolves to. *)
Theorem udp_over_tcp (idle : Z) (cap : nat) (resolve : bytes -> option bytes) (s : TCP) (j : nat) (c : conn)
    (src d b rsrc : bytes) (a ra : AddrSpec) (tl : list (byte + error)) :
  reachable idle cap resolve s -> stopped s = false ->
  streams s !! j = Some (c, Reading) -> closed c = false ->
  UdpRelay.wire Stream src d = Some b -> ParseAddrSpec src = Ok a -> wf_addr a -> len d <= 2097151 ->
  flat (rx c) = map inl b ++ tl ->
  (forall i it, userConns s !! AddrSpec_String a = Some i -> items s !! i = Some it -> t_closed it = false) ->
  resolve (AddrSpec_String a) = Some rsrc -> ParseAddrSpec rsrc = Ok ra -> wf_addr ra ->
  exists i it c' s', run idle resolve [ERead j true; ESend j None] s = Some s' /\
    userConns s' !! AddrSpec_String a = Some i /\ items s' !! i = Some it /\
    ikey it = AddrSpec_String a /\ t_closed it = false /\ list.last (t_sent it) = Some d /\
    streams s' !! j = Some (c', Reading) /\ flat (rx c') = tl /\ bufs s' = bufs s /\
    forall pick reply ci h, between_replies i s -> streams s' !! stream it = Some (ci, h) ->
      closed ci = false -> wres ci = [] -> len (take cap reply) <= 2097151 ->
      exists m s2, run idle resolve (reply_events i pick reply s) s' = Some s2 /\
        streams s2 !! stream it = Some (mkConn (rx ci) (tx ci ++ [m]) [] false, h) /\
        reads ParseStreamDatagram m (mkDatagram zero ra (take cap reply)).
Proof.
  intros Hr Hst Hj Hc Hb Ha Hw Hd Hf Hopen Hres Hra Hwra. apply inv_reachable in Hr as [Hr Hp0].
  destruct (reads_full (UdpRelay.wire_stream src d b a Ha Hw Hd Hb) (rx c) tl Hf) as (r' & Hp & Hf').
  destruct (read_turn resolve j c (mkDatagram zero a d) r' s Hj Hst Hc Hp)
    as (i & s1 & E1 & Hj1 & Hu1 & _ & _ & _ & _ & _ & Hit). cbn [Addr DData] in *.
  pose proof (inv_stream_read resolve j true s s1 Hr E1) as Hi1.
  destruct (inv_conns _ _ Hi1 _ _ Hu1) as (it & Hi & Hk).
  assert (Ho : t_closed it = false).
  { destruct (userConns s !! AddrSpec_String a) as [i0|] eqn:Eu; destruct Hit as [-> Hits]; rewrite Hits in Hi.
    - by eapply Hopen.
    - rewrite lookup_app_r, Nat.sub_diag in Hi by lia. by injection Hi as <-. }
  destruct (send_turn j i _ d it s1 Hj1 Hi Ho) as (s2 & E2 & Hj2 & Hi2 & Hu2 & Hrc).
  pose proof (inv_src _ _ Hi1 i it Hi) as Hsrc. rewrite Hk, Hres in Hsrc. cbn in Hsrc.
  assert (Hbu : bufs s2 = bufs s) by (by rewrite (stream_send_bufs _ _ _ _ E2), (stream_read_bufs _ _ _ _ _ E1)).
  eexists i, _, _, s2. split_and!; [|by rewrite Hu2|exact Hi2|done|done| |exact Hj2|done|exact Hbu|].
  - cbn [run step]. rewrite E1. cbn [mbind option_bind]. rewrite E2. done.
  - cbn. by rewrite last_snoc.
  - intros pick reply ci h Hbt Hs Hcl Hwr Hlen. cbn [stream] in Hs |- *.
    destruct (frame_reads rsrc (take cap reply) ra Hra Hwra Hlen) as (m & Hm & Hrd).
    destruct (reply_turn idle cap resolve i pick _ ci h reply m s2 ltac:(rewrite Hrc; by eapply inv_open)
      ltac:(by rewrite Hbu) ltac:(unfold between_replies in *; by rewrite Hbu) Hi2 eq_refl Hs Hcl Hwr)
      as (s3 & E3 & H3); [by cbn; rewrite Hsrc|].
    exists m, s3. split_and!; [|done..]. rewrite <- E3. unfold reply_events. by rewrite Hbu.
Qed.

(** C37: an idle session takes the stream with it.  When the collector finds a
    session idle it closes the stream the session came from, whichever other
    sources' sessions share that stream: from then on no datagram is read from the
    stream, whatever happens. *)
Theorem idle_cuts_stream (idle : Z) (resolve : bytes -> option bytes) (s : TCP) (k : bytes) (i : nat)
    (rest : list (bytes * nat)) (it : connItem) (p : conn * hstate) :
  snapshot s = (k, i) :: rest -> removing s = None -> items s !! i = Some it ->
  idle < now_ s - lastActiveTime it -> streams s !! stream it = Some p ->
  exists s1, step idle resolve EItem s = Some s1 /\
    forall es s2, run idle resolve es s1 = Some s2 ->
      parsed_of (stream it) s2 = parsed_of (stream it) s /\
      exists p2, streams s2 !! stream it = Some p2 /\ closed p2.1 = true.
Proof.
  intros Hs Hr Hi Hl Hp. cbn [step]. unfold watch_item. rewrite Hs, Hr, Hi. cbn [mbind option_bind].
  cbn [now_ set_snapshot]. rewrite (proj2 (Z.ltb_lt _ _) Hl). eexists. split; [reflexivity|]. intros es s2 Hrun.
  eapply (cut_run idle resolve); [|exact Hrun]. split; [done|]. cbn.
  exists ((Close p.1).2, p.2). by rewrite (alter_at _ _ _ _ Hp).
Qed.

(** A session can be collected before its first datagram.  A session starts
    with activity time zero and is touched only when its datagram is about to be
    written, so a tick in between finds it idle: the connections are closed, the
    datagram is dropped and the handler of the stream returns. *)
Theorem fresh_session_collected (idle : Z) (resolve : bytes -> option bytes) (s : TCP) (j : nat)
    (c : conn) (r' : reader) (da : Datagram) :
  userConns s = ∅ -> snapshot s = [] -> removing s = None -> stopped s = false -> idle < clock s ->
  streams s !! j = Some (c, Reading) -> closed c = false -> ParseStreamDatagram (rx c) = (Ok da, r') ->
  exists s', run idle resolve [ERead j true; ETick; EItem; ERemove; ESend j None] s = Some s' /\
    streams s' !! j = Some (mkConn r' (tx c) (wres c) true, Returned) /\
    exists it, items s' !! length (items s) = Some it /\ t_closed it = true /\ t_sent it = [] /\
      ikey it = AddrSpec_String (Addr da).
Proof.
  intros Hu Hsn Hrm Hst Hcl Hj Hc Hp. set (k := AddrSpec_String (Addr da)).
  destruct (read_turn resolve j c da r' s Hj Hst Hc Hp)
    as (i & s1 & E1 & Hj1 & Hu1 & Hck & Hst1 & Hsn1 & Hrm1 & Hoth & Hit).
  rewrite Hu, lookup_empty in Hit. destruct Hit as [-> Hits]. fold k in Hu1, Hoth, Hits.
  assert (Hconns : userConns s1 = {[k := length (items s)]}).
  { apply map_eq. intros k'. destruct (decide (k' = k)) as [->|Hn]; [by rewrite Hu1, lookup_singleton_eq|].
    by rewrite Hoth, Hu, lookup_empty, lookup_singleton_ne by done. }
  assert (Hi1 : items s1 !! length (items s) =
    Some (mkItem k j (default (lit "<nil>") (resolve k)) 0 false [])).
  { by rewrite Hits, lookup_app_r, Nat.sub_diag by lia. }
  cbn [run step]. rewrite E1. cbn [mbind option_bind]. unfold watch_tick.
  rewrite Hst1, Hsn1, Hsn, Hrm1, Hrm, Hconns, map_to_list_singleton. cbn [mbind option_bind].
  unfold watch_item. cbn [snapshot set_snapshot removing items now_]. rewrite Hrm1, Hrm, Hi1. cbn [mbind option_bind lastActiveTime].
  rewrite (proj2 (Z.ltb_lt _ _)) by (rewrite Hck; lia). cbn [watch_remove set_removing removing mbind option_bind].
  unfold stream_send. cbn. rewrite (alter_at _ _ _ _ Hj1). cbn. rewrite (alter_at _ _ _ _ Hi1). cbn.
  eexists. split; [reflexivity|]. cbn. split.
  - by rewrite (alter_at _ _ _ _ (alter_at _ _ _ _ (alter_at _ _ _ _ Hj1))).
  - eexists. split; [by rewrite (alter_at _ _ _ _ (alter_at _ _ _ _ Hi1))|done].
Qed.

(** Two replies in one buffer.  The buffer of a reply is put back into the pool
    before the reply is built in it.  When two receivers have read, and the second
    builds its reply between the first one's building and writing, it is handed the
    same buffer: the client of the first is sent the bytes of the second one's
    reply, cut to the length of its own. *)
Theorem replies_share_buffer (idle : Z) (resolve : bytes -> option bytes) (s : TCP) (iA iB bA bB nA nB pick b : nat)
    (itA itB : connItem) (mA mB : bytes) (c : conn) (h : hstate) :
  iA <> iB -> phases (bufs s) !! iA = Some (RHeld bA nA) -> phases (bufs s) !! iB = Some (RHeld bB nB) ->
  items s !! iA = Some itA -> items s !! iB = Some itB ->
  frame (isrc itA) (take nA (default [] (mem (bufs s) !! bA))) = Ok mA ->
  frame (isrc itB) (take nB (default [] (mem (bufs s) !! bB))) = Ok mB ->
  free (bpool (bufs s)).1 !! pick = Some b -> b <> bB ->
  caps (bpool (bufs s)).1 !! b = Some (capacity (bpool (bufs s)).1) ->
  (length mA <= length mB <= capacity (bpool (bufs s)).1)%nat ->
  streams s !! stream itA = Some (c, h) -> closed c = false -> wres c = [] ->
  exists pick' s', run idle resolve [EBuild iA pick; EBuild iB pick'; EFlush iA] s = Some s' /\
    streams s' !! stream itA = Some (mkConn (rx c) (tx c ++ [take (length mA) mB]) [] false, h).
Proof.
  intros Hne HA HB IA IB FA FB Hpk Hbb Hcap Hlen Hj Hcl Hw.
  set (p := (bpool (bufs s)).1) in *.
  assert (E : forall pick f, f !! pick = Some b ->
    get_put pick (mkPool (capacity p) (max_free p) f (caps p)) =
      (Ok b, mkPool (capacity p) (max_free p) (delete pick f ++ [b]) (caps p))).
  { intros k f Hk. unfold get_put, Pool_Get, take_at, Pool_Put, checked_put, mbind, io_bind. cbn.
    rewrite Hk. cbn. by rewrite Hcap, bool_decide_true by done. }
  exists (length (delete pick (free p))).
  destruct (build_alias iA pick bA nA b itA mA s
    (mkPool (capacity p) (max_free p) (delete pick (free p) ++ [b]) (caps p)) HA IA FA) as (s1 & E1 & B1 & I1 & J1).
  { fold p. rewrite <- (E pick (free p) Hpk). by destruct p. }
  { cbn [caps]. rewrite Hcap. cbn. lia. }
  destruct (build_alias iB (length (delete pick (free p))) bB nB b itB mB s1
    (mkPool (capacity p) (max_free p) (delete (length (delete pick (free p))) (delete pick (free p) ++ [b]) ++ [b]) (caps p)))
    as (s2 & E2 & B2 & I2 & J2).
  { rewrite B1. cbn. by rewrite lookup_insert_ne. }
  { by rewrite I1. }
  { rewrite B1. cbn. by rewrite lookup_insert_ne. }
  { rewrite B1. cbn. apply E. by rewrite lookup_app_r, Nat.sub_diag by lia. }
  { cbn [caps]. rewrite Hcap. cbn. lia. }
  cbn [run step]. rewrite E1. cbn [mbind option_bind]. rewrite E2. cbn [mbind option_bind].
  unfold flush. rewrite B2. cbn [phases set_phases set_pool write_buf set_mem].
  rewrite lookup_insert_ne, B1 by done. cbn [phases set_phases set_pool write_buf set_mem].
  rewrite lookup_insert_eq, I2, I1, IA. cbn [mbind option_bind]. eexists. split; [reflexivity|].
  cbn. rewrite J2, J1, (alter_at _ _ _ _ Hj). cbn. rewrite Hcl, Write_ok, Hcl by done. cbn.
  rewrite lookup_insert_eq. cbn. unfold overwrite. by rewrite take_app_le by lia.
Qed.

(** A stream handler cleans up.  Whatever the parent and the copying do, the
    client's connection ends closed.  When a stream parent was dialed, the
    connection to it ends closed too, the table has no entry for the client's
    address any more, and a connection registered there before was closed;
    otherwise the table is as it was. *)
Theorem handler_closes (c : Config) (dial : outcome conn) (srcAddr : bytes) (me : nat)
    (copy : conn -> conn -> conn * conn) (s : stream_state) :
  let s' := handler c dial srcAddr me copy s in
  closed (inConn s') = true /\
  (if bool_decide (ParentType c ∈ map lit ["tcp"; "tls"; "stcp"; "kcp"]%string) then
     match dial with
     | Ok t => targetConn s' = Some (Close (copy (inConn s) t).2).2 /\ s_conns s' = delete srcAddr (s_conns s) /\
         forall o, s_conns s !! srcAddr = Some o -> o ∈ s_closed s'
     | _ => s_conns s' = s_conns s /\ targetConn s' = targetConn s
     end
   else s_conns s' = s_conns s /\ targetConn s' = targetConn s).
Proof.
  cbv zeta. split; [reflexivity|]. unfold handler. case_bool_decide; [|done].
  destruct dial as [t|e|]; [|done..]. unfold stream2stream, io_lift, io_modify, mbind, io_bind. cbn.
  destruct (copy (inConn s) t) as [i t'] eqn:E. cbn.
  split_and!; [done|by rewrite delete_insert_eq|]. intros o ->. set_solver.
Qed.

(** C00: [Stop] ends every session of the table: its UDP connection is closed, and
    so is the stream it came from. *)
Theorem Stop_closes (idle : Z) (cap : nat) (resolve : bytes -> option bytes) (s : TCP) (k : bytes) (i : nat) :
  reachable idle cap resolve s -> userConns s !! k = Some i ->
  stopped (Stop s) = true /\ exists it, items (Stop s) !! i = Some it /\ t_closed it = true /\
    forall p, streams s !! stream it = Some p ->
      exists p', streams (Stop s) !! stream it = Some p' /\ closed p'.1 = true.
Proof.
  intros [Hr _]%inv_reachable Hk. destruct (inv_conns _ _ Hr _ _ Hk) as (it & Hi & _). split; [done|].
  assert (Hin : i ∈ map snd (map_to_list (userConns s))).
  { change i with (k, i).2. by apply (list_elem_of_fmap_2 snd), elem_of_map_to_list. }
  destruct (close_all (map_to_list (userConns s)) s) as [H1 H2].
  destruct (H1 i it Hi) as (it' & Hi' & Hs & Hc). exists it'. split_and!; [done|by apply Hc|].
  intros p Hp. rewrite Hs in *. destruct (H2 i it p Hi Hp) as (p' & Hp' & Hc'). exists p'. split; [done|by apply Hc'].
Qed.

(** C00: [Start] listens exactly when the configuration passes its checks and the
    listener opens, loading a certificate when either end is [tls]; the collector
    runs exactly for a UDP parent, and a start that fails leaves no listener. *)
Theorem Start_ready (k : checks) (listen : outcome unit) (c : Config) :
  let '(o, s) := Start k listen c in
  (o = Ok tt <-> listening s = Some true) /\ (o <> Ok tt -> listening s = None /\ watching s = false /\ cancelled s = true) /\
  (o = Ok tt -> watching s = bool_decide (ParentType c = lit "udp") /\ valid k = None /\
     (uses c "tls" = true -> CertFile c <> [] /\ KeyFile c <> [] /\ inspectConfig k c = pair k) /\
     (uses c "stcp" = true -> StcpMethod c ∈ methods k) /\ (RawProxyURL c <> [] -> proxy k = None)).
Proof.
  unfold Start. destruct (inspectConfig k c) as [key|e|] eqn:E; cbn [mbind outcome_bind]; [|by split_and!..].
  destruct listen as [[]|e|]; [|by split_and!..]. split; [done|]. split; [done|]. intros _. split; [done|].
  rewrite <- E. by apply inspectConfig_ok in E.
Qed.

(** * Witnesses *)

Definition src_a : bytes := lit "10.0.0.1:5000".
Definition src_b : bytes := lit "10.0.0.2:5000".
Definition packet (src d : bytes) : bytes := default [] (UdpRelay.wire Stream src d).

(** One stream that carries datagrams of two sources *)
Definition shared : list conn :=
  [conn_of [Seg (packet src_a (lit "one")); Seg (packet src_b (lit "two")); Seg (packet src_b (lit "three"))]].
Definition two_sources : list event := [ERead 0 true; ESend 0 None; ERead 0 true; ESend 0 None].
Definition after_two (es : list event) : TCP :=
  default (TCP_init 0 1500 []) (run 10 Some (two_sources ++ es) (TCP_init 0 1500 shared)).

Lemma after_two_run : run 10 Some two_sources (TCP_init 0 1500 shared) = Some (after_two []).
Proof. vm_compute. reflexivity. Qed.
Lemma after_two_reachable : reachable 10 1500 Some (after_two []).
Proof. exists 0, shared, two_sources. split; [by repeat constructor|exact after_two_run]. Qed.

(** ... and a reply for the first of them, from a prompt run *)
Definition one_reply : list event := two_sources ++ [EBegin 0 0; EReceive 0 (inl (lit "hi")); EBuild 0 0; EFlush 0].
Definition after_reply : TCP := default (TCP_init 0 1500 []) (run 10 Some one_reply (TCP_init 0 1500 shared)).

Lemma after_reply_run : run_to 10 1500 Some shared 0 one_reply after_reply.
Proof. split; [by repeat constructor|vm_compute; reflexivity]. Qed.

Lemma tcp_sound_witness :
  (exists k, userConns after_reply !! src_b = Some 1%nat /\ session_of after_reply 1 k) /\
  exists c h m, streams after_reply !! 0%nat = Some (c, h) /\ tx c = [m] /\
    exists i d, (i, d) ∈ arrived (bufs after_reply) /\
      exists it, items after_reply !! i = Some it /\ frame (ikey it) d = Ok m.
Proof.
  destruct (tcp_sound 10 1500 Some after_reply (ex_intro _ 0 (ex_intro _ shared (ex_intro _ one_reply after_reply_run))))
    as (H1 & _ & _ & _ & H2).
  split.
  - exists src_b. assert (E : userConns after_reply !! src_b = Some 1%nat) by (vm_compute; reflexivity).
    split; [exact E|]. exact (H1 src_b 1%nat E).
  - destruct (streams after_reply !! 0%nat) as [[c h]|] eqn:E; [|vm_compute in E; discriminate E].
    destruct (tx c) as [|m [|]] eqn:Et; try (vm_compute in E; injection E as <- _; discriminate Et).
    exists c, h, m. split; [reflexivity|]. split; [exact Et|].
    destruct (H2 0 shared one_reply after_reply_run ltac:(vm_compute; reflexivity) 0%nat c h m E)
      as (i & it & d & Hi & _ & Hd & Hf); [rewrite Et; by left|].
    exists i, d. split; [exact Hd|]. exists it. split; [exact Hi|exact Hf].
Defined.

Definition addr_a : AddrSpec := mkAddrSpec [] (IPv4 (z2b 10) (z2b 0) (z2b 0) (z2b 1)) 5000 ATYPIPv4.

Lemma udp_over_tcp_witness :
  exists i it c' s', run 10 Some [ERead 0 true; ESend 0 None] (TCP_init 0 1500 shared) = Some s' /\
    userConns s' !! AddrSpec_String addr_a = Some i /\ items s' !! i = Some it /\
    list.last (t_sent it) = Some (lit "one") /\ streams s' !! 0%nat = Some (c', Reading).
Proof.
  destruct (udp_over_tcp 10 1500 Some (TCP_init 0 1500 shared) 0 (default (conn_of []) (shared !! 0%nat))
    src_a (lit "one") (packet src_a (lit "one")) src_a addr_a addr_a
    (flat [Seg (packet src_b (lit "two")); Seg (packet src_b (lit "three"))]))
    as (i & it & c' & s' & H1 & H2 & H3 & _ & _ & H4 & H5 & _).
  - exists 0, shared, []. split; [by repeat constructor|reflexivity].
  - reflexivity.
  - reflexivity.
  - reflexivity.
  - vm_compute. reflexivity.
  - vm_compute. reflexivity.
  - constructor. lia.
  - vm_compute. discriminate.
  - vm_compute. reflexivity.
  - intros ? ? H. vm_compute in H. discriminate H.
  - vm_compute. reflexivity.
  - vm_compute. reflexivity.
  - constructor. lia.
  - exists i, it, c', s'. exact (conj H1 (conj H2 (conj H3 (conj H4 H5)))).
Defined.

(** The source [src_b] has been active within the idle time, [src_a] has not. *)
Definition before_item : TCP :=
  default (TCP_init 0 1500 []) (run 10 Some
    [ERead 0 true; ESend 0 None; EClock 8; ERead 0 true; ESend 0 None; EClock 4; ETick] (TCP_init 0 1500 shared)).

Lemma idle_cuts_stream_witness :
  exists k i rest it, snapshot before_item = (k, i) :: rest /\ items before_item !! i = Some it /\
    exists s1, step 3 Some EItem before_item = Some s1 /\
      forall es s2, run 3 Some es s1 = Some s2 -> parsed_of (stream it) s2 = parsed_of (stream it) before_item.
Proof.
  destruct (snapshot before_item) as [|[k i] rest] eqn:E; [vm_compute in E; discriminate E|].
  assert (Hi : i = 0%nat \/ i = 1%nat) by (vm_compute in E; injection E as _ <- _; first [by left|by right]).
  destruct (items before_item !! i) as [it|] eqn:Ei.
  2: { destruct Hi as [-> | ->]; vm_compute in Ei; discriminate Ei. }
  exists k, i, rest, it. split; [reflexivity|]. split; [exact Ei|].
  destruct (streams before_item !! stream it) as [p|] eqn:Ep.
  2: { destruct Hi as [-> | ->]; vm_compute in Ei; injection Ei as <-; vm_compute in Ep; discriminate Ep. }
  destruct (idle_cuts_stream 3 Some before_item k i rest it p) as (s1 & H1 & H2); [exact E|reflexivity|exact Ei| |exact Ep|].
  - destruct Hi as [-> | ->]; vm_compute in Ei; injection Ei as <-; vm_compute; reflexivity.
  - exists s1. split; [exact H1|]. intros es s2 H. exact (proj1 (H2 es s2 H)).
Defined.

Lemma fresh_session_collected_witness :
  exists s', run 10 Some [ERead 0 true; ETick; EItem; ERemove; ESend 0 None] (TCP_init 100 1500 shared) = Some s' /\
    exists it, items s' !! 0%nat = Some it /\ t_closed it = true /\ t_sent it = [].
Proof.
  destruct (fresh_session_collected 10 Some (TCP_init 100 1500 shared) 0 (default (conn_of []) (shared !! 0%nat))
    [Seg (packet src_b (lit "two")); Seg (packet src_b (lit "three"))] (mkDatagram zero addr_a (lit "one")))
    as (s' & H1 & _ & it & H2 & H3 & H4 & _); [reflexivity..|vm_compute; reflexivity|].
  exists s'. split; [exact H1|]. exists it. exact (conj H2 (conj H3 H4)).
Defined.

(** Two clients on a stream each, whose receivers have read a datagram; the pool has
    one more buffer. *)
Definition two_held : TCP :=
  default (TCP_init 0 1500 []) (run 10 Some
    [ERead 0 true; ESend 0 None; ERead 1 true; ESend 1 None; EBegin 0 0; EBegin 1 0; EUse (UGet 0); EUse (UPut 2);
     EReceive 0 (inl (lit "for A")); EReceive 1 (inl (lit "for B!"))]
    (TCP_init 0 1500 [conn_of [Seg (packet src_a (lit "one"))]; conn_of [Seg (packet src_b (lit "two"))]])).
Definition reply_of (src d : bytes) : bytes := match frame src d with Ok m => m | _ => [] end.

Lemma replies_share_buffer_witness :
  exists pick' s' c h, run 10 Some [EBuild 0 0; EBuild 1 pick'; EFlush 0] two_held = Some s' /\
    streams s' !! 0%nat = Some (c, h) /\
    tx c = [take (length (reply_of src_a (lit "for A"))) (reply_of src_b (lit "for B!"))].
Proof.
  destruct (items two_held !! 0%nat) as [itA|] eqn:IA; [|vm_compute in IA; discriminate IA].
  destruct (items two_held !! 1%nat) as [itB|] eqn:IB; [|vm_compute in IB; discriminate IB].
  destruct (streams two_held !! stream itA) as [[c h]|] eqn:EJ;
    [|vm_compute in IA; injection IA as <-; vm_compute in EJ; discriminate EJ].
  assert (HsA : isrc itA = src_a /\ stream itA = 0%nat) by (vm_compute in IA; injection IA as <-; split; reflexivity).
  assert (HsB : isrc itB = src_b) by (vm_compute in IB; injection IB as <-; reflexivity).
  assert (Hc : closed c = false /\ wres c = [] /\ tx c = [])
    by (rewrite (proj2 HsA) in EJ; vm_compute in EJ; injection EJ as <- <-; repeat split).
  destruct (replies_share_buffer 10 Some two_held 0 1 0 1 5 6 0 2 itA itB
    (reply_of src_a (lit "for A")) (reply_of src_b (lit "for B!")) c h) as (pick' & s' & H1 & H2).
  - discriminate.
  - vm_compute; reflexivity.
  - vm_compute; reflexivity.
  - exact IA.
  - exact IB.
  - rewrite (proj1 HsA). vm_compute. reflexivity.
  - rewrite HsB. vm_compute. reflexivity.
  - vm_compute. reflexivity.
  - discriminate.
  - vm_compute. reflexivity.
  - split; apply Nat.leb_le; vm_compute; reflexivity.
  - exact EJ.
  - exact (proj1 Hc).
  - exact (proj1 (proj2 Hc)).
  - rewrite (proj2 HsA), (proj2 (proj2 Hc)) in H2. eexists pick', s', _, h. split; [exact H1|]. split; [exact H2|reflexivity].
Defined.

Lemma Stop_closes_witness :
  exists it, items (Stop (after_two [])) !! 0%nat = Some it /\ t_closed it = true.
Proof.
  destruct (Stop_closes 10 1500 Some (after_two []) src_a 0 after_two_reachable) as (_ & it & H1 & H2 & _);
    [vm_compute; reflexivity|].
  exists it. exact (conj H1 H2).
Defined.
