(* ===== verification/Through.v ===== *)
(** pkg/through: the negotiate and handshake requests of the tunnel nodes, which
    carry a protocol buffer inside a captain request.  Marshalling is a class
    with its round-trip law; the generated message types are records. *)
From S2P Require Import Prelude GoStrings GoNet GoIO Captain.
Open Scope Z_scope.

Definition ThroughVersion : byte := z2b 1.

Definition TypesUnknown : byte := z2b 0.
Definition TypesClient : byte := z2b 1.
Definition TypesServer : byte := z2b 2.

Definition RepSuccess : byte := z2b 0.
Definition RepFailure : byte := z2b 1.
Definition RepServerFailure : byte := z2b 2.
Definition RepNetworkUnreachable : byte := z2b 3.
Definition RepTypesNotSupport : byte := z2b 4.
Definition RepConnectionRefused : byte := z2b 5.

(** [Types.String()]: names and the generated index table *)
Definition Types_name : bytes := lit "TypesUnknownTypesClientTypesServer".
Definition Types_index : list Z := [0; 12; 23; 34].
Definition Types_String (i : byte) : outcome bytes :=
  if (len Types_index - 1) <=? b2z i then Ok (lit "Types(" ++ Itoa (b2z i) ++ lit ")")
  else
    a ← idx Types_index (b2z i);
    b ← idx Types_index (b2z i + 1);
    slice Types_name a b.

(** * Messages of pkg/through/ddt *)

Inductive Network := Network_TCP | Network_UDP.

Record NegotiateMsg := mkNego { SecretKey : bytes; Id : bytes }.
Record HandshakeMsg := mkHand {
  NodeId : bytes; SessionId : bytes; Protocol : Network; Host : bytes; HPort : Z
}.

(** [proto.Marshal] and [proto.Unmarshal] for a message type *)
Class Proto (M : Type) := {
  Marshal : M -> outcome bytes;
  Unmarshal : bytes -> outcome M;
}.
Class ProtoLaws (M : Type) `{!Proto M} := {
  Unmarshal_Marshal : forall m b, Marshal m = Ok b -> Unmarshal b = Ok m;
}.

Section Messages.
Context `{!Proto NegotiateMsg} `{!Proto HandshakeMsg}.

Record NegotiateRequest := mkNegotiate { NTypes : byte; NVersion : byte; Nego : NegotiateMsg }.
Record HandshakeRequest := mkHandshake { HVersion : byte; Hand : HandshakeMsg }.

Definition ParseNegotiateRequest : io reader NegotiateRequest :=
  tr ← ParseRequest;
  m ← io_lift (Unmarshal (RData tr));
  mret (mkNegotiate (Types tr) (Version tr) m).

Definition NegotiateRequest_Bytes (sf : NegotiateRequest) : outcome bytes :=
  data ← Marshal (Nego sf);
  Request_Bytes (mkRequest (NTypes sf) (NVersion sf) data).

Definition ParseHandshakeRequest : io reader HandshakeRequest :=
  tr ← ParseRequest;
  m ← io_lift (Unmarshal (RData tr));
  mret (mkHandshake (Version tr) m).

Definition HandshakeRequest_Bytes (sf : HandshakeRequest) : outcome bytes :=
  data ← Marshal (Hand sf);
  Request_Bytes (mkRequest zero (HVersion sf) data).

(** * Laws *)

Lemma Request_Bytes_len (r : Request) (b : bytes) :
  Request_Bytes r = Ok b -> len (RData r) <= 2097151.
Proof.
  unfold Request_Bytes, Request_value, DataLen.
  destruct (Z.ltb_spec (len (RData r)) 0), (Z.ltb_spec 2097151 (len (RData r))); cbn; try done; lia.
Qed.

Lemma reads_Request (r : Request) (b : bytes) :
  Request_Bytes r = Ok b -> reads ParseRequest b r.
Proof.
  intros H. pose proof (Request_Bytes_len r b H) as Hl.
  destruct r as [t v data]. cbn in Hl.
  destruct (DataLen_varint (len data)) as (ds & k & HD & Hk & _); [lia|].
  unfold Request_Bytes, Request_value in H. cbn [RData] in H. rewrite HD in H.
  unfold mbind, outcome_bind in H. injection H as <-. cbn [Types Version].
  rewrite Hk. change (reads ParseRequest ([t; v] ++ (varint (len data) ++ data)) (mkRequest t v data)).
  eapply reads_bind; [by apply reads_ReadFull|].
  do 2 (eapply reads_lift; [reflexivity|]).
  eapply reads_bind; [apply reads_ParseDataLen; lia|].
  eapply reads_bind_nil; [apply reads_ReadFull; lia|]. apply reads_ret.
Qed.

Lemma reads_Negotiate `{!ProtoLaws NegotiateMsg} (sf : NegotiateRequest) (b : bytes) :
  NegotiateRequest_Bytes sf = Ok b -> reads ParseNegotiateRequest b sf.
Proof.
  unfold NegotiateRequest_Bytes. rewrite outcome_bind_ok. intros (data & Hm & Hb).
  eapply reads_bind_nil; [by apply reads_Request|]. cbn [RData Types Version].
  eapply reads_lift; [by apply Unmarshal_Marshal|]. destruct sf. apply reads_ret.
Qed.

Lemma reads_Handshake `{!ProtoLaws HandshakeMsg} (sf : HandshakeRequest) (b : bytes) :
  HandshakeRequest_Bytes sf = Ok b -> reads ParseHandshakeRequest b sf.
Proof.
  unfold HandshakeRequest_Bytes. rewrite outcome_bind_ok. intros (data & Hm & Hb).
  eapply reads_bind_nil; [by apply reads_Request|]. cbn [RData Types Version].
  eapply reads_lift; [by apply Unmarshal_Marshal|]. destruct sf. apply reads_ret.
Qed.

End Messages.

(** [Types.String] never reads outside its table. *)
Lemma Types_String_total (i : byte) : exists s, Types_String i = Ok s.
Proof.
  destruct i as [[] [] [] [] [] [] [] []]; eexists; vm_compute; reflexivity.
Qed.

(** * A concrete encoding *)
Module Sample.

(** Fields with a length byte in front *)
Definition put (f : bytes) : outcome bytes :=
  if len f <? 256 then Ok (z2b (len f) :: f) else Fail (ErrMsg "field too long").
Definition get (b : bytes) : outcome (bytes * bytes) :=
  match b with
  | [] => Fail (ErrMsg "unexpected end")
  | n :: t =>
      if Nat.leb (Z.to_nat (b2z n)) (length t)
      then Ok (take (Z.to_nat (b2z n)) t, drop (Z.to_nat (b2z n)) t)
      else Fail (ErrMsg "unexpected end")
  end.

Lemma get_put (f b q : bytes) : put f = Ok b -> get (b ++ q) = Ok (f, q).
Proof.
  unfold put. destruct (Z.ltb_spec (len f) 256); [|done]. intros [= <-]. cbn [app get].
  rewrite b2z_z2b_small by lia. rewrite Nat2Z.id.
  rewrite (proj2 (Nat.leb_le _ _)) by (rewrite length_app; lia).
  by rewrite take_app_length, drop_app_length.
Qed.

#[export] Instance sample_nego : Proto NegotiateMsg := {
  Marshal := fun m => a ← put (SecretKey m); b ← put (Id m); Ok (a ++ b);
  Unmarshal := fun b => '(sk, q) ← get b; '(i, _) ← get q; Ok (mkNego sk i);
}.

#[export] Instance sample_nego_laws : ProtoLaws NegotiateMsg.
Proof.
  split. intros [sk i] b. cbn. destruct (put sk) as [a| |] eqn:E1; cbn; try done.
  destruct (put i) as [c| |] eqn:E2; cbn; try done. intros [= <-].
  rewrite (get_put sk) by done. cbn. rewrite <- (app_nil_r c), (get_put i) by done. done.
Qed.

#[export] Instance sample_hand : Proto HandshakeMsg := {
  Marshal := fun m =>
    a ← put (NodeId m); b ← put (SessionId m); h ← put (Host m); p ← put (Itoa (HPort m));
    if (0 <=? HPort m) && (HPort m <? 65536) then
      Ok (a ++ b ++ h ++ p ++ [match Protocol m with Network_TCP => zero | Network_UDP => one end])
    else Fail (ErrMsg "port");
  Unmarshal := fun b =>
    '(n, q) ← get b; '(s, q) ← get q; '(h, q) ← get q; '(p, q) ← get q;
    port ← Atoi p;
    Ok (mkHand n s (if bool_decide (q = [zero]) then Network_TCP else Network_UDP) h port);
}.

#[export] Instance sample_hand_laws : ProtoLaws HandshakeMsg.
Proof.
  split. intros [n s pr h p] b. cbn.
  destruct (put n) as [a| |] eqn:E1; cbn; try done.
  destruct (put s) as [c| |] eqn:E2; cbn; try done.
  destruct (put h) as [d| |] eqn:E3; cbn; try done.
  destruct (put (Itoa p)) as [e| |] eqn:E4; cbn; try done.
  destruct (Z.leb_spec 0 p), (Z.ltb_spec p 65536); cbn; try done. intros [= <-].
  rewrite (get_put n) by done. cbn. rewrite (get_put s) by done. cbn.
  rewrite (get_put h) by done. cbn. rewrite (get_put (Itoa p)) by done. cbn.
  rewrite Atoi_Itoa by (unfold max_int64; lia). cbn. by destruct pr.
Qed.

End Sample.
