(* ===== verification/Mux.v ===== *)
(** services/mux: the tunnel.  A bridge accepts negotiated connections of server
    nodes and client nodes; a stream a server node opens is joined with a stream
    of the client node registered under the same secret key.  The smux library,
    the dials and the clock are inputs: a session is an entry of a heap, and
    creating one succeeds or fails as given.  Logging is left out. *)
From S2P Require Import Prelude GoStrings GoNet GoIO Captain Through.
Open Scope Z_scope.

(** * The bridge (bridge.go) *)

(** A [*smux.Session]: what it was negotiated with, and [IsClosed()] *)
Record session := mkSession { s_key : bytes; s_types : byte; s_closed : bool }.

Record Bridge := mkBridge {
  clientSession : gmap bytes nat;        (** secret key to session *)
  serverSession : gmap bytes nat;        (** remote address to session *)
  sessions : gmap nat session;
  b_snapshot : list (bytes * nat);       (** what is left of the collector's [Items()] *)
  b_removing : option bytes;             (** the key it will remove *)
}.

Definition NewBridge : Bridge := mkBridge ∅ ∅ ∅ [] None.

Definition set_client m b := mkBridge m (serverSession b) (sessions b) (b_snapshot b) (b_removing b).
Definition set_server m b := mkBridge (clientSession b) m (sessions b) (b_snapshot b) (b_removing b).
Definition set_sessions m b := mkBridge (clientSession b) (serverSession b) m (b_snapshot b) (b_removing b).
Definition set_gc l r b := mkBridge (clientSession b) (serverSession b) (sessions b) l r.

Definition next_session (b : Bridge) : nat := fresh (dom (sessions b) : gset nat).

(** [session.Close()] *)
Definition close_session (i : nat) (b : Bridge) : Bridge :=
  set_sessions (alter (fun s => mkSession (s_key s) (s_types s) true) i (sessions b)) b.

(** A bridge with the connection a handler works on *)
Record hstate := mkH { br : Bridge; inConn : conn }.
Definition on_conn {A} (m : io conn A) : io hstate A := fun s =>
  let '(o, c) := m (inConn s) in (o, mkH (br s) c).
Definition on_bridge (f : Bridge -> Bridge) : io hstate unit :=
  io_modify (fun s => mkH (f (br s)) (inConn s)).
(** A call whose error is dropped *)
Definition try_ {S} (m : io S unit) : io S unit := _ ← io_try m; mret tt.

(** What becomes of a connection the handler accepted *)
Inductive handled :=
  | Dropped
  | ServerNode (i : nat) (key id : bytes)
  | ClientNode (i : nat) (key : bytes).

Section Nodes.
Context `{!Proto NegotiateMsg} `{!Proto HandshakeMsg}.

(** [smux.Server]/[smux.Client]: a new session, when [ok] *)
Definition new_session (ok : bool) (nego : NegotiateRequest) : io hstate (option nat) := fun s =>
  if ok then
    let i := next_session (br s) in
    (Ok (Some i),
     mkH (set_sessions (<[i := mkSession (SecretKey (Nego nego)) (NTypes nego) false]> (sessions (br s)))
            (br s)) (inConn s))
  else (Ok None, s).

(** [Upsert] with the callback that closes the value it replaces *)
Definition upsert_client (key : bytes) (i : nat) (b : Bridge) : Bridge :=
  let b := match clientSession b !! key with Some j => close_session j b | None => b end in
  set_client (<[key := i]> (clientSession b)) b.
Definition upsert_server (addr : bytes) (i : nat) (b : Bridge) : Bridge :=
  let b := match serverSession b !! addr with Some j => close_session j b | None => b end in
  set_server (<[addr := i]> (serverSession b)) b.

(** [Bridge.handler] up to the accept loop; [addr] is the remote address and
    [ok] whether the smux session can be created. *)
Definition handler (addr : bytes) (ok : bool) : io hstate handled :=
  r ← io_try (on_conn (on_rx ParseNegotiateRequest));
  match r with
  | inr _ => on_conn Close;; mret Dropped
  | inl negos =>
      if bool_decide (NTypes negos = TypesServer) then
        s ← new_session ok negos;
        match s with
        | None =>
            on_conn (try_ (Write [RepServerFailure; ThroughVersion]));;
            on_conn Close;; mret Dropped
        | Some i =>
            on_bridge (upsert_server addr i);;
            on_conn (try_ (SendReply RepSuccess ThroughVersion));;
            mret (ServerNode i (SecretKey (Nego negos)) (Id (Nego negos)))
        end
      else if bool_decide (NTypes negos = TypesClient) then
        s ← new_session ok negos;
        match s with
        | None =>
            on_conn (try_ (SendReply RepServerFailure ThroughVersion));;
            on_conn Close;; mret Dropped
        | Some i =>
            on_conn (try_ (SendReply RepSuccess ThroughVersion));;
            on_bridge (upsert_client (SecretKey (Nego negos)) i);;
            mret (ClientNode i (SecretKey (Nego negos)))
        end
      else
        on_conn (try_ (SendReply RepTypesNotSupport ThroughVersion));; mret Dropped
  end.

(** The deferred function of a server node's accept loop, on the bridge *)
Definition server_release (addr : bytes) (i : nat) (b : Bridge) : Bridge :=
  close_session i (set_server (delete addr (serverSession b)) b).

(** One attempt of [proxyStream] to open a stream for a server node's stream with
    key [sk]: [died] is whether that stream has ended, [opened] what
    [OpenStream] gives. *)
Inductive attempt := Opened (i : nat) | Permanent (e : error) | Retry (e : error).

Definition ErrClosedPipe : error := ErrMsg "io: read/write on closed pipe".

Definition proxy_attempt (sk : bytes) (died : bool) (opened : option error) (b : Bridge) : attempt :=
  if died then Permanent ErrClosedPipe
  else
    match clientSession b !! sk with
    | None => Retry (ErrMsg "client not exists")
    | Some i =>
        if match sessions b !! i with Some s => s_closed s | None => true end then Permanent ErrClosedPipe
        else
          match opened with
          | None => Opened i
          | Some e => if bool_decide (e = ErrClosedPipe) then Permanent ErrClosedPipe else Retry e
          end
    end.

(** The retries of [proxyStream]: at most ten after the first attempt, on the
    bridges and inputs met at those moments *)
Fixpoint proxy_retry (retries : nat) (sk : bytes) (views : list (bool * option error * Bridge))
  {struct views} : outcome nat :=
  match views with
  | [] => Fail ErrClosed   (** the context is done *)
  | (died, opened, b) :: views =>
      match proxy_attempt sk died opened b with
      | Opened i => Ok i
      | Permanent e => Fail e
      | Retry e => match retries with O => Fail e | S n => proxy_retry n sk views end
      end
  end.
Definition proxyStream (sk : bytes) (views : list (bool * option error * Bridge)) : outcome nat :=
  proxy_retry 10 sk views.

(** [Bridge.Stop] closes every registered session. *)
Definition Bridge_Stop (b : Bridge) : Bridge :=
  let b := foldr (fun kv b => close_session kv.2 b) b (map_to_list (clientSession b)) in
  foldr (fun kv b => close_session kv.2 b) b (map_to_list (serverSession b)).

(** The collector of [NewBridge]: a tick, one entry of the snapshot, the removal *)
Definition gc_tick (b : Bridge) : option Bridge :=
  match b_snapshot b, b_removing b with
  | [], None => Some (set_gc (map_to_list (clientSession b)) None b)
  | _, _ => None
  end.

Definition gc_item (b : Bridge) : option Bridge :=
  match b_snapshot b, b_removing b with
  | (k, i) :: l, None =>
      if match sessions b !! i with Some s => s_closed s | None => true end
      then Some (set_gc l (Some k) (close_session i b))
      else Some (set_gc l None b)
  | _, _ => None
  end.

Definition gc_remove (b : Bridge) : option Bridge :=
  match b_removing b with
  | Some k => Some (set_gc (b_snapshot b) None (set_client (delete k (clientSession b)) b))
  | None => None
  end.

(** ** Runs of the bridge *)

Inductive bevent :=
  | BConnect (addr : bytes) (ok : bool) (c : conn)  (** a connection is handled *)
  | BRelease (addr : bytes) (i : nat)
  | BClosed (i : nat)                               (** a session ends by itself *)
  | BTick | BItem | BRemove
  | BStop.

Definition bstep (e : bevent) (b : Bridge) : option Bridge :=
  match e with
  | BConnect addr ok c => Some (br (handler addr ok (mkH b c)).2)
  | BRelease addr i =>
      match sessions b !! i with
      | Some s => if bool_decide (s_types s = TypesServer) then Some (server_release addr i b) else None
      | None => None
      end
  | BClosed i => Some (close_session i b)
  | BTick => gc_tick b
  | BItem => gc_item b
  | BRemove => gc_remove b
  | BStop => Some (Bridge_Stop b)
  end.

Fixpoint brun (es : list bevent) (b : Bridge) : option Bridge :=
  match es with
  | [] => Some b
  | e :: es => match bstep e b with Some b => brun es b | None => None end
  end.

(** * The nodes (server.go, client.go) *)

(** The negotiation a node starts on its connection to the bridge *)
Definition negotiate_with (types : byte) (key id : bytes) : io conn Reply :=
  data ← io_lift (NegotiateRequest_Bytes (mkNegotiate types ThroughVersion (mkNego key id)));
  Write data;;
  on_rx ParseReply.

(** [Server.GetConn] without a session: the connection is closed when the write
    or the reply fails, and only then. *)
Definition server_negotiate (key id : bytes) : io conn unit :=
  data ← io_lift (NegotiateRequest_Bytes (mkNegotiate TypesServer ThroughVersion (mkNego key id)));
  w ← io_try (Write data);
  match w with
  | inr e => Close;; io_fail e
  | inl _ =>
      r ← io_try (on_rx ParseReply);
      match r with
      | inr e => Close;; io_fail e
      | inl tr =>
          if negb (bool_decide (Status tr = RepSuccess)) then io_fail (ErrMsg "bridge response error")
          else mret tt
      end
  end.

(** The client node's attempt of [Client.Start]: its connection is closed on
    every error by a deferred call. *)
Definition client_negotiate (key : bytes) : io conn unit := fun c =>
  let m :=
    tr ← negotiate_with TypesClient key (lit "reserved");
    if negb (bool_decide (Status tr = RepSuccess)) then io_fail (ErrMsg "bridge response error")
    else mret tt in
  match m c with
  | (Ok _, c) => (Ok tt, c)
  | (o, c) => (o, (Close c).2)
  end.

(** [Server.dialThroughRemote] on the stream [GetConn] opened: the handshake *)
Definition dialThroughRemote (nodeId sessId : bytes) (isUDP : bool) (host : bytes) (port : Z)
  : io conn unit :=
  let proto := if isUDP then Network_UDP else Network_TCP in
  match HandshakeRequest_Bytes (mkHandshake ThroughVersion (mkHand nodeId sessId proto host port)) with
  | Fail e => Close;; io_fail e
  | Panic => io_panic
  | Ok b =>
      w ← io_try (Write b);
      match w with
      | inr e => Close;; io_fail e
      | inl _ => mret tt
      end
  end.

(** What a client node does with a stream: the protocol and the local address *)
Definition client_stream : io conn (Network * bytes * bytes) :=
  hand ← on_rx ParseHandshakeRequest;
  let h := Hand hand in
  mret (Protocol h, JoinHostPort (Host h) (Itoa (HPort h)), SessionId h).

(** [Server.inspectConfig]'s route: protocol://local@[key]host:port *)
Definition parse_route (route : bytes) : outcome (bool * bytes * bytes) :=
  let isUDP := HasPrefix route (lit "udp://") in
  let info := TrimPrefix (TrimPrefix route (lit "udp://")) (lit "tcp://") in
  match Split info (lit "@") with
  | [l; r] =>
      if bool_decide (l = []) || bool_decide (r = []) then Fail (ErrMsg "invalid route format")
      else Ok (isUDP, l, r)
  | _ => Fail (ErrMsg "invalid route format")
  end.

End Nodes.

(** * Laws of the bridge *)

Definition client_of (b : Bridge) (i : nat) (k : bytes) : Prop :=
  exists s, sessions b !! i = Some s /\ s_key s = k /\ s_types s = TypesClient.
Definition server_of (b : Bridge) (i : nat) : Prop :=
  exists s, sessions b !! i = Some s /\ s_types s = TypesServer.

Record bridge_inv (b : Bridge) : Prop := {
  bi_client : forall k i, clientSession b !! k = Some i -> client_of b i k;
  bi_server : forall a i, serverSession b !! a = Some i -> server_of b i;
  bi_snapshot : Forall (fun p => client_of b p.2 p.1) (b_snapshot b);
}.

(** Later heaps have the same sessions, perhaps closed. *)
Definition extends (b b' : Bridge) : Prop :=
  forall i s, sessions b !! i = Some s ->
    exists s', sessions b' !! i = Some s' /\ s_key s' = s_key s /\ s_types s' = s_types s.

#[export] Instance extends_preorder : PreOrder extends.
Proof.
  split; [intros b i s Hs; by exists s|]. intros b1 b2 b3 H1 H2 i s Hs.
  destruct (H1 i s Hs) as (s' & Hs' & ? & ?). destruct (H2 i s' Hs') as (s2 & ? & ? & ?).
  exists s2. split_and!; congruence.
Qed.

Lemma extends_same (b b' : Bridge) : sessions b' = sessions b -> extends b b'.
Proof. intros E i s Hi. exists s. by rewrite E. Qed.

Lemma extends_close (i : nat) (b : Bridge) : extends b (close_session i b).
Proof.
  intros j s Hj. cbn. destruct (decide (i = j)) as [->|Hn].
  - rewrite lookup_alter_eq, Hj. by eexists.
  - rewrite lookup_alter_ne by done. by exists s.
Qed.

Lemma client_extends (b b' : Bridge) (i : nat) (k : bytes) :
  extends b b' -> client_of b i k -> client_of b' i k.
Proof.
  intros He (s & Hs & Hk & Ht). destruct (He i s Hs) as (s' & ? & ? & ?).
  exists s'. split_and!; congruence.
Qed.

Lemma server_extends (b b' : Bridge) (i : nat) : extends b b' -> server_of b i -> server_of b' i.
Proof.
  intros He (s & Hs & Ht). destruct (He i s Hs) as (s' & ? & ? & ?). exists s'. split; congruence.
Qed.

(** A bridge whose tables are those of [b], or smaller, over a later heap *)
Lemma bridge_inv_shrink (b b' : Bridge) :
  bridge_inv b -> extends b b' ->
  clientSession b' ⊆ clientSession b -> serverSession b' ⊆ serverSession b ->
  Forall (fun p => client_of b p.2 p.1) (b_snapshot b') -> bridge_inv b'.
Proof.
  intros [A B C] He Hc Hs Hn. split.
  - intros k i Hk. eapply client_extends, A; [done|]. by eapply lookup_weaken.
  - intros a i Ha. eapply server_extends, B; [done|]. by eapply lookup_weaken.
  - eapply Forall_impl; [exact Hn|]. intros p. by apply client_extends.
Qed.

Lemma bridge_inv_close (i : nat) (b : Bridge) : bridge_inv b -> bridge_inv (close_session i b).
Proof.
  intros H. eapply bridge_inv_shrink; [done|apply extends_close|done|done|exact (bi_snapshot _ H)].
Qed.

Lemma next_session_fresh (b : Bridge) : sessions b !! next_session b = None.
Proof. apply (not_elem_of_dom (D := gset nat)). unfold next_session. apply is_fresh. Qed.

Lemma bridge_inv_new (s : session) (b : Bridge) :
  bridge_inv b -> bridge_inv (set_sessions (<[next_session b := s]> (sessions b)) b).
Proof.
  intros H. eapply bridge_inv_shrink; [done| |done|done|exact (bi_snapshot _ H)].
  intros i s' Hi. cbn. rewrite lookup_insert_ne; [by exists s'|].
  intros <-. by rewrite next_session_fresh in Hi.
Qed.

Lemma upsert_client_inv (k : bytes) (i : nat) (b : Bridge) :
  bridge_inv b -> client_of b i k -> bridge_inv (upsert_client k i b).
Proof.
  intros H Hi. unfold upsert_client.
  assert (G : forall b', bridge_inv b' -> client_of b' i k ->
    bridge_inv (set_client (<[k := i]> (clientSession b')) b')).
  { intros b' [A B C] Hb'. split; try done. cbn. intros k' j.
    destruct (decide (k = k')) as [->|Hn];
      [rewrite lookup_insert_eq; by intros [= <-]|rewrite lookup_insert_ne by done; apply A]. }
  destruct (clientSession b !! k) as [j|]; [|by apply G].
  apply G; [by apply bridge_inv_close|]. eapply client_extends; [apply extends_close|done].
Qed.

Lemma upsert_server_inv (a : bytes) (i : nat) (b : Bridge) :
  bridge_inv b -> server_of b i -> bridge_inv (upsert_server a i b).
Proof.
  intros H Hi. unfold upsert_server.
  assert (G : forall b', bridge_inv b' -> server_of b' i ->
    bridge_inv (set_server (<[a := i]> (serverSession b')) b')).
  { intros b' [A B C] Hb'. split; try done. cbn. intros a' j.
    destruct (decide (a = a')) as [->|Hn];
      [rewrite lookup_insert_eq; by intros [= <-]|rewrite lookup_insert_ne by done; apply B]. }
  destruct (serverSession b !! a) as [j|]; [|by apply G].
  apply G; [by apply bridge_inv_close|]. eapply server_extends; [apply extends_close|done].
Qed.

Section Bridge_laws.
Context `{!Proto NegotiateMsg}.

Lemma try_Write (x : bytes) (c : conn) : try_ (Write x) c = (Ok tt, (Write x c).2).
Proof. unfold try_, mbind, io_bind, io_try, Write. by destruct (wres c) as [|[e|] ?]. Qed.

(** The effect of the handler on the bridge, by the request it read *)
Lemma handler_run (addr : bytes) (ok : bool) (b : Bridge) (c : conn) :
  handler addr ok (mkH b c) =
    let c' := (on_rx ParseNegotiateRequest c).2 in
    match (on_rx ParseNegotiateRequest c).1 with
    | Panic => (Panic, mkH b c')
    | Fail _ => (Ok Dropped, mkH b (Close c').2)
    | Ok negos =>
        let reply x := (Write [x; ThroughVersion] c').2 in
        let i := next_session b in
        let b1 := set_sessions (<[i := mkSession (SecretKey (Nego negos)) (NTypes negos) false]> (sessions b)) b in
        if bool_decide (NTypes negos = TypesServer) then
          if ok then (Ok (ServerNode i (SecretKey (Nego negos)) (Id (Nego negos))),
                      mkH (upsert_server addr i b1) (reply RepSuccess))
          else (Ok Dropped, mkH b (Close (reply RepServerFailure)).2)
        else if bool_decide (NTypes negos = TypesClient) then
          if ok then (Ok (ClientNode i (SecretKey (Nego negos))),
                      mkH (upsert_client (SecretKey (Nego negos)) i b1) (reply RepSuccess))
          else (Ok Dropped, mkH b (Close (reply RepServerFailure)).2)
        else (Ok Dropped, mkH b (reply RepTypesNotSupport))
    end.
Proof.
  unfold handler, SendReply, mbind, io_bind, io_try, on_conn. cbn [br inConn].
  destruct (on_rx ParseNegotiateRequest c) as [[negos|e|] c'] eqn:E; cbn [fst snd]; [|done..].
  destruct (bool_decide (NTypes negos = TypesServer));
    [|destruct (bool_decide (NTypes negos = TypesClient))]; unfold new_session; cbn [br inConn];
    [destruct ok|destruct ok|]; unfold on_bridge, io_modify; cbn [br inConn];
    rewrite ?try_Write; reflexivity.
Qed.

Lemma bridge_inv_handler (addr : bytes) (ok : bool) (b : Bridge) (c : conn) :
  bridge_inv b -> bridge_inv (br (handler addr ok (mkH b c)).2).
Proof.
  intros H. rewrite handler_run. cbv zeta.
  destruct (on_rx ParseNegotiateRequest c) as [[negos|e|] c']; cbn [fst snd]; [|done..].
  assert (Hnew : forall s, sessions (set_sessions (<[next_session b := s]> (sessions b)) b)
    !! next_session b = Some s) by (intros s; apply lookup_insert_eq).
  case_bool_decide as Ht; [|case_bool_decide as Ht']; [destruct ok|destruct ok|]; cbn [snd br]; try done.
  - apply upsert_server_inv; [by apply bridge_inv_new|]. eexists. split; [apply Hnew|done].
  - apply upsert_client_inv; [by apply bridge_inv_new|]. eexists. split; [apply Hnew|done].
Qed.

Lemma foldr_close_inv (l : list (bytes * nat)) (b : Bridge) :
  bridge_inv b -> bridge_inv (foldr (fun kv b => close_session kv.2 b) b l).
Proof. intros H. induction l as [|p l IH]; [done|]. by apply bridge_inv_close. Qed.

Lemma bridge_inv_step (e : bevent) (b b' : Bridge) :
  bstep e b = Some b' -> bridge_inv b -> bridge_inv b'.
Proof.
  intros H Hi. destruct e; cbn in H.
  - injection H as <-. by apply bridge_inv_handler.
  - destruct (sessions b !! i); [|done]. case_bool_decide; [|done]. injection H as <-.
    apply bridge_inv_close. eapply bridge_inv_shrink; [done|by apply extends_same|done| |exact (bi_snapshot _ Hi)].
    apply delete_subseteq.
  - injection H as <-. by apply bridge_inv_close.
  - unfold gc_tick in H. destruct (b_snapshot b), (b_removing b); try done. injection H as <-.
    eapply bridge_inv_shrink; [done|by apply extends_same|done|done|]. cbn. apply Forall_forall.
    intros [k i] Hin%elem_of_map_to_list. by apply (bi_client _ Hi).
  - unfold gc_item in H. destruct (b_snapshot b) as [|[k i] l] eqn:Es; [done|].
    destruct (b_removing b); [done|]. pose proof (bi_snapshot _ Hi) as Hs. rewrite Es in Hs.
    apply Forall_cons in Hs as [_ Hs].
    destruct (match sessions b !! i with Some s => s_closed s | None => true end); injection H as <-.
    + eapply bridge_inv_shrink; [done|apply (extends_close i b)|done|done|done].
    + eapply bridge_inv_shrink; [done|by apply extends_same|done|done|done].
  - unfold gc_remove in H. destruct (b_removing b); [|done]. injection H as <-.
    eapply bridge_inv_shrink; [done|by apply extends_same|apply delete_subseteq|done|exact (bi_snapshot _ Hi)].
  - injection H as <-. by apply foldr_close_inv, foldr_close_inv.
Qed.

Definition breachable (b : Bridge) : Prop := exists es, brun es NewBridge = Some b.

Lemma breachable_inv (b : Bridge) : breachable b -> bridge_inv b.
Proof.
  intros [es H]. assert (H0 : bridge_inv NewBridge).
  { split; cbn; [intros *; by rewrite lookup_empty..|constructor]. }
  revert H H0. generalize NewBridge. induction es as [|e es IH]; intros b0 H H0; [by injection H as <-|].
  cbn [brun] in H. destruct (bstep e b0) as [b1|] eqn:E; [|done].
  eapply IH; [done|]. by eapply bridge_inv_step.
Qed.
End Bridge_laws.

(** * Properties *)
Section Tunnel.
Context `{!Proto NegotiateMsg} `{!ProtoLaws NegotiateMsg}.

Lemma reads_on_rx {A} (m : io reader A) (bs : bytes) (v : A) (c : conn) (tl : list (byte + error)) :
  reads m bs v -> flat (rx c) = map inl bs ++ tl ->
  exists r', on_rx m c = (Ok v, mkConn r' (tx c) (wres c) (closed c)) /\ flat r' = tl.
Proof.
  intros Hr Hf. destruct (reads_full Hr _ _ Hf) as (r' & Hm & Hr').
  exists r'. split; [|done]. by apply on_rx_ok.
Qed.

Lemma Write_fresh (x : bytes) (r : reader) :
  (Write x (mkConn r [] [] false)).2 = mkConn r [x] [] false.
Proof. done. Qed.

Lemma upsert_client_sessions (k : bytes) (i : nat) (s : session) (b : Bridge) :
  (forall j, clientSession b !! k = Some j -> j <> i) -> sessions b !! i = Some s ->
  sessions (upsert_client k i b) !! i = Some s /\ clientSession (upsert_client k i b) !! k = Some i.
Proof.
  intros Hn Hi. unfold upsert_client. destruct (clientSession b !! k) as [j|] eqn:E; cbn.
  - rewrite lookup_alter_ne by (by apply Hn). by rewrite lookup_insert_eq.
  - by rewrite lookup_insert_eq.
Qed.

Lemma upsert_server_sessions (a : bytes) (i : nat) (s : session) (b : Bridge) :
  (forall j, serverSession b !! a = Some j -> j <> i) -> sessions b !! i = Some s ->
  sessions (upsert_server a i b) !! i = Some s /\ serverSession (upsert_server a i b) !! a = Some i.
Proof.
  intros Hn Hi. unfold upsert_server. destruct (serverSession b !! a) as [j|] eqn:E; cbn.
  - rewrite lookup_alter_ne by (by apply Hn). by rewrite lookup_insert_eq.
  - by rewrite lookup_insert_eq.
Qed.

(** The node's side of a negotiation answered with a status *)
Lemma node_side (types : byte) (key id data : bytes) (status v : byte) (r : reader) :
  NegotiateRequest_Bytes (mkNegotiate types ThroughVersion (mkNego key id)) = Ok data ->
  exists r', flat r' = flat r /\
  negotiate_with types key id (conn_of (Seg [status; v] :: r)) =
    (Ok (mkReply status v), mkConn r' [data] [] false) /\
  on_rx ParseReply (mkConn (Seg [status; v] :: r) [data] [] false) =
    (Ok (mkReply status v), mkConn r' [data] [] false).
Proof.
  intros Hd.
  assert (Hr : reads ParseReply [status; v] (mkReply status v)).
  { eapply reads_bind_nil; [by apply reads_ReadFull|].
    do 2 (eapply reads_lift; [reflexivity|]). apply reads_ret. }
  destruct (reads_on_rx ParseReply [status; v] (mkReply status v)
    (mkConn (Seg [status; v] :: r) [data] [] false) (flat r) Hr) as (r' & Hx & Hf); [done|].
  exists r'. split_and!; [done| |done].
  unfold negotiate_with. erewrite bind_lift by done.
  erewrite bind_ok; [|by apply Write_ok]. exact Hx.
Qed.

(** C21: a node and the bridge agree on a negotiation.  The bridge reads a server
    or client node's request however it is cut.  When its session can be made the
    node's session is registered, open, under the remote address (server) or the
    secret key (client), with success as the only reply, on which the node's
    negotiation succeeds.  Otherwise the bridge registers nothing, replies with a
    failure and closes; the node then fails, and a client node closes its
    connection but a server node leaves it open. *)
Theorem negotiation (server : bool) (key id data addr : bytes) (ok : bool) (b : Bridge)
    (r : reader) (tl : list (byte + error)) (q : reader) :
  let types := if server then TypesServer else TypesClient in
  let id := if server then id else lit "reserved" in
  let node := if server then server_negotiate key id else client_negotiate key in
  breachable b ->
  NegotiateRequest_Bytes (mkNegotiate types ThroughVersion (mkNego key id)) = Ok data ->
  flat r = map inl data ++ tl ->
  exists o h r' q' reply, handler addr ok (mkH b (conn_of r)) = (Ok o, h) /\ flat r' = tl /\
    flat q' = flat q /\
    if ok then
      let i := next_session b in
      reply = [RepSuccess; ThroughVersion] /\
      inConn h = mkConn r' [reply] [] false /\
      sessions (br h) !! i = Some (mkSession key types false) /\
      (if server then o = ServerNode i key id /\ serverSession (br h) !! addr = Some i
       else o = ClientNode i key /\ clientSession (br h) !! key = Some i) /\
      node (conn_of (Seg reply :: q)) = (Ok tt, mkConn q' [data] [] false)
    else
      reply = [RepServerFailure; ThroughVersion] /\ o = Dropped /\ br h = b /\
      inConn h = mkConn r' [reply] [] true /\
      node (conn_of (Seg reply :: q)) =
        (Fail (ErrMsg "bridge response error"), mkConn q' [data] [] (negb server)).
Proof.
  intros types id' node Hb Hd Hf. apply breachable_inv in Hb.
  destruct (reads_on_rx ParseNegotiateRequest data _ (conn_of r) tl (reads_Negotiate _ _ Hd) Hf)
    as (r' & Hx & Hr').
  set (status := if ok then RepSuccess else RepServerFailure).
  destruct (node_side types key id' data status ThroughVersion q Hd) as (q' & Hq' & Hn1 & Hn2).
  assert (Hnode : node (conn_of (Seg [status; ThroughVersion] :: q)) =
    if ok then (Ok tt, mkConn q' [data] [] false)
    else (Fail (ErrMsg "bridge response error"), mkConn q' [data] [] (negb server))).
  { unfold node, types, id' in *. destruct server.
    - unfold server_negotiate. erewrite bind_lift by done.
      erewrite bind_ok; [|by apply io_try_ok, Write_ok]. cbn beta iota.
      erewrite bind_ok; [|apply io_try_ok; exact Hn2]. unfold status. by destruct ok.
    - unfold client_negotiate. erewrite bind_ok; [|exact Hn1]. unfold status. by destruct ok. }
  rewrite handler_run, Hx. cbv zeta. cbn [fst snd NTypes Nego SecretKey Id].
  assert (Hfresh : forall j, clientSession b !! key = Some j -> j <> next_session b).
  { intros j Hj ->. apply (bi_client _ Hb) in Hj as (s & Hs & _). by rewrite next_session_fresh in Hs. }
  assert (Hfresh' : forall j, serverSession b !! addr = Some j -> j <> next_session b).
  { intros j Hj ->. apply (bi_server _ Hb) in Hj as (s & Hs & _). by rewrite next_session_fresh in Hs. }
  set (b1 := set_sessions _ b).
  assert (H1 : sessions b1 !! next_session b = Some (mkSession key types false)) by apply lookup_insert_eq.
  destruct server; cbn in types, id' |- *.
  - destruct (upsert_server_sessions addr _ _ b1 Hfresh' H1) as [A B].
    destruct ok; eexists _, _, r', q', _; (split; [reflexivity|]); (split; [done|]);
      (split; [done|]); split_and!; try done; exact Hnode.
  - destruct (upsert_client_sessions key _ _ b1 Hfresh H1) as [A B].
    destruct ok; eexists _, _, r', q', _; (split; [reflexivity|]); (split; [done|]);
      (split; [done|]); split_and!; try done; exact Hnode.
Qed.
(** An attempt that opens a stream, spelled out *)
Lemma proxy_attempt_Opened (sk : bytes) (died : bool) (o : option error) (b : Bridge) (i : nat) :
  proxy_attempt sk died o b = Opened i <->
  died = false /\ o = None /\ clientSession b !! sk = Some i /\
  exists s, sessions b !! i = Some s /\ s_closed s = false.
Proof.
  unfold proxy_attempt. split.
  - destruct died; [done|]. destruct (clientSession b !! sk) as [j|] eqn:Ej; [|done].
    destruct (sessions b !! j) as [s|] eqn:Es; [|done].
    destruct (s_closed s) eqn:Ec; [done|].
    destruct o as [e|]; [by case_bool_decide|]. intros [= <-]. split_and!; [done..|]. by exists s.
  - intros (-> & -> & -> & s & -> & ->). done.
Qed.

Lemma proxy_retry_Ok (sk : bytes) (views : list (bool * option error * Bridge)) (n : nat) (i : nat) :
  proxy_retry n sk views = Ok i <->
  exists m v, (m <= n)%nat /\ views !! m = Some v /\ proxy_attempt sk v.1.1 v.1.2 v.2 = Opened i /\
    forall l v, (l < m)%nat -> views !! l = Some v -> exists e, proxy_attempt sk v.1.1 v.1.2 v.2 = Retry e.
Proof.
  revert n. induction views as [|[[d o] b] views IH]; intros n; cbn [proxy_retry].
  { split; [done|]. by intros (m & v & _ & H & _). }
  destruct (proxy_attempt sk d o b) as [j|e|e] eqn:E.
  - split.
    + intros [= ->]. exists 0%nat, (d, o, b). split_and!; [lia|done|done|lia].
    + intros ([|m] & v & _ & Hv & Ho & Hl); [injection Hv as <-; cbn in Ho; congruence|].
      destruct (Hl 0%nat (d, o, b)) as [e He]; [lia|done|]. cbn in He. congruence.
  - split; [done|]. intros ([|m] & v & _ & Hv & Ho & Hl); [injection Hv as <-; cbn in Ho; congruence|].
    destruct (Hl 0%nat (d, o, b)) as [e' He]; [lia|done|]. cbn in He. congruence.
  - assert (Hc : forall k, (exists m v, (m <= k)%nat /\ views !! m = Some v /\
        proxy_attempt sk v.1.1 v.1.2 v.2 = Opened i /\
        forall l v, (l < m)%nat -> views !! l = Some v -> exists e, proxy_attempt sk v.1.1 v.1.2 v.2 = Retry e)
      <-> (exists m v, (m <= S k)%nat /\ ((d, o, b) :: views) !! m = Some v /\
        proxy_attempt sk v.1.1 v.1.2 v.2 = Opened i /\
        forall l v, (l < m)%nat -> ((d, o, b) :: views) !! l = Some v ->
          exists e, proxy_attempt sk v.1.1 v.1.2 v.2 = Retry e)).
    { intros k. split.
      - intros (m & v & Hm & Hv & Ho & Hl). exists (S m), v. split_and!; [lia|done|done|].
        intros [|l] w Hlt Hw; [injection Hw as <-; by exists e|]. apply (Hl l); [lia|done].
      - intros ([|m] & v & Hm & Hv & Ho & Hl); [injection Hv as <-; cbn in Ho; congruence|].
        exists m, v. split_and!; [lia|done|done|]. intros l w Hlt Hw. apply (Hl (S l)); [lia|done]. }
    destruct n as [|n]; [|by rewrite IH, Hc].
    split; [done|]. intros ([|m] & v & Hm & Hv & Ho & _); [injection Hv as <-; cbn in Ho; congruence|lia].
Qed.

(** C16: a server node's stream reaches a client node exactly when one of the
    first eleven attempts meets an open session registered under its key from
    which a stream is opened, every attempt before it having been of the kind
    that is retried; on the bridges that can occur, that session was negotiated
    by a client node with that very key. *)
Theorem bridge_routes (sk : bytes) (views : list (bool * option error * Bridge)) (i : nat) :
  Forall (fun v => breachable v.2) views ->
  proxyStream sk views = Ok i <->
  exists m b, (m <= 10)%nat /\ views !! m = Some (false, None, b) /\
    clientSession b !! sk = Some i /\ sessions b !! i = Some (mkSession sk TypesClient false) /\
    forall l v, (l < m)%nat -> views !! l = Some v -> exists e, proxy_attempt sk v.1.1 v.1.2 v.2 = Retry e.
Proof.
  intros Hv. unfold proxyStream. rewrite proxy_retry_Ok. split.
  - intros (m & [[d o] b] & Hm & Hb & Ho & Hl). cbn in Ho. apply proxy_attempt_Opened in Ho as (-> & -> & Hk & s & Hs & Hc).
    assert (Hs' : sessions b !! i = Some (mkSession sk TypesClient false)).
    2:{ exists m, b. by split_and!. }
    pose proof (proj1 (Forall_lookup _ _) Hv m _ Hb) as Hr.
    destruct (bi_client _ (breachable_inv _ Hr) _ _ Hk) as (s' & Hs' & Hk' & Ht). cbn in Hs'.
    rewrite Hs in Hs'. injection Hs' as <-. rewrite Hs.
    destruct s; cbn in *. congruence.
  - intros (m & b & Hm & Hb & Hk & Hs & Hl). exists m, (false, None, b). split_and!; [done..| |done].
    apply proxy_attempt_Opened. split_and!; [done..|]. by eexists.
Qed.

(** Without a new connection a key that is not registered stays so. *)
Definition not_connect (e : bevent) : bool := match e with BConnect _ _ _ => false | _ => true end.

Lemma foldr_close_client (l : list (bytes * nat)) (b : Bridge) :
  clientSession (foldr (fun kv b => close_session kv.2 b) b l) = clientSession b.
Proof. by induction l as [|p l IH]. Qed.

Lemma unregistered_stays (k : bytes) (es : list bevent) (b b' : Bridge) :
  forallb not_connect es = true -> brun es b = Some b' ->
  clientSession b !! k = None -> clientSession b' !! k = None.
Proof.
  revert b. induction es as [|e es IH]; intros b Hn Hr Hk; [by injection Hr as <-|].
  cbn in Hn. apply andb_true_iff in Hn as [He Hn]. cbn [brun] in Hr.
  destruct (bstep e b) as [b1|] eqn:E; [|done]. apply (IH b1); [done|done|].
  destruct e; cbn in E; try done.
  - destruct (sessions b !! i); [|done]. case_bool_decide; [|done]. by injection E as <-.
  - by injection E as <-.
  - unfold gc_tick in E. destruct (b_snapshot b), (b_removing b); try done. by injection E as <-.
  - unfold gc_item in E. destruct (b_snapshot b) as [|[? ?] ?], (b_removing b); try done.
    destruct (match sessions b !! _ with Some s => s_closed s | None => true end); by injection E as <-.
  - unfold gc_remove in E. destruct (b_removing b) as [k'|]; [|done]. injection E as <-. cbn.
    destruct (decide (k' = k)) as [->|Hne]; [apply lookup_delete_eq|by rewrite lookup_delete_ne].
  - injection E as <-. unfold Bridge_Stop. by rewrite !foldr_close_client.
Qed.
(** The collector can lose a client node that has just reconnected.  When a
    client node connects under the key of the entry the collector looks at next,
    the node is told success and its session stays open, but the collector sees
    the session it replaced, closed, and removes the key; from then on no stream
    reaches the node until a node connects again. *)
Theorem gc_drops_client (k addr data : bytes) (i : nat) (l : list (bytes * nat)) (b : Bridge)
    (r : reader) (tl : list (byte + error)) :
  breachable b -> b_snapshot b = (k, i) :: l -> b_removing b = None ->
  clientSession b !! k = Some i ->
  NegotiateRequest_Bytes (mkNegotiate TypesClient ThroughVersion (mkNego k (lit "reserved"))) = Ok data ->
  flat r = map inl data ++ tl ->
  let j := next_session b in
  (exists h, handler addr true (mkH b (conn_of r)) = (Ok (ClientNode j k), h) /\
     tx (inConn h) = [[RepSuccess; ThroughVersion]] /\ closed (inConn h) = false) /\
  exists b', brun [BConnect addr true (conn_of r); BItem; BRemove] b = Some b' /\
    sessions b' !! j = Some (mkSession k TypesClient false) /\
    forall es b2, forallb not_connect es = true -> brun es b' = Some b2 ->
      forall died o n, proxy_attempt k died o b2 <> Opened n.
Proof.
  intros Hb Hs Hr Hk Hd Hf j. pose proof (breachable_inv _ Hb) as Hi.
  destruct (reads_on_rx ParseNegotiateRequest data _ (conn_of r) tl (reads_Negotiate _ _ Hd) Hf)
    as (r' & Hx & _).
  assert (Hrun := handler_run addr true b (conn_of r)). rewrite Hx in Hrun. cbv zeta in Hrun.
  cbn [fst snd NTypes Nego SecretKey Id] in Hrun.
  rewrite bool_decide_eq_false_2, bool_decide_eq_true_2 in Hrun by done.
  split; [by eexists|].
  destruct (bi_client _ Hi _ _ Hk) as (s & Hsi & Hsk & Hst).
  assert (Hij : i <> j) by (intros ->; unfold j in Hsi; by rewrite next_session_fresh in Hsi).
  fold j in Hrun. clearbody j. cbn [brun bstep]. rewrite Hrun. cbn [snd br].
  unfold upsert_client. cbn. rewrite Hk. unfold gc_item. cbn. rewrite Hs, Hr.
  rewrite lookup_alter_eq, lookup_insert_ne, Hsi by done. cbn.
  eexists. split; [reflexivity|]. cbn. split.
  { rewrite !lookup_alter_ne by done. apply lookup_insert_eq. }
  intros es b2 Hes Hrun2 died o n Ho. apply proxy_attempt_Opened in Ho as (_ & _ & Ho & _).
  apply unregistered_stays with (k := k) in Hrun2; [congruence|done|apply lookup_delete_eq].
Qed.

(** C22: what a server node announces for a stream is what the client node acts
    on: the handshake it writes is read back, however cut, as the protocol, the
    joined address to connect to and the UDP session, and the payload behind it
    is left on the stream; a handshake that cannot be encoded closes the stream. *)
Theorem tunnel_handshake `{!Proto HandshakeMsg} `{!ProtoLaws HandshakeMsg}
    (nodeId sessId : bytes) (isUDP : bool) (host : bytes) (port : Z) (q : reader) :
  let proto := if isUDP then Network_UDP else Network_TCP in
  match HandshakeRequest_Bytes (mkHandshake ThroughVersion (mkHand nodeId sessId proto host port)) with
  | Ok data =>
      dialThroughRemote nodeId sessId isUDP host port (conn_of q) = (Ok tt, mkConn q [data] [] false) /\
      forall r tl, flat r = map inl data ++ tl ->
        exists r', client_stream (conn_of r) =
          (Ok (proto, JoinHostPort host (Itoa port), sessId), conn_of r') /\ flat r' = tl
  | Fail e => dialThroughRemote nodeId sessId isUDP host port (conn_of q) = (Fail e, mkConn q [] [] true)
  | Panic => True
  end.
Proof.
  intros proto. unfold dialThroughRemote. fold proto.
  destruct (HandshakeRequest_Bytes _) as [data|e|] eqn:Hd; [|done..]. split; [done|].
  intros r tl Hf. destruct (reads_on_rx ParseHandshakeRequest data _ (conn_of r) tl (reads_Handshake _ _ Hd) Hf)
    as (r' & Hx & Hr'). exists r'. split; [|done].
  unfold client_stream. erewrite bind_ok by exact Hx. done.
Qed.
End Tunnel.

Import Sample.

(** A negotiation on the wire, one byte first *)
Definition nego_wire (types : byte) (key id : bytes) : bytes :=
  match NegotiateRequest_Bytes (mkNegotiate types ThroughVersion (mkNego key id)) with
  | Ok d => d | _ => [] end.
Definition nego_cut (types : byte) (key id : bytes) : reader :=
  [Seg (take 1 (nego_wire types key id)); Seg (drop 1 (nego_wire types key id))].

(** Both kinds of node negotiate with an empty bridge. *)
Lemma negotiation_witness :
  breachable NewBridge /\
  (exists o h, handler (lit "a:1") true (mkH NewBridge (conn_of (nego_cut TypesServer (lit "sk") (lit "x"))))
     = (Ok o, h) /\ closed (inConn h) = false) /\
  (exists o h, handler (lit "a:1") false (mkH NewBridge (conn_of (nego_cut TypesClient (lit "sk") (lit "reserved"))))
     = (Ok o, h) /\ closed (inConn h) = true).
Proof.
  assert (Hb : breachable NewBridge) by (by exists []). split; [exact Hb|]. split.
  - destruct (negotiation true (lit "sk") (lit "x") (nego_wire TypesServer (lit "sk") (lit "x"))
      (lit "a:1") true NewBridge (nego_cut TypesServer (lit "sk") (lit "x")) [] [] Hb)
      as (o & h & r' & q' & reply & Hh & _ & _ & _ & Hc & _); [reflexivity..|].
    exists o, h. split; [exact Hh|]. by rewrite Hc.
  - destruct (negotiation false (lit "sk") (lit "x") (nego_wire TypesClient (lit "sk") (lit "reserved"))
      (lit "a:1") false NewBridge (nego_cut TypesClient (lit "sk") (lit "reserved")) [] [] Hb)
      as (o & h & r' & q' & reply & Hh & _ & _ & _ & _ & _ & Hc & _); [reflexivity..|].
    exists o, h. split; [exact Hh|]. by rewrite Hc.
Defined.

(** Two moments of a bridge: the client node is missing, then connected. *)
Definition with_client : Bridge :=
  br (handler (lit "c:1") true (mkH NewBridge (conn_of (nego_cut TypesClient (lit "sk") (lit "reserved"))))).2.

Lemma with_client_reachable : breachable with_client.
Proof. by exists [BConnect (lit "c:1") true (conn_of (nego_cut TypesClient (lit "sk") (lit "reserved")))]. Qed.

Lemma bridge_routes_witness :
  let views := [(false, None, NewBridge); (false, None, with_client)] in
  Forall (fun v : bool * option error * Bridge => breachable v.2) views /\
  proxyStream (lit "sk") views = Ok 0%nat.
Proof.
  intros views.
  assert (H : Forall (fun v : bool * option error * Bridge => breachable v.2) views).
  { repeat constructor; [by exists []|apply with_client_reachable]. }
  split; [exact H|]. apply (bridge_routes (lit "sk") views 0%nat H).
  exists 1%nat, with_client.
  assert (E1 : clientSession with_client !! lit "sk" = Some 0%nat) by (vm_compute; reflexivity).
  assert (E2 : sessions with_client !! 0%nat = Some (mkSession (lit "sk") TypesClient false))
    by (vm_compute; reflexivity).
  split; [lia|]. split; [reflexivity|]. split; [exact E1|]. split; [exact E2|].
  intros [|l] v Hl Hv; [|lia]. injection Hv as <-. eexists. vm_compute. reflexivity.
Defined.

(** The same client node reconnects in the middle of a pass of the collector. *)
Lemma gc_drops_client_witness :
  let b := match brun [BTick] with_client with Some b => b | None => NewBridge end in
  let c := nego_cut TypesClient (lit "sk") (lit "reserved") in
  breachable b /\ b_snapshot b = [(lit "sk", 0%nat)] /\
  exists b', brun [BConnect (lit "c:2") true (conn_of c); BItem; BRemove] b = Some b' /\
    sessions b' !! 1%nat = Some (mkSession (lit "sk") TypesClient false) /\
    clientSession b' !! lit "sk" = None.
Proof.
  intros b c.
  assert (Hb : breachable b).
  { by exists [BConnect (lit "c:1") true (conn_of (nego_cut TypesClient (lit "sk") (lit "reserved"))); BTick]. }
  assert (Hs : b_snapshot b = [(lit "sk", 0%nat)]) by (vm_compute; reflexivity).
  assert (Hr : b_removing b = None) by (vm_compute; reflexivity).
  assert (Hk : clientSession b !! lit "sk" = Some 0%nat) by (vm_compute; reflexivity).
  assert (Hn : next_session b = 1%nat) by (vm_compute; reflexivity).
  split; [exact Hb|]. split; [exact Hs|].
  destruct (gc_drops_client (lit "sk") (lit "c:2") (nego_wire TypesClient (lit "sk") (lit "reserved"))
    0%nat [] b c [] Hb Hs Hr Hk) as [_ (b' & Hrun & Hj & Hlost)]; [reflexivity..|].
  exists b'. split; [exact Hrun|]. rewrite Hn in Hj. split; [exact Hj|].
  destruct (clientSession b' !! lit "sk") as [n|] eqn:E; [|reflexivity].
  vm_compute in Hrun. injection Hrun as <-. vm_compute in E. discriminate E.
Defined.

(** The handshake of a stream to port 80 of a host, read two bytes at first *)
Definition hand_wire : bytes :=
  match HandshakeRequest_Bytes (mkHandshake ThroughVersion
          (mkHand (lit "n1") (lit "s1") Network_TCP (lit "10.0.0.1") 80)) with
  | Ok d => d | _ => [] end.

Lemma tunnel_handshake_witness :
  exists r', client_stream (conn_of [Seg (take 2 hand_wire); Seg (drop 2 hand_wire ++ lit "hello")]) =
    (Ok (Network_TCP, lit "10.0.0.1:80", lit "s1"), conn_of r') /\ flat r' = map inl (lit "hello").
Proof.
  pose proof (tunnel_handshake (lit "n1") (lit "s1") false (lit "10.0.0.1") 80 []) as H.
  cbv zeta beta iota in H.
  assert (E : HandshakeRequest_Bytes (mkHandshake ThroughVersion
    (mkHand (lit "n1") (lit "s1") Network_TCP (lit "10.0.0.1") 80)) = Ok hand_wire)
    by (vm_compute; reflexivity).
  rewrite E in H. destruct H as [_ H].
  destruct (H [Seg (take 2 hand_wire); Seg (drop 2 hand_wire ++ lit "hello")] (map inl (lit "hello")))
    as (r' & Hr & Hf); [vm_compute; reflexivity|].
  exists r'. split; [|exact Hf]. rewrite Hr. vm_compute. reflexivity.
Defined.
