(* ===== verification/MuxServer.v ===== *)
(** services/mux/server.go: a server node of the tunnel beyond its messages, and the
    start of the three kinds of node.  Streams to the client node are opened on one
    smux session with the bridge, which is made when it is needed and forgotten when
    it fails; TCP connections are joined with a stream each, and the datagrams of a
    local source share one.  The goroutines of the UDP side (handlers, the start of
    receivers, receivers, writers, the collector) are the events of a step function.
    Dials, the smux library and the clock are inputs. *)
From S2P Require Import Prelude GoStrings GoNet GoIO Captain Through UdpRelay TcpSvc Mux.
Open Scope Z_scope.

(** * Configuration and start *)

Record NodeConfig := mkNodeConfig {
  ParentType : bytes; CertFile : bytes; KeyFile : bytes; RawProxyURL : bytes; Route : bytes;
}.

(** What the checks are told: the validator, the certificate's key, the CA file of a
    bridge, and the proxy URL *)
Record checks := mkChecks {
  valid : option error; pair : outcome bytes; ca : option error; proxy : option error;
}.

Definition load_pair (k : checks) (CertFile KeyFile : bytes) : outcome bytes :=
  if bool_decide (CertFile = []) || bool_decide (KeyFile = [])
  then Fail (ErrMsg "cert file and key file required") else pair k.

(** The checks a client node makes, with which those of a server node begin *)
Definition Client_inspectConfig (k : checks) (c : NodeConfig) : outcome bytes :=
  _ ← no_error (valid k);
  key ← (if bool_decide (ParentType c = lit "tls") then load_pair k (CertFile c) (KeyFile c) else Ok []);
  _ ← (if negb (bool_decide (RawProxyURL c = [])) then
         if negb (bool_decide (ParentType c = lit "tls")) && negb (bool_decide (ParentType c = lit "tcp"))
         then Fail (ErrMsg "proxyURL only worked on tls or tcp")
         else match proxy k with Some e => Fail (ErrWrap "invalid proxyURL parameter, %s" e) | None => Ok tt end
       else Ok tt);
  Ok key.

(** [split] is [extnet.SplitHostPort]; the result is the protocol, the local address,
    and the host and port to reach behind the client node. *)
Definition Server_inspectConfig (k : checks) (split : bytes -> outcome (bytes * Z)) (c : NodeConfig)
  : outcome (bool * bytes * (bytes * Z)) :=
  _ ← Client_inspectConfig k c;
  '(isUDP, local, remote) ← parse_route (Route c);
  hp ← split remote;
  Ok (isUDP, local, hp).

Record BridgeConfig := mkBridgeConfig {
  LocalType : bytes; Local : bytes; BCertFile : bytes; BKeyFile : bytes; CaCertFile : bytes; StcpMethod : bytes;
}.

Definition Bridge_inspectConfig (k : checks) (methods : list bytes) (c : BridgeConfig) : outcome bytes :=
  _ ← no_error (valid k);
  key ← (if bool_decide (LocalType c = lit "tls") then
           key ← load_pair k (BCertFile c) (BKeyFile c);
           _ ← (if negb (bool_decide (CaCertFile c = []))
                then match ca k with Some e => Fail (ErrWrap "read ca file %+v" e) | None => Ok tt end
                else Ok tt);
           Ok key
         else Ok []);
  _ ← (if bool_decide (lit "stcp" ∈ [Local c; LocalType c]) && negb (bool_decide (StcpMethod c ∈ methods))
       then Fail (ErrMsg "stcp cipher method support one of %s") else Ok tt);
  Ok key.

(** A service: its context, its listener if it has one, and whether its collector
    runs *)
Record service := mkService { cancelled : bool; listening : option bool; watching : bool }.

Definition started (o : outcome unit) (s : service) : outcome unit * service :=
  match o with Ok _ => (Ok tt, s) | o => (o, mkService true None false) end.

Definition Bridge_Start (k : checks) (methods : list bytes) (listen : outcome unit) (c : BridgeConfig)
  : outcome unit * service :=
  started (_ ← Bridge_inspectConfig k methods c; listen) (mkService false (Some true) true).

(** [resolve_] and [listen] are how resolving the local address and listening end. *)
Definition Server_Start (k : checks) (split : bytes -> outcome (bytes * Z)) (resolve_ : outcome unit)
    (listen : outcome unit) (c : NodeConfig) : outcome unit * service :=
  match Server_inspectConfig k split c with
  | Ok (isUDP, _, _) =>
      started (if isUDP then _ ← resolve_; listen else listen) (mkService false (Some true) isUDP)
  | Fail e => started (Fail e) (mkService true None false)
  | Panic => started Panic (mkService true None false)
  end.

Definition Client_Start (k : checks) (c : NodeConfig) : outcome unit * service :=
  started (_ ← Client_inspectConfig k c; Ok tt) (mkService false None true).

(** * The session with the bridge *)
Section Sessions.
Context {PN : Proto NegotiateMsg} {PH : Proto HandshakeMsg}.

(** A session over a connection to the bridge, and whether it is closed; closing it
    closes the connection. *)
Record nsession := mkNS { ns_conn : conn; ns_closed : bool }.

(** [sessions_] is the field of the [Server]; [given_up] are the connections to the
    bridge that did not become a session; [reapers] the goroutines that look every
    five seconds whether the session is closed. *)
Record node := mkNode {
  sessions_ : option nat; all : list nsession; given_up : list conn; reapers : nat; n_listener : option bool;
}.

Definition node_init (l : option bool) : node := mkNode None [] [] 0 l.

Definition close_ns (ns : nsession) : nsession := mkNS (Close (ns_conn ns)).2 true.

(** A new session: dial, negotiate, [smux.Client], whose error is [mk]. *)
Definition new_ns (key id : bytes) (dial : outcome conn) (mk : option error) : io node unit := fun s =>
  match dial with
  | Fail e => (Fail e, s)
  | Panic => (Panic, s)
  | Ok p =>
      match server_negotiate key id p with
      | (Ok _, p) =>
          match mk with
          | Some e => (Fail e, mkNode None (all s) (given_up s ++ [p]) (reapers s) (n_listener s))
          | None =>
              (Ok tt, mkNode (Some (length (all s))) (all s ++ [mkNS p false]) (given_up s)
                        (S (reapers s)) (n_listener s))
          end
      | (Fail e, p) => (Fail e, mkNode (sessions_ s) (all s) (given_up s ++ [p]) (reapers s) (n_listener s))
      | (Panic, p) => (Panic, mkNode (sessions_ s) (all s) (given_up s ++ [p]) (reapers s) (n_listener s))
      end
  end.

(** [OpenStream] on the session; one that fails is closed and forgotten. *)
Definition open_stream (opened : outcome conn) : io node conn := fun s =>
  match sessions_ s with
  | None => (Panic, s)
  | Some i =>
      match all s !! i with
      | None => (Panic, s)
      | Some ns =>
          match (if ns_closed ns then Fail ErrClosedPipe else opened) with
          | Ok c => (Ok c, s)
          | Fail e => (Fail e, mkNode None (alter close_ns i (all s)) (given_up s) (reapers s) (n_listener s))
          | Panic => (Panic, s)
          end
      end
  end.

(** Under the lock *)
Definition GetConn (key id : bytes) (dial : outcome conn) (mk : option error) (opened : outcome conn)
  : io node conn :=
  cur ← io_gets sessions_;
  _ ← (match cur with None => new_ns key id dial mk | Some _ => mret tt end);
  open_stream opened.

(** A stream to the client node, with its handshake *)
Definition dial_remote (key id sessId : bytes) (isUDP : bool) (host : bytes) (port : Z)
    (dial : outcome conn) (mk : option error) (opened : outcome conn) : io node conn :=
  c ← GetConn key id dial mk opened;
  match Mux.dialThroughRemote id sessId isUDP host port c with
  | (Ok _, c) => mret c
  | (Fail e, _) => io_fail e
  | (Panic, _) => io_panic
  end.

(** [backoff.Retry]: an attempt each, up to the first that succeeds; the last error
    when there are no more *)
Fixpoint retry {A} (ms : list (io node A)) (last : error) : io node A :=
  match ms with
  | [] => io_fail last
  | m :: ms =>
      r ← io_try m;
      match r with inl a => mret a | inr e => retry ms e end
  end.

(** [handleTCP]: eleven attempts, then the connections are joined by [copy].  The
    result are the two connections as they end, the stream if there is one. *)
Definition handleTCP (attempts : list (io node conn)) (copy : conn -> conn -> conn * conn) (inConn : conn)
  : io node (conn * option conn) := fun s =>
  match retry (take 11 attempts) ErrClosed s with
  | (Ok t, s) => let '(t, i) := copy t inConn in (Ok ((Close i).2, Some (Close t).2), s)
  | (_, s) => (Ok ((Close inConn).2, None), s)
  end.

(** A reaper wakes up. *)
Definition reap (s : node) : option node :=
  match reapers s with
  | O => None
  | S n =>
      match sessions_ s with
      | Some i =>
          match all s !! i with
          | Some (mkNS _ true) => Some (mkNode None (all s) (given_up s) n (n_listener s))
          | _ => Some s
          end
      | None => Some s
      end
  end.

(** The session [i] ends by itself. *)
Definition session_dies (i : nat) (s : node) : node :=
  mkNode (sessions_ s) (alter close_ns i (all s)) (given_up s) (reapers s) (n_listener s).

Definition Server_Stop (s : node) : node :=
  mkNode (sessions_ s)
    (match sessions_ s with Some i => alter close_ns i (all s) | None => all s end)
    (given_up s) 0 (option_map (fun _ => false) (n_listener s)).

Inductive nevent :=
  | NGet (dial : outcome conn) (mk : option error) (opened : outcome conn)
  | NReap | NDies (i : nat) | NStop.

Definition nstep (key id : bytes) (e : nevent) (s : node) : option node :=
  match e with
  | NGet dial mk opened => Some (GetConn key id dial mk opened s).2
  | NReap => reap s
  | NDies i => Some (session_dies i s)
  | NStop => Some (Server_Stop s)
  end.

Fixpoint nrun (key id : bytes) (es : list nevent) (s : node) : option node :=
  match es with [] => Some s | e :: es => s ← nstep key id e s; nrun key id es s end.

End Sessions.

(** * The datagrams of local sources *)

(** A [UDPConnItem] with its stream; [u_hello] is what had been written to it before. *)
Record uitem := mkU { u_src : bytes; u_conn : conn; u_last : Z; u_hello : list bytes }.

(** A [handleUDP] that found no session and dials, or is about to write *)
Inductive uhandler := Dialing (src data : bytes) | Writing (i : nat) (src data : bytes).

Record SU := mkSU {
  u_table : gmap bytes nat;
  u_items : list uitem;
  u_handlers : list uhandler;
  u_starts : list bytes;              (** [runUDPReceive(key, id)] not yet run *)
  u_receivers : list (nat * bytes);   (** sessions read by receivers, with their key *)
  u_writers : list (bytes * bytes);   (** [WriteToUDP] not yet run: address, data *)
  u_sent : list (bytes * bytes);      (** written to local addresses *)
  u_packets : list (bytes * bytes);   (** handled: source, data *)
  u_read : list (nat * bytes);        (** read from a session's stream *)
  u_snapshot : list (bytes * nat);
  u_now : Z;
  u_removing : option bytes;
  u_clock : Z;
  u_stopped : bool;
}.

Definition SU_init (t : Z) : SU := mkSU ∅ [] [] [] [] [] [] [] [] [] t None t false.

Definition set_u_table x s := mkSU x (u_items s) (u_handlers s) (u_starts s) (u_receivers s) (u_writers s)
  (u_sent s) (u_packets s) (u_read s) (u_snapshot s) (u_now s) (u_removing s) (u_clock s) (u_stopped s).
Definition set_u_items x s := mkSU (u_table s) x (u_handlers s) (u_starts s) (u_receivers s) (u_writers s)
  (u_sent s) (u_packets s) (u_read s) (u_snapshot s) (u_now s) (u_removing s) (u_clock s) (u_stopped s).
Definition set_u_handlers x s := mkSU (u_table s) (u_items s) x (u_starts s) (u_receivers s) (u_writers s)
  (u_sent s) (u_packets s) (u_read s) (u_snapshot s) (u_now s) (u_removing s) (u_clock s) (u_stopped s).
Definition set_u_starts x s := mkSU (u_table s) (u_items s) (u_handlers s) x (u_receivers s) (u_writers s)
  (u_sent s) (u_packets s) (u_read s) (u_snapshot s) (u_now s) (u_removing s) (u_clock s) (u_stopped s).
Definition set_u_receivers x s := mkSU (u_table s) (u_items s) (u_handlers s) (u_starts s) x (u_writers s)
  (u_sent s) (u_packets s) (u_read s) (u_snapshot s) (u_now s) (u_removing s) (u_clock s) (u_stopped s).
Definition set_u_writers x s := mkSU (u_table s) (u_items s) (u_handlers s) (u_starts s) (u_receivers s) x
  (u_sent s) (u_packets s) (u_read s) (u_snapshot s) (u_now s) (u_removing s) (u_clock s) (u_stopped s).
Definition add_u_sent x s := mkSU (u_table s) (u_items s) (u_handlers s) (u_starts s) (u_receivers s) (u_writers s)
  (u_sent s ++ [x]) (u_packets s) (u_read s) (u_snapshot s) (u_now s) (u_removing s) (u_clock s) (u_stopped s).
Definition add_u_packet x s := mkSU (u_table s) (u_items s) (u_handlers s) (u_starts s) (u_receivers s) (u_writers s)
  (u_sent s) (u_packets s ++ [x]) (u_read s) (u_snapshot s) (u_now s) (u_removing s) (u_clock s) (u_stopped s).
Definition add_u_read x s := mkSU (u_table s) (u_items s) (u_handlers s) (u_starts s) (u_receivers s) (u_writers s)
  (u_sent s) (u_packets s) (u_read s ++ [x]) (u_snapshot s) (u_now s) (u_removing s) (u_clock s) (u_stopped s).
Definition set_u_snapshot x n s := mkSU (u_table s) (u_items s) (u_handlers s) (u_starts s) (u_receivers s) (u_writers s)
  (u_sent s) (u_packets s) (u_read s) x n (u_removing s) (u_clock s) (u_stopped s).
Definition set_u_removing x s := mkSU (u_table s) (u_items s) (u_handlers s) (u_starts s) (u_receivers s) (u_writers s)
  (u_sent s) (u_packets s) (u_read s) (u_snapshot s) (u_now s) x (u_clock s) (u_stopped s).
Definition set_u_clock x s := mkSU (u_table s) (u_items s) (u_handlers s) (u_starts s) (u_receivers s) (u_writers s)
  (u_sent s) (u_packets s) (u_read s) (u_snapshot s) (u_now s) (u_removing s) x (u_stopped s).
Definition set_u_stopped s := mkSU (u_table s) (u_items s) (u_handlers s) (u_starts s) (u_receivers s) (u_writers s)
  (u_sent s) (u_packets s) (u_read s) (u_snapshot s) (u_now s) (u_removing s) (u_clock s) true.

Definition upd_u (f : uitem -> uitem) (i : nat) (s : SU) : SU := set_u_items (alter f i (u_items s)) s.
Definition touch_u (t : Z) (it : uitem) : uitem := mkU (u_src it) (u_conn it) t (u_hello it).
Definition close_u (it : uitem) : uitem := mkU (u_src it) (Close (u_conn it)).2 (u_last it) (u_hello it).
Definition write_u (b : bytes) (it : uitem) : uitem :=
  mkU (u_src it) (if closed (u_conn it) then u_conn it else (Write b (u_conn it)).2) (u_last it) (u_hello it).
Definition set_conn_u (c : conn) (it : uitem) : uitem := mkU (u_src it) c (u_last it) (u_hello it).

Definition MaxUDPIdleTime : Z := 30.

(** The stream datagram of a packet *)
Definition pack (src data : bytes) : outcome bytes :=
  a ← ParseAddrSpec src;
  header ← StreamDatagram_Header (mkStreamDatagram zero a data);
  Ok (header ++ data).

(** [handleUDP] up to the lookup *)
Definition u_packet (src data : bytes) (s : SU) : SU :=
  let s := add_u_packet (src, data) s in
  set_u_handlers (u_handlers s ++
    [match u_table s !! src with Some i => Writing i src data | None => Dialing src data end]) s.

(** The handler's dial ends. *)
Definition u_dialed (k : nat) (r : outcome conn) (s : SU) : option SU :=
  match u_handlers s !! k with
  | Some (Dialing src data) =>
      match r with
      | Ok c =>
          let i := length (u_items s) in
          Some (set_u_handlers (<[k := Writing i src data]> (u_handlers s))
            (set_u_starts (u_starts s ++ [src])
              (set_u_table (<[src := i]> (u_table s))
                (set_u_items (u_items s ++ [mkU src c 0 (tx c)]) s))))
      | _ => Some (set_u_handlers (delete k (u_handlers s)) s)
      end
  | _ => None
  end.

(** The rest of the handler; the error of the write is only logged. *)
Definition u_write (k : nat) (s : SU) : option SU :=
  match u_handlers s !! k with
  | Some (Writing i src data) =>
      let s := upd_u (touch_u (u_clock s)) i (set_u_handlers (delete k (u_handlers s)) s) in
      Some (match pack src data with Ok m => upd_u (write_u m) i s | _ => s end)
  | _ => None
  end.

(** [runUDPReceive] looks its key up. *)
Definition u_start (k : nat) (s : SU) : option SU :=
  key ← u_starts s !! k;
  let s := set_u_starts (delete k (u_starts s)) s in
  Some (match u_table s !! key with
        | Some i => set_u_receivers (u_receivers s ++ [(i, key)]) s
        | None => s
        end).

Definition u_end (k i : nat) (key : bytes) (s : SU) : SU :=
  set_u_receivers (delete k (u_receivers s)) (upd_u close_u i (set_u_table (delete key (u_table s)) s)).

(** A turn of the receiver [k] *)
Definition u_receive (k : nat) (s : SU) : option SU :=
  '(i, key) ← u_receivers s !! k;
  it ← u_items s !! i;
  let c := u_conn it in
  let '(o, c) := if closed c then (Fail ErrClosedPipe, c) else on_rx ParseStreamDatagram c in
  let s := upd_u (set_conn_u c) i s in
  Some (match o with
        | Ok da =>
            set_u_writers (u_writers s ++ [(u_src it, DData da)])
              (add_u_read (i, DData da) (upd_u (touch_u (u_clock s)) i s))
        | Fail e => if retries e then s else u_end k i key s
        | Panic => u_end k i key s
        end).

(** A [WriteToUDP] runs; [ok] is whether it is sent. *)
Definition u_flush (k : nat) (ok : bool) (s : SU) : option SU :=
  p ← u_writers s !! k;
  let s := set_u_writers (delete k (u_writers s)) s in
  Some (if ok then add_u_sent p s else s).

Definition u_tick (s : SU) : option SU :=
  match u_stopped s, u_snapshot s, u_removing s with
  | false, [], None => Some (set_u_snapshot (map_to_list (u_table s)) (u_clock s) s)
  | _, _, _ => None
  end.
Definition u_item (s : SU) : option SU :=
  match u_snapshot s, u_removing s with
  | (k, i) :: rest, None =>
      it ← u_items s !! i;
      let s := set_u_snapshot rest (u_now s) s in
      Some (if MaxUDPIdleTime <? u_now s - u_last it then set_u_removing (Some k) (upd_u close_u i s) else s)
  | _, _ => None
  end.
Definition u_remove (s : SU) : option SU :=
  k ← u_removing s;
  Some (set_u_removing None (set_u_table (delete k (u_table s)) s)).

Inductive uevent :=
  | UPacket (src data : bytes)
  | UDialed (k : nat) (r : outcome conn)
  | UWrite (k : nat)
  | UStart (k : nat)
  | UReceive (k : nat)
  | UFlush (k : nat) (ok : bool)
  | UDies (i : nat)                (** the stream [i] is closed with its session *)
  | UTick | UItem | URemove
  | UClock (d : Z)
  | UStop.

Definition ustep (e : uevent) (s : SU) : option SU :=
  match e with
  | UPacket src data => Some (u_packet src data s)
  | UDialed k r => u_dialed k r s
  | UWrite k => u_write k s
  | UStart k => u_start k s
  | UReceive k => u_receive k s
  | UFlush k ok => u_flush k ok s
  | UDies i => Some (upd_u close_u i s)
  | UTick => u_tick s
  | UItem => u_item s
  | URemove => u_remove s
  | UClock d => if 0 <=? d then Some (set_u_clock (u_clock s + d) s) else None
  | UStop => Some (set_u_stopped s)
  end.

Fixpoint urun (es : list uevent) (s : SU) : option SU :=
  match es with [] => Some s | e :: es => s ← ustep e s; urun es s end.

(** * Laws of the session *)
Section SessionLaws.
Context {PN : Proto NegotiateMsg} {PH : Proto HandshakeMsg}.
Implicit Types (s : node).

Record node_inv s : Prop := {
  ni_open : forall i ns, all s !! i = Some ns -> ns_closed ns = false -> sessions_ s = Some i;
  ni_conn : forall i ns, all s !! i = Some ns -> ns_closed ns = true -> closed (ns_conn ns) = true;
}.

Lemma node_inv_close (i : nat) (s s' : node) :
  node_inv s -> all s' = alter close_ns i (all s) -> sessions_ s' = sessions_ s \/ sessions_ s = Some i -> node_inv s'.
Proof.
  intros [A B] Ha Hs. split; rewrite Ha; intros j ns [[Hn H]|[<- (x & H & ->)]]%alter_inv Hc; try done; [|by eapply B].
  pose proof (A j ns H Hc) as Hj. destruct Hs as [Hs|Hs]; congruence.
Qed.

Lemma node_inv_forget (s s' : node) : node_inv s -> all s' = all s ->
  (forall i ns, sessions_ s = Some i -> all s !! i = Some ns -> ns_closed ns = true) -> node_inv s'.
Proof.
  intros [A B] Ha Hs. split; rewrite Ha; [|exact B]. intros i ns H Hc. pose proof (Hs i ns (A i ns H Hc) H). congruence.
Qed.

Lemma open_stream_inv (opened : outcome conn) s : node_inv s -> node_inv (open_stream opened s).2.
Proof.
  intros Hi. unfold open_stream. destruct (sessions_ s) as [i|] eqn:Es; [|done].
  destruct (all s !! i) as [ns|]; [|done]. destruct (if ns_closed ns then _ else _); [done| |done].
  eapply node_inv_close; [exact Hi|reflexivity|by right].
Qed.

Lemma new_ns_inv (key id : bytes) (dial : outcome conn) (mk : option error) s :
  node_inv s -> sessions_ s = None -> node_inv (new_ns key id dial mk s).2.
Proof.
  intros Hi Hs. unfold new_ns. destruct dial as [p|e|]; [|done..].
  destruct (server_negotiate key id p) as [[[]|e|] p']; [destruct mk|..];
    try by (eapply node_inv_forget; [exact Hi|reflexivity|by rewrite Hs]).
  destruct Hi as [A B]. split; cbn; intros i ns [H|[-> ->]]%lookup_snoc Hc; try done; [|by eapply B].
  pose proof (A i ns H Hc). congruence.
Qed.

Lemma GetConn_inv (key id : bytes) (dial : outcome conn) (mk : option error) (opened : outcome conn) s :
  node_inv s -> node_inv (GetConn key id dial mk opened s).2.
Proof.
  intros Hi. unfold GetConn. rewrite bind_gets. destruct (sessions_ s) eqn:Es.
  - by apply open_stream_inv.
  - pose proof (new_ns_inv key id dial mk s Hi Es) as H. unfold mbind, io_bind.
    destruct (new_ns key id dial mk s) as [[[]|e|] s1]; cbn in H; [by apply open_stream_inv|done..].
Qed.

Lemma nrun_inv (key id : bytes) (es : list nevent) s s' : node_inv s -> nrun key id es s = Some s' -> node_inv s'.
Proof.
  revert s. induction es as [|e es IH]; intros s Hi; cbn [nrun]; [by intros [= <-]|].
  destruct (nstep key id e s) as [s1|] eqn:E; [|done]. apply IH. destruct e as [dial mk opened| |i|]; cbn [nstep] in E.
  - injection E as <-. by apply GetConn_inv.
  - unfold reap in E. destruct (reapers s) as [|n]; [done|]. destruct (sessions_ s) as [i|] eqn:Es; [|by injection E as <-].
    destruct (all s !! i) as [[c []]|] eqn:Ea; injection E as <-; [|done..].
    eapply node_inv_forget; [exact Hi|reflexivity|]. rewrite Es. intros ? ns [= <-]. rewrite Ea. by intros [= <-].
  - injection E as <-. eapply node_inv_close; [exact Hi|reflexivity|by left].
  - injection E as <-. unfold Server_Stop. destruct (sessions_ s) as [i|] eqn:Es.
    + eapply node_inv_close; [exact Hi|reflexivity|by right].
    + destruct Hi as [A B]. split; cbn; [|exact B]. intros i ns H Hc. rewrite <- Es. by eapply A.
Qed.

Lemma node_init_inv (l : option bool) : node_inv (node_init l).
Proof. by split. Qed.
End SessionLaws.

(** * Laws of the datagrams *)
Section UdpLaws.
Implicit Types (s : SU).

Definition u_of s (i : nat) (k : bytes) : Prop := exists it, u_items s !! i = Some it /\ u_src it = k.

(** What a stream was written after its handshake *)
Definition packed s (it : uitem) (c : conn) : Prop :=
  exists ms, tx c = u_hello it ++ ms /\ Forall (fun m => exists d, (u_src it, d) ∈ u_packets s /\ pack (u_src it) d = Ok m) ms.

Definition from_stream s (p : bytes * bytes) : Prop := exists i, u_of s i p.1 /\ (i, p.2) ∈ u_read s.

Definition ok_handler s (h : uhandler) : Prop :=
  match h with
  | Dialing src d => (src, d) ∈ u_packets s
  | Writing i src d => u_of s i src /\ (src, d) ∈ u_packets s
  end.

Record u_inv s : Prop := {
  ui_table : forall k i, u_table s !! k = Some i -> u_of s i k;
  ui_snapshot : Forall (fun p => u_of s p.2 p.1) (u_snapshot s);
  ui_handlers : Forall (ok_handler s) (u_handlers s);
  ui_receivers : Forall (fun p => u_of s p.1 p.2) (u_receivers s);
  ui_items : forall i it, u_items s !! i = Some it -> packed s it (u_conn it);
  ui_writers : Forall (from_stream s) (u_writers s);
  ui_sent : Forall (from_stream s) (u_sent s);
}.

(** The state grows: sessions keep their sources, histories are extended. *)
Record grows s s' : Prop := {
  g_of : forall i k, u_of s i k -> u_of s' i k;
  g_packets : forall p, p ∈ u_packets s -> p ∈ u_packets s';
  g_read : forall p, p ∈ u_read s -> p ∈ u_read s';
}.

Lemma grows_handler s s' (h : uhandler) : grows s s' -> ok_handler s h -> ok_handler s' h.
Proof. intros [A B C]. destruct h; cbn; [apply B|]. intros [? ?]. auto. Qed.
Lemma grows_stream s s' (p : bytes * bytes) : grows s s' -> from_stream s p -> from_stream s' p.
Proof. intros [A B C] (i & ? & ?). exists i. auto. Qed.
Lemma grows_packed s s' (it : uitem) (c : conn) : grows s s' -> packed s it c -> packed s' it c.
Proof.
  intros [A B C] (ms & ? & H). exists ms. split; [done|]. eapply Forall_impl; [exact H|].
  intros m (d & ? & ?). exists d. auto.
Qed.
Lemma grows_same s s' :
  u_items s' = u_items s -> u_packets s' = u_packets s -> u_read s' = u_read s -> grows s s'.
Proof. intros H1 H2 H3. split; unfold u_of; rewrite ?H1, ?H2, ?H3; auto. Qed.

(** An invariant state whose tables are changed within the invariant *)
Lemma u_inv_change s s' : u_inv s -> grows s s' ->
  (forall k i, u_table s' !! k = Some i -> u_table s !! k = Some i \/ u_of s' i k) ->
  (forall p, p ∈ u_snapshot s' -> p ∈ u_snapshot s \/ u_of s' p.2 p.1) ->
  (forall h, h ∈ u_handlers s' -> h ∈ u_handlers s \/ ok_handler s' h) ->
  (forall p, p ∈ u_receivers s' -> p ∈ u_receivers s \/ u_of s' p.1 p.2) ->
  (forall i it, u_items s' !! i = Some it -> u_items s !! i = Some it \/ packed s' it (u_conn it)) ->
  (forall p, p ∈ u_writers s' -> p ∈ u_writers s \/ from_stream s' p) ->
  (forall p, p ∈ u_sent s' -> p ∈ u_sent s \/ from_stream s' p) -> u_inv s'.
Proof.
  intros [A B C D E F G] Hg HA HB HC HD HE HF HG. rewrite Forall_forall in B. rewrite Forall_forall in C. rewrite Forall_forall in D.
  rewrite Forall_forall in F. rewrite Forall_forall in G.
  split; rewrite ?Forall_forall.
  - intros k i [H|?]%HA; [|done]. by apply (g_of _ _ Hg), A.
  - intros p [H|?]%HB; [|done]. by apply (g_of _ _ Hg), B.
  - intros h [H|?]%HC; [|done]. by apply (grows_handler _ _ _ Hg), C.
  - intros p [H|?]%HD; [|done]. by apply (g_of _ _ Hg), D.
  - intros i it [H|?]%HE; [|done]. by apply (grows_packed _ _ _ _ Hg), (E i).
  - intros p [H|?]%HF; [|done]. by apply (grows_stream _ _ _ Hg), F.
  - intros p [H|?]%HG; [|done]. by apply (grows_stream _ _ _ Hg), G.
Qed.

(** The changes left are those of the components that change. *)
Ltac u_change H :=
  eapply u_inv_change; [exact H|try by apply grows_same|..]; try (by left).

Lemma grows_upd (f : uitem -> uitem) (i : nat) s s' :
  (forall it, u_src (f it) = u_src it) -> u_items s' = alter f i (u_items s) ->
  (forall p, p ∈ u_packets s -> p ∈ u_packets s') -> (forall p, p ∈ u_read s -> p ∈ u_read s') -> grows s s'.
Proof.
  intros Hf Hi Hp Hr. split; [|done..]. intros k a (it & Hk & <-). unfold u_of. rewrite Hi.
  destruct (decide (i = k)) as [->|Hn]; [exists (f it); by rewrite (alter_at _ _ _ _ Hk)|].
  exists it. by rewrite list_lookup_alter_ne.
Qed.

(** An update of a session that keeps its source, and writes only packets of it *)
Record u_keeps s (f : uitem -> uitem) : Prop := {
  uk_src : forall it, u_src (f it) = u_src it;
  uk_sent : forall it, packed s it (u_conn it) -> packed s (f it) (u_conn (f it));
}.

Lemma touch_u_keeps (t : Z) s : u_keeps s (touch_u t).
Proof. by split. Qed.
Lemma close_u_keeps s : u_keeps s close_u.
Proof. by split. Qed.
Lemma write_u_keeps (src d m : bytes) s i it0 :
  u_items s !! i = Some it0 -> (u_src it0, d) ∈ u_packets s -> pack (u_src it0) d = Ok m ->
  packed s it0 (u_conn it0) -> packed s (write_u m it0) (u_conn (write_u m it0)).
Proof.
  intros Hi Hp Hm (ms & Ht & Hms). unfold write_u. cbn. destruct (closed (u_conn it0)); [by exists ms|].
  assert (E : tx (Write m (u_conn it0)).2 = tx (u_conn it0) \/ tx (Write m (u_conn it0)).2 = tx (u_conn it0) ++ [m]).
  { unfold Write. destruct (wres (u_conn it0)) as [|[]]; cbn; auto. }
  destruct E as [E|E]; [exists ms; by rewrite E|]. exists (ms ++ [m]). rewrite E, Ht. cbn. split; [by rewrite <- app_assoc|].
  apply Forall_app. split; [done|]. constructor; [by exists d|constructor].
Qed.

Lemma u_inv_upd (f : uitem -> uitem) (i : nat) s :
  (forall it, u_src (f it) = u_src it) ->
  (forall it, u_items s !! i = Some it -> packed s it (u_conn it) -> packed s (f it) (u_conn (f it))) ->
  u_inv s -> u_inv (upd_u f i s).
Proof.
  intros Hf Hs Hi. assert (Hg : grows s (upd_u f i s)) by by eapply grows_upd.
  u_change Hi; [exact Hg|..].
  cbn. intros k it [[_ H]|[<- (x & H & ->)]]%alter_inv; [by left|right].
  eapply grows_packed; [exact Hg|]. apply Hs; [done|]. by eapply ui_items.
Qed.

Lemma u_inv_touch (t : Z) (i : nat) s : u_inv s -> u_inv (upd_u (touch_u t) i s).
Proof. by apply u_inv_upd. Qed.
Lemma u_inv_close (i : nat) s : u_inv s -> u_inv (upd_u close_u i s).
Proof. by apply u_inv_upd. Qed.
Lemma u_inv_table (k : bytes) s : u_inv s -> u_inv (set_u_table (delete k (u_table s)) s).
Proof.
  intros Hi. u_change Hi.
  cbn. intros a i [_ H]%lookup_delete_Some. by left.
Qed.

Lemma delete_in {A} (l : list A) (k : nat) (x : A) : x ∈ delete k l -> x ∈ l.
Proof. intros Hx. eapply elem_of_submseteq; [exact Hx|]. apply sublist_submseteq, sublist_delete. Qed.

Lemma u_inv_dialed (k : nat) (r : outcome conn) s s' : u_inv s -> u_dialed k r s = Some s' -> u_inv s'.
Proof.
  intros Hi. unfold u_dialed. destruct (u_handlers s !! k) as [[src d|]|] eqn:Eh; [|done..].
  pose proof (ui_handlers _ Hi) as Hh. rewrite Forall_forall in Hh. pose proof (Hh _ (list_elem_of_lookup_2 _ _ _ Eh)) as Hd.
  destruct r as [c|e|]; intros [= <-].
  2,3: u_change Hi; cbn; intros h ?%delete_in; by left.
  set (i := length (u_items s)). set (s' := set_u_handlers _ _).
  assert (Hg : grows s s').
  { split; [|done..]. intros n a (it & H & Ha). exists it. split; [|done]. cbn. by apply lookup_app_l_Some. }
  assert (Hn : u_of s' i src) by (eexists; cbn; by rewrite lookup_app_r, Nat.sub_diag by (unfold i; lia)).
  u_change Hi; [exact Hg|..].
  - cbn. intros a n [[<- <-]|[_ H]]%lookup_insert_Some; [by right|by left].
  - cbn. intros h (n & Hl)%list_elem_of_lookup_1. apply list_lookup_insert_Some in Hl as [(_ & <- & _)|[_ H]].
    + right. split; [exact Hn|exact Hd].
    + left. by eapply list_elem_of_lookup_2.
  - cbn. intros n it [H|[-> ->]]%lookup_snoc; [by left|right]. exists []. cbn. split; [by rewrite app_nil_r|constructor].
Qed.

Lemma u_inv_write (k : nat) s s' : u_inv s -> u_write k s = Some s' -> u_inv s'.
Proof.
  intros Hi. unfold u_write. destruct (u_handlers s !! k) as [[|i src d]|] eqn:Eh; [done| |done].
  pose proof (ui_handlers _ Hi) as Hh. rewrite Forall_forall in Hh.
  pose proof (Hh _ (list_elem_of_lookup_2 _ _ _ Eh)) as [Ho Hd]. cbv zeta. intros [= <-].
  set (s1 := upd_u (touch_u (u_clock s)) i _).
  assert (H1 : u_inv s1).
  { apply u_inv_touch. u_change Hi.
    cbn. intros h ?%delete_in. by left. }
  destruct (pack src d) as [m| |] eqn:Em; [|done..]. apply u_inv_upd; [done| |done].
  intros it Hit Hp. destruct Ho as (it0 & H0 & Hs). cbn in Hit. rewrite (alter_at _ _ _ _ H0) in Hit. injection Hit as <-.
  eapply (write_u_keeps src d m s1 i); [by cbn; rewrite (alter_at _ _ _ _ H0)|cbn; by rewrite Hs|cbn; by rewrite Hs|done].
Qed.

Lemma u_inv_end (k i : nat) (key : bytes) s : u_inv s -> u_inv (u_end k i key s).
Proof.
  intros Hi. unfold u_end. set (s1 := upd_u close_u i _).
  assert (H1 : u_inv s1) by by apply u_inv_close, u_inv_table.
  u_change H1.
  cbn. intros p ?%delete_in. by left.
Qed.

Lemma u_inv_receive (k : nat) s s' : u_inv s -> u_receive k s = Some s' -> u_inv s'.
Proof.
  intros Hi. unfold u_receive. destruct (u_receivers s !! k) as [[i key]|] eqn:Er; [|done]. cbn [mbind option_bind].
  destruct (u_items s !! i) as [it|] eqn:Ei; [|done]. cbn [mbind option_bind].
  destruct (if closed (u_conn it) then _ else _) as [o c] eqn:Ec. intros [= <-].
  assert (Ht : tx c = tx (u_conn it)).
  { destruct (closed (u_conn it)); [by injection Ec as _ <-|]. unfold on_rx in Ec.
    destruct (ParseStreamDatagram _). by injection Ec as _ <-. }
  set (s1 := upd_u (set_conn_u c) i s).
  assert (H1 : u_inv s1).
  { apply u_inv_upd; [done| |done]. intros x Hx. rewrite Ei in Hx. injection Hx as <-. unfold packed. cbn. by rewrite Ht. }
  destruct o as [da|e|]; [|destruct (retries e); [done|by apply u_inv_end]|by apply u_inv_end].
  set (s2 := upd_u (touch_u (u_clock s1)) i s1).
  assert (H2 : u_inv s2) by by apply u_inv_touch.
  assert (Ho : u_of s2 i (u_src it)).
  { eexists. split; [cbn; by rewrite (alter_at _ _ _ _ (alter_at _ _ _ _ Ei))|done]. }
  u_change H2.
  - split; [done|done|cbn; set_solver].
  - cbn. intros p [?|Hp]%elem_of_app; [by left|]. apply list_elem_of_singleton in Hp as ->. right.
    exists i. split; [exact Ho|cbn; set_solver].
Qed.

Lemma u_inv_step (e : uevent) s s' : u_inv s -> ustep e s = Some s' -> u_inv s'.
Proof.
  intros Hi. destruct e as [src d|k r|k|k|k|k ok|i| | | |d|]; cbn [ustep].
  - intros [= <-]. set (s' := u_packet src d s).
    assert (Hg : grows s s') by (split; [done|cbn; set_solver|done]).
    u_change Hi; [exact Hg|..].
    cbn. intros h [?|Hh]%elem_of_app; [by left|]. apply list_elem_of_singleton in Hh as ->. right.
    destruct (u_table s !! src) as [i|] eqn:E; cbn; [|set_solver]. split; [|set_solver].
    by apply (g_of _ _ Hg), (ui_table _ Hi).
  - by apply u_inv_dialed.
  - by apply u_inv_write.
  - unfold u_start. destruct (u_starts s !! k) as [key|]; [|done]. cbn [mbind option_bind]. cbv zeta. intros [= <-].
    assert (H1 : u_inv (set_u_starts (delete k (u_starts s)) s)) by (u_change Hi).
    cbn [u_table set_u_starts]. destruct (u_table s !! key) as [i|] eqn:E; [|done].
    u_change H1.
    cbn. intros p [?|Hp]%elem_of_app; [by left|]. apply list_elem_of_singleton in Hp as ->. right.
    by apply (ui_table _ H1).
  - by apply u_inv_receive.
  - unfold u_flush. destruct (u_writers s !! k) as [p|] eqn:E; [|done]. cbn [mbind option_bind]. cbv zeta. intros [= <-].
    pose proof (ui_writers _ Hi) as Hw. rewrite Forall_forall in Hw. pose proof (Hw _ (list_elem_of_lookup_2 _ _ _ E)) as Hp.
    destruct ok; u_change Hi; try (cbn; intros q ?%delete_in; by left).
    cbn. intros q [?|Hq]%elem_of_app; [by left|]. apply list_elem_of_singleton in Hq as ->. by right.
  - intros [= <-]. by apply u_inv_close.
  - unfold u_tick. destruct (u_stopped s); [done|]. destruct (u_snapshot s); [|done]. destruct (u_removing s); [done|].
    intros [= <-]. u_change Hi.
    cbn. intros [k i] H%elem_of_map_to_list. right. by apply (ui_table _ Hi).
  - unfold u_item. destruct (u_snapshot s) as [|[k i] rest] eqn:E; [done|]. destruct (u_removing s); [done|].
    destruct (u_items s !! i) as [it|]; [|done]. cbn [mbind option_bind].
    assert (H1 : u_inv (set_u_snapshot rest (u_now s) s)).
    { u_change Hi. cbn. intros p Hp. left. rewrite E. set_solver. }
    intros [= <-]. destruct (_ <? _); [|done].
    eapply u_inv_change; [by apply (u_inv_close i), H1|by apply grows_same|..]; by left.
  - unfold u_remove. destruct (u_removing s) as [k|]; [|done]. intros [= <-].
    eapply u_inv_change; [by apply (u_inv_table k), Hi|by apply grows_same|..]; by left.
  - destruct (0 <=? d); [|done]. intros [= <-]. u_change Hi.
  - intros [= <-]. u_change Hi.
Qed.

Lemma u_inv_run (es : list uevent) s s' : u_inv s -> urun es s = Some s' -> u_inv s'.
Proof.
  revert s. induction es as [|e es IH]; intros s Hi; cbn [urun]; [by intros [= <-]|].
  destruct (ustep e s) as [s1|] eqn:E; [|done]. apply IH. by eapply u_inv_step.
Qed.

Lemma u_inv_init (t : Z) : u_inv (SU_init t).
Proof. split; cbn; try by constructor. all: by intros *; rewrite ?lookup_empty, ?lookup_nil. Qed.

(** The stream [i] is open, with [r] to be read from it, and no part of the node
    but a handler that may write to it knows it. *)
Record stray (i : nat) (r : reader) s : Prop := {
  o_item : exists it, u_items s !! i = Some it /\ closed (u_conn it) = false /\ rx (u_conn it) = r;
  o_table : forall k, u_table s !! k <> Some i;
  o_receivers : forall p, p ∈ u_receivers s -> p.1 <> i;
  o_snapshot : forall p, p ∈ u_snapshot s -> p.2 <> i;
}.

Lemma stray_same (i : nat) (r : reader) s s' : stray i r s ->
  (u_items s' !! i = u_items s !! i \/ exists it it', u_items s !! i = Some it /\ u_items s' !! i = Some it' /\
     closed (u_conn it') = closed (u_conn it) /\ rx (u_conn it') = rx (u_conn it)) ->
  (forall k j, u_table s' !! k = Some j -> u_table s !! k = Some j \/ j <> i) ->
  (forall p, p ∈ u_receivers s' -> p ∈ u_receivers s \/ p.1 <> i) ->
  (forall p, p ∈ u_snapshot s' -> p ∈ u_snapshot s \/ p.2 <> i) -> stray i r s'.
Proof.
  intros [(it & Hi & Hc & Hr) A B C] HI HA HB HC. split.
  - destruct HI as [HI|(x & x' & Hx & Hx' & E1 & E2)]; [exists it; by rewrite HI|].
    exists x'. rewrite Hi in Hx. injection Hx as <-. rewrite E1, E2. by split_and!.
  - intros k Hk. apply HA in Hk as [Hk|Hk]; [by eapply A|done].
  - intros p [Hp|Hp]%HB; [by apply B|done].
  - intros p [Hp|Hp]%HC; [by apply C|done].
Qed.

(** The changes left are those of the components that change. *)
Ltac o_change H := eapply stray_same; [exact H|..]; try (by left).

Lemma stray_other (f : uitem -> uitem) (i j : nat) (r : reader) s : j <> i -> stray i r s -> stray i r (upd_u f j s).
Proof. intros Hn H. o_change H. left. cbn. by rewrite list_lookup_alter_ne. Qed.

Lemma stray_upd (f : uitem -> uitem) (i j : nat) (r : reader) s :
  (forall it, closed (u_conn it) = false -> closed (u_conn (f it)) = false /\ rx (u_conn (f it)) = rx (u_conn it)) ->
  stray i r s -> stray i r (upd_u f j s).
Proof.
  intros Hf H. destruct (decide (j = i)) as [->|Hn]; [|by apply stray_other].
  destruct (o_item _ _ _ H) as (it & Hi & Hc & _). o_change H. right. exists it, (f it).
  destruct (Hf it Hc) as [E1 E2]. split_and!; [done|cbn; by rewrite (alter_at _ _ _ _ Hi)|congruence|done].
Qed.

Lemma Write_keeps (b : bytes) (c : conn) : closed (Write b c).2 = closed c /\ rx (Write b c).2 = rx c.
Proof. unfold Write. by destruct (wres c) as [|[]]. Qed.

Lemma stray_end (i j k : nat) (key : bytes) (r : reader) s : j <> i -> stray i r s -> stray i r (u_end k j key s).
Proof.
  intros Hn H. unfold u_end.
  assert (H1 : stray i r (upd_u close_u j (set_u_table (delete key (u_table s)) s))).
  { apply stray_other; [done|]. o_change H. cbn. intros a n [_ ?]%lookup_delete_Some. by left. }
  o_change H1. cbn. intros p ?%delete_in. by left.
Qed.

Lemma stray_receive (i k : nat) (r : reader) s s' : stray i r s -> u_receive k s = Some s' -> stray i r s'.
Proof.
  intros H. unfold u_receive. destruct (u_receivers s !! k) as [[j key]|] eqn:Er; [|done]. cbn [mbind option_bind].
  assert (Hn : j <> i) by (apply (o_receivers _ _ _ H (j, key)); by eapply list_elem_of_lookup_2).
  destruct (u_items s !! j) as [it|]; [|done]. cbn [mbind option_bind].
  destruct (if closed (u_conn it) then _ else _) as [o c]. intros [= <-].
  set (s1 := upd_u (set_conn_u c) j s). assert (H1 : stray i r s1) by by apply stray_other.
  destruct o as [da|e|]; [|destruct (retries e); [done|by apply stray_end]|by apply stray_end].
  assert (H2 : stray i r (upd_u (touch_u (u_clock s1)) j s1)) by by apply stray_other.
  o_change H2.
Qed.

Lemma stray_step (i : nat) (r : reader) (e : uevent) s s' :
  e <> UDies i -> stray i r s -> ustep e s = Some s' -> stray i r s'.
Proof.
  intros He H. destruct e as [src d|k c|k|k|k|k ok|j| | | |d|]; cbn [ustep].
  - intros [= <-]. o_change H.
  - unfold u_dialed. destruct (u_handlers s !! k) as [[src d|]|]; [|done..].
    destruct (o_item _ _ _ H) as (it & Hi & _). pose proof (lookup_lt_Some _ _ _ Hi) as Hl.
    destruct c as [c|e|]; intros [= <-]; o_change H; cbn.
    + left. by rewrite lookup_app_l.
    + intros a n [[<- <-]|[_ ?]]%lookup_insert_Some; [right; lia|by left].
  - unfold u_write. destruct (u_handlers s !! k) as [[|j src d]|]; [done| |done]. cbv zeta. intros [= <-].
    assert (H1 : stray i r (upd_u (touch_u (u_clock s)) j (set_u_handlers (delete k (u_handlers s)) s))).
    { apply stray_upd; [done|]. o_change H. }
    destruct (pack src d) as [m| |]; [|done..]. apply stray_upd; [|done]. intros it Hc. unfold write_u. cbn.
    rewrite Hc. destruct (Write_keeps m (u_conn it)) as [E1 E2]. by rewrite E1, E2.
  - unfold u_start. destruct (u_starts s !! k) as [key|]; [|done]. cbn [mbind option_bind]. cbv zeta. intros [= <-].
    cbn [u_table set_u_starts]. destruct (u_table s !! key) as [j|] eqn:E; o_change H; cbn.
    intros p [?|Hp]%elem_of_app; [by left|]. apply list_elem_of_singleton in Hp as ->. right. cbn.
    intros ->. by apply (o_table _ _ _ H key).
  - by apply stray_receive.
  - unfold u_flush. destruct (u_writers s !! k); [|done]. cbn [mbind option_bind]. cbv zeta. intros [= <-].
    destruct ok; o_change H.
  - intros [= <-]. apply stray_other; [congruence|done].
  - unfold u_tick. destruct (u_stopped s); [done|]. destruct (u_snapshot s); [|done]. destruct (u_removing s); [done|].
    intros [= <-]. o_change H. cbn. intros [a n] Hp%elem_of_map_to_list. right. cbn. intros ->.
    by apply (o_table _ _ _ H a).
  - unfold u_item. destruct (u_snapshot s) as [|[a j] rest] eqn:E; [done|]. destruct (u_removing s); [done|].
    destruct (u_items s !! j) as [it|]; [|done]. cbn [mbind option_bind].
    assert (Hn : j <> i) by (apply (o_snapshot _ _ _ H (a, j)); rewrite E; set_solver).
    assert (H1 : stray i r (set_u_snapshot rest (u_now s) s)).
    { o_change H. cbn. intros p Hp. left. rewrite E. set_solver. }
    intros [= <-]. destruct (_ <? _); [|done]. pose proof (stray_other close_u i j r _ Hn H1) as H2. o_change H2.
  - unfold u_remove. destruct (u_removing s) as [k|]; [|done]. intros [= <-]. o_change H.
    cbn. intros a n [_ ?]%lookup_delete_Some. by left.
  - destruct (0 <=? d); [|done]. intros [= <-]. o_change H.
  - intros [= <-]. o_change H.
Qed.

Lemma stray_run (i : nat) (r : reader) (es : list uevent) s s' :
  Forall (fun e => e <> UDies i) es -> stray i r s -> urun es s = Some s' -> stray i r s'.
Proof.
  revert s. induction es as [|e es IH]; intros s He H; cbn [urun]; [by intros [= <-]|].
  apply Forall_cons in He as [He Hes]. destruct (ustep e s) as [s1|] eqn:E; [|done]. apply IH; [done|].
  by eapply stray_step.
Qed.
End UdpLaws.

(** The state as one record *)
Ltac flat_state :=
  unfold set_u_table, set_u_items, set_u_handlers, set_u_starts, set_u_receivers, add_u_packet, SU_init;
  cbn [u_table u_items u_handlers u_starts u_receivers u_writers u_sent u_packets u_read u_snapshot u_now u_removing
    u_clock u_stopped app length
    delete list_delete insert list_insert].

(** What the events of a race do *)
Lemma u_packet_new (src d : bytes) (s : SU) : u_table s !! src = None ->
  u_packet src d s = set_u_handlers (u_handlers s ++ [Dialing src d]) (add_u_packet (src, d) s).
Proof. unfold u_packet. cbn [u_table add_u_packet u_handlers]. by intros ->. Qed.

Lemma u_dialed_ok (k : nat) (src d : bytes) (c : conn) (s : SU) : u_handlers s !! k = Some (Dialing src d) ->
  u_dialed k (Ok c) s = Some (set_u_handlers (<[k := Writing (length (u_items s)) src d]> (u_handlers s))
    (set_u_starts (u_starts s ++ [src]) (set_u_table (<[src := length (u_items s)]> (u_table s))
      (set_u_items (u_items s ++ [mkU src c 0 (tx c)]) s)))).
Proof. unfold u_dialed. by intros ->. Qed.

Lemma u_start_ok (k i : nat) (key : bytes) (s : SU) : u_starts s !! k = Some key -> u_table s !! key = Some i ->
  u_start k s = Some (set_u_receivers (u_receivers s ++ [(i, key)]) (set_u_starts (delete k (u_starts s)) s)).
Proof. unfold u_start. intros -> H. cbn [mbind option_bind u_table set_u_starts u_receivers]. by rewrite H. Qed.

(** ** Routes *)

Lemma TrimPrefix_app (p s : bytes) : TrimPrefix (p ++ s) p = s.
Proof. unfold TrimPrefix. rewrite HasPrefix_app. by rewrite drop_app_length. Qed.

Lemma TrimPrefix_none (s p : bytes) : HasPrefix s p = false -> TrimPrefix s p = s.
Proof. unfold TrimPrefix. by intros ->. Qed.

(** A prefix does not reach past a byte it does not have. *)
Lemma HasPrefix_stop (c : byte) (p l r : bytes) : c ∉ p -> HasPrefix (l ++ c :: r) p = HasPrefix l p.
Proof.
  revert l. induction p as [|x p IH]; intros l Hc; [by destruct l|].
  apply not_elem_of_cons in Hc as [Hx Hc]. destruct l as [|y l]; cbn.
  - by rewrite bool_decide_false.
  - by rewrite IH.
Qed.

Lemma parse_route_app (pre l r : bytes) : l <> [] -> r <> [] -> z2b 64 ∉ l -> z2b 64 ∉ r ->
  TrimPrefix (TrimPrefix (pre ++ l ++ lit "@" ++ r) (lit "udp://")) (lit "tcp://") = l ++ lit "@" ++ r ->
  parse_route (pre ++ l ++ lit "@" ++ r) = Ok (HasPrefix (pre ++ l ++ lit "@" ++ r) (lit "udp://"), l, r).
Proof.
  intros Hl Hr Al Ar Ht. unfold parse_route. rewrite Ht. change (lit "@") with [z2b 64].
  pose proof (Split_Join_byte (z2b 64) [l; r]) as E.
  cbn [Join] in E. change (Join [r] [z2b 64]) with r in E. rewrite E by (try done; by repeat constructor).
  by rewrite !bool_decide_false.
Qed.

(** * Properties *)

(** C18: a server node has one session at most.  After any calls, losses and
    reapings, a session that is open is the one the node knows, and a closed
    session's connection is closed.  A call that returns a stream got it from the
    open session, the one it found or a new one that was negotiated over a new
    connection; after a call that fails none is open, so the next one dials. *)
Theorem one_session {PN : Proto NegotiateMsg} (key id : bytes) (es : list nevent) (l : option bool) (s : node)
    (dial : outcome conn) (mk : option error) (opened : outcome conn) :
  nrun key id es (node_init l) = Some s ->
  (forall i ns, all s !! i = Some ns ->
     (ns_closed ns = false -> sessions_ s = Some i) /\ (ns_closed ns = true -> closed (ns_conn ns) = true)) /\
  match GetConn key id dial mk opened s with
  | (Ok c, s') => opened = Ok c /\ exists i ns, sessions_ s' = Some i /\ all s' !! i = Some ns /\ ns_closed ns = false /\
      (if sessions_ s then s' = s
       else exists p, dial = Ok p /\ mk = None /\ server_negotiate key id p = (Ok tt, ns_conn ns))
  | (Fail _, s') => forall i ns, all s' !! i = Some ns -> ns_closed ns = true
  | (Panic, _) => True
  end.
Proof.
  intros Hr%(nrun_inv key id es _ _ (node_init_inv l)). split.
  { intros i ns H. split; [by apply ni_open|by eapply ni_conn]. }
  pose proof (GetConn_inv key id dial mk opened s Hr) as Hi.
  destruct (GetConn key id dial mk opened s) as [[c|e|] s'] eqn:E; [| |done]; unfold GetConn in E; rewrite bind_gets in E.
  - assert (Ho : forall s1 s2, open_stream opened s1 = (Ok c, s2) -> opened = Ok c /\ s2 = s1 /\
      exists i ns, sessions_ s1 = Some i /\ all s1 !! i = Some ns /\ ns_closed ns = false).
    { unfold open_stream. intros s1 s2. destruct (sessions_ s1) as [i|]; [|done].
      destruct (all s1 !! i) as [ns|] eqn:Ea; [|done]. destruct (ns_closed ns) eqn:Ec; [done|].
      destruct opened; [|done..]. intros [= <- <-]. split_and!; [done..|]. by exists i, ns. }
    destruct (sessions_ s) as [i|] eqn:Es.
    + apply Ho in E as (Ho' & -> & i' & ns & H1 & H2 & H3). split; [done|]. exists i', ns. by split_and!.
    + apply bind_inv in E as ([] & s1 & E1 & E2). apply Ho in E2 as (Ho' & -> & i & ns & H1 & H2 & H3).
      split; [done|]. exists i, ns. split_and!; [done..|]. unfold new_ns in E1. destruct dial as [p| |]; [|done..].
      destruct (server_negotiate key id p) as [[[]| |] p'] eqn:En; [destruct mk|..]; try done.
      injection E1 as <-. exists p. cbn in H1, H2. injection H1 as <-.
      rewrite lookup_app_r, Nat.sub_diag in H2 by lia. by injection H2 as <-.
  - assert (Hs : sessions_ s' = None).
    { assert (Ho : forall s1 s2, open_stream opened s1 = (Fail e, s2) -> sessions_ s2 = None).
      { unfold open_stream. intros s1 s2. destruct (sessions_ s1) as [i|]; [|done].
        destruct (all s1 !! i) as [ns|]; [|done]. destruct (if ns_closed ns then _ else _); [done| |done]. by intros [= _ <-]. }
      destruct (sessions_ s) as [i|] eqn:Es; [exact (Ho _ _ E)|].
      unfold mbind, io_bind in E. destruct (new_ns key id dial mk s) as [[[]|e'|] s1] eqn:E1; [exact (Ho _ _ E)| |done].
      injection E as -> ->. unfold new_ns in E1. destruct dial as [p|e'|]; [|by injection E1 as _ <-|done].
      destruct (server_negotiate key id p) as [[[]| |] p']; [destruct mk|..]; try done; injection E1 as _ <-; done. }
    intros i ns H. destruct (ns_closed ns) eqn:Ec; [done|]. pose proof (ni_open _ Hi _ _ H Ec) as Ho. cbn in Ho. congruence.
Qed.

(** C19: a server node never mixes its local sources up.  However its goroutines
    interleave: what is written to a stream after its handshake are packets of the
    source the stream was opened for, addressed with it; what is sent to a local
    address was read from a stream of that address; and the table maps a source to
    a stream of its own. *)
Theorem node_sound (t : Z) (es : list uevent) (s : SU) :
  urun es (SU_init t) = Some s ->
  (forall k i, u_table s !! k = Some i -> u_of s i k) /\
  (forall i it, u_items s !! i = Some it -> exists ms, tx (u_conn it) = u_hello it ++ ms /\
     forall m, m ∈ ms -> exists d, (u_src it, d) ∈ u_packets s /\ pack (u_src it) d = Ok m) /\
  (forall a d, (a, d) ∈ u_sent s -> exists i, u_of s i a /\ (i, d) ∈ u_read s).
Proof.
  intros Hr%(u_inv_run es _ _ (u_inv_init t)). split_and!.
  - by apply ui_table.
  - intros i it Hi. destruct (ui_items _ Hr i it Hi) as (ms & Ht & Hm). exists ms. split; [done|].
    by apply Forall_forall.
  - intros a d Hin. pose proof (ui_sent _ Hr) as H. rewrite Forall_forall in H. exact (H _ Hin).
Qed.

(** Two packets of a new source lose a stream.  Handlers do not share a dial:
    when the second packet arrives before the first one's dial has ended, both open
    a stream.  The second replaces the first in the table, and both receivers find
    the second; the first one stays open, whatever happens, until its session ends,
    and what comes back on it is never read. *)
Theorem server_udp_race (t : Z) (src d1 d2 : bytes) (c1 c2 : conn) :
  closed c1 = false ->
  exists s, urun [UPacket src d1; UPacket src d2; UDialed 0 (Ok c1); UDialed 1 (Ok c2); UStart 0; UStart 0] (SU_init t)
      = Some s /\
    u_receivers s = [(1%nat, src); (1%nat, src)] /\ u_table s !! src = Some 1%nat /\
    forall es s', Forall (fun e => e <> UDies 0) es -> urun es s = Some s' ->
      exists it, u_items s' !! 0%nat = Some it /\ closed (u_conn it) = false /\ rx (u_conn it) = rx c1.
Proof.
  intros Hc. cbn [urun ustep mbind option_bind].
  rewrite u_packet_new by apply lookup_empty. flat_state. rewrite u_packet_new by apply lookup_empty. flat_state.
  rewrite (u_dialed_ok 0 src d1) by reflexivity. cbn [mbind option_bind]. flat_state.
  rewrite (u_dialed_ok 1 src d2) by reflexivity. cbn [mbind option_bind]. flat_state.
  rewrite (u_start_ok 0 1 src); [|reflexivity|apply lookup_insert_eq]. cbn [mbind option_bind]. flat_state.
  rewrite (u_start_ok 0 1 src); [|reflexivity|apply lookup_insert_eq]. flat_state.
  eexists. split; [reflexivity|]. split; [reflexivity|]. split; [apply lookup_insert_eq|].
  intros es s' He Hr. eapply stray_run in Hr; [by apply (o_item 0 (rx c1))|exact He|]. split.
  - eexists. by split_and!.
  - intros k. cbn [u_table].
    intros [[_ H]|[Hn [[E _]|[_ H]]%lookup_insert_Some]]%lookup_insert_Some; [done|done|by rewrite lookup_empty in H].
  - cbn. intros p [->|[->|Hp%not_elem_of_nil]%elem_of_cons]%elem_of_cons; done.
  - by intros p Hp%not_elem_of_nil.
Qed.

(** A TCP connection is joined with one stream.  Whatever the attempts and the
    copying do, the local connection ends closed, and so does the stream when one of
    the first eleven attempts opened it; otherwise nothing is joined. *)
Theorem handleTCP_closes (attempts : list (io node conn)) (copy : conn -> conn -> conn * conn) (inConn : conn) (s : node) :
  match handleTCP attempts copy inConn s with
  | (Ok (i, t), s') =>
      closed i = true /\
      match retry (take 11 attempts) ErrClosed s with
      | (Ok c, s1) => s' = s1 /\ t = Some (Close (copy c inConn).1).2 /\ i = (Close (copy c inConn).2).2
      | (_, s1) => s' = s1 /\ t = None /\ i = (Close inConn).2
      end
  | _ => False
  end.
Proof.
  unfold handleTCP. destruct (retry _ _ s) as [[c|e|] s1]; [|done..].
  by destruct (copy c inConn) as [t i] eqn:E.
Qed.

(** A route means what it says.  The local address before the sign and the
    remote one behind it are taken as they stand, the protocol is udp exactly with
    that scheme, and the node's configuration is what the remote address splits
    into. *)
Theorem route_parsed (k : checks) (split : bytes -> outcome (bytes * Z)) (c : NodeConfig) (l r : bytes) (hp : bytes * Z)
    (key : bytes) :
  l <> [] -> r <> [] -> z2b 64 ∉ l -> z2b 64 ∉ r ->
  HasPrefix l (lit "udp://") = false -> HasPrefix l (lit "tcp://") = false ->
  Client_inspectConfig k c = Ok key -> split r = Ok hp ->
  let conf pre := mkNodeConfig (ParentType c) (CertFile c) (KeyFile c) (RawProxyURL c) (pre ++ l ++ lit "@" ++ r) in
  Server_inspectConfig k split (conf (lit "udp://")) = Ok (true, l, hp) /\
  Server_inspectConfig k split (conf (lit "tcp://")) = Ok (false, l, hp) /\
  Server_inspectConfig k split (conf []) = Ok (false, l, hp).
Proof.
  intros Hl Hr Al Ar Hu Ht Hc Hs. cbv zeta.
  assert (E : forall pre b, TrimPrefix (TrimPrefix (pre ++ l ++ lit "@" ++ r) (lit "udp://")) (lit "tcp://") = l ++ lit "@" ++ r ->
    HasPrefix (pre ++ l ++ lit "@" ++ r) (lit "udp://") = b ->
    Server_inspectConfig k split (mkNodeConfig (ParentType c) (CertFile c) (KeyFile c) (RawProxyURL c)
      (pre ++ l ++ lit "@" ++ r)) = Ok (b, l, hp)).
  { intros pre b E <-. unfold Server_inspectConfig, Client_inspectConfig in *. cbn [ParentType CertFile KeyFile RawProxyURL Route].
    rewrite Hc. cbn [mbind outcome_bind]. rewrite parse_route_app by done. cbn [mbind outcome_bind]. by rewrite Hs. }
  assert (Hstop : forall p, z2b 64 ∉ p -> HasPrefix (l ++ lit "@" ++ r) p = HasPrefix l p).
  { intros p Hp. by apply (HasPrefix_stop (z2b 64)). }
  assert (Nu : HasPrefix (l ++ lit "@" ++ r) (lit "udp://") = false).
  { rewrite Hstop; [done|]. by apply (bool_decide_unpack _). }
  assert (Nt : HasPrefix (l ++ lit "@" ++ r) (lit "tcp://") = false).
  { rewrite Hstop; [done|]. by apply (bool_decide_unpack _). }
  split_and!; apply E.
  - by rewrite TrimPrefix_app, TrimPrefix_none.
  - apply HasPrefix_app.
  - rewrite (TrimPrefix_none _ (lit "udp://")) by done. apply TrimPrefix_app.
  - done.
  - rewrite app_nil_l, (TrimPrefix_none _ (lit "udp://")) by done. by apply TrimPrefix_none.
  - done.
Qed.

(** * Witnesses *)

Import Through.Sample.

(** The bridge accepts, a stream is opened, and the session is lost. *)
Definition accepted : conn := conn_of [Seg [RepSuccess; ThroughVersion]].
Definition one_call : list nevent := [NGet (Ok accepted) None (Ok (conn_of [])); NDies 0; NReap].

Lemma one_session_witness :
  exists s s' c, nrun (lit "sk") (lit "id") one_call (node_init (Some true)) = Some s /\
    GetConn (lit "sk") (lit "id") (Ok accepted) None (Ok (conn_of [])) s = (Ok c, s') /\
    sessions_ s = None /\ sessions_ s' = Some 1%nat.
Proof.
  destruct (nrun (lit "sk") (lit "id") one_call (node_init (Some true))) as [s|] eqn:E; [|vm_compute in E; discriminate E].
  pose proof (one_session (lit "sk") (lit "id") one_call (Some true) s (Ok accepted) None (Ok (conn_of [])) E) as [_ H].
  assert (Es : s = default (node_init None) (nrun (lit "sk") (lit "id") one_call (node_init (Some true)))) by (rewrite E; reflexivity).
  destruct (GetConn (lit "sk") (lit "id") (Ok accepted) None (Ok (conn_of [])) s) as [[c|e|] s'] eqn:G.
  - exists s, s', c. destruct H as (_ & i & ns & Hi & _). split; [reflexivity|]. split; [exact G|].
    split; [rewrite Es; vm_compute; reflexivity|].
    pose proof (f_equal (fun x => sessions_ x.2) G) as F. cbn [snd] in F. rewrite <- F, Es. vm_compute. reflexivity.
  - rewrite Es in G. vm_compute in G. discriminate G.
  - rewrite Es in G. vm_compute in G. discriminate G.
Defined.

Definition lan : bytes := lit "192.168.1.2:5000".

Definition lan_run : list uevent := [UPacket lan (lit "q"); UDialed 0 (Ok (conn_of [])); UWrite 0; UStart 0].

Lemma node_sound_witness :
  exists s it, urun lan_run (SU_init 0) = Some s /\ u_items s !! 0%nat = Some it /\
    exists ms, tx (u_conn it) = u_hello it ++ ms /\ length ms = 1%nat.
Proof.
  destruct (urun lan_run (SU_init 0)) as [s|] eqn:E; [|vm_compute in E; discriminate E].
  destruct (u_items s !! 0%nat) as [it|] eqn:Ei; [|vm_compute in E; injection E as <-; discriminate Ei].
  exists s, it. split; [reflexivity|]. split; [exact Ei|].
  destruct (node_sound 0 lan_run s E) as (_ & H & _). destruct (H 0%nat it Ei) as (ms & Ht & _). exists ms. split; [exact Ht|].
  vm_compute in E. injection E as <-. vm_compute in Ei. injection Ei as <-.
  apply (f_equal (@length _)) in Ht. vm_compute in Ht. destruct ms as [|m [|m' ms]]; [discriminate Ht|reflexivity|discriminate Ht].
Defined.

Lemma server_udp_race_witness :
  exists s, urun [UPacket lan (lit "a"); UPacket lan (lit "b"); UDialed 0 (Ok (conn_of [])); UDialed 1 (Ok (conn_of []));
      UStart 0; UStart 0] (SU_init 0) = Some s /\
    exists it, u_items s !! 0%nat = Some it /\ closed (u_conn it) = false.
Proof.
  destruct (server_udp_race 0 lan (lit "a") (lit "b") (conn_of []) (conn_of [])) as (s & H & _ & _ & Hs); [reflexivity|].
  exists s. split; [exact H|]. destruct (Hs [] s) as (it & H1 & H2 & _); [constructor|reflexivity|].
  exists it. exact (conj H1 H2).
Defined.

Lemma route_parsed_witness :
  Server_inspectConfig (mkChecks None (Ok []) None None) (fun r => Ok (r, 80))
    (mkNodeConfig (lit "tcp") [] [] [] (lit "udp://" ++ lit ":5000" ++ lit "@" ++ lit "10.0.0.1:80")) =
  Ok (true, lit ":5000", (lit "10.0.0.1:80", 80)).
Proof.
  refine (proj1 (route_parsed (mkChecks None (Ok []) None None) (fun r => Ok (r, 80))
    (mkNodeConfig (lit "tcp") [] [] [] []) (lit ":5000") (lit "10.0.0.1:80") (lit "10.0.0.1:80", 80) []
    _ _ _ _ eq_refl eq_refl eq_refl eq_refl)); [discriminate|discriminate|apply (bool_decide_unpack _); reflexivity..].
Defined.
