(* ===== verification/MuxClient.v ===== *)
(** services/mux/client.go: a client node of the tunnel beyond its messages.  It
    keeps connecting to the bridge, takes the streams that come over the session,
    and joins each with a local TCP connection, or relays the datagrams on it to a
    local UDP address over a socket per source.  The goroutines of the UDP side (the
    loop of a stream, the start of receivers, receivers, the writers in either
    direction, the collector) are the events of a step function; dials, the smux
    library and the clock are inputs. *)
From S2P Require Import Prelude GoStrings GoNet GoIO Captain Through UdpRelay TcpSvc Mux MuxServer.
Open Scope Z_scope.

(** * Connecting to the bridge *)
Section Rounds.
Context {PN : Proto NegotiateMsg}.

(** What [AcceptStream] gives, or that the context is done before it *)
Inductive accept := AStream (c : conn) | AError (e : error) | ADone.

(** How an attempt ends: with an error after which the backoff goes on, from its
    start if [reset], or with a permanent one, or by a panic *)
Inductive round_end := RRetry (e : error) (reset : bool) | RPermanent | RPanic.

(** An attempt: its end, the connection to the bridge and the closing of the session,
    if there were any, and the streams taken *)
Record round := mkRound {
  r_end : round_end; r_conn : option conn; r_closed : option bool; r_streams : list conn;
}.

Fixpoint accept_loop (l : list accept) : round_end * bool * list conn :=
  match l with
  | [] | ADone :: _ => (RPermanent, false, [])
  | AError e :: _ => (RRetry e true, true, [])
  | AStream c :: l => let '(e, b, cs) := accept_loop l in (e, b, c :: cs)
  end.

Definition client_round (key : bytes) (dial : outcome conn) (mk : option error) (l : list accept) : round :=
  match dial with
  | Fail e => mkRound (RRetry e false) None None []
  | Panic => mkRound RPanic None None []
  | Ok p =>
      match client_negotiate key p with
      | (Fail e, p) => mkRound (RRetry e false) (Some p) None []
      | (Panic, p) => mkRound RPanic (Some p) None []
      | (Ok _, p) =>
          match mk with
          | Some e => mkRound (RRetry e false) (Some (Close p).2) None []
          | None => let '(e, b, cs) := accept_loop l in mkRound e (Some (Close p).2) (Some b) cs
          end
      end
  end.

(** [backoff.Retry]: attempts up to the first that ends otherwise *)
Fixpoint client_loop (rs : list round) : list conn * round_end :=
  match rs with
  | [] => ([], RPermanent)
  | r :: rs =>
      match r_end r with
      | RRetry _ _ => let '(cs, e) := client_loop rs in (r_streams r ++ cs, e)
      | e => (r_streams r, e)
      end
  end.

End Rounds.

(** [proxyTCP]: four attempts to dial, then [copy]; the result are the stream and the
    local connection as they end. *)
Fixpoint dial_local (dials : list (outcome conn)) : option conn :=
  match dials with
  | Ok c :: _ => Some c
  | _ :: dials => dial_local dials
  | [] => None
  end.

Definition proxyTCP (dials : list (outcome conn)) (copy : conn -> conn -> conn * conn) (inConn : conn)
  : conn * option conn :=
  match dial_local (take 4 dials) with
  | Some t => let '(i, t) := copy inConn t in ((Close i).2, Some (Close t).2)
  | None => ((Close inConn).2, None)
  end.

(** * The datagrams of a stream *)

(** Where the loop of a stream is: about to read, dialing for a datagram, or over *)
Inductive phase := CReading | CDialing (data : bytes) | CGone.

(** The variables of [proxyUDP], which its goroutines share: [cs_item] and
    [cs_cache] *)
Record cstream := mkCS {
  cs_conn : conn; cs_local : bytes; cs_item : option nat; cs_cache : bytes; cs_phase : phase;
}.

(** [ci_addr] is what the source resolved to, [ci_target] the address dialed, and
    [ci_sent] what was written to the local socket. *)
Record citem := mkC {
  ci_src : bytes; ci_stream : nat; ci_addr : bytes; ci_target : bytes; ci_last : Z; ci_closed : bool;
  ci_sent : list bytes;
}.

Record CU := mkCU {
  c_streams : list cstream;
  c_table : gmap bytes nat;
  c_items : list citem;
  c_starts : list nat;               (** [runUdpReceive(cacheSrcAddr, ...)] not yet run: their stream *)
  c_receivers : list (nat * bytes);
  c_writes : list (nat * bytes);     (** [item.localConn.Write] not yet run: its stream, the data *)
  c_frames : list (nat * bytes);     (** replies not yet written to their stream *)
  c_read : list (nat * bytes * bytes);  (** read from streams: stream, source, data *)
  c_got : list (nat * bytes);        (** received on local sockets *)
  c_snapshot : list (bytes * nat);
  c_now : Z;
  c_removing : option bytes;
  c_clock : Z;
  c_stopped : bool;
}.

Definition CU_init (t : Z) : CU := mkCU [] ∅ [] [] [] [] [] [] [] [] t None t false.

Definition set_c_streams x s := mkCU x (c_table s) (c_items s) (c_starts s) (c_receivers s) (c_writes s) (c_frames s)
  (c_read s) (c_got s) (c_snapshot s) (c_now s) (c_removing s) (c_clock s) (c_stopped s).
Definition set_c_table x s := mkCU (c_streams s) x (c_items s) (c_starts s) (c_receivers s) (c_writes s) (c_frames s)
  (c_read s) (c_got s) (c_snapshot s) (c_now s) (c_removing s) (c_clock s) (c_stopped s).
Definition set_c_items x s := mkCU (c_streams s) (c_table s) x (c_starts s) (c_receivers s) (c_writes s) (c_frames s)
  (c_read s) (c_got s) (c_snapshot s) (c_now s) (c_removing s) (c_clock s) (c_stopped s).
Definition set_c_starts x s := mkCU (c_streams s) (c_table s) (c_items s) x (c_receivers s) (c_writes s) (c_frames s)
  (c_read s) (c_got s) (c_snapshot s) (c_now s) (c_removing s) (c_clock s) (c_stopped s).
Definition set_c_receivers x s := mkCU (c_streams s) (c_table s) (c_items s) (c_starts s) x (c_writes s) (c_frames s)
  (c_read s) (c_got s) (c_snapshot s) (c_now s) (c_removing s) (c_clock s) (c_stopped s).
Definition set_c_writes x s := mkCU (c_streams s) (c_table s) (c_items s) (c_starts s) (c_receivers s) x (c_frames s)
  (c_read s) (c_got s) (c_snapshot s) (c_now s) (c_removing s) (c_clock s) (c_stopped s).
Definition set_c_frames x s := mkCU (c_streams s) (c_table s) (c_items s) (c_starts s) (c_receivers s) (c_writes s) x
  (c_read s) (c_got s) (c_snapshot s) (c_now s) (c_removing s) (c_clock s) (c_stopped s).
Definition add_c_read x s := mkCU (c_streams s) (c_table s) (c_items s) (c_starts s) (c_receivers s) (c_writes s) (c_frames s)
  (c_read s ++ [x]) (c_got s) (c_snapshot s) (c_now s) (c_removing s) (c_clock s) (c_stopped s).
Definition add_c_got x s := mkCU (c_streams s) (c_table s) (c_items s) (c_starts s) (c_receivers s) (c_writes s) (c_frames s)
  (c_read s) (c_got s ++ [x]) (c_snapshot s) (c_now s) (c_removing s) (c_clock s) (c_stopped s).
Definition set_c_snapshot x n s := mkCU (c_streams s) (c_table s) (c_items s) (c_starts s) (c_receivers s) (c_writes s)
  (c_frames s) (c_read s) (c_got s) x n (c_removing s) (c_clock s) (c_stopped s).
Definition set_c_removing x s := mkCU (c_streams s) (c_table s) (c_items s) (c_starts s) (c_receivers s) (c_writes s)
  (c_frames s) (c_read s) (c_got s) (c_snapshot s) (c_now s) x (c_clock s) (c_stopped s).
Definition set_c_clock x s := mkCU (c_streams s) (c_table s) (c_items s) (c_starts s) (c_receivers s) (c_writes s)
  (c_frames s) (c_read s) (c_got s) (c_snapshot s) (c_now s) (c_removing s) x (c_stopped s).
Definition set_c_stopped s := mkCU (c_streams s) (c_table s) (c_items s) (c_starts s) (c_receivers s) (c_writes s)
  (c_frames s) (c_read s) (c_got s) (c_snapshot s) (c_now s) (c_removing s) (c_clock s) true.

Definition upd_cs (f : cstream -> cstream) (j : nat) (s : CU) : CU := set_c_streams (alter f j (c_streams s)) s.
Definition on_cs_conn (f : conn -> conn) (st : cstream) : cstream :=
  mkCS (f (cs_conn st)) (cs_local st) (cs_item st) (cs_cache st) (cs_phase st).
Definition set_cache (k : bytes) (st : cstream) : cstream :=
  mkCS (cs_conn st) (cs_local st) (cs_item st) k (cs_phase st).
Definition set_cs_item (i : nat) (st : cstream) : cstream :=
  mkCS (cs_conn st) (cs_local st) (Some i) (cs_cache st) (cs_phase st).
Definition set_phase (p : phase) (st : cstream) : cstream :=
  mkCS (cs_conn st) (cs_local st) (cs_item st) (cs_cache st) p.
Definition close_cs (j : nat) : CU -> CU := upd_cs (on_cs_conn (fun c => (Close c).2)) j.

Definition upd_ci (f : citem -> citem) (i : nat) (s : CU) : CU := set_c_items (alter f i (c_items s)) s.
Definition touch_ci (t : Z) (it : citem) : citem :=
  mkC (ci_src it) (ci_stream it) (ci_addr it) (ci_target it) t (ci_closed it) (ci_sent it).
Definition close_ci (it : citem) : citem :=
  mkC (ci_src it) (ci_stream it) (ci_addr it) (ci_target it) (ci_last it) true (ci_sent it).
Definition write_ci (b : bytes) (it : citem) : citem :=
  mkC (ci_src it) (ci_stream it) (ci_addr it) (ci_target it) (ci_last it) (ci_closed it) (ci_sent it ++ [b]).

(** Both connections of a session are closed. *)
Definition close_both (i : nat) (s : CU) : CU :=
  match c_items s !! i with
  | Some it => upd_ci close_ci i (close_cs (ci_stream it) s)
  | None => s
  end.

Section Client.
Context (cap : nat) (resolve : bytes -> option bytes).

(** [proxyUDP] returns. *)
Definition c_end (j : nat) (s : CU) : CU :=
  match c_streams s !! j with
  | Some st =>
      let s := upd_cs (set_phase CGone) j (close_cs j s) in
      match cs_item st with
      | Some i => close_both i (set_c_table (delete (cs_cache st) (c_table s)) s)
      | None => s
      end
  | None => s
  end.

(** The end of a turn: the session becomes that of the variable and is touched, and
    a goroutine is to write the data. *)
Definition c_forward (j i : nat) (data : bytes) (s : CU) : CU :=
  set_c_writes (c_writes s ++ [(j, data)])
    (upd_ci (touch_ci (c_clock s)) i (upd_cs (fun st => set_phase CReading (set_cs_item i st)) j s)).

(** A turn of [proxyUDP] up to the lookup *)
Definition c_turn (j : nat) (s : CU) : option CU :=
  st ← c_streams s !! j;
  match cs_phase st with
  | CReading =>
      if c_stopped s then Some (c_end j s)
      else
        let '(o, c) := if closed (cs_conn st) then (Fail ErrClosedPipe, cs_conn st)
                       else on_rx ParseStreamDatagram (cs_conn st) in
        let s := upd_cs (on_cs_conn (fun _ => c)) j s in
        Some (match o with
              | Ok da =>
                  let src := AddrSpec_String (Addr da) in
                  let s := add_c_read (j, src, DData da) (upd_cs (set_cache src) j s) in
                  match c_table s !! src with
                  | Some i => c_forward j i (DData da) s
                  | None => upd_cs (set_phase (CDialing (DData da))) j s
                  end
              | _ => c_end j s
              end)
  | _ => None
  end.

(** The dial of a local socket ends, well if [ok]. *)
Definition c_dialed (j : nat) (ok : bool) (s : CU) : option CU :=
  st ← c_streams s !! j;
  match cs_phase st with
  | CDialing data =>
      if ok then
        let src := cs_cache st in
        let i := length (c_items s) in
        Some (c_forward j i data
          (set_c_starts (c_starts s ++ [j])
            (set_c_table (<[src := i]> (c_table s))
              (set_c_items (c_items s ++
                [mkC src j (default (lit "<nil>") (resolve src)) (cs_local st) 0 false []]) s))))
      else Some (c_end j s)
  | _ => None
  end.

(** [runUdpReceive(cacheSrcAddr, sessId)] runs: it looks up what the variable holds
    by then. *)
Definition c_start (k : nat) (s : CU) : option CU :=
  j ← c_starts s !! k;
  st ← c_streams s !! j;
  let s := set_c_starts (delete k (c_starts s)) s in
  Some (match c_table s !! cs_cache st with
        | Some i => set_c_receivers (c_receivers s ++ [(i, cs_cache st)]) s
        | None => s
        end).

(** A turn of the receiver [k] *)
Definition c_receive (k : nat) (r : bytes + error) (s : CU) : option CU :=
  '(i, key) ← c_receivers s !! k;
  it ← c_items s !! i;
  Some (match (if ci_closed it then inr ErrClosed else r) with
        | inl data =>
            set_c_frames (c_frames s ++ [(i, take cap data)])
              (add_c_got (i, take cap data) (upd_ci (touch_ci (c_clock s)) i s))
        | inr _ =>
            set_c_receivers (delete k (c_receivers s)) (close_both i (set_c_table (delete key (c_table s)) s))
        end).

(** The goroutine that writes a reply; the local socket is closed when it fails. *)
Definition c_frame (k : nat) (s : CU) : option CU :=
  '(i, data) ← c_frames s !! k;
  it ← c_items s !! i;
  st ← c_streams s !! ci_stream it;
  let s := set_c_frames (delete k (c_frames s)) s in
  Some (match pack (ci_addr it) data with
        | Ok m =>
            if closed (cs_conn st) then upd_ci close_ci i s
            else
              let s' := upd_cs (on_cs_conn (fun c => (Write m c).2)) (ci_stream it) s in
              match (Write m (cs_conn st)).1 with Ok _ => s' | _ => upd_ci close_ci i s' end
        | _ => upd_ci close_ci i s
        end).

(** An [item.localConn.Write] runs, on the session that the variable holds by then;
    [ok] is whether it is sent. *)
Definition c_write (k : nat) (ok : bool) (s : CU) : option CU :=
  '(j, data) ← c_writes s !! k;
  st ← c_streams s !! j;
  i ← cs_item st;
  it ← c_items s !! i;
  let s := set_c_writes (delete k (c_writes s)) s in
  Some (if ok && negb (ci_closed it) then upd_ci (write_ci data) i s else s).

Definition c_tick (s : CU) : option CU :=
  match c_stopped s, c_snapshot s, c_removing s with
  | false, [], None => Some (set_c_snapshot (map_to_list (c_table s)) (c_clock s) s)
  | _, _, _ => None
  end.
Definition c_item (s : CU) : option CU :=
  match c_snapshot s, c_removing s with
  | (k, i) :: rest, None =>
      it ← c_items s !! i;
      let s := set_c_snapshot rest (c_now s) s in
      Some (if MaxUDPIdleTime <? c_now s - ci_last it then set_c_removing (Some k) (close_both i s) else s)
  | _, _ => None
  end.
Definition c_remove (s : CU) : option CU :=
  k ← c_removing s;
  Some (set_c_removing None (set_c_table (delete k (c_table s)) s)).

Inductive cevent :=
  | CAccept (r : reader) (local : bytes)   (** a stream, past its handshake *)
  | CTurn (j : nat)
  | CDialed (j : nat) (ok : bool)
  | CStart (k : nat)
  | CReceive (k : nat) (r : bytes + error)
  | CFrame (k : nat)
  | CWrite (k : nat) (ok : bool)
  | CDies (j : nat)                        (** the stream [j] is closed with its session *)
  | CTick | CItem | CRemove
  | CClock (d : Z)
  | CStop.

Definition cstep (e : cevent) (s : CU) : option CU :=
  match e with
  | CAccept r local => Some (set_c_streams (c_streams s ++ [mkCS (conn_of r) local None [] CReading]) s)
  | CTurn j => c_turn j s
  | CDialed j ok => c_dialed j ok s
  | CStart k => c_start k s
  | CReceive k r => c_receive k r s
  | CFrame k => c_frame k s
  | CWrite k ok => c_write k ok s
  | CDies j => Some (close_cs j s)
  | CTick => c_tick s
  | CItem => c_item s
  | CRemove => c_remove s
  | CClock d => if 0 <=? d then Some (set_c_clock (c_clock s + d) s) else None
  | CStop => Some (set_c_stopped s)
  end.

Fixpoint crun (es : list cevent) (s : CU) : option CU :=
  match es with [] => Some s | e :: es => s ← cstep e s; crun es s end.

(** The runs in which a stream's datagram is written before the next one is read
    from the stream *)
Definition c_calm (e : cevent) (s : CU) : bool :=
  match e with
  | CTurn j | CDialed j _ => forallb (fun p => negb (Nat.eqb p.1 j)) (c_writes s)
  | _ => true
  end.
Fixpoint c_prompt (es : list cevent) (s : CU) : bool :=
  match es with
  | [] => true
  | e :: es => c_calm e s && match cstep e s with Some s => c_prompt es s | None => true end
  end.

End Client.

(** * Laws *)
Section Laws.
Context (cap : nat) (resolve : bytes -> option bytes).
Implicit Types (s : CU).

Definition c_of s (i : nat) (k : bytes) : Prop := exists it, c_items s !! i = Some it /\ ci_src it = k.

(** The session [i] is of a source that was read from the stream [j]. *)
Definition visited s (j i : nat) : Prop := exists k d, c_of s i k /\ (j, k, d) ∈ c_read s.

(** A message on the stream [j] is a reply of a session of that stream. *)
Definition a_reply s (j : nat) (m : bytes) : Prop :=
  exists i it d, c_items s !! i = Some it /\ ci_stream it = j /\ (i, d) ∈ c_got s /\ pack (ci_addr it) d = Ok m.

Record ok_cs s (j : nat) (st : cstream) : Prop := {
  oc_tx : forall m, m ∈ tx (cs_conn st) -> a_reply s j m;
  oc_dialing : forall d, cs_phase st = CDialing d -> (j, cs_cache st, d) ∈ c_read s;
  oc_item : forall i, cs_item st = Some i -> visited s j i;
}.

Record ok_ci s (it : citem) : Prop := {
  oi_sent : forall d, d ∈ ci_sent it -> exists j k d', (j, k, d) ∈ c_read s /\ (j, ci_src it, d') ∈ c_read s;
  oi_addr : ci_addr it = default (lit "<nil>") (resolve (ci_src it));
  oi_target : forall st, c_streams s !! ci_stream it = Some st -> ci_target it = cs_local st;
  oi_stream : is_Some (c_streams s !! ci_stream it);
}.

Record c_inv s : Prop := {
  ci_table_ : forall k i, c_table s !! k = Some i -> c_of s i k;
  ci_streams_ : forall j st, c_streams s !! j = Some st -> ok_cs s j st;
  ci_items_ : forall i it, c_items s !! i = Some it -> ok_ci s it;
  ci_writes_ : forall p, p ∈ c_writes s -> exists k, (p.1, k, p.2) ∈ c_read s;
  ci_frames_ : forall p, p ∈ c_frames s -> p ∈ c_got s;
}.

(** The state grows: sessions stay what they are, streams keep their targets,
    histories are extended. *)
Record c_grows s s' : Prop := {
  cg_items : forall i it, c_items s !! i = Some it -> exists it', c_items s' !! i = Some it' /\
    ci_src it' = ci_src it /\ ci_stream it' = ci_stream it /\ ci_addr it' = ci_addr it;
  cg_streams : forall j st, c_streams s !! j = Some st -> exists st', c_streams s' !! j = Some st' /\ cs_local st' = cs_local st;
  cg_read : forall p, p ∈ c_read s -> p ∈ c_read s';
  cg_got : forall p, p ∈ c_got s -> p ∈ c_got s';
}.

Lemma c_grows_of s s' (i : nat) (k : bytes) : c_grows s s' -> c_of s i k -> c_of s' i k.
Proof. intros Hg (it & Hi & <-). destruct (cg_items _ _ Hg i it Hi) as (it' & H & E & _). by exists it'. Qed.

Lemma c_grows_visited s s' (j i : nat) : c_grows s s' -> visited s j i -> visited s' j i.
Proof. intros Hg (k & d & Ho & Hr). exists k, d. split; [by eapply c_grows_of|by apply (cg_read _ _ Hg)]. Qed.

Lemma c_grows_reply s s' (j : nat) (m : bytes) : c_grows s s' -> a_reply s j m -> a_reply s' j m.
Proof.
  intros Hg (i & it & d & Hi & Hs & Hd & Hm). destruct (cg_items _ _ Hg i it Hi) as (it' & Hi' & _ & Es & Ea).
  exists i, it', d. rewrite Es, Ea. split_and!; [done..| |done]. by apply (cg_got _ _ Hg).
Qed.

Lemma c_grows_cs s s' (j : nat) (st : cstream) : c_grows s s' -> ok_cs s j st -> ok_cs s' j st.
Proof.
  intros Hg [A B C]. split.
  - intros m Hm. eapply c_grows_reply; [exact Hg|by apply A].
  - intros d Hd. by apply (cg_read _ _ Hg), B.
  - intros i Hi. eapply c_grows_visited; [exact Hg|by apply C].
Qed.

Lemma c_grows_ci s s' (it : citem) : c_grows s s' -> ok_ci s it -> ok_ci s' it.
Proof.
  intros Hg [A B C [st D]]. destruct (cg_streams _ _ Hg _ _ D) as (st' & Hs & El). split.
  - intros d Hd. destruct (A d Hd) as (j & k & d' & H1 & H2). exists j, k, d'. split; by apply (cg_read _ _ Hg).
  - exact B.
  - intros st1 H. rewrite Hs in H. injection H as <-. rewrite El. by apply C.
  - by exists st'.
Qed.

Lemma c_grows_same s s' : c_items s' = c_items s -> c_streams s' = c_streams s -> c_read s' = c_read s ->
  c_got s' = c_got s -> c_grows s s'.
Proof.
  intros H1 H2 H3 H4. split; rewrite ?H1, ?H2, ?H3, ?H4; [| |done..].
  - intros i it Hi. by exists it.
  - intros j st Hj. by exists st.
Qed.

(** An invariant state changed within the invariant *)
Lemma c_inv_change s s' : c_inv s -> c_grows s s' ->
  (forall k i, c_table s' !! k = Some i -> c_table s !! k = Some i \/ c_of s' i k) ->
  (forall j st, c_streams s' !! j = Some st -> c_streams s !! j = Some st \/ ok_cs s' j st) ->
  (forall i it, c_items s' !! i = Some it -> c_items s !! i = Some it \/ ok_ci s' it) ->
  (forall p, p ∈ c_writes s' -> p ∈ c_writes s \/ exists k, (p.1, k, p.2) ∈ c_read s') ->
  (forall p, p ∈ c_frames s' -> p ∈ c_frames s \/ p ∈ c_got s') -> c_inv s'.
Proof.
  intros [A B C D E] Hg HA HB HC HD HE. split.
  - intros k i [H|H]%HA; [|done]. by eapply c_grows_of, A.
  - intros j st [H|H]%HB; [|done]. by eapply c_grows_cs, B.
  - intros i it [H|H]%HC; [|done]. eapply c_grows_ci; [exact Hg|by eapply C].
  - intros p [H|H]%HD; [|done]. destruct (D p H) as [k Hk]. exists k. by apply (cg_read _ _ Hg).
  - intros p [H|H]%HE; [|done]. by apply (cg_got _ _ Hg), E.
Qed.

(** The changes left are those of the components that change. *)
Ltac c_change H := eapply c_inv_change; [exact H|try by apply c_grows_same|..]; try (by left).

(** Updates of one session or one stream *)
Lemma c_inv_upd_ci (f : citem -> citem) (i : nat) s :
  (forall it, ci_src (f it) = ci_src it /\ ci_stream (f it) = ci_stream it /\ ci_addr (f it) = ci_addr it /\
     ci_target (f it) = ci_target it) ->
  (forall it d, c_items s !! i = Some it -> d ∈ ci_sent (f it) ->
     d ∈ ci_sent it \/ exists j k d', (j, k, d) ∈ c_read s /\ (j, ci_src it, d') ∈ c_read s) ->
  c_inv s -> c_inv (upd_ci f i s).
Proof.
  intros Hf Hs Hi. assert (Hg : c_grows s (upd_ci f i s)).
  { split; [| |done..].
    - intros k it Hk. cbn. destruct (decide (i = k)) as [->|Hn].
      + exists (f it). destruct (Hf it) as (E1 & E2 & E3 & _). by rewrite (alter_at _ _ _ _ Hk).
      + exists it. by rewrite list_lookup_alter_ne.
    - intros j st Hj. by exists st. }
  c_change Hi; [exact Hg|]. cbn. intros k it [[_ H]|[<- (x & H & ->)]]%alter_inv; [by left|right].
  destruct (Hf x) as (E1 & E2 & E3 & E4). destruct (ci_items_ _ Hi i x H) as [A B C D]. split; rewrite ?E1, ?E2, ?E3, ?E4; try done.
  intros d Hd. destruct (Hs x d H Hd) as [Hd'|?]; [by apply A|done].
Qed.

Lemma c_inv_upd_cs (f : cstream -> cstream) (j : nat) s :
  (forall st, cs_local (f st) = cs_local st) ->
  (forall st, c_streams s !! j = Some st -> ok_cs s j st -> ok_cs s j (f st)) ->
  c_inv s -> c_inv (upd_cs f j s).
Proof.
  intros Hl Hf Hi. assert (Hg : c_grows s (upd_cs f j s)).
  { split; [| |done..].
    - intros k it Hk. by exists it.
    - intros k st Hk. cbn. destruct (decide (j = k)) as [->|Hn].
      + exists (f st). by rewrite (alter_at _ _ _ _ Hk).
      + exists st. by rewrite list_lookup_alter_ne. }
  c_change Hi; [exact Hg|]. cbn. intros k st [[_ H]|[<- (x & H & ->)]]%alter_inv; [by left|right].
  eapply c_grows_cs; [exact Hg|]. apply Hf; [done|]. by apply (ci_streams_ _ Hi).
Qed.

Lemma c_inv_table (k : bytes) s : c_inv s -> c_inv (set_c_table (delete k (c_table s)) s).
Proof. intros Hi. c_change Hi. cbn. intros a i [_ H]%lookup_delete_Some. by left. Qed.
Lemma c_inv_close_cs (j : nat) s : c_inv s -> c_inv (close_cs j s).
Proof. apply c_inv_upd_cs; [done|]. by intros st _ [A B C]. Qed.
Lemma c_inv_close_ci (i : nat) s : c_inv s -> c_inv (upd_ci close_ci i s).
Proof. apply c_inv_upd_ci; [done|]. by left. Qed.
Lemma c_inv_touch (t : Z) (i : nat) s : c_inv s -> c_inv (upd_ci (touch_ci t) i s).
Proof. apply c_inv_upd_ci; [done|]. by left. Qed.
Lemma c_inv_phase (p : phase) (j : nat) s :
  (forall st d, c_streams s !! j = Some st -> p = CDialing d -> (j, cs_cache st, d) ∈ c_read s) ->
  c_inv s -> c_inv (upd_cs (set_phase p) j s).
Proof.
  intros Hp. apply c_inv_upd_cs; [done|]. intros st Hj [A B C]. split; [done| |done]. cbn. intros d Hd. by eapply Hp.
Qed.
#[local] Hint Resolve c_inv_table c_inv_close_cs c_inv_close_ci c_inv_touch : core.

Lemma c_inv_close_both (i : nat) s : c_inv s -> c_inv (close_both i s).
Proof. unfold close_both. destruct (c_items s !! i); auto. Qed.
#[local] Hint Resolve c_inv_close_both : core.

Lemma c_inv_end (j : nat) s : c_inv s -> c_inv (c_end j s).
Proof.
  intros Hi. unfold c_end. destruct (c_streams s !! j) as [st|]; [|done].
  assert (H1 : c_inv (upd_cs (set_phase CGone) j (close_cs j s))) by (apply c_inv_phase; [done|auto]).
  destruct (cs_item st); auto.
Qed.

Lemma c_inv_forward (j i : nat) (k d : bytes) s :
  c_inv s -> c_of s i k -> (j, k, d) ∈ c_read s -> c_inv (c_forward j i d s).
Proof.
  intros Hi Ho Hr. unfold c_forward. set (s1 := upd_cs _ j s).
  assert (H1 : c_inv s1).
  { apply c_inv_upd_cs; [done| |done]. intros st _ [A B C]. split; [done..|]. cbn. intros i' [= <-]. by exists k, d. }
  set (s2 := upd_ci _ i s1). assert (H2 : c_inv s2) by by apply c_inv_touch.
  c_change H2. cbn. intros p [?|Hp]%elem_of_app; [by left|]. apply list_elem_of_singleton in Hp as ->. right.
  by exists k.
Qed.

Lemma c_inv_turn (j : nat) s s' : c_inv s -> c_turn j s = Some s' -> c_inv s'.
Proof.
  intros Hi. unfold c_turn. destruct (c_streams s !! j) as [st|] eqn:Ej; [|done]. cbn [mbind option_bind].
  destruct (cs_phase st) eqn:Ep; [|done..]. destruct (c_stopped s); [intros [= <-]; by apply c_inv_end|].
  destruct (if closed (cs_conn st) then _ else _) as [o c] eqn:Ec.
  assert (Ht : tx c = tx (cs_conn st)).
  { destruct (closed (cs_conn st)); [by injection Ec as _ <-|]. unfold on_rx in Ec.
    destruct (ParseStreamDatagram _). by injection Ec as _ <-. }
  intros [= <-]. set (s1 := upd_cs (on_cs_conn (fun _ => c)) j s).
  assert (H1 : c_inv s1).
  { apply c_inv_upd_cs; [done| |done]. intros x Hx [A B C]. rewrite Ej in Hx. injection Hx as <-. split; [|done..].
    cbn. by rewrite Ht. }
  destruct o as [da|e|]; [|by apply c_inv_end..]. cbv zeta. set (k := AddrSpec_String (Addr da)).
  set (s2 := add_c_read (j, k, DData da) (upd_cs (set_cache k) j s1)).
  assert (H2 : c_inv s2).
  { assert (H2 : c_inv (upd_cs (set_cache k) j s1)).
    { apply c_inv_upd_cs; [done| |done]. intros x Hx [A B C]. split; [done| |done]. cbn. intros d Hd.
      cbn in Hx. rewrite (alter_at _ _ _ _ Ej) in Hx. injection Hx as <-. cbn in Hd. congruence. }
    c_change H2. split; cbn; [| |set_solver|done].
    - intros i it Hit. by exists it.
    - intros n x Hx. by exists x. }
  assert (Hr : (j, k, DData da) ∈ c_read s2) by (cbn; set_solver).
  destruct (c_table s !! k) as [i|] eqn:Et.
  - eapply c_inv_forward; [done| |exact Hr]. by apply (ci_table_ _ H2).
  - apply c_inv_phase; [|done]. intros x d Hx [= <-]. cbn in Hx.
    rewrite (alter_at _ _ _ _ (alter_at _ _ _ _ Ej)) in Hx. injection Hx as <-. exact Hr.
Qed.

Lemma c_inv_dialed (j : nat) (ok : bool) s s' : c_inv s -> c_dialed resolve j ok s = Some s' -> c_inv s'.
Proof.
  intros Hi. unfold c_dialed. destruct (c_streams s !! j) as [st|] eqn:Ej; [|done]. cbn [mbind option_bind].
  destruct (cs_phase st) as [|d|] eqn:Ep; [done| |done]. destruct ok; intros [= <-]; [|by apply c_inv_end].
  pose proof (oc_dialing _ _ _ (ci_streams_ _ Hi j st Ej) d Ep) as Hr. set (k := cs_cache st) in *.
  set (it := mkC k j (default (lit "<nil>") (resolve k)) (cs_local st) 0 false []).
  set (s1 := set_c_starts _ _).
  assert (Hg : c_grows s s1).
  { split; [| |done..].
    - intros n x Hx. exists x. split; [|done]. cbn. by apply lookup_app_l_Some.
    - intros n x Hx. by exists x. }
  assert (Ho : c_of s1 (length (c_items s)) k) by (exists it; split; [cbn; by rewrite lookup_app_r, Nat.sub_diag by lia|done]).
  eapply c_inv_forward; [|exact Ho|exact Hr]. c_change Hi; [exact Hg| |].
  - cbn. intros a n [[<- <-]|[_ H]]%lookup_insert_Some; [by right|by left].
  - cbn. intros n x [H|[_ ->]]%lookup_snoc; [by left|right]. split; cbn; [by intros d' ?%not_elem_of_nil|done| |by rewrite Ej].
    intros x Hx. rewrite Ej in Hx. by injection Hx as <-.
Qed.

Lemma c_inv_receive (k : nat) (r : bytes + error) s s' : c_inv s -> c_receive cap k r s = Some s' -> c_inv s'.
Proof.
  intros Hi. unfold c_receive. destruct (c_receivers s !! k) as [[i key]|]; [|done]. cbn [mbind option_bind].
  destruct (c_items s !! i) as [it|] eqn:Ei; [|done]. cbn [mbind option_bind].
  destruct (if ci_closed it then _ else _) as [d|e]; intros [= <-].
  - assert (H1 : c_inv (upd_ci (touch_ci (c_clock s)) i s)) by auto.
    c_change H1.
    + split; cbn; [| |done|set_solver].
      * intros n x Hx. by exists x.
      * intros n x Hx. by exists x.
    + cbn. intros p [?|Hp]%elem_of_app; [by left|]. apply list_elem_of_singleton in Hp as ->. right. set_solver.
  - assert (H1 : c_inv (close_both i (set_c_table (delete key (c_table s)) s))) by auto. c_change H1.
Qed.

Lemma c_inv_frame (k : nat) s s' : c_inv s -> c_frame k s = Some s' -> c_inv s'.
Proof.
  intros Hi. unfold c_frame. destruct (c_frames s !! k) as [[i d]|] eqn:Ek; [|done]. cbn [mbind option_bind].
  destruct (c_items s !! i) as [it|] eqn:Ei; [|done]. cbn [mbind option_bind].
  destruct (c_streams s !! ci_stream it) as [st|] eqn:Es; [|done]. cbn [mbind option_bind].
  set (s1 := set_c_frames (delete k (c_frames s)) s).
  assert (H1 : c_inv s1) by (c_change Hi; cbn; intros p ?%delete_in; by left).
  pose proof (ci_frames_ _ Hi _ (list_elem_of_lookup_2 _ _ _ Ek)) as Hd.
  intros [= <-]. destruct (pack (ci_addr it) d) as [m| |] eqn:Em; [|auto..]. destruct (closed (cs_conn st)); [auto|].
  assert (H2 : c_inv (upd_cs (on_cs_conn (fun c => (Write m c).2)) (ci_stream it) s1)).
  { apply c_inv_upd_cs; [done| |done]. intros x Hx [A B C]. cbn in Hx. rewrite Es in Hx. injection Hx as <-. split; [|done..].
    cbn. intros m' Hm. assert (E : m' ∈ tx (cs_conn st) \/ m' = m).
    { revert Hm. unfold Write. destruct (wres (cs_conn st)) as [|[]]; cbn; set_solver. }
    destruct E as [E| ->]; [by apply A|]. by exists i, it, d. }
  destruct (Write m (cs_conn st)).1; auto.
Qed.

Lemma c_inv_write (k : nat) (ok : bool) s s' : c_inv s -> c_write k ok s = Some s' -> c_inv s'.
Proof.
  intros Hi. unfold c_write. destruct (c_writes s !! k) as [[j d]|] eqn:Ek; [|done]. cbn [mbind option_bind].
  destruct (c_streams s !! j) as [st|] eqn:Ej; [|done]. cbn [mbind option_bind].
  destruct (cs_item st) as [i|] eqn:Ec; [|done]. cbn [mbind option_bind].
  destruct (c_items s !! i) as [it|] eqn:Ei; [|done]. cbn [mbind option_bind]. intros [= <-].
  assert (H1 : c_inv (set_c_writes (delete k (c_writes s)) s)) by (c_change Hi; cbn; intros p ?%delete_in; by left).
  destruct (_ && _); [|done]. apply c_inv_upd_ci; [done| |done]. cbn. intros x d' Hx [?|Hd]%elem_of_app; [by left|right].
  apply list_elem_of_singleton in Hd as ->.
  destruct (ci_writes_ _ Hi _ (list_elem_of_lookup_2 _ _ _ Ek)) as (a & Hr). cbn in Hr.
  destruct (oc_item _ _ _ (ci_streams_ _ Hi j st Ej) i Ec) as (k' & d' & (y & Hy & Ha) & Hd').
  rewrite Hx in Hy. injection Hy as <-. exists j, a, d'. by rewrite Ha.
Qed.

Lemma c_inv_step (e : cevent) s s' : c_inv s -> cstep cap resolve e s = Some s' -> c_inv s'.
Proof.
  intros Hi. destruct e as [r l|j|j ok|k|k r|k|k ok|j| | | |d|]; cbn [cstep].
  - intros [= <-]. c_change Hi.
    + split; cbn; [| |done..].
      * intros n x Hx. by exists x.
      * intros n x Hx. exists x. split; [by apply lookup_app_l_Some|done].
    + cbn. intros n x [H|[_ ->]]%lookup_snoc; [by left|right]. split; [by intros m ?%not_elem_of_nil|done..].
  - by apply c_inv_turn.
  - by apply c_inv_dialed.
  - unfold c_start. destruct (c_starts s !! k); [|done]. cbn [mbind option_bind].
    destruct (c_streams s !! _) as [st|]; [|done]. cbn [mbind option_bind]. intros [= <-].
    destruct (c_table _ !! _); c_change Hi.
  - by apply c_inv_receive.
  - by apply c_inv_frame.
  - by apply c_inv_write.
  - intros [= <-]. auto.
  - unfold c_tick. destruct (c_stopped s); [done|]. destruct (c_snapshot s); [|done]. destruct (c_removing s); [done|].
    intros [= <-]. c_change Hi.
  - unfold c_item. destruct (c_snapshot s) as [|[k i] rest]; [done|]. destruct (c_removing s); [done|].
    destruct (c_items s !! i); [|done]. cbn [mbind option_bind]. intros [= <-].
    assert (H1 : c_inv (set_c_snapshot rest (c_now s) s)) by c_change Hi.
    destruct (_ <? _); [|done]. pose proof (c_inv_close_both i _ H1) as H2. c_change H2.
  - unfold c_remove. destruct (c_removing s) as [k|]; [|done]. intros [= <-].
    pose proof (c_inv_table k _ Hi) as H2. c_change H2.
  - destruct (0 <=? d); [|done]. intros [= <-]. c_change Hi.
  - intros [= <-]. c_change Hi.
Qed.

Lemma c_inv_run (es : list cevent) s s' : c_inv s -> crun cap resolve es s = Some s' -> c_inv s'.
Proof.
  revert s. induction es as [|e es IH]; intros s Hi; cbn [crun]; [by intros [= <-]|].
  destruct (cstep cap resolve e s) as [s1|] eqn:E; [|done]. apply IH. by eapply c_inv_step.
Qed.

Lemma c_inv_init (t : Z) : c_inv (CU_init t).
Proof. split; cbn; try by intros *; rewrite ?lookup_empty, ?lookup_nil. all: by intros p ?%not_elem_of_nil. Qed.

(** ** Runs in which a datagram is written before the next is read *)

(** The variable of a stream with a write to come is the session of the source it
    was read for; only such data is sent. *)
Record c_exact s : Prop := {
  ce_sent : forall i it d, c_items s !! i = Some it -> d ∈ ci_sent it -> exists j, (j, ci_src it, d) ∈ c_read s;
  ce_writes : forall p, p ∈ c_writes s -> exists st i k,
    c_streams s !! p.1 = Some st /\ cs_item st = Some i /\ c_of s i k /\ (p.1, k, p.2) ∈ c_read s;
}.

(** Steps that neither send nor change the variable of a stream with a write to come *)
Record quiet s s' : Prop := {
  q_items : forall i it, c_items s !! i = Some it -> exists it', c_items s' !! i = Some it' /\ ci_src it' = ci_src it;
  q_sent : forall i it', c_items s' !! i = Some it' ->
    ci_sent it' = [] \/ exists it, c_items s !! i = Some it /\ ci_src it' = ci_src it /\ ci_sent it' = ci_sent it;
  q_read : forall p, p ∈ c_read s -> p ∈ c_read s';
  q_writes : forall p, p ∈ c_writes s' -> p ∈ c_writes s;
  q_var : forall p st, p ∈ c_writes s -> c_streams s !! p.1 = Some st ->
    exists st', c_streams s' !! p.1 = Some st' /\ cs_item st' = cs_item st;
}.

Lemma quiet_of s s' :
  c_items s' = c_items s -> c_streams s' = c_streams s -> c_writes s' = c_writes s ->
  (forall p, p ∈ c_read s -> p ∈ c_read s') -> quiet s s'.
Proof. intros Hi Hs Hw Hr. split; rewrite ?Hi, ?Hs, ?Hw; eauto. Qed.

Lemma quiet_trans s1 s2 s3 : c_writes s2 = c_writes s1 -> quiet s1 s2 -> quiet s2 s3 -> quiet s1 s3.
Proof.
  intros Hw [A1 B1 C1 D1 E1] [A2 B2 C2 D2 E2]. split; [| |auto|auto|].
  - intros i it H. destruct (A1 i it H) as (x & Hx & Ex). destruct (A2 i x Hx) as (y & Hy & Ey).
    exists y. split; [done|congruence].
  - intros i it H. destruct (B2 i it H) as [?|(x & Hx & Ex & Sx)]; [by left|].
    destruct (B1 i x Hx) as [?|(y & Hy & Ey & Sy)]; [left; congruence|right]. exists y. split_and!; [done|congruence..].
  - intros p st Hp H. destruct (E1 p st Hp H) as (x & Hx & Ex). destruct (E2 p x) as (y & Hy & Ey); [by rewrite Hw|done|].
    exists y. split; [done|congruence].
Qed.

Lemma quiet_ci (f : citem -> citem) (i : nat) s :
  (forall it, ci_src (f it) = ci_src it /\ ci_sent (f it) = ci_sent it) -> quiet s (upd_ci f i s).
Proof.
  intros Hf. split; cbn; try done; [| |by eauto].
  - intros k it Hk. destruct (decide (i = k)) as [->|Hn].
    + exists (f it). by rewrite (alter_at _ _ _ _ Hk), (proj1 (Hf it)).
    + exists it. by rewrite list_lookup_alter_ne.
  - intros k it [[_ H]|[<- (x & H & ->)]]%alter_inv; right; [by exists it|]. exists x. split; [done|apply Hf].
Qed.

Lemma quiet_cs (f : cstream -> cstream) (j : nat) s :
  (forall st, cs_item (f st) = cs_item st) \/ (forall p, p ∈ c_writes s -> p.1 <> j) -> quiet s (upd_cs f j s).
Proof.
  intros Hf. split; cbn; try done; [by eauto|by eauto|]. intros p st Hp Hk. destruct (decide (j = p.1)) as [->|Hn].
  - destruct Hf as [Hf|Hf]; [|by apply Hf in Hp]. exists (f st). by rewrite (alter_at _ _ _ _ Hk).
  - exists st. by rewrite list_lookup_alter_ne.
Qed.

Lemma quiet_close_both (i : nat) s : quiet s (close_both i s).
Proof.
  unfold close_both. destruct (c_items s !! i) as [it|]; [|by apply quiet_of].
  eapply (quiet_trans _ (close_cs (ci_stream it) s)); [done|by apply quiet_cs; left|by apply quiet_ci].
Qed.

Lemma close_both_writes (i : nat) s : c_writes (close_both i s) = c_writes s.
Proof. unfold close_both. by destruct (c_items s !! i). Qed.

Lemma quiet_end (j : nat) s : quiet s (c_end j s).
Proof.
  unfold c_end. destruct (c_streams s !! j) as [st|]; [|by apply quiet_of].
  set (s1 := upd_cs (set_phase CGone) j (close_cs j s)).
  assert (H1 : quiet s s1).
  { eapply (quiet_trans _ (close_cs j s)); [done|by apply quiet_cs; left|by apply quiet_cs; left]. }
  destruct (cs_item st) as [i|]; [|done]. eapply (quiet_trans _ s1); [done|done|].
  eapply (quiet_trans _ (set_c_table (delete (cs_cache st) (c_table s1)) s1)); [done|by apply quiet_of|apply quiet_close_both].
Qed.

Lemma exact_quiet s s' : quiet s s' -> c_exact s -> c_exact s'.
Proof.
  intros [A B C D E] [F G]. split.
  - intros i it d Hi Hd. destruct (B i it Hi) as [H0|(x & Hx & Es & Ed)].
    + rewrite H0 in Hd. by apply not_elem_of_nil in Hd.
    + rewrite Ed in Hd. rewrite Es. destruct (F i x d Hx Hd) as [j Hj]. exists j. by apply C.
  - intros p Hp%D. destruct (G p Hp) as (st & i & k & Hst & Hi & (it & Hit & Hk) & Hr).
    destruct (E p st Hp Hst) as (st' & Hst' & Ei). destruct (A i it Hit) as (it' & Hit' & Es).
    exists st', i, k. split_and!; [done|congruence| |by apply C]. exists it'. split; [done|congruence].
Qed.

Lemma exact_forward (j i : nat) (k d : bytes) (st : cstream) s :
  c_streams s !! j = Some st -> (forall p, p ∈ c_writes s -> p.1 <> j) -> c_of s i k -> (j, k, d) ∈ c_read s ->
  c_exact s -> c_exact (c_forward j i d s).
Proof.
  intros Hj Hc Ho Hr He. unfold c_forward. set (s1 := upd_cs _ j s). set (s2 := upd_ci _ i s1).
  assert (Hq : quiet s s2).
  { eapply (quiet_trans _ s1); [done|by apply quiet_cs; right|by apply quiet_ci]. }
  pose proof (exact_quiet _ _ Hq He) as [F G]. split; [exact F|]. cbn.
  intros p [Hp|Hp]%elem_of_app; [by apply (G p)|]. apply list_elem_of_singleton in Hp as ->.
  exists (set_phase CReading (set_cs_item i st)), i, k. cbn. rewrite (alter_at _ _ _ _ Hj).
  destruct Ho as (it & Hit & Hk). destruct (q_items _ _ Hq i it Hit) as (it' & Hit' & Es).
  split_and!; [done..| |done]. exists it'. split; [exact Hit'|congruence].
Qed.

Lemma calm_writes (j : nat) (l : list (nat * bytes)) :
  forallb (fun p => negb (Nat.eqb p.1 j)) l = true -> forall p, p ∈ l -> p.1 <> j.
Proof.
  intros H p Hp. rewrite forallb_forall in H. specialize (H p (proj1 (list_elem_of_In _ _) Hp)).
  by apply negb_true_iff, Nat.eqb_neq in H.
Qed.

Lemma exact_turn (j : nat) s s' :
  (forall p, p ∈ c_writes s -> p.1 <> j) -> c_inv s -> c_exact s -> c_turn j s = Some s' -> c_exact s'.
Proof.
  intros Hc Hi He. unfold c_turn. destruct (c_streams s !! j) as [st|] eqn:Ej; [|done]. cbn [mbind option_bind].
  destruct (cs_phase st); [|done..]. destruct (c_stopped s);
    [intros [= <-]; eapply exact_quiet; [apply quiet_end|done]|].
  destruct (if closed (cs_conn st) then _ else _) as [o c]. intros [= <-].
  set (s1 := upd_cs (on_cs_conn (fun _ => c)) j s).
  assert (H1 : quiet s s1) by by apply quiet_cs; left.
  destruct o as [da|e|]; [|eapply exact_quiet; [|exact He]; eapply (quiet_trans _ s1); [done|done|apply quiet_end]..].
  cbv zeta. set (k := AddrSpec_String (Addr da)).
  set (s2 := add_c_read (j, k, DData da) (upd_cs (set_cache k) j s1)).
  assert (H2 : quiet s s2).
  { eapply (quiet_trans _ s1); [done|done|]. eapply (quiet_trans _ (upd_cs (set_cache k) j s1)); [done|by apply quiet_cs; left|].
    apply quiet_of; [done..|]. cbn. set_solver. }
  pose proof (exact_quiet _ _ H2 He) as He2.
  destruct (c_table s !! k) as [i|] eqn:Et.
  - eapply (exact_forward j i k (DData da)); [|done| | |exact He2].
    + cbn. by rewrite (alter_at _ _ _ _ (alter_at _ _ _ _ Ej)).
    + exact (ci_table_ _ Hi k i Et).
    + cbn. set_solver.
  - eapply exact_quiet; [|exact He2]. by apply quiet_cs; left.
Qed.

Lemma exact_dialed (j : nat) (ok : bool) s s' :
  (forall p, p ∈ c_writes s -> p.1 <> j) -> c_inv s -> c_exact s -> c_dialed resolve j ok s = Some s' -> c_exact s'.
Proof.
  intros Hc Hi He. unfold c_dialed. destruct (c_streams s !! j) as [st|] eqn:Ej; [|done]. cbn [mbind option_bind].
  destruct (cs_phase st) as [|d|] eqn:Ep; [done| |done].
  destruct ok; intros [= <-]; [|eapply exact_quiet; [apply quiet_end|done]].
  pose proof (oc_dialing _ _ _ (ci_streams_ _ Hi j st Ej) d Ep) as Hr. set (s1 := set_c_starts _ _).
  assert (H1 : quiet s s1).
  { split; cbn; try done; [| |by eauto].
    - intros n x Hx. exists x. split; [by apply lookup_app_l_Some|done].
    - intros n x [H|[_ ->]]%lookup_snoc; [right; by exists x|by left]. }
  eapply (exact_forward j _ (cs_cache st) d); [exact Ej|done| |exact Hr|by eapply exact_quiet].
  eexists. cbn. rewrite lookup_app_r, Nat.sub_diag by lia. by split.
Qed.

Lemma exact_write (k : nat) (ok : bool) s s' : c_exact s -> c_write k ok s = Some s' -> c_exact s'.
Proof.
  intros He. pose proof He as [F G]. unfold c_write.
  destruct (c_writes s !! k) as [[j d]|] eqn:Ek; [|done]. cbn [mbind option_bind].
  destruct (c_streams s !! j) as [st|] eqn:Ej; [|done]. cbn [mbind option_bind].
  destruct (cs_item st) as [i|] eqn:Ec; [|done]. cbn [mbind option_bind].
  destruct (c_items s !! i) as [it|] eqn:Ei; [|done]. cbn [mbind option_bind]. intros [= <-].
  destruct (G _ (list_elem_of_lookup_2 _ _ _ Ek)) as (st' & i' & a & Hst & Hi & (x & Hx & Ha) & Hr).
  cbn in Hst, Hr. rewrite Ej in Hst. injection Hst as <-. rewrite Ec in Hi. injection Hi as <-.
  rewrite Ei in Hx. injection Hx as <-. set (s1 := set_c_writes (delete k (c_writes s)) s).
  assert (H1 : c_exact s1) by (split; [exact F|]; cbn; intros p ?%delete_in; by apply (G p)).
  destruct (_ && _); [|done]. split.
  - cbn. intros n y d' [[_ H]|[<- (z & H & ->)]]%alter_inv Hd; [by eapply F|]. cbn in Hd |- *.
    apply elem_of_app in Hd as [Hd|Hd]; [by eapply F|]. apply list_elem_of_singleton in Hd as ->.
    exists j. rewrite Ei in H. injection H as <-. cbn. by rewrite Ha.
  - intros p Hp. destruct (ce_writes _ H1 p Hp) as (st1 & n & b & A1 & A2 & (y & Hy & Hb) & A3).
    exists st1, n, b. split_and!; [done..| |done]. cbn. cbn in Hy. destruct (decide (i = n)) as [<-|Hn].
    + exists (write_ci d y). cbn. by rewrite (alter_at _ _ _ _ Hy).
    + exists y. cbn. by rewrite list_lookup_alter_ne.
Qed.

Lemma exact_receive (k : nat) (r : bytes + error) s s' : c_exact s -> c_receive cap k r s = Some s' -> c_exact s'.
Proof.
  intros He. unfold c_receive. destruct (c_receivers s !! k) as [[i key]|]; [|done]. cbn [mbind option_bind].
  destruct (c_items s !! i) as [it|]; [|done]. cbn [mbind option_bind].
  destruct (if ci_closed it then _ else _) as [d|e]; intros [= <-]; (eapply exact_quiet; [|exact He]).
  - eapply (quiet_trans _ (upd_ci (touch_ci (c_clock s)) i s)); [done|by apply quiet_ci|by apply quiet_of].
  - eapply (quiet_trans _ (set_c_table (delete key (c_table s)) s)); [done|by apply quiet_of|].
    eapply (quiet_trans _ (close_both i (set_c_table (delete key (c_table s)) s)));
      [by rewrite close_both_writes|apply quiet_close_both|by apply quiet_of].
Qed.

Lemma exact_frame (k : nat) s s' : c_exact s -> c_frame k s = Some s' -> c_exact s'.
Proof.
  intros He. unfold c_frame. destruct (c_frames s !! k) as [[i d]|]; [|done]. cbn [mbind option_bind].
  destruct (c_items s !! i) as [it|]; [|done]. cbn [mbind option_bind].
  destruct (c_streams s !! ci_stream it) as [st|]; [|done]. cbn [mbind option_bind]. intros [= <-].
  set (s1 := set_c_frames _ s). assert (H1 : c_exact s1) by (eapply exact_quiet; [by apply (quiet_of s)|done]).
  assert (Hc : forall s, c_exact s -> c_exact (upd_ci close_ci i s)) by (intros x Hx; eapply exact_quiet; [by apply quiet_ci|done]).
  destruct (pack _ _) as [m| |]; [|auto..]. destruct (closed _); [auto|].
  assert (H2 : c_exact (upd_cs (on_cs_conn (fun c => (Write m c).2)) (ci_stream it) s1))
    by (eapply exact_quiet; [by apply quiet_cs; left|done]).
  destruct (Write _ _).1; auto.
Qed.

Lemma exact_step (e : cevent) s s' :
  c_calm e s = true -> c_inv s -> c_exact s -> cstep cap resolve e s = Some s' -> c_exact s'.
Proof.
  intros Hc Hi He. destruct e as [r l|j|j ok|k|k r|k|k ok|j| | | |d|]; cbn [cstep c_calm] in *.
  - intros [= <-]. eapply exact_quiet; [|done]. split; cbn; try done; [by eauto|by eauto|]. intros p st _ Hp. exists st.
    split; [by apply lookup_app_l_Some|done].
  - apply exact_turn; [by apply calm_writes|done..].
  - apply exact_dialed; [by apply calm_writes|done..].
  - unfold c_start. destruct (c_starts s !! k); [|done]. cbn [mbind option_bind].
    destruct (c_streams s !! _) as [st|]; [|done]. cbn [mbind option_bind]. intros [= <-].
    destruct (c_table _ !! _); (eapply exact_quiet; [|done]); by apply quiet_of.
  - by apply exact_receive.
  - by apply exact_frame.
  - by apply exact_write.
  - intros [= <-]. eapply exact_quiet; [|done]. by apply quiet_cs; left.
  - unfold c_tick. destruct (c_stopped s); [done|]. destruct (c_snapshot s); [|done]. destruct (c_removing s); [done|].
    intros [= <-]. eapply exact_quiet; [|done]. by apply quiet_of.
  - unfold c_item. destruct (c_snapshot s) as [|[k i] rest]; [done|]. destruct (c_removing s); [done|].
    destruct (c_items s !! i); [|done]. cbn [mbind option_bind]. intros [= <-].
    assert (H1 : c_exact (set_c_snapshot rest (c_now s) s)) by (eapply exact_quiet; [by apply (quiet_of s)|done]).
    destruct (_ <? _); [|done]. eapply exact_quiet; [|exact H1].
    eapply quiet_trans; [apply (close_both_writes i)|apply quiet_close_both|by apply quiet_of].
  - unfold c_remove. destruct (c_removing s); [|done]. intros [= <-]. eapply exact_quiet; [|done]. by apply quiet_of.
  - destruct (0 <=? d); [|done]. intros [= <-]. eapply exact_quiet; [|done]. by apply quiet_of.
  - intros [= <-]. eapply exact_quiet; [|done]. by apply quiet_of.
Qed.

Lemma exact_run (es : list cevent) s s' :
  c_prompt cap resolve es s = true -> c_inv s -> c_exact s -> crun cap resolve es s = Some s' -> c_exact s'.
Proof.
  revert s. induction es as [|e es IH]; intros s Hc Hi He; cbn [crun c_prompt] in *; [by intros [= <-]|].
  apply andb_true_iff in Hc as [H1 Hc]. destruct (cstep cap resolve e s) as [s1|] eqn:E; [|done].
  apply IH; [done|by eapply c_inv_step|by eapply exact_step].
Qed.

Lemma exact_init (t : Z) : c_exact (CU_init t).
Proof. split; cbn; [by intros *; rewrite lookup_nil|by intros p ?%not_elem_of_nil]. Qed.
End Laws.

(** ** Turns of the relay *)

Lemma pack_reads (src d : bytes) (a : AddrSpec) :
  ParseAddrSpec src = Ok a -> wf_addr a -> len d <= 2097151 ->
  exists m, pack src d = Ok m /\ reads ParseStreamDatagram m (mkDatagram zero a d).
Proof. apply frame_reads. Qed.

Lemma crun_cons (cap : nat) (resolve : bytes -> option bytes) (e : cevent) (es : list cevent) (s s1 : CU) :
  cstep cap resolve e s = Some s1 -> crun cap resolve (e :: es) s = crun cap resolve es s1.
Proof. cbn [crun]. by intros ->. Qed.

Lemma turn_found (j i : nat) (st : cstream) (da : Datagram) (r' : reader) (s : CU) :
  c_streams s !! j = Some st -> cs_phase st = CReading -> c_stopped s = false -> closed (cs_conn st) = false ->
  ParseStreamDatagram (rx (cs_conn st)) = (Ok da, r') -> c_table s !! AddrSpec_String (Addr da) = Some i ->
  exists s', c_turn j s = Some s' /\ c_items s' = alter (touch_ci (c_clock s)) i (c_items s) /\
    c_writes s' = c_writes s ++ [(j, DData da)] /\ c_receivers s' = c_receivers s /\ c_frames s' = c_frames s /\
    (forall n, n <> j -> c_streams s' !! n = c_streams s !! n) /\
    c_streams s' !! j = Some (mkCS (mkConn r' (tx (cs_conn st)) (wres (cs_conn st)) false) (cs_local st) (Some i)
      (AddrSpec_String (Addr da)) CReading).
Proof.
  intros Hj Hp Hs Hc Hr Ht. unfold c_turn. rewrite Hj. cbn [mbind option_bind]. rewrite Hp, Hs, Hc, (on_rx_ok _ _ da r' Hr).
  cbv zeta. cbn [c_table add_c_read upd_cs set_c_streams]. rewrite Ht. eexists. split; [reflexivity|].
  cbn. split_and!; try done.
  - intros n Hn. by rewrite !list_lookup_alter_ne.
  - by rewrite (alter_at _ _ _ _ (alter_at _ _ _ _ (alter_at _ _ _ _ Hj))), Hc.
Qed.

Lemma turn_dial (resolve : bytes -> option bytes) (j : nat) (st : cstream) (da : Datagram) (r' : reader) (s : CU) :
  c_streams s !! j = Some st -> cs_phase st = CReading -> c_stopped s = false -> closed (cs_conn st) = false ->
  ParseStreamDatagram (rx (cs_conn st)) = (Ok da, r') -> c_table s !! AddrSpec_String (Addr da) = None ->
  let k := AddrSpec_String (Addr da) in
  exists s1 s', c_turn j s = Some s1 /\ c_dialed resolve j true s1 = Some s' /\
    c_items s' = c_items s ++ [mkC k j (default (lit "<nil>") (resolve k)) (cs_local st) (c_clock s) false []] /\
    c_writes s' = c_writes s ++ [(j, DData da)] /\ c_starts s' = c_starts s ++ [j] /\
    c_table s' = <[k := length (c_items s)]> (c_table s) /\ c_receivers s' = c_receivers s /\ c_frames s' = c_frames s /\
    c_streams s' !! j = Some (mkCS (mkConn r' (tx (cs_conn st)) (wres (cs_conn st)) false) (cs_local st)
      (Some (length (c_items s))) k CReading).
Proof.
  intros Hj Hp Hs Hc Hr Ht k. unfold c_turn. rewrite Hj. cbn [mbind option_bind]. rewrite Hp, Hs, Hc, (on_rx_ok _ _ da r' Hr).
  cbv zeta. cbn [c_table add_c_read upd_cs set_c_streams]. fold k. fold k in Ht. rewrite Ht.
  eexists _, _. split; [reflexivity|]. set (s1 := upd_cs (set_phase _) j _).
  assert (Hj1 : c_streams s1 !! j = Some (mkCS (mkConn r' (tx (cs_conn st)) (wres (cs_conn st)) false) (cs_local st)
    (cs_item st) k (CDialing (DData da)))).
  { cbn. by rewrite (alter_at _ _ _ _ (alter_at _ _ _ _ (alter_at _ _ _ _ Hj))), Hc. }
  unfold c_dialed. rewrite Hj1. cbn [mbind option_bind cs_phase cs_cache cs_local]. split; [reflexivity|].
  clearbody k. cbn. split_and!; try done.
  - rewrite alter_app_r_alt by lia. by rewrite Nat.sub_diag.
  - rewrite (alter_at _ _ _ _ (alter_at _ _ _ _ (alter_at _ _ _ _ (alter_at _ _ _ _ Hj)))). cbn. by rewrite Hc.
Qed.

Lemma write_turn (n j i : nat) (d : bytes) (st : cstream) (it : citem) (s : CU) :
  c_writes s !! n = Some (j, d) -> c_streams s !! j = Some st -> cs_item st = Some i ->
  c_items s !! i = Some it -> ci_closed it = false ->
  c_write n true s = Some (upd_ci (write_ci d) i (set_c_writes (delete n (c_writes s)) s)).
Proof.
  intros Hn Hj Hc Hi Hcl. unfold c_write. rewrite Hn. cbn [mbind option_bind]. rewrite Hj. cbn [mbind option_bind].
  rewrite Hc. cbn [mbind option_bind]. rewrite Hi. cbn. by rewrite Hcl.
Qed.

(** A reply from the local socket to the stream *)
Lemma reply_back (cap p i : nat) (key d m : bytes) (it : citem) (st : cstream) (s : CU) (resolve : bytes -> option bytes) :
  c_receivers s !! p = Some (i, key) -> c_items s !! i = Some it -> ci_closed it = false ->
  c_streams s !! ci_stream it = Some st -> closed (cs_conn st) = false -> wres (cs_conn st) = [] ->
  pack (ci_addr it) (take cap d) = Ok m ->
  exists s', crun cap resolve [CReceive p (inl d); CFrame (length (c_frames s))] s = Some s' /\
    c_streams s' !! ci_stream it =
      Some (on_cs_conn (fun c => mkConn (rx c) (tx c ++ [m]) [] false) st).
Proof.
  intros Hp Hi Hc Hs Ho Hw Hm. cbn [crun cstep]. unfold c_receive. rewrite Hp. cbn [mbind option_bind]. rewrite Hi.
  cbn [mbind option_bind]. rewrite Hc. unfold c_frame. cbn [c_frames set_c_frames add_c_got c_items upd_ci set_c_items].
  rewrite lookup_app_r, Nat.sub_diag by lia. cbn [lookup list_lookup mbind option_bind].
  rewrite (alter_at _ _ _ _ Hi). cbn. rewrite Hs. cbn. rewrite Hm, Ho. rewrite (Write_ok m (cs_conn st) Hw). cbn.
  eexists. split; [reflexivity|]. cbn. rewrite (alter_at _ _ _ _ Hs). unfold on_cs_conn. cbn. by rewrite (Write_ok m (cs_conn st) Hw), Ho.
Qed.

(** * Properties *)

(** C20: what a client node sends and answers.  However its goroutines interleave:
    the table maps a source to a session of that source; what is sent on a session's
    local socket was read from a stream that the session's source was read from as
    well, though maybe for another source; a message on a stream is what the local
    socket of a session opened on that stream gave, addressed with what that
    session's source resolves to; and a session's socket is connected to the local
    address its own stream asked for.  In the runs in which a stream's datagram is
    written before the next one is read from it, what is sent on a session's socket
    was read for the session's source. *)
Theorem client_sound (cap : nat) (resolve : bytes -> option bytes) (t : Z) (es : list cevent) (s : CU) :
  crun cap resolve es (CU_init t) = Some s ->
  (forall k i, c_table s !! k = Some i -> c_of s i k) /\
  (forall i it d, c_items s !! i = Some it -> d ∈ ci_sent it ->
     exists j k d', (j, k, d) ∈ c_read s /\ (j, ci_src it, d') ∈ c_read s) /\
  (forall j st m, c_streams s !! j = Some st -> m ∈ tx (cs_conn st) ->
     exists i it d, c_items s !! i = Some it /\ ci_stream it = j /\ (i, d) ∈ c_got s /\
       pack (default (lit "<nil>") (resolve (ci_src it))) d = Ok m) /\
  (forall i it, c_items s !! i = Some it -> exists st, c_streams s !! ci_stream it = Some st /\ ci_target it = cs_local st) /\
  (c_prompt cap resolve es (CU_init t) = true ->
     forall i it d, c_items s !! i = Some it -> d ∈ ci_sent it -> exists j, (j, ci_src it, d) ∈ c_read s).
Proof.
  intros Hrun. pose proof (c_inv_run cap resolve es _ _ (c_inv_init resolve t) Hrun) as Hr. split_and!.
  - exact (ci_table_ _ _ Hr).
  - intros i it d Hi. by apply (oi_sent _ _ _ (ci_items_ _ _ Hr i it Hi)).
  - intros j st m Hj Hm. destruct (oc_tx _ _ _ (ci_streams_ _ _ Hr j st Hj) m Hm) as (i & it & d & Hi & Hs & Hd & Hp).
    exists i, it, d. by rewrite <- (oi_addr _ _ _ (ci_items_ _ _ Hr i it Hi)).
  - intros i it Hi. destruct (ci_items_ _ _ Hr i it Hi) as [_ _ Ht [st Hs]]. exists st. split; [done|by apply Ht].
  - intros Hp. apply ce_sent. eapply exact_run; [exact Hp|apply c_inv_init|apply exact_init|exact Hrun].
Qed.

(** A datagram follows the variable.  The goroutine that writes a datagram takes
    the session from a variable of the loop of its stream.  When the next datagram
    of the stream, of a source with a session, is read before the goroutine runs,
    the first datagram is sent on that session's socket, whatever source it was
    read for. *)
Theorem write_follows_item (cap : nat) (resolve : bytes -> option bytes) (s : CU) (j n i : nat) (d : bytes)
    (st : cstream) (it : citem) (da : Datagram) (r' : reader) :
  c_streams s !! j = Some st -> cs_phase st = CReading -> c_stopped s = false -> closed (cs_conn st) = false ->
  ParseStreamDatagram (rx (cs_conn st)) = (Ok da, r') ->
  c_table s !! AddrSpec_String (Addr da) = Some i -> c_items s !! i = Some it -> ci_closed it = false ->
  c_writes s !! n = Some (j, d) ->
  exists s1, crun cap resolve [CTurn j; CWrite n true] s = Some s1 /\
    exists it', c_items s1 !! i = Some it' /\ ci_src it' = ci_src it /\ ci_sent it' = ci_sent it ++ [d].
Proof.
  intros Hj Hp Hs Hc Hr Ht Hi Hcl Hn.
  destruct (turn_found j i st da r' s Hj Hp Hs Hc Hr Ht) as (s1 & E1 & Hi1 & Hw1 & _ & _ & _ & Hj1).
  assert (Hit1 : c_items s1 !! i = Some (touch_ci (c_clock s) it)) by by rewrite Hi1, (alter_at _ _ _ _ Hi).
  assert (Hwt : c_writes s1 !! n = Some (j, d)) by (rewrite Hw1; by apply lookup_app_l_Some).
  pose proof (write_turn n j i d _ _ s1 Hwt Hj1 eq_refl Hit1 Hcl) as E2. eexists. split.
  - rewrite (crun_cons _ _ _ _ _ s1) by exact E1. cbn [crun cstep]. by rewrite E2.
  - exists (write_ci d (touch_ci (c_clock s) it)). cbn. by rewrite (alter_at _ _ _ _ Hit1).
Qed.

(** C40: streams with equal sources cross.  The table of a client node knows a
    source by its address alone.  A datagram that is read from one stream for a
    source which has a session on another, say a user of another server node with
    the same private address, is sent on that session's socket: to the other
    stream's local address and not to its own; and the reply goes to the other
    stream. *)
Theorem streams_cross (cap : nat) (resolve : bytes -> option bytes) (s : CU) (j i p : nat) (st sto : cstream)
    (it : citem) (da : Datagram) (r' : reader) (reply m : bytes) :
  c_streams s !! j = Some st -> cs_phase st = CReading -> c_stopped s = false -> closed (cs_conn st) = false ->
  ParseStreamDatagram (rx (cs_conn st)) = (Ok da, r') ->
  c_table s !! AddrSpec_String (Addr da) = Some i -> c_items s !! i = Some it -> ci_closed it = false ->
  ci_stream it <> j -> c_streams s !! ci_stream it = Some sto -> closed (cs_conn sto) = false -> wres (cs_conn sto) = [] ->
  c_receivers s !! p = Some (i, AddrSpec_String (Addr da)) -> pack (ci_addr it) (take cap reply) = Ok m ->
  exists s1 s2, crun cap resolve [CTurn j; CWrite (length (c_writes s)) true] s = Some s1 /\
    length (c_items s1) = length (c_items s) /\
    (exists it', c_items s1 !! i = Some it' /\ ci_sent it' = ci_sent it ++ [DData da] /\ ci_target it' = ci_target it) /\
    crun cap resolve [CReceive p (inl reply); CFrame (length (c_frames s))] s1 = Some s2 /\
    c_streams s2 !! ci_stream it = Some (on_cs_conn (fun c => mkConn (rx c) (tx c ++ [m]) [] false) sto).
Proof.
  intros Hj Hp Hs Hc Hr Ht Hi Hcl Hn Ho Hoc How Hrec Hm.
  destruct (turn_found j i st da r' s Hj Hp Hs Hc Hr Ht) as (s1 & E1 & Hi1 & Hw1 & Hr1 & Hf1 & Hs1 & Hj1).
  set (it1 := touch_ci (c_clock s) it).
  assert (Hit1 : c_items s1 !! i = Some it1) by by rewrite Hi1, (alter_at _ _ _ _ Hi).
  assert (Hwt : c_writes s1 !! length (c_writes s) = Some (j, DData da)) by by rewrite Hw1, lookup_app_r, Nat.sub_diag by lia.
  pose proof (write_turn _ j i (DData da) _ it1 s1 Hwt Hj1 eq_refl Hit1 Hcl) as E2.
  set (s2 := upd_ci (write_ci (DData da)) i (set_c_writes (delete (length (c_writes s)) (c_writes s1)) s1)) in E2.
  assert (Hit2 : c_items s2 !! i = Some (write_ci (DData da) it1)) by (cbn; by rewrite (alter_at _ _ _ _ Hit1)).
  assert (Hrec2 : c_receivers s2 !! p = Some (i, AddrSpec_String (Addr da))) by (cbn; by rewrite Hr1).
  assert (Hs2 : c_streams s2 !! ci_stream (write_ci (DData da) it1) = Some sto) by (cbn; by rewrite Hs1).
  destruct (reply_back cap p i _ reply m _ sto s2 resolve Hrec2 Hit2 Hcl Hs2 Hoc How Hm) as (s3 & E3 & H3).
  exists s2, s3. split_and!.
  - rewrite (crun_cons _ _ _ _ _ s1) by exact E1. cbn [crun cstep]. rewrite E2. done.
  - cbn. by rewrite !length_alter, Hi1, length_alter.
  - exists (write_ci (DData da) it1). by split_and!.
  - rewrite <- Hf1. exact E3.
  - exact H3.
Qed.

(** C17: a datagram goes through the tunnel and its answer comes back.  What a
    server node writes for a packet of a local source, read by the client node from
    an open stream, however cut, is sent to the local address of that stream on a
    new socket when the source has no session yet; what that socket answers, up to
    the buffer, is written to the same stream; and a receiver of the server node
    that reads it there queues the answer for the source of its session. *)
Theorem tunnel_datagrams (cap : nat) (resolve : bytes -> option bytes) (s : CU) (j : nat) (st : cstream)
    (src d m rsrc reply : bytes) (a ra : AddrSpec) (tl : list (byte + error)) :
  ParseAddrSpec src = Ok a -> wf_addr a -> len d <= 2097151 -> pack src d = Ok m ->
  c_streams s !! j = Some st -> cs_phase st = CReading -> c_stopped s = false ->
  closed (cs_conn st) = false -> wres (cs_conn st) = [] -> flat (rx (cs_conn st)) = map inl m ++ tl ->
  c_table s !! AddrSpec_String a = None -> c_starts s = [] ->
  resolve (AddrSpec_String a) = Some rsrc -> ParseAddrSpec rsrc = Ok ra -> wf_addr ra -> len (take cap reply) <= 2097151 ->
  exists s1 s2 it m' st2,
    crun cap resolve [CTurn j; CDialed j true; CWrite (length (c_writes s)) true; CStart 0] s = Some s1 /\
    c_items s1 !! length (c_items s) = Some it /\ ci_sent it = [d] /\ ci_target it = cs_local st /\
    crun cap resolve [CReceive (length (c_receivers s)) (inl reply); CFrame (length (c_frames s))] s1 = Some s2 /\
    c_streams s2 !! j = Some st2 /\ tx (cs_conn st2) = tx (cs_conn st) ++ [m'] /\ flat (rx (cs_conn st2)) = tl /\
    forall (n : SU) k i key itn tln, u_receivers n !! k = Some (i, key) -> u_items n !! i = Some itn ->
      closed (u_conn itn) = false -> flat (rx (u_conn itn)) = map inl m' ++ tln ->
      exists n', u_receive k n = Some n' /\ u_writers n' = u_writers n ++ [(u_src itn, take cap reply)].
Proof.
  intros Ha Hw Hd Hm Hj Hp Hs Hc Hwr Hf Ht Hst Hres Hra Hwra Hlen.
  destruct (pack_reads src d a Ha Hw Hd) as (m0 & Hm0 & Hrd). rewrite Hm in Hm0. injection Hm0 as <-.
  destruct (reads_full Hrd (rx (cs_conn st)) tl Hf) as (r' & Hr & Hf').
  destruct (turn_dial resolve j st (mkDatagram zero a d) r' s Hj Hp Hs Hc Hr Ht)
    as (s0 & s1 & E0 & E1 & Hi1 & Hw1 & Hst1 & Ht1 & Hr1 & Hf1 & Hj1). cbn [Addr DData] in *.
  rewrite Hres in Hi1. cbn [default] in Hi1.
  set (i := length (c_items s)) in *. set (it0 := mkC (AddrSpec_String a) j rsrc (cs_local st) (c_clock s) false []) in *.
  assert (Hit1 : c_items s1 !! i = Some it0) by (by rewrite Hi1, lookup_app_r, Nat.sub_diag by (unfold i; lia)).
  assert (Hwt : c_writes s1 !! length (c_writes s) = Some (j, d)) by by rewrite Hw1, lookup_app_r, Nat.sub_diag by lia.
  pose proof (write_turn _ j i d _ it0 s1 Hwt Hj1 eq_refl Hit1 eq_refl) as E2.
  set (s2 := upd_ci (write_ci d) i (set_c_writes (delete (length (c_writes s)) (c_writes s1)) s1)) in E2.
  assert (E3 : c_start 0 s2 = Some (set_c_receivers (c_receivers s1 ++ [(i, AddrSpec_String a)]) (set_c_starts [] s2))).
  { assert (Hst2 : c_starts s2 = [j]) by (cbn; by rewrite Hst1, Hst).
    assert (Hj2 : c_streams s2 !! j = c_streams s1 !! j) by done.
    assert (Ht2 : c_table s2 !! AddrSpec_String a = Some i) by (cbn; by rewrite Ht1, lookup_insert_eq).
    unfold c_start. rewrite Hst2. cbn [lookup list_lookup mbind option_bind]. rewrite Hj2, Hj1.
    cbn [mbind option_bind cs_cache c_table set_c_starts]. rewrite Ht2. reflexivity. }
  set (s3 := set_c_receivers _ _) in E3.
  assert (Hit3 : c_items s3 !! i = Some (write_ci d it0)) by (cbn; by rewrite (alter_at _ _ _ _ Hit1)).
  assert (Hrec3 : c_receivers s3 !! length (c_receivers s) = Some (i, AddrSpec_String a)).
  { cbn. by rewrite Hr1, lookup_app_r, Nat.sub_diag by lia. }
  destruct (pack_reads rsrc (take cap reply) ra Hra Hwra Hlen) as (m' & Hm' & Hrd').
  destruct (reply_back cap _ i _ reply m' (write_ci d it0) _ s3 resolve Hrec3 Hit3 eq_refl Hj1 eq_refl Hwr Hm') as (s4 & E4 & H4).
  eexists s3, s4, (write_ci d it0), m', _. split_and!; [|exact Hit3|done|done| |exact H4|done|exact Hf'|].
  - rewrite (crun_cons _ _ _ _ _ s0) by exact E0. rewrite (crun_cons _ _ _ _ _ s1) by exact E1.
    rewrite (crun_cons _ _ _ _ _ s2) by exact E2. cbn [crun cstep]. by rewrite E3.
  - rewrite <- Hf1. exact E4.
  - intros n k i' key itn tln Hk Hin Hcn Hfn. destruct (reads_full Hrd' (rx (u_conn itn)) tln Hfn) as (rn & Hrn & _).
    unfold u_receive. rewrite Hk. cbn [mbind option_bind]. rewrite Hin. cbn [mbind option_bind].
    rewrite Hcn, (on_rx_ok _ _ _ rn Hrn). eexists. split; reflexivity.
Qed.

(** An attempt of a client node leaves nothing open.  Whatever happens in it,
    the connection to the bridge ends closed; streams are only taken after the
    bridge has accepted the node; they are those the session gave before its first
    error, after which it is closed and the backoff starts anew; and attempts go on
    until the context is done. *)
Theorem rounds_close {PN : Proto NegotiateMsg} (key : bytes) (dial : outcome conn) (mk : option error) (l : list accept)
    (cs : list conn) (rest : list accept) :
  let r := client_round key dial mk l in
  (forall c, r_conn r = Some c -> closed c = true) /\
  (forall p, dial = Ok p -> r_conn r <> None) /\
  (r_streams r <> [] \/ r_closed r <> None ->
     exists p p', dial = Ok p /\ client_negotiate key p = (Ok tt, p') /\ mk = None) /\
  (forall e, r_end r = RRetry e true -> r_closed r = Some true) /\
  (forall p p' e, dial = Ok p -> client_negotiate key p = (Ok tt, p') -> mk = None ->
     l = map AStream cs ++ AError e :: rest -> r_streams r = cs /\ r_end r = RRetry e true) /\
  (forall p p', dial = Ok p -> client_negotiate key p = (Ok tt, p') -> mk = None ->
     l = map AStream cs ++ ADone :: rest -> r_streams r = cs /\ r_end r = RPermanent).
Proof.
  assert (Hal : forall l, match accept_loop l with (RRetry _ b, c, _) => b = true /\ c = true | (RPermanent, c, _) => c = false
    | _ => False end).
  { clear. intros l. induction l as [|[c|e|] l0 IH]; cbn; [done| |by split|done]. by destruct (accept_loop l0) as [[[] ?] ?]. }
  assert (Hap : forall cs l, accept_loop (map AStream cs ++ l) =
    let '(e, b, cs') := accept_loop l in (e, b, cs ++ cs')).
  { intros cs0 l0. induction cs0 as [|c cs0 IH]; cbn; [by destruct (accept_loop l0) as [[? ?] ?]|].
    rewrite IH. by destruct (accept_loop l0) as [[? ?] ?]. }
  assert (Hcn : forall p o p', client_negotiate key p = (o, p') -> o <> Ok tt -> closed p' = true).
  { unfold client_negotiate. intros p o p'. cbv zeta.
    match goal with |- (match ?x with _ => _ end) = _ -> _ => destruct x as [[[]|e|] c] end; by intros [= <- <-]. }
  cbv zeta. unfold client_round. destruct dial as [p|e|]; [|by split_and!; try done; intros [?|?]..].
  destruct (client_negotiate key p) as [[[]|e|] p'] eqn:En.
  2,3: split_and!; try done; [intros c [= <-]; by eapply Hcn|by intros [?|?]|intros ? ? ? [= <-]; congruence|intros ? ? [= <-]; congruence].
  destruct mk as [e|].
  { split_and!; try done; [by intros c [= <-]|by intros [?|?]]. }
  pose proof (Hal l) as Hl. destruct (accept_loop l) as [[e b] cs0] eqn:El. cbn [r_conn r_streams r_closed r_end].
  split_and!; try done.
  - by intros c [= <-].
  - intros _. by exists p, p'.
  - intros e' ->. by destruct Hl as [_ ->].
  - intros _ _ e' _ _ _ ->. rewrite Hap in El. cbn in El. injection El as <- <- <-. by rewrite app_nil_r.
  - intros _ _ _ _ _ ->. rewrite Hap in El. cbn in El. injection El as <- <- <-. by rewrite app_nil_r.
Qed.

(** * Witnesses *)

Definition to_wire (d : bytes) : bytes := match pack lan d with Ok m => m | _ => [] end.
Definition lan_addr : AddrSpec := mkAddrSpec [] (IPv4 (z2b 192) (z2b 168) (z2b 1) (z2b 2)) 5000 ATYPIPv4.

(** Two streams for different local addresses, both with a datagram of one address *)
Definition meeting : list cevent :=
  [CAccept [Seg (to_wire (lit "one"))] (lit "10.0.0.1:80"); CTurn 0; CDialed 0 true; CWrite 0 true; CStart 0;
   CAccept [Seg (to_wire (lit "two"))] (lit "10.0.0.9:90")].
Definition crossing : CU := default (CU_init 0) (crun 1500 Some meeting (CU_init 0)).

Lemma client_sound_witness :
  c_of crossing 0 lan /\ exists it j, c_items crossing !! 0%nat = Some it /\ ci_sent it = [lit "one"] /\
    (j, ci_src it, lit "one") ∈ c_read crossing.
Proof.
  destruct (client_sound 1500 Some 0 meeting crossing ltac:(vm_compute; reflexivity)) as (H1 & _ & _ & _ & H2).
  split; [apply H1; vm_compute; reflexivity|].
  destruct (c_items crossing !! 0%nat) as [it|] eqn:E; [|vm_compute in E; discriminate E].
  assert (Hs : ci_sent it = [lit "one"]) by (vm_compute in E; injection E as <-; reflexivity).
  destruct (H2 ltac:(vm_compute; reflexivity) 0%nat it (lit "one") E) as [j Hj]; [rewrite Hs; by left|].
  exists it, j. exact (conj eq_refl (conj Hs Hj)).
Defined.

Definition stream_of (s : CU) (j : nat) : cstream :=
  default (mkCS (conn_of []) [] None [] CGone) (c_streams s !! j).
Definition item_of (s : CU) (i : nat) : citem := default (mkC [] 0 [] [] 0 true []) (c_items s !! i).

Lemma streams_cross_witness :
  exists s1, crun 1500 Some [CTurn 1; CWrite 0 true] crossing = Some s1 /\
    exists it', c_items s1 !! 0%nat = Some it' /\ ci_sent it' = [lit "one"; lit "two"] /\ ci_target it' = lit "10.0.0.1:80".
Proof.
  destruct (streams_cross 1500 Some crossing 1 0 0 (stream_of crossing 1) (stream_of crossing 0) (item_of crossing 0)
    (mkDatagram zero lan_addr (lit "two")) [] (lit "re") (to_wire (lit "re")))
    as (s1 & s2 & H1 & _ & (it' & H2 & H3 & H4) & _); try (vm_compute; reflexivity).
  - vm_compute. discriminate.
  - exists s1. split; [exact H1|]. exists it'. split; [exact H2|]. split; [rewrite H3|rewrite H4]; vm_compute; reflexivity.
Defined.

Definition arrived : CU :=
  default (CU_init 0) (crun 1500 Some [CAccept [Seg (take 3 (to_wire (lit "q"))); Seg (drop 3 (to_wire (lit "q")))]
    (lit "10.0.0.1:80")] (CU_init 0)).

Lemma tunnel_datagrams_witness :
  exists s1 it, crun 1500 Some [CTurn 0; CDialed 0 true; CWrite 0 true; CStart 0] arrived = Some s1 /\
    c_items s1 !! 0%nat = Some it /\ ci_sent it = [lit "q"] /\ ci_target it = lit "10.0.0.1:80".
Proof.
  destruct (tunnel_datagrams 1500 Some arrived 0 (stream_of arrived 0) lan (lit "q") (to_wire (lit "q")) lan (lit "re")
    lan_addr lan_addr []) as (s1 & s2 & it & m' & st2 & H1 & H2 & H3 & H4 & _); try (vm_compute; reflexivity).
  - constructor. lia.
  - vm_compute. discriminate.
  - constructor. lia.
  - vm_compute. discriminate.
  - exists s1, it. split; [exact H1|]. split; [exact H2|]. split; [exact H3|]. rewrite H4. vm_compute. reflexivity.
Defined.

(** Two sources on one stream, each with a session *)
Definition lan2 : bytes := lit "192.168.1.3:5000".
Definition wire_of (src d : bytes) : bytes := match pack src d with Ok m => m | _ => [] end.
Definition two_lan : CU :=
  default (CU_init 0) (crun 1500 Some
    [CAccept [Seg (wire_of lan (lit "a1")); Seg (wire_of lan2 (lit "b1")); Seg (wire_of lan (lit "a2")); Seg (wire_of lan2 (lit "b2"))]
       (lit "10.0.0.1:80");
     CTurn 0; CDialed 0 true; CWrite 0 true; CTurn 0; CDialed 0 true; CWrite 0 true; CTurn 0] (CU_init 0)).

(** The datagram [a2] of the first source is sent on the second one's socket. *)
Lemma write_follows_item_witness :
  exists s1, crun 1500 Some [CTurn 0; CWrite 0 true] two_lan = Some s1 /\
    exists it', c_items s1 !! 1%nat = Some it' /\ ci_src it' = lan2 /\ ci_sent it' = [lit "b1"; lit "a2"].
Proof.
  destruct (write_follows_item 1500 Some two_lan 0 0 1 (lit "a2") (stream_of two_lan 0) (item_of two_lan 1)
    (mkDatagram zero (mkAddrSpec [] (IPv4 (z2b 192) (z2b 168) (z2b 1) (z2b 3)) 5000 ATYPIPv4) (lit "b2")) [])
    as (s1 & H1 & it' & H2 & H3 & H4); try (vm_compute; reflexivity).
  exists s1. split; [exact H1|]. exists it'. split; [exact H2|]. split; [rewrite H3|rewrite H4]; vm_compute; reflexivity.
Defined.
