(* ===== verification/Route.v ===== *)
(** What the HTTP and the SOCKS5 service decide before they dial
    (services/http/http.go, services/socks/socks.go, pkg/sword): whether a target
    is the service itself, whether it goes through a parent, which address picks
    the parent, and the balancer's configuration.  The classification of hosts of
    github.com/things-go/x/extnet, name lookups and the interfaces of the system
    are inputs. *)
From S2P Require Import Prelude GoStrings GoNet Iface BasicAuth Outil Filter LoadBalance.
Open Scope Z_scope.

(** [extnet.IsDomain] and [extnet.IsIntranet] *)
Class HostClass := { IsDomain : bytes -> bool; IsIntranet : bytes -> bool }.

(** [ip.Equal(x)] *)
Definition IP_Equal (ip x : IP) : bool :=
  if len ip =? len x then bool_decide (ip = x)
  else if (len ip =? IPv4len) && (len x =? IPv6len) then
    bool_decide (take 12 x = v4InV6Prefix) && bool_decide (ip = drop 12 x)
  else if (len ip =? IPv6len) && (len x =? IPv4len) then
    bool_decide (take 12 ip = v4InV6Prefix) && bool_decide (drop 12 ip = x)
  else false.

(** * Addresses of the system (pkg/sword/system_ips.go) *)

(** A [net.Interface]: whether it is up, and [Addrs()]; the address is nil for an
    entry that is neither an [IPNet] nor an [IPAddr]. *)
Record Interface := mkInterface { FlagUp : bool; Addrs : outcome (list IP) }.

Definition interface_ips (i : Interface) : list IP :=
  if negb (FlagUp i) then []
  else
    match Addrs i with
    | Ok addrs => filter (fun ip => To4 ip <> []) addrs
    | _ => []
    end.

(** [SystemNetworkIPs]: the state is the cached answer. *)
Definition SystemNetworkIPs (ifaces : outcome (list Interface)) : io (option (list IP)) (list IP) :=
  fun snIPs =>
  match snIPs with
  | Some ips => (Ok ips, snIPs)
  | None =>
      match ifaces with
      | Ok l =>
          match concat (map interface_ips l) with
          | [] => (Fail (ErrMsg "no address Found, net.Interface : %v"), None)
          | ips => (Ok ips, Some ips)
          end
      | Fail e => (Fail e, None)
      | Panic => (Panic, None)
      end
  end.

(** * Dead loops *)
Section Route.
Context {R : Type} `{!NameResolver R}.

(** [IsDeadLoop(inLocalAddr, host)]: [dnsAddr] is the configured DNS server,
    [lookup] is [net.LookupIP], [system] what [SystemNetworkIPs] returns. *)
Definition IsDeadLoop (dnsAddr : bytes) (domainResolver : option R) (LocalIPS : list bytes)
    (lookup : bytes -> outcome (list IP)) (system : outcome (list IP))
    (inLocalAddr host : bytes) : bool :=
  match SplitHostPort inLocalAddr, SplitHostPort host with
  | Ok (inIP, inPort), Ok (outDomain, outPort) =>
      if bool_decide (inPort = outPort) then
        let '(outIPs, ok) :=
          if negb (bool_decide (dnsAddr = [])) then
            ([ParseIP (Resolve domainResolver outDomain)], true)
          else match lookup outDomain with Ok ips => (ips, true) | _ => ([], false) end in
        if ok && existsb (fun ip => bool_decide (ip_String ip = inIP)) outIPs then true
        else
          match system with
          | Ok ips =>
              let interfaceIPs := ips ++ map (fun ip => To4 (ParseIP ip)) LocalIPS in
              existsb (fun localIP => existsb (IP_Equal localIP) outIPs) interfaceIPs
          | _ => false
          end
      else false
  | _, _ => false
  end.

(** * Proxy or direct *)
Context {M : Type -> Type} `{!ConcurrentMap M} `{!HostClass}.

Definition host_of (addr : bytes) : bytes :=
  match SplitHostPort addr with Ok (host, _) => host | _ => [] end.

(** Ask the filter, and tell it about a domain it does not know *)
Definition ask_filter (now : Z) (domainResolver : option R) (addr : bytes) : io (Filter M) bool :=
  f ← io_gets id;
  let '(useProxy, inMap, _, _) := IsProxy now addr f in
  (if inMap : bool then mret tt else io_modify (Filter.Add addr (Resolve domainResolver addr)));;
  mret useProxy.

(** [isUseProxy] of the HTTP service *)
Definition http_isUseProxy (Parent : list bytes) (Always : bool) (now : Z)
    (domainResolver : option R) (addr : bytes) : io (Filter M) bool :=
  if 0 <? len Parent then
    let host := host_of addr in
    if IsDomain host && Always then mret true
    else if negb (IsIntranet host) then ask_filter now domainResolver addr
    else mret false
  else mret false.

(** [isUseProxy] of the SOCKS5 service *)
Definition socks_isUseProxy (Parent : list bytes) (Always : bool) (now : Z)
    (domainResolver : option R) (addr : bytes) : io (Filter M) bool :=
  if 0 <? len Parent then
    let host := host_of addr in
    if (IsDomain host && Always) || negb (IsIntranet host) then
      if Always then mret true else ask_filter now domainResolver addr
    else mret false
  else mret false.

(** The address the balancer is asked with *)
Definition select_addr (Method : bytes) (HashTarget : bool) (srcAddr targetAddr : bytes) : bytes :=
  if bool_decide (Method = lit "hash") && HashTarget then targetAddr else srcAddr.

(** * Parents *)

(** One entry of the parent list, host:port or host:port@weight *)
Definition parent_config (RetryTime Timeout : Z) (addr : bytes) : outcome LoadBalance.Config :=
  let addrInfo := Split addr (lit "@") in
  a ← idx addrInfo 0;
  weight ← (if len addrInfo =? 2 then
              w ← idx addrInfo 1;
              let weight := Atoi_val w in
              Ok (if weight =? 0 then 1 else weight)
            else Ok 1);
  Ok (mkConfig a weight 0 1 2 RetryTime Timeout).

(** The balancer the services build *)
Definition new_lb (r : gmap bytes SelectorState) (Method : bytes) (RetryTime Timeout : Z) (Debug : bool)
    (domainResolver : option R) (Parent : list bytes) : outcome (Balanced R) :=
  configs ← mapM (parent_config RetryTime Timeout) Parent;
  LoadBalance.New r Method configs [WithDNSServer domainResolver; WithEnableDebug Debug].

(** The tables of the filter, as the HTTP service loads them: errors are logged,
    and the last one stays in the named result. *)
Definition load_tables (proxyFile directFile : option (outcome bytes)) : io (Filter M) (option error) :=
  _ ← io_try (LoadProxyFile proxyFile);
  r ← io_try (LoadDirectFile directFile);
  mret (match r with inr e => Some e | inl _ => None end).

(** * Authentication *)

(** [AuthConfig]; [File] is the contents of the file when a name is set. *)
Record AuthConfig := mkAuthConfig {
  File : option (outcome bytes);
  UserPasses : list bytes;
  URL : bytes;
  AuthTimeout : Z; OkCode : Z; Retry : Z;
}.

(** The center the services build, and the error of loading the file *)
Definition init_auth (cfg : AuthConfig) (domainResolver : option R)
  : option (Center M R) * option error :=
  if match File cfg with Some _ => true | None => false end
     || (0 <? len (UserPasses cfg)) || negb (bool_decide (URL cfg = []))
  then
    let opts := match domainResolver with Some d => [BasicAuth.WithDNSServer (Some d)] | None => [] end
      ++ (if negb (bool_decide (URL cfg = []))
          then [WithAuthURL (URL cfg) (AuthTimeout cfg) (OkCode cfg) (Retry cfg)] else []) in
    let center := (BasicAuth.Add (UserPasses cfg) (BasicAuth.New opts)).2 in
    match File cfg with
    | None => (Some center, None)
    | Some file =>
        let '(n, center) := LoadFromFile file center in
        (Some center, match n with Fail e => Some e | _ => None end)
    end
  else (None, None).

End Route.

(** * Laws *)

Lemma existsb_exists_P {A} (p : A -> bool) (l : list A) :
  existsb p l = true <-> exists x, x ∈ l /\ p x = true.
Proof.
  rewrite existsb_exists. split; intros (x & Hx & Hp); exists x; (split; [|done]);
    by apply list_elem_of_In.
Qed.

(** The addresses a target resolves to for the check, if the lookup succeeds *)
Definition target_ips {R} `{!NameResolver R} (dnsAddr : bytes) (domainResolver : option R)
    (lookup : bytes -> outcome (list IP)) (outDomain : bytes) : outcome (list IP) :=
  if bool_decide (dnsAddr = []) then lookup outDomain
  else Ok [ParseIP (Resolve domainResolver outDomain)].

(** The addresses of the service: those of the interfaces, and the configured
    ones in four-byte form, nil when they are not IPv4 *)
Definition local_ips (LocalIPS : list bytes) (ips : list IP) : list IP :=
  ips ++ map (fun ip => To4 (ParseIP ip)) LocalIPS.

(** A target is taken for the service itself exactly when both addresses
    split, their ports are the same text, the target resolves, and one of its
    addresses is printed like the local one or equals, in either form, an address
    of the system or a configured one. *)
Theorem IsDeadLoop_spec {R : Type} `{!NameResolver R} (dnsAddr : bytes) (resolver : option R)
    (LocalIPS : list bytes) (lookup : bytes -> outcome (list IP)) (system : outcome (list IP))
    (inLocalAddr host : bytes) :
  IsDeadLoop dnsAddr resolver LocalIPS lookup system inLocalAddr host = true <->
  exists inIP port outDomain outIPs ip,
    SplitHostPort inLocalAddr = Ok (inIP, port) /\ SplitHostPort host = Ok (outDomain, port) /\
    target_ips dnsAddr resolver lookup outDomain = Ok outIPs /\ ip ∈ outIPs /\
    (ip_String ip = inIP \/
     exists ips local, system = Ok ips /\ local ∈ local_ips LocalIPS ips /\ IP_Equal local ip = true).
Proof.
  unfold IsDeadLoop, target_ips, local_ips.
  destruct (SplitHostPort inLocalAddr) as [[inIP inPort]|e|];
    [|split; [done|by intros (? & ? & ? & ? & ? & [=] & _)]..].
  destruct (SplitHostPort host) as [[dom outPort]|e|];
    [|split; [done|by intros (? & ? & ? & ? & ? & _ & [=] & _)]..].
  case_bool_decide as Hp; [subst outPort|split; [done|by intros (? & ? & ? & ? & ? & [= <- <-] & [= <- <-] & _)]].
  set (q := (if bool_decide (dnsAddr = []) then lookup dom else Ok [ParseIP (Resolve resolver dom)])).
  assert (E : (if negb (bool_decide (dnsAddr = [])) then ([ParseIP (Resolve resolver dom)], true)
               else match lookup dom with Ok ips => (ips, true) | _ => ([], false) end) =
              match q with Ok ips => (ips, true) | _ => ([], false) end).
  { unfold q. by case_bool_decide. }
  rewrite E. clear E. destruct q as [outIPs|e|] eqn:Eq; unfold q in Eq; clear q; cbn [andb].
  2,3: split; [|intros (i & p & d & os & ip & _ & [= <- <-] & Hq & _); congruence]; destruct system as [ips|e'|]; try done;
    intros (l & _ & H)%existsb_exists_P; by cbn in H.
  destruct (existsb _ outIPs) eqn:Ex.
  - split; [intros _|done]. apply existsb_exists_P in Ex as (ip & Hin & Hip%bool_decide_eq_true).
    exists inIP, inPort, dom, outIPs, ip. split_and!; auto.
  - assert (Hno : forall ip, ip ∈ outIPs -> ip_String ip <> inIP).
    { intros ip Hin Hip. apply (not_true_iff_false (existsb _ _)) in Ex. apply Ex.
      apply existsb_exists_P. exists ip. split; [done|]. by apply bool_decide_eq_true. }
    split.
    + destruct system as [ips|e|]; try done.
      intros (l & Hl & (ip & Hin & Heq)%existsb_exists_P)%existsb_exists_P.
      exists inIP, inPort, dom, outIPs, ip. split_and!; [done..|]. right. by exists ips, l.
    + intros (i & p & d & os & ip & [= <- <-] & [= <-] & Hq & Hin & Hor);
      rewrite Eq in Hq; injection Hq as <-; destruct Hor as [H|(ips & l & -> & Hl & Heq)]; [by destruct (Hno ip)|].
      apply existsb_exists_P. exists l. split; [done|]. apply existsb_exists_P. by exists ip.
Qed.

(** A configured local address that is not IPv4 makes targets look like the
    service.  With a DNS server configured, any target on the service's own port
    whose name cannot be resolved to an IP address is refused as a dead loop as
    soon as one of the configured local addresses is not an IPv4 address. *)
Theorem IsDeadLoop_nil {R : Type} `{!NameResolver R} (dnsAddr : bytes) (resolver : option R)
    (LocalIPS : list bytes) (lookup : bytes -> outcome (list IP)) (ips : list IP)
    (inLocalAddr host inIP outDomain port l : bytes) :
  dnsAddr <> [] -> SplitHostPort inLocalAddr = Ok (inIP, port) ->
  SplitHostPort host = Ok (outDomain, port) ->
  ParseIP (Resolve resolver outDomain) = [] -> l ∈ LocalIPS -> To4 (ParseIP l) = [] ->
  IsDeadLoop dnsAddr resolver LocalIPS lookup (Ok ips) inLocalAddr host = true.
Proof.
  intros Hd Hi Ho Hr Hl H4. unfold IsDeadLoop. rewrite Hi, Ho, bool_decide_true by done.
  rewrite (bool_decide_false (dnsAddr = [])) by done. cbn [negb]. rewrite Hr.
  destruct (_ && _); [done|]. apply existsb_exists_P. exists []. split; [|done].
  apply elem_of_app. right. apply list_elem_of_fmap. by exists l.
Qed.

Lemma IsDeadLoop_nil_witness :
  IsDeadLoop (R := unit) (NameResolver0 := {| public_dns_addr := fun _ => []; must_resolve := fun _ a => a |})
    (lit "8.8.8.8:53") (Some tt) [lit "fe80::1"] (fun _ => Panic) (Ok [])
    (lit "10.0.0.1:80") (lit "no-such-host.example:80") = true.
Proof.
  apply (IsDeadLoop_nil (R := unit) (NameResolver0 := {| public_dns_addr := fun _ => []; must_resolve := fun _ a => a |})
    _ _ _ _ _ _ _ (lit "10.0.0.1") (lit "no-such-host.example") (lit "80") (lit "fe80::1"));
    [done|vm_compute; reflexivity..|left|vm_compute; reflexivity].
Defined.

(** What [ask_filter] answers, and the filter it leaves *)
Lemma ask_filter_eq {R : Type} `{!NameResolver R} {M : Type -> Type} `{!ConcurrentMap M}
    (now : Z) (resolver : option R) (addr : bytes) (f : Filter M) :
  ask_filter now resolver addr f =
  (Ok (IsProxy now addr f).1.1.1,
   if (IsProxy now addr f).1.1.2 then f else Filter.Add addr (Resolve resolver addr) f).
Proof.
  unfold ask_filter, mbind, io_bind, io_gets, id. cbv beta iota.
  destruct (IsProxy now addr f) as [[[u i] a] b].
  generalize (Filter.Add addr (Resolve resolver addr)). intros add. by destruct i.
Qed.

(** C23: the two services route alike, with one difference.  Without a parent,
    and for a host of the local network that is not a domain forced through a
    parent, both go direct and ask nothing.  Otherwise they ask the filter, which
    learns the domain, unless a parent is forced; a forced parent is used by the
    SOCKS5 service for every such host, by the HTTP service for domains only. *)
Theorem isUseProxy_cases {R : Type} `{!NameResolver R} {M : Type -> Type} `{!ConcurrentMap M}
    `{!HostClass} (Parent : list bytes) (Always : bool) (now : Z) (resolver : option R)
    (addr : bytes) (f : Filter M) :
  let host := host_of addr in
  let http := http_isUseProxy Parent Always now resolver addr f in
  let socks := socks_isUseProxy Parent Always now resolver addr f in
  let asked := (Ok (IsProxy now addr f).1.1.1,
                if (IsProxy now addr f).1.1.2 then f else Filter.Add addr (Resolve resolver addr) f) in
  if bool_decide (Parent = []) || (IsIntranet host && negb (IsDomain host && Always)) then
    http = (Ok false, f) /\ socks = (Ok false, f)
  else if negb Always then http = asked /\ socks = asked
  else socks = (Ok true, f) /\ http = if IsDomain host then (Ok true, f) else asked.
Proof.
  cbv zeta. rewrite <- ask_filter_eq. unfold http_isUseProxy, socks_isUseProxy. cbv zeta.
  generalize (ask_filter now resolver addr). intros m.
  generalize (host_of addr). intros host.
  destruct Parent as [|p ps]; [done|]. rewrite bool_decide_false by done.
  rewrite (proj2 (Z.ltb_lt 0 _)) by (cbn [length]; lia). cbn [orb].
  destruct (IsIntranet host), (IsDomain host), Always; done.
Qed.

(** A parent the balancer keeps: one with a port *)
Definition addressed (c : LoadBalance.Config) : bool := is_ok (SplitHostPort (CAddr c)).

Lemma parent_config_total (RetryTime Timeout : Z) (p : bytes) :
  exists c, parent_config RetryTime Timeout p = Ok c /\ config_ok c.
Proof.
  unfold parent_config. destruct (Split p (lit "@")) as [|a [|w [|x l]]] eqn:E.
  - by destruct (Split_nonempty p (lit "@")).
  - eexists. split; [reflexivity|]. split; cbn; lia.
  - eexists. split; [reflexivity|]. split; cbn; lia.
  - rewrite (proj2 (Z.eqb_neq (len (a :: w :: x :: l)) 2)) by (cbn [length]; lia).
    eexists. split; [reflexivity|]. split; cbn; lia.
Qed.

(** The address of an entry, without its weight *)
Definition entry_addr (p : bytes) : bytes := default [] (head (Split p (lit "@"))).

Lemma parent_config_addr (RetryTime Timeout : Z) (p : bytes) (c : LoadBalance.Config) :
  parent_config RetryTime Timeout p = Ok c -> CAddr c = entry_addr p /\ config_ok c.
Proof.
  intros H. destruct (parent_config_total RetryTime Timeout p) as (c' & Ep & Hok).
  rewrite H in Ep. injection Ep as <-. split; [|done]. revert H. unfold parent_config, entry_addr.
  destruct (Split p (lit "@")) as [|a l]; [done|].
  cbn. destruct (if len (a :: l) =? 2 then _ else _); by intros [= <-].
Qed.

Lemma parent_configs_total (RetryTime Timeout : Z) (ps : list bytes) :
  exists cs, mapM (parent_config RetryTime Timeout) ps = Ok cs /\ Forall config_ok cs /\
    map CAddr cs = map entry_addr ps.
Proof.
  induction ps as [|p ps (cs & E & Hc & Hm)]; [by exists []|].
  destruct (parent_config_total RetryTime Timeout p) as (c & Ep & Hok).
  exists (c :: cs). cbn [mapM map]. rewrite Ep. unfold mbind, outcome_bind at 1. rewrite E.
  split_and!; [done|by constructor|]. f_equal; [|done]. by eapply parent_config_addr.
Qed.

(** Pools are built from the configurations with an address. *)
Lemma NewUpstreamPool_addrs (cs : list LoadBalance.Config) :
  map Addr (NewUpstreamPool cs) = map CAddr (filter (fun c => addressed c = true) cs).
Proof.
  induction cs as [|c cs IH]; [done|]. rewrite filter_cons. cbn [NewUpstreamPool].
  unfold NewUpstream at 1. destruct (decide (addressed c = true)) as [Ha|Ha];
    unfold addressed in Ha; destruct (SplitHostPort (CAddr c)) eqn:E; try done.
  cbn [map]. by f_equal.
Qed.

(** A balancer made of such configurations *)
Lemma New_pool {R : Type} (gcdx : Z -> Z -> Z) (Method : bytes) (cs : list LoadBalance.Config)
    (opts : list (LoadBalance.Option R)) :
  Forall config_ok cs ->
  exists lb, LoadBalance.New std_registry Method cs opts = Ok lb /\ LoadBalance.reachable gcdx lb /\
    map Addr (upstreams lb) = filter (fun a => is_ok (SplitHostPort a) = true) (map CAddr cs).
Proof.
  intros Hc. destruct (getNew_total Method) as (sel & Es & _).
  destruct (LoadBalance.New std_registry Method cs opts) as [lb|e|] eqn:El.
  2,3: unfold LoadBalance.New in El; by rewrite Es in El.
  exists lb. split; [done|]. split; [by eapply reach_new|].
  assert (Hu : upstreams lb = NewUpstreamPool cs).
  { unfold LoadBalance.New in El. rewrite Es in El. injection El as <-.
    by match goal with |- upstreams (fold_left _ _ ?l) = _ => destruct (fold_option_keeps opts l) as (-> & _) end. }
  rewrite Hu, NewUpstreamPool_addrs. clear. induction cs as [|c cs IH]; [done|].
  cbn [map]. rewrite !filter_cons. change (addressed c) with (is_ok (SplitHostPort (CAddr c))).
  destruct (decide (is_ok (SplitHostPort (CAddr c)) = true)); [cbn [map]; by f_equal|done].
Qed.

(** The balancer the services build.  Whatever the parent list and method,
    it is built without panic and is a state the balancer's own operations can
    reach; its upstreams are the entries that have a port, in order and without
    their weights. *)
Theorem new_lb_reachable {R : Type} (gcdx : Z -> Z -> Z) (Method : bytes) (RetryTime Timeout : Z)
    (Debug : bool) (resolver : option R) (Parent : list bytes) :
  exists lb, new_lb std_registry Method RetryTime Timeout Debug resolver Parent = Ok lb /\
    LoadBalance.reachable gcdx lb /\
    map Addr (upstreams lb) =
      filter (fun a => is_ok (SplitHostPort a) = true)
        (map entry_addr Parent).
Proof.
  destruct (parent_configs_total RetryTime Timeout Parent) as (cs & E & Hc & Hm).
  unfold new_lb. rewrite E, <- Hm. unfold mbind, outcome_bind. by apply New_pool.
Qed.
