(* ===== verification/HttpSvc.v ===== *)
(** services/http: a connection through the HTTP proxy, from the request to the
    moment the two connections are joined, and the life of the service around it.
    Connections are seen behind their encryption and compression; dials,
    certificates and the ssh client are inputs.  The copying of the joined
    connections and the logging are left out. *)
From S2P Require Import Prelude GoStrings GoNet GoIO Iface BasicAuth Outil Enet Filter LoadBalance Httpc Route.
Open Scope Z_scope.

(** The entries of [Config] the model uses; [LbTimes] are the balancer's retry
    time and timeout. *)
Record Config := mkConfig {
  ParentType : bytes; Parent : list bytes;
  LocalType : bytes; Local : bytes;
  CertFile : bytes; KeyFile : bytes; CaCertFile : bytes;
  Always : bool;
  Intelligent : bytes;
  DNSAddr : bytes;
  LbMethod : bytes; LbTimes : Z * Z; HashTarget : bool;
  RateLimit : bytes;
  LocalIPS : list bytes; BindListen : bool; Debug : bool;
  RawProxyURL : bytes;
}.

Section HTTP.
Context {R : Type} `{!NameResolver R} {M : Type -> Type} `{!ConcurrentMap M} {HC : HostClass}.
Context {C : Type} `{!Authenticator C}.
Context (gcdx : Z -> Z -> Z) (url_host : bytes -> option bytes) (rune_cap : Z -> Z).

(** The service: [channels] are its listeners, [userConns] maps an address to a
    connection, [closed_] are the listeners and connections closed by [Stop] or
    through the table. *)
Record HTTP := mkHTTP {
  cfg : Config;
  channels : list bytes;
  filters : option (Filter M);
  basicAuthCenter : option C;
  lb : option (Balanced R);
  domainResolver : option R;
  sshClient : option unit;
  userConns : gmap bytes nat;
  closed_ : list (bytes + nat);
}.

Definition New (cfg : Config) : HTTP := mkHTTP cfg [] None None None None None ∅ [].

Definition set_cfg c s := mkHTTP c (channels s) (filters s) (basicAuthCenter s) (lb s)
  (domainResolver s) (sshClient s) (userConns s) (closed_ s).
Definition set_channels l s := mkHTTP (cfg s) l (filters s) (basicAuthCenter s) (lb s)
  (domainResolver s) (sshClient s) (userConns s) (closed_ s).
Definition set_filters f s := mkHTTP (cfg s) (channels s) f (basicAuthCenter s) (lb s)
  (domainResolver s) (sshClient s) (userConns s) (closed_ s).
Definition set_auth c s := mkHTTP (cfg s) (channels s) (filters s) c (lb s)
  (domainResolver s) (sshClient s) (userConns s) (closed_ s).
Definition set_lb b s := mkHTTP (cfg s) (channels s) (filters s) (basicAuthCenter s) b
  (domainResolver s) (sshClient s) (userConns s) (closed_ s).
Definition set_resolver d s := mkHTTP (cfg s) (channels s) (filters s) (basicAuthCenter s) (lb s)
  d (sshClient s) (userConns s) (closed_ s).
Definition set_ssh c s := mkHTTP (cfg s) (channels s) (filters s) (basicAuthCenter s) (lb s)
  (domainResolver s) c (userConns s) (closed_ s).
Definition set_users u l s := mkHTTP (cfg s) (channels s) (filters s) (basicAuthCenter s) (lb s)
  (domainResolver s) (sshClient s) u l.

(** * One connection ([handle]) *)

(** A dial, to a parent or straight to the target, from a local address *)
Inductive dial := DialParent (addr : bytes) | DialDirect (addr : bytes) (local : option bytes).

Record hstate := mkH {
  srv : HTTP;
  inConn : conn;
  targetConn : option conn;
  dialed : list dial;
}.

Definition on_in {A} (m : io conn A) : io hstate A := fun s =>
  let '(o, c) := m (inConn s) in (o, mkH (srv s) c (targetConn s) (dialed s)).
Definition on_target {A} (m : io conn A) : io hstate A := fun s =>
  match targetConn s with
  | None => (Panic, s)
  | Some t => let '(o, t) := m t in (o, mkH (srv s) (inConn s) (Some t) (dialed s))
  end.
Definition set_target (t : option conn) : io hstate unit :=
  io_modify (fun s => mkH (srv s) (inConn s) t (dialed s)).
Definition log_dial (d : dial) : io hstate unit :=
  io_modify (fun s => mkH (srv s) (inConn s) (targetConn s) (dialed s ++ [d])).
Definition gets_srv {A} (f : HTTP -> A) : io hstate A := io_gets (fun s => f (srv s)).
Definition on_srv (f : HTTP -> HTTP) : io hstate unit :=
  io_modify (fun s => mkH (f (srv s)) (inConn s) (targetConn s) (dialed s)).

(** Run an operation of the filter or the balancer, which are nil without parents *)
Definition on_filters {A} (m : io (Filter M) A) : io hstate A := fun s =>
  match filters (srv s) with
  | None => (Panic, s)
  | Some f => let '(o, f) := m f in
      (o, mkH (set_filters (Some f) (srv s)) (inConn s) (targetConn s) (dialed s))
  end.
Definition on_lb {A} (m : io (Balanced R) A) : io hstate A := fun s =>
  match lb (srv s) with
  | None => (Panic, s)
  | Some b => let '(o, b) := m b in
      (o, mkH (set_lb (Some b) (srv s)) (inConn s) (targetConn s) (dialed s))
  end.

Definition is_ssh (c : Config) : bool := bool_decide (ParentType c = lit "ssh").

(** [dialParent]: other types of parent give a nil connection and no error. *)
Definition dialParent (address : bytes) (result : outcome conn) : io hstate unit :=
  c ← gets_srv cfg;
  if bool_decide (ParentType c ∈ map lit ["tcp"; "tls"; "stcp"; "kcp"; "ssh"]%string) then
    log_dial (DialParent address);;
    t ← io_lift result;
    set_target (Some t)
  else set_target None.

Definition dialDirect (address localAddr : bytes) (result : outcome conn) : io hstate unit :=
  c ← gets_srv cfg;
  let localIP := host_of localAddr in
  log_dial (DialDirect address
    (if BindListen c && negb (IsIntranet localIP) then Some (localIP ++ lit ":0") else None));;
  t ← io_lift result;
  set_target (Some t).

(** The retries of [handle]: at most five after the first attempt; each has the
    random numbers of the selection and the result of its dial.  When there are
    no more the context is done. *)
Fixpoint dial_retry (n : nat) (attempts : list ((nat -> Z) * outcome conn))
    (srcAddr target lbAddr : bytes) {struct attempts} : io hstate bytes :=
  match attempts with
  | [] => io_fail ErrClosed
  | (rnd, result) :: rest =>
      c ← gets_srv cfg;
      lbAddr ← (if is_ssh c then mret lbAddr
                else on_lb (Balanced_Select gcdx rnd
                       (select_addr (LbMethod c) (HashTarget c) srcAddr target)));
      r ← io_try (dialParent (if is_ssh c then target else lbAddr) result);
      match r with
      | inl _ => mret lbAddr
      | inr e => match n with O => io_fail e | S n => dial_retry n rest srcAddr target lbAddr end
      end
  end.

(** What reaches the target of a request before the connections are joined *)
Definition forward (req : Request C) (useProxy : bool) : io hstate unit :=
  c ← gets_srv cfg;
  if IsHTTPS req && (negb useProxy || is_ssh c) then on_in HTTPSReply
  else
    on_target (Write (if (negb useProxy || is_ssh c) && negb (IsSNI req)
                      then RemoveProxyHeaders (RawHeader req) else RawHeader req)).

(** [userConns.Upsert] closes the connection it replaces. *)
Definition upsert_user (srcAddr : bytes) (me : nat) (s : HTTP) : HTTP :=
  set_users (<[srcAddr := me]> (userConns s))
    (match userConns s !! srcAddr with Some j => closed_ s ++ [inr j] | None => closed_ s end) s.

Definition count_conn (f : bytes -> Balanced R -> Balanced R) (lbAddr : bytes) : io hstate unit :=
  c ← gets_srv cfg;
  if 0 <? len (Parent c) then on_lb (io_modify (f lbAddr)) else mret tt.

(** How [handle] ends, or that it goes on copying *)
Inductive ended :=
  | Refused (e : error) | DeadLoop | NotDialed (e : error) | NotForwarded (e : error)
  | Joined (useProxy : bool) (lbAddr : bytes).

(** [handle], up to the copying: what it meets are the addresses of the
    connection, its identity, the clock, [net.LookupIP], the addresses of the
    system, the dials of the retries and of the direct connection. *)
Definition handle_body (srcAddr localAddr : bytes) (me : nat) (now : Z)
    (lookup : bytes -> outcome (list IP)) (system : outcome (list IP))
    (attempts : list ((nat -> Z) * outcome conn)) (direct : outcome conn) : io hstate ended :=
  center ← gets_srv basicAuthCenter;
  r ← io_try (on_in (Httpc.New url_host rune_cap srcAddr localAddr 4096 center));
  match r with
  | inr e => mret (Refused e)
  | inl req =>
      c ← gets_srv cfg;
      resolver ← gets_srv domainResolver;
      let target := Host req in
      if IsDeadLoop (DNSAddr c) resolver (LocalIPS c) lookup system localAddr target then
        mret DeadLoop
      else
        useProxy ← (if 0 <? len (Parent c)
                    then on_filters (http_isUseProxy (Parent c) (Always c) now resolver target)
                    else mret false);
        d ← io_try (if useProxy : bool then dial_retry 5 attempts srcAddr target []
                    else dialDirect (Resolve resolver target) localAddr direct;; mret []);
        match d with
        | inr e => mret (NotDialed e)
        | inl lbAddr =>
            w ← io_try (forward req useProxy);
            match w with
            | inr e => mret (NotForwarded e)
            | inl _ =>
                on_target (mret tt);;   (* targetConn.RemoteAddr() *)
                on_srv (upsert_user srcAddr me);;
                count_conn Balanced_ConnsIncrease lbAddr;;
                mret (Joined useProxy lbAddr)
            end
        end
  end.

(** [defer inConn.Close()], unless the connections are joined *)
Definition handle (srcAddr localAddr : bytes) (me : nat) (now : Z)
    (lookup : bytes -> outcome (list IP)) (system : outcome (list IP))
    (attempts : list ((nat -> Z) * outcome conn)) (direct : outcome conn) : io hstate ended := fun s =>
  match handle_body srcAddr localAddr me now lookup system attempts direct s with
  | (Ok (Joined p a), s) => (Ok (Joined p a), s)
  | (o, s) => (o, (on_in Close s).2)
  end.

(** The copying is over: the deferred functions, the closing of [inConn] last *)
Definition handle_done (srcAddr lbAddr : bytes) : io hstate unit := fun s =>
  let '(o, s) := (on_srv (fun s => set_users (delete srcAddr (userConns s)) (closed_ s) s);;
                  count_conn Balanced_ConnsDecrease lbAddr) s in
  (o, (on_in Close s).2).

(** * The life of the service *)

(** What [inspectConfig] is told: of the certificate, the CA file, the ssh
    configuration, the rate limit and the proxy URL *)
Record checks := mkChecks {
  cert : option error; ca : option error; ssh : option error; rate : option error; proxy : option error;
}.

Definition fail_if (e : option error) : outcome unit :=
  match e with Some e => Fail e | None => Ok tt end.

(** [inspectConfig]: the configuration, with a lone empty parent dropped *)
Definition inspectConfig (k : checks) (c : Config) : outcome unit * Config :=
  let c := if bool_decide (Parent c = [[]])
    then mkConfig (ParentType c) [] (LocalType c) (Local c) (CertFile c) (KeyFile c) (CaCertFile c)
           (Always c) (Intelligent c) (DNSAddr c) (LbMethod c) (LbTimes c) (HashTarget c)
           (RateLimit c) (LocalIPS c) (BindListen c) (Debug c) (RawProxyURL c)
    else c in
  let parents := 0 <? len (Parent c) in
  (_ ← (if parents then
          if bool_decide (ParentType c = []) then Fail (ErrMsg "parent type required for %s")
          else if negb (bool_decide (ParentType c ∈ map lit ["tcp"; "tls"; "stcp"; "kcp"; "ssh"]%string))
          then Fail (ErrMsg "parent type suport <tcp|tls|stcp|kcp|ssh>")
          else if negb (bool_decide (LbMethod c ∈ Methods std_registry))
          then Fail (ErrMsg "load balance method should be oneof <%s>")
          else if is_ssh c then fail_if (ssh k)
          else Ok tt
        else Ok tt);
   _ ← (if bool_decide (LocalType c = lit "tls") || (bool_decide (ParentType c = lit "tls") && parents) then
          if bool_decide (CertFile c = []) || bool_decide (KeyFile c = [])
          then Fail (ErrMsg "cert file and key file required")
          else
            _ ← fail_if (cert k);
            if negb (bool_decide (CaCertFile c = [])) then fail_if (ca k) else Ok tt
        else Ok tt);
   _ ← (if negb (bool_decide (RateLimit c = lit "0")) && negb (bool_decide (RateLimit c = []))
        then fail_if (rate k) else Ok tt);
   if negb (bool_decide (RawProxyURL c = [])) then
     if negb (bool_decide (ParentType c ∈ map lit ["tls"; "tcp"]%string))
     then Fail (ErrMsg "proxyURL only support one of <tls|tcp> but %s")
     else fail_if (proxy k)
   else Ok tt, c).

(** [InitService]: the authentication center with the error of its file, the
    resolver, the two tables, the random numbers of the first selection and the
    ssh connection are inputs. *)
Record resources := mkResources {
  resolver_of : bytes -> R;
  auth_of : option R -> option C * option error;
  proxyFile : option (outcome bytes); directFile : option (outcome bytes);
  filter_opts : list Filter.Option;
  rnd0 : nat -> Z;
  dialSSH : bytes -> outcome unit;
}.

Definition InitService (k : resources) : io HTTP unit :=
  c ← io_gets cfg;
  (if negb (bool_decide (DNSAddr c = [])) then io_modify (set_resolver (Some (resolver_of k (DNSAddr c))))
   else mret tt);;
  resolver ← io_gets domainResolver;
  let '(center, err) := auth_of k resolver in
  io_modify (set_auth center);;
  match err with
  | Some e => io_fail (ErrWrap "load auth-file failed, %v" e)
  | None =>
      err ← (if 0 <? len (Parent c) then
               let '(r, f) := load_tables (proxyFile k) (directFile k)
                                (Filter.New (Intelligent c) (filter_opts k)) in
               io_modify (set_filters (Some f));;
               err ← io_lift r;
               b ← io_lift (new_lb std_registry (LbMethod c) (LbTimes c).1 (LbTimes c).2 (Debug c)
                              resolver (Parent c));
               io_modify (set_lb (Some b));; mret err
             else mret None);
      (if is_ssh c then fun s =>
         match lb s with
         | None => (Panic, s)
         | Some b =>
             let '(a, b) := Balanced_Select gcdx (rnd0 k) [] b in
             (a ← io_lift a;
              io_wrap "dial ssh fail, %s" (io_lift (dialSSH k (Resolve resolver a)));;
              io_modify (set_ssh (Some tt))) (set_lb (Some b) s)
         end
       else mret tt);;
      match err with Some e => io_fail e | None => mret tt end
  end.

(** [Stop] *)
Definition Stop : io HTTP unit := fun s =>
  let s := set_users (userConns s) (closed_ s ++ map inl (channels s)) s in
  let s := match lb s with Some b => set_lb (Some (Balanced_Close b)) s | None => s end in
  match (0 <? len (Parent (cfg s))), filters s with
  | true, None => (Panic, s)
  | _, _ =>
      match is_ssh (cfg s), sshClient s with
      | true, None => (Panic, s)
      | _, _ => (Ok tt, set_users (userConns s) (closed_ s ++ map inr (map_to_list (userConns s)).*2) s)
      end
  end.

(** The listeners of [Start] *)
Fixpoint listen_all (listen : bytes -> outcome unit) (addrs : list bytes) : io HTTP unit :=
  match addrs with
  | [] => mret tt
  | addr :: rest =>
      (if bool_decide (addr = []) then mret tt
       else io_lift (listen addr);; io_modify (fun s => set_channels (channels s ++ [addr]) s));;
      listen_all listen rest
  end.

Definition Start_body (ck : checks) (k : resources) (listen : bytes -> outcome unit) : io HTTP unit :=
  (fun s => let '(o, c) := inspectConfig ck (cfg s) in (o, set_cfg c s));;
  InitService k;;
  c ← io_gets cfg;
  listen_all listen (Split (Local c) (lit ",")).

(** [Start]: the deferred function stops the service on an error. *)
Definition Start (ck : checks) (k : resources) (listen : bytes -> outcome unit) : io HTTP unit := fun s =>
  match Start_body ck k listen s with
  | (Fail e, s) => (Stop;; io_fail e) s
  | r => r
  end.

End HTTP.
Arguments HTTP : clear implicits.
Arguments hstate : clear implicits.

(** * Laws of a connection *)
Section Handle_laws.
Context {R : Type} `{!NameResolver R} {M : Type -> Type} `{!ConcurrentMap M} {HC : HostClass}.
Context {C : Type} `{!Authenticator C}.
Context (gcdx : Z -> Z -> Z) (url_host : bytes -> option bytes) (rune_cap : Z -> Z).
Implicit Types (s : hstate R M C).

(** Decoding a request consumes one segment and sends nothing. *)
Lemma decode_conn (remote local : bytes) (n : nat) (center : option C) (c c' : conn) (req : Request C) :
  Httpc.New url_host rune_cap remote local n center c = (Ok req, c') ->
  exists r0, Read n (rx c) = (Ok (RawHeader req), r0) /\ c' = mkConn r0 (tx c) (wres c) (closed c).
Proof.
  intros H. apply New_authorised_inv in H as (r0 & req0 & s0 & Hr & -> & _ & Hc & _ & _ & _ & Hb & _).
  exists r0. split; [done|]. destruct center as [ct|].
  - by eapply BasicAuth_inv in Hb as (up & _ & _ & ->).
  - unfold BasicAuth in Hb. rewrite Hc in Hb. by injection Hb as <-.
Qed.

(** What a dial of a retry leaves: nothing when it failed, its connection and its
    address otherwise.  The rest of the state is the balancer's. *)
Record dial_step (s s' : hstate R M C) : Prop := {
  ds_in : inConn s' = inConn s;
  ds_cfg : cfg (srv s') = cfg (srv s);
  ds_center : basicAuthCenter (srv s') = basicAuthCenter (srv s);
  ds_resolver : domainResolver (srv s') = domainResolver (srv s);
  ds_users : userConns (srv s') = userConns (srv s) /\ closed_ (srv s') = closed_ (srv s);
}.

#[export] Instance dial_step_preorder : PreOrder dial_step.
Proof.
  split; [by intros s|]. intros s1 s2 s3 [] []. split; [congruence..|].
  destruct ds_users0, ds_users1. split; congruence.
Qed.

Lemma dial_step_lb {A} (m : io (Balanced R) A) s o s' :
  on_lb m s = (o, s') ->
  dial_step s s' /\ targetConn s' = targetConn s /\ dialed s' = dialed s /\ filters (srv s') = filters (srv s).
Proof.
  unfold on_lb. destruct (lb (srv s)) as [b|]; [|by intros [= <- <-]].
  destruct (m b) as [x b']. by intros [= <- <-].
Qed.

Lemma dial_step_filters {A} (m : io (Filter M) A) s o s' :
  on_filters m s = (o, s') ->
  dial_step s s' /\ targetConn s' = targetConn s /\ dialed s' = dialed s /\ lb (srv s') = lb (srv s).
Proof.
  unfold on_filters. destruct (filters (srv s)) as [b|]; [|by intros [= <- <-]].
  destruct (m b) as [x b']. by intros [= <- <-].
Qed.

(** A type of parent [dialParent] knows *)
Definition known_parent (c : Config) : Prop :=
  ParentType c ∈ map lit ["tcp"; "tls"; "stcp"; "kcp"; "ssh"]%string.

Lemma dialParent_run (address : bytes) (result : outcome conn) s :
  dialParent address result s =
    if bool_decide (known_parent (cfg (srv s))) then
      let s1 := mkH (srv s) (inConn s) (targetConn s) (dialed s ++ [DialParent address]) in
      match result with
      | Ok t => (Ok tt, mkH (srv s) (inConn s) (Some t) (dialed s ++ [DialParent address]))
      | Fail e => (Fail e, s1)
      | Panic => (Panic, s1)
      end
    else (Ok tt, mkH (srv s) (inConn s) None (dialed s)).
Proof.
  unfold dialParent, gets_srv, mbind, io_bind, io_gets. cbv beta iota. unfold known_parent.
  destruct (bool_decide _); [|done]. by destruct result.
Qed.

(** The retries end with a connection of one of the attempts, dialed last at the
    address they return, or with the target itself through ssh. *)
Lemma dial_retry_inv (attempts : list ((nat -> Z) * outcome conn)) (n : nat)
    (srcAddr target lbAddr : bytes) s o s' :
  dial_retry gcdx n attempts srcAddr target lbAddr s = (o, s') ->
  dial_step s s' /\
  (targetConn s' = targetConn s \/ targetConn s' = None \/
   exists rnd t, (rnd, Ok t) ∈ attempts /\ targetConn s' = Some t) /\
  forall a, o = Ok a -> targetConn s' = None \/
    exists rnd t, (rnd, Ok t) ∈ attempts /\ targetConn s' = Some t /\
      last (dialed s') = Some (DialParent (if is_ssh (cfg (srv s)) then target else a)).
Proof.
  revert n lbAddr s. induction attempts as [|[rnd result] rest IH]; intros n lbAddr s H.
  { cbn in H. injection H as <- <-. split_and!; [done|by left|done]. }
  cbn [dial_retry] in H. unfold gets_srv in H. rewrite bind_gets in H.
  set (c := cfg (srv s)) in *.
  destruct ((if is_ssh c then mret lbAddr
             else on_lb (Balanced_Select gcdx rnd (select_addr (LbMethod c) (HashTarget c) srcAddr target))) s)
    as [sel s1] eqn:Es.
  assert (Hs1 : dial_step s s1 /\ targetConn s1 = targetConn s).
  { destruct (is_ssh c); [by injection Es as <- <-|]. apply dial_step_lb in Es as (? & ? & _). done. }
  destruct Hs1 as [Hd1 Ht1].
  destruct sel as [a1|e|].
  2: { erewrite bind_fail in H by exact Es. injection H as <- <-. split_and!; [done|by left|done]. }
  2: { erewrite bind_panic in H by exact Es. injection H as <- <-. split_and!; [done|by left|done]. }
  erewrite bind_ok in H by exact Es. unfold io_try in H. unfold mbind, io_bind in H.
  rewrite dialParent_run in H. rewrite (ds_cfg _ _ Hd1) in H. fold c in H.
  set (addr := if is_ssh c then target else a1) in *.
  case_bool_decide as Hk.
  2: { injection H as <- <-. split_and!; [by destruct Hd1; split|right; by left|]. intros a _. by left. }
  destruct result as [t|e|].
  - injection H as <- <-. split_and!.
    + by destruct Hd1; split.
    + right. right. exists rnd, t. split; [left|done].
    + intros a [= <-]. right. exists rnd, t. cbn [targetConn dialed]. rewrite last_snoc.
      split_and!; [left|done|done].
  - destruct n as [|n].
    + injection H as <- <-. split_and!; [by destruct Hd1; split|by left|done].
    + apply IH in H as (Hd & Ht & Ho). split_and!.
      * etransitivity; [|exact Hd]. by destruct Hd1; split.
      * cbn [targetConn] in Ht. destruct Ht as [Ht|[Ht|(r0 & t & Hin & Ht)]];
          [left; congruence|right; by left|right; right; exists r0, t; split; [by right|done]].
      * intros a Ha. destruct (Ho a Ha) as [|(r0 & t & Hin & Ht' & Hl)]; [by left|right].
        exists r0, t. split_and!; [by right|done|]. cbn [srv] in Hl. by rewrite (ds_cfg _ _ Hd1) in Hl.
  - injection H as <- <-. split_and!; [by destruct Hd1; split|by left|done].
Qed.

(** ** Shape of a run *)
Section Run.
Context (srcAddr localAddr : bytes) (me : nat) (now : Z).
Context (lookup : bytes -> outcome (list IP)) (system : outcome (list IP)).
Context (attempts : list ((nat -> Z) * outcome conn)) (direct : outcome conn).

(** A connection the dials of a run offer *)
Definition offered (p : bool) (t : conn) : Prop :=
  if p then exists rnd, (rnd, Ok t) ∈ attempts else direct = Ok t.

(** The dial that makes a run's connection *)
Definition last_dial (s : hstate R M C) (target a : bytes) (p : bool) : dial :=
  let c := cfg (srv s) in
  if p then DialParent (if is_ssh c then target else a)
  else DialDirect (Resolve (domainResolver (srv s)) target)
         (if BindListen c && negb (IsIntranet (host_of localAddr))
          then Some (host_of localAddr ++ lit ":0") else None).

Lemma dial_phase (p : bool) (target : bytes) s o s' :
  (if p then dial_retry gcdx 5 attempts srcAddr target []
   else dialDirect (Resolve (domainResolver (srv s)) target) localAddr direct;; mret []) s = (o, s') ->
  dial_step s s' /\
  (targetConn s' = targetConn s \/ targetConn s' = None \/
   exists t, offered p t /\ targetConn s' = Some t) /\
  forall a, o = Ok a -> targetConn s' = None \/
    exists t, offered p t /\ targetConn s' = Some t /\
      last (dialed s') = Some (last_dial s target a p).
Proof.
  destruct p; unfold offered, last_dial.
  - intros Hr. apply dial_retry_inv in Hr as (Hd & Ht & Ho). split_and!; [done| |].
    + destruct Ht as [|[|(rnd & t & Hin & Ht)]]; [by left|right; by left|right; right].
      exists t. split; [by exists rnd|done].
    + intros a Ha. destruct (Ho a Ha) as [|(rnd & t & Hin & Ht' & Hl)]; [by left|right].
      exists t. split_and!; [by exists rnd|done..].
  - unfold dialDirect, gets_srv, log_dial, set_target, mbind, io_bind, io_gets, io_modify, io_lift.
    cbv beta iota zeta.
    destruct direct as [t|e|]; intros [= <- <-]; cbn; (split; [done|]); split;
      [right; right; by exists t| |by left|done|by left|done].
    intros a [= <-]. right. exists t. split_and!; [done..|]. by rewrite last_snoc.
Qed.

(** Whatever happened, the target connection of [s'] is an offered one that is
    as closed as it was. *)
Definition untouched (p : bool) (s' : hstate R M C) : Prop :=
  targetConn s' = None \/
  exists t0 t, offered p t0 /\ targetConn s' = Some t /\ closed t = closed t0.

Lemma forward_untouched (p : bool) (req : Request C) s o s' :
  forward req p s = (o, s') -> untouched p s -> untouched p s' /\ srv s' = srv s /\ dialed s' = dialed s.
Proof.
  unfold forward, gets_srv. rewrite bind_gets. cbv zeta.
  destruct (_ && _).
  - unfold on_in. destruct (HTTPSReply (inConn s)) as [x c']. by intros [= <- <-].
  - unfold on_target. destruct (targetConn s) as [t|] eqn:Et; [|by intros [= <- <-]].
    match goal with |- context [Write ?b t] => set (bs := b) end.
    destruct (Write bs t) as [x t'] eqn:Ew. intros [= <- <-] [Hn|(t0 & t1 & Hoff & Ht & Hc)]; [congruence|].
    split; [|done]. right. exists t0, t'. split_and!; [done..|].
    assert (t1 = t) by congruence. subst t1. rewrite <- Hc. unfold Write in Ew.
    by destruct (wres t) as [|[e|] l]; injection Ew as <- <-.
Qed.

Definition joined_facts (req : Request C) (c1 : conn) (p : bool) (a : bytes) s s' : Prop :=
  exists t0 t, offered p t0 /\ targetConn s' = Some t /\
    last (dialed s') = Some (last_dial s (Host req) a p) /\
    if IsHTTPS req && (negb p || is_ssh (cfg (srv s))) then
      HTTPSReply c1 = (Ok tt, inConn s') /\ t = t0
    else
      inConn s' = c1 /\
      Write (if (negb p || is_ssh (cfg (srv s))) && negb (IsSNI req)
             then RemoveProxyHeaders (RawHeader req) else RawHeader req) t0 = (Ok tt, t).

Lemma join_phase (p : bool) (req : Request C) (a : bytes) s o s' :
  (w ← io_try (forward req p);
   match w with
   | inr e => mret (NotForwarded e)
   | inl _ =>
       on_target (mret tt);;
       on_srv (upsert_user srcAddr me);;
       count_conn Balanced_ConnsIncrease a;;
       mret (Joined p a)
   end) s = (o, s') ->
  untouched p s ->
  untouched p s' /\ dialed s' = dialed s /\
  forall p' a', o = Ok (Joined p' a') -> p' = p /\ a' = a /\
    exists s1, forward req p s = (Ok tt, s1) /\ inConn s' = inConn s1 /\
      targetConn s' = targetConn s1 /\ is_Some (targetConn s') /\
      userConns (srv s') !! srcAddr = Some me.
Proof.
  intros Hr Hu. unfold io_try in Hr. unfold mbind at 1, io_bind at 1 in Hr.
  destruct (forward req p s) as [w s1] eqn:Ef.
  destruct (forward_untouched p req s w s1 Ef Hu) as (Hu1 & Hs1 & Hd1).
  destruct w as [[]|e|]; [|by injection Hr as <- <-; split_and!..].
  unfold on_target in Hr. unfold mbind at 1, io_bind at 1 in Hr.
  destruct (targetConn s1) as [t|] eqn:Et; [|by injection Hr as <- <-; split_and!].
  unfold on_srv in Hr. cbn [srv inConn dialed targetConn mret io_ret] in Hr. rewrite bind_modify in Hr.
  cbn [srv inConn dialed targetConn] in Hr. unfold count_conn, gets_srv in Hr.
  unfold mbind at 1, io_bind at 1 in Hr. rewrite bind_gets in Hr. cbn [srv cfg upsert_user set_users] in Hr.
  assert (Hsame : forall s2, inConn s2 = inConn s1 -> targetConn s2 = Some t -> dialed s2 = dialed s1 ->
    untouched p s2 /\ dialed s2 = dialed s).
  { intros s2 _ Ht2 Hd2. split; [|congruence]. unfold untouched. rewrite Ht2, <- Et. exact Hu1. }
  destruct (0 <? len (Parent (cfg (srv s1)))).
  - destruct (on_lb _ _) as [x s2] eqn:El.
    apply dial_step_lb in El as (Hds & Ht2 & Hd2 & _). cbn in Ht2, Hd2.
    destruct (Hsame s2) as [Hu2 Hdd]; [apply (ds_in _ _ Hds)|done|done|].
    destruct x as [[]|e|]; injection Hr as <- <-; split_and!; try done.
    intros p' a' [= <- <-]. split_and!; [done..|]. exists s1. split_and!; [done|apply (ds_in _ _ Hds)|congruence|by eexists|].
    rewrite (proj1 (ds_users _ _ Hds)). apply lookup_insert_eq.
  - cbn in Hr. injection Hr as <- <-.
    destruct (Hsame (mkH (upsert_user srcAddr me (srv s1)) (inConn s1) (Some t) (dialed s1))) as [Hu2 Hdd];
      [done..|]. split_and!; [done..|].
    intros p' a' [= <- <-]. split_and!; [done..|]. exists s1. split_and!; [done..|by eexists|]. apply lookup_insert_eq.
Qed.

(** What a run of [handle_body] is made of *)
Lemma handle_body_cases s o s' :
  targetConn s = None -> dialed s = [] ->
  handle_body gcdx url_host rune_cap srcAddr localAddr me now lookup system attempts direct s = (o, s') ->
  (dialed s' = [] /\ targetConn s' = None /\ forall p a, o <> Ok (Joined p a)) \/
  exists req c1 p,
    Httpc.New url_host rune_cap srcAddr localAddr 4096 (basicAuthCenter (srv s)) (inConn s) = (Ok req, c1) /\
    IsDeadLoop (DNSAddr (cfg (srv s))) (domainResolver (srv s)) (LocalIPS (cfg (srv s)))
      lookup system localAddr (Host req) = false /\
    untouched p s' /\
    forall p' a, o = Ok (Joined p' a) -> p' = p /\ userConns (srv s') !! srcAddr = Some me /\
      joined_facts req c1 p a s s'.
Proof.
  intros Ht0 Hd0 Hr. unfold handle_body, gets_srv in Hr. rewrite bind_gets in Hr.
  set (m := io_try (on_in _)) in Hr. destruct (m s) as [r s0] eqn:Em.
  unfold m, io_try, on_in in Em.
  destruct (Httpc.New _ _ _ _ _ _ (inConn s)) as [[req|e|] c1] eqn:En; injection Em as <- <-.
  3: { erewrite bind_panic in Hr by (unfold m, io_try, on_in; by rewrite En). left.
       injection Hr as <- <-. split_and!; naive_solver. }
  2: { erewrite bind_ok in Hr by (unfold m, io_try, on_in; by rewrite En). left.
       injection Hr as <- <-. split_and!; naive_solver. }
  erewrite bind_ok in Hr by (unfold m, io_try, on_in; by rewrite En). cbn beta iota in Hr. clear m.
  rewrite !bind_gets in Hr. cbn [srv] in Hr. cbv zeta in Hr.
  destruct (IsDeadLoop _ _ _ _ _ _ _) eqn:Edl; [left; unfold mret, io_ret in Hr; injection Hr as <- <-; split_and!; naive_solver|].
  set (s1 := mkH (srv s) c1 (targetConn s) (dialed s)) in *.
  destruct ((if 0 <? len (Parent (cfg (srv s)))
             then on_filters (http_isUseProxy (Parent (cfg (srv s))) (Always (cfg (srv s))) now
                    (domainResolver (srv s)) (Host req))
             else mret false) s1) as [up s2] eqn:Eu.
  assert (H2 : dial_step s1 s2 /\ targetConn s2 = None /\ dialed s2 = []).
  { destruct (0 <? _); [|by injection Eu as <- <-].
    apply dial_step_filters in Eu as (? & Ht & Hd & _). split_and!; [done|by rewrite Ht|by rewrite Hd]. }
  destruct H2 as (Hs2 & Ht2 & Hd2).
  destruct up as [p|e|].
  2: { erewrite bind_fail in Hr by exact Eu. left. injection Hr as <- <-. split_and!; naive_solver. }
  2: { erewrite bind_panic in Hr by exact Eu. left. injection Hr as <- <-. split_and!; naive_solver. }
  erewrite bind_ok in Hr by exact Eu. clear Eu.
  right. exists req, c1, p. split; [done|]. split; [done|].
  pose proof (ds_resolver _ _ Hs2) as Er. cbn [srv s1] in Er. rewrite <- Er in Hr.
  set (m := (if p then _ else _)) in Hr.
  destruct (m s2) as [od s3] eqn:Ed.
  assert (Hm : io_try m s2 = (match od with Ok a => Ok (inl a) | Fail e => Ok (inr e) | Panic => Panic end, s3)).
  { unfold io_try. rewrite Ed. by destruct od. }
  apply dial_phase in Ed as (Hs3 & Hu3 & Hok).
  assert (Hun : untouched p s3).
  { destruct Hu3 as [Hu|[Hu|(t & Hoff & Hu)]]; [left; congruence|by left|right]. by exists t, t. }
  destruct od as [a|e|].
  2: { erewrite bind_ok in Hr by exact Hm. injection Hr as <- <-. split; [done|naive_solver]. }
  2: { erewrite bind_panic in Hr by exact Hm. injection Hr as <- <-. split; [done|naive_solver]. }
  erewrite bind_ok in Hr by exact Hm. cbn beta iota in Hr.
  apply join_phase in Hr as (Hu' & Hd' & Hj); [|done]. split; [done|].
  intros p' a' Ho. destruct (Hj p' a' Ho) as (-> & -> & s4 & Hf & Hin & Htg & Hsome & Hus).
  split; [done|]. split; [done|].
  assert (Hcfg : cfg (srv s3) = cfg (srv s)) by (rewrite (ds_cfg _ _ Hs3), (ds_cfg _ _ Hs2); done).
  assert (Hc1 : inConn s3 = c1) by (rewrite (ds_in _ _ Hs3), (ds_in _ _ Hs2); done).
  assert (Hld : last_dial s2 (Host req) a p = last_dial s (Host req) a p).
  { unfold last_dial. by rewrite (ds_cfg _ _ Hs2), (ds_resolver _ _ Hs2). }
  unfold forward, gets_srv in Hf. rewrite bind_gets in Hf. cbv zeta in Hf. rewrite Hcfg in Hf.
  destruct (Hok a eq_refl) as [Hnone|(t0 & Hoff & Ht3 & Hlast)].
  - exfalso. destruct (IsHTTPS req && _).
    + unfold on_in in Hf. destruct (HTTPSReply _) as [x y]. injection Hf as Hx <-.
      cbn in Htg. rewrite Htg, Hnone in Hsome. by destruct Hsome.
    + unfold on_target in Hf. by rewrite Hnone in Hf.
  - unfold joined_facts. rewrite <- Hd', Hld in *. destruct (IsHTTPS req && _).
    + unfold on_in in Hf. destruct (HTTPSReply (inConn s3)) as [x y] eqn:Ey. injection Hf as -> <-.
      exists t0, t0. cbn in Htg, Hin. split_and!; [done|congruence|done|congruence|done].
    + unfold on_target in Hf. rewrite Ht3 in Hf.
      destruct (Write _ t0) as [x t] eqn:Ew. injection Hf as -> <-.
      exists t0, t. cbn in Htg, Hin. split_and!; [done|done|done|congruence|done].
Qed.

(** The state when [handle] is over, its deferred functions included *)
Definition over (o : outcome ended) (s : hstate R M C) : hstate R M C :=
  match o with Ok (Joined _ a) => (handle_done srcAddr a s).2 | _ => s end.

Lemma over_state (o : outcome ended) s :
  inConn (over o s) = (match o with Ok (Joined _ _) => (Close (inConn s)).2 | _ => inConn s end) /\
  targetConn (over o s) = targetConn s.
Proof.
  destruct o as [[e| |e|e|p a]|e|]; try done. cbn [over]. unfold handle_done, on_srv.
  rewrite bind_modify. unfold count_conn, gets_srv. rewrite bind_gets. cbv zeta. cbn [srv cfg set_users].
  destruct (0 <? _).
  - unfold on_lb. cbn [srv lb set_users]. destruct (lb (srv s)); done.
  - done.
Qed.

Lemma handle_body_handle s o s' :
  handle gcdx url_host rune_cap srcAddr localAddr me now lookup system attempts direct s = (o, s') ->
  exists s1, handle_body gcdx url_host rune_cap srcAddr localAddr me now lookup system attempts direct s
      = (o, s1) /\ targetConn s' = targetConn s1 /\ dialed s' = dialed s1 /\
    match o with
    | Ok (Joined _ _) => s' = s1
    | _ => inConn s' = (Close (inConn s1)).2
    end.
Proof.
  unfold handle. destruct (handle_body _ _ _ _ _ _ _ _ _ _ _ s) as [[[e| |e|e|p a]|e|] s1];
    intros [= <- <-]; exists s1; done.
Qed.
End Run.
End Handle_laws.

(** * Properties *)
Section Properties.
Context {R : Type} `{!NameResolver R} {M : Type -> Type} `{!ConcurrentMap M} {HC : HostClass}.
Context {C : Type} `{!Authenticator C}.
Context (gcdx : Z -> Z -> Z) (url_host : bytes -> option bytes) (rune_cap : Z -> Z).
Context (srcAddr localAddr : bytes) (me : nat) (now : Z).
Context (lookup : bytes -> outcome (list IP)) (system : outcome (list IP)).
Context (attempts : list ((nat -> Z) * outcome conn)) (direct : outcome conn).
Implicit Types (s : hstate R M C).

(** C3: no unauthorised request reaches the network.  With an authentication
    center the proxy dials, a parent or the target, only for a client whose first
    segment carried credentials that the center accepted for the peer and the
    local host. *)
Theorem dials_authorised (c : C) s o s' :
  basicAuthCenter (srv s) = Some c -> targetConn s = None -> dialed s = [] ->
  handle gcdx url_host rune_cap srcAddr localAddr me now lookup system attempts direct s = (o, s') ->
  dialed s' <> [] ->
  exists raw r0 up target, Read 4096 (rx (inConn s)) = (Ok raw, r0) /\
    credentials raw = Some up /\
    auth_verify c up (host_part srcAddr) (host_part localAddr) target = true.
Proof.
  intros Hc Ht Hd Hr Hne. apply handle_body_handle in Hr as (s1 & Hr & _ & Hd' & _).
  apply handle_body_cases in Hr as [(Hd1 & _)|(req & c1 & p & Hn & _)]; [congruence| |done|done].
  rewrite Hc in Hn. apply New_authorised_inv in Hn as (r0 & req0 & s0 & Hr & -> & Hraw & Hc0 & _ & _ & _ & Hb & _).
  eapply BasicAuth_inv in Hb as (up & Hp & Hv & _); [|done].
  exists (RawHeader req), r0, up, (auth_target req0). split_and!; [done|by rewrite <- Hraw|done].
Qed.

(** C4: what reaches the two ends.  When the connections are joined, the last
    dial was to the balanced parent, to the target through ssh, or directly to the
    resolved target; a CONNECT that goes direct or through ssh is answered to the
    client and sends the target nothing; every other request sends the target its
    first segment and the client nothing, without its proxy headers when it goes
    direct or through ssh and is no TLS hello, as it is otherwise. *)
Theorem joins s p a s' :
  targetConn s = None -> dialed s = [] ->
  handle gcdx url_host rune_cap srcAddr localAddr me now lookup system attempts direct s =
    (Ok (Joined p a), s') ->
  exists req r0 t0 t,
    Httpc.New url_host rune_cap srcAddr localAddr 4096 (basicAuthCenter (srv s)) (inConn s) =
      (Ok req, mkConn r0 (tx (inConn s)) (wres (inConn s)) (closed (inConn s))) /\
    (if p then exists rnd, (rnd, Ok t0) ∈ attempts else direct = Ok t0) /\
    targetConn s' = Some t /\ userConns (srv s') !! srcAddr = Some me /\
    last (dialed s') = Some (last_dial localAddr s (Host req) a p) /\
    let c1 := mkConn r0 (tx (inConn s)) (wres (inConn s)) (closed (inConn s)) in
    let through := negb p || is_ssh (cfg (srv s)) in
    if IsHTTPS req && through then
      HTTPSReply c1 = (Ok tt, inConn s') /\ t = t0
    else
      inConn s' = c1 /\
      Write (if through && negb (IsSNI req) then RemoveProxyHeaders (RawHeader req)
             else RawHeader req) t0 = (Ok tt, t).
Proof.
  intros Ht Hd Hr. apply handle_body_handle in Hr as (s1 & Hr & _ & _ & ->).
  apply handle_body_cases in Hr as [(_ & _ & Hno)|(req & c1 & p' & Hn & _ & _ & Hj)]; [| |done|done].
  { by destruct (Hno p a). }
  destruct (Hj p a eq_refl) as (-> & Hus & t0 & t & Hoff & Ht1 & Hl & Hio).
  pose proof Hn as Hc. apply decode_conn in Hc as (r0 & _ & ->).
  exists req, r0, t0, t. split_and!; done.
Qed.

(** The target connection is never closed.  When a handler is over, its
    deferred functions included, the client's connection is closed, and a
    connection it dialed is as open as the dial left it, also when the request
    could not be forwarded on it. *)
Theorem target_left_open s o s' :
  (forall p t, offered attempts direct p t -> closed t = false) ->
  targetConn s = None -> dialed s = [] ->
  handle gcdx url_host rune_cap srcAddr localAddr me now lookup system attempts direct s = (o, s') ->
  closed (inConn (over srcAddr o s')) = true /\
  (forall t, targetConn (over srcAddr o s') = Some t -> closed t = false) /\
  forall p a, o = Ok (Joined p a) -> is_Some (targetConn (over srcAddr o s')).
Proof.
  intros Hop Ht Hd Hr. apply handle_body_handle in Hr as (s1 & Hr & Htg & _ & Hin).
  destruct (over_state srcAddr o s') as [Hi Ho]. rewrite Hi, Ho. split_and!.
  - destruct o as [[e| |e|e|p a]|e|]; first [by rewrite Hin|done].
  - intros t Hts. apply handle_body_cases in Hr as [(_ & Hn & _)|(req & c1 & p & _ & _ & Hu & _)];
      [congruence| |done|done].
    destruct Hu as [Hn|(t0 & t' & Hoff & Ht' & Hc)]; [congruence|].
    assert (t' = t) by congruence. subst. rewrite Hc. by eapply Hop.
  - intros p a ->. apply handle_body_cases in Hr as [(_ & _ & Hno)|(req & c1 & p' & _ & _ & _ & Hj)];
      [by destruct (Hno p a)| |done|done].
    destruct (Hj p a eq_refl) as (_ & _ & t0 & t & _ & Ht1 & _). rewrite Htg, Ht1. by eexists.
Qed.
End Properties.

(** * Starting *)
Section Start_laws.
Context {R : Type} `{!NameResolver R} {M : Type -> Type} `{!ConcurrentMap M}.
Context {C : Type} (gcdx : Z -> Z -> Z).
Implicit Types (s : HTTP R M C).

Lemma Stop_channels s s' : Stop s = (Ok tt, s') -> forall a, a ∈ channels s' -> inl a ∈ closed_ s'.
Proof.
  intros Hs. assert (E : channels s' = channels s /\
    exists l, closed_ s' = (closed_ s ++ map inl (channels s)) ++ l).
  { revert Hs. unfold Stop. cbn [cfg channels closed_ userConns lb filters sshClient set_users].
    destruct (lb s); cbn [cfg channels closed_ userConns lb filters sshClient set_users set_lb];
      destruct (0 <? len (Parent (cfg s))), (filters s), (is_ssh (cfg s)), (sshClient s); intros [= <-]; (split; [done|]);
      by eexists. }
  destruct E as [-> [l ->]]. intros a Ha. apply elem_of_app. left. apply elem_of_app. right.
  apply list_elem_of_fmap. by exists a.
Qed.

Lemma Stop_panics s :
  filters s = None -> sshClient s = None ->
  (Stop s).1 = if (0 <? len (Parent (cfg s))) || is_ssh (cfg s) then Panic else Ok tt.
Proof.
  intros Hf Hs. destruct s. cbn in *. subst. unfold Stop. cbn.
  destruct lb0; cbn; by destruct (0 <? len (Parent cfg0)), (is_ssh cfg0).
Qed.

(** The tables of the filter, and the error that stays *)
Lemma load_tables_run (pf df : option (outcome bytes)) (f : Filter M) :
  pf <> Some Panic -> df <> Some Panic ->
  exists f', load_tables pf df f = (Ok (match df with Some (Fail e) => Some e | _ => None end), f').
Proof.
  intros Hp Hd. unfold load_tables, LoadProxyFile, LoadDirectFile, loadfile2ConcurrentMap, io_try,
    mbind, io_bind.
  destruct pf as [[pc|e|]|]; try done; [destruct (fold_left _ _ _)| |];
    (destruct df as [[dc|e'|]|]; try done; [destruct (fold_left _ _ _)| |]); by eexists.
Qed.
End Start_laws.

Section Start_properties.
Context {R : Type} `{!NameResolver R} {M : Type -> Type} `{!ConcurrentMap M}.
Context {C : Type} (gcdx : Z -> Z -> Z).

(** A service that cannot start does not always say so.  An error [Start]
    returns leaves none of its listeners open.  But a configuration it rejects
    makes it panic, in the [Stop] it defers, whenever a parent is configured or the
    parent is of type ssh; only otherwise is the error returned. *)
Theorem Start_fails (ck : checks) (k : resources) (listen : bytes -> outcome unit) (c0 : Config)
    (o : outcome unit) (s' : HTTP R M C) :
  Start gcdx ck k listen (New c0) = (o, s') ->
  (forall e, o = Fail e -> forall a, a ∈ channels s' -> inl a ∈ closed_ s') /\
  forall e c, inspectConfig ck c0 = (Fail e, c) ->
    o = if (0 <? len (Parent c)) || is_ssh c then Panic else Fail e.
Proof.
  intros Hr. split.
  - intros e ->. unfold Start in Hr. destruct (Start_body _ _ _ _ _) as [[[]|e'|] s1]; try done.
    unfold mbind, io_bind in Hr. destruct (Stop s1) as [[[]|e2|] s2] eqn:Es; try done.
    + injection Hr as <- <-. by eapply Stop_channels.
    + exfalso. clear Hr. destruct s1. unfold Stop in Es.
      destruct lb0; cbn in Es;
        by destruct (0 <? len (Parent cfg0)), filters0, (is_ssh cfg0), sshClient0.
  - intros e c Hi. unfold Start, Start_body in Hr. unfold mbind at 1, io_bind at 1 in Hr.
    cbn [cfg New] in Hr. rewrite Hi in Hr. unfold mbind, io_bind in Hr.
    pose proof (Stop_panics (set_cfg c (New (M := M) (R := R) (C := C) c0)) eq_refl eq_refl) as Hs.
    destruct (Stop _) as [x s2]. cbn [fst cfg set_cfg] in Hs. subst x.
    by destruct (_ || _); injection Hr as <- <-.
Qed.

(** An unreadable direct table stops the service, an unreadable proxy table
    does not.  With parents, no ssh and an authentication that loads, [InitService]
    sets up the filter and the balancer and then returns the error of the direct
    table, which it has only logged, and no other. *)
Theorem InitService_tables (k : resources) (s : HTTP R M C) :
  Parent (cfg s) <> [] -> is_ssh (cfg s) = false ->
  (forall d, (auth_of k d).2 = None) ->
  proxyFile k <> Some Panic -> directFile k <> Some Panic ->
  exists s', InitService gcdx k s =
      (match directFile k with Some (Fail e) => Fail e | _ => Ok tt end, s') /\
    is_Some (filters s') /\ is_Some (lb s').
Proof.
  intros Hp Hssh Ha Hpf Hdf. unfold InitService. rewrite bind_gets.
  set (s0 := if negb (bool_decide (DNSAddr (cfg s) = []))
             then set_resolver (Some (resolver_of k (DNSAddr (cfg s)))) s else s).
  rewrite (bind_ok _ _ s s0 tt).
  2: { unfold s0. by destruct (negb _). }
  rewrite bind_gets. specialize (Ha (domainResolver s0)).
  destruct (auth_of k (domainResolver s0)) as [center err]. cbn [snd] in Ha. subst err. rewrite bind_modify.
  rewrite (proj2 (Z.ltb_lt 0 _)) by (destruct (Parent (cfg s)); [done|cbn [length]; lia]).
  destruct (load_tables_run (proxyFile k) (directFile k)
    (Filter.New (Intelligent (cfg s)) (filter_opts k)) Hpf Hdf) as [f Hf]. rewrite Hf.
  destruct (parent_configs_total (LbTimes (cfg s)).1 (LbTimes (cfg s)).2 (Parent (cfg s))) as (cs & Ecs & _).
  destruct (getNew_total (LbMethod (cfg s))) as (sel & Esel & _).
  assert (Hb : exists b, new_lb std_registry (LbMethod (cfg s)) (LbTimes (cfg s)).1 (LbTimes (cfg s)).2
    (Debug (cfg s)) (domainResolver s0) (Parent (cfg s)) = Ok b).
  { unfold new_lb. rewrite Ecs. unfold mbind, outcome_bind at 1, LoadBalance.New. rewrite Esel. by eexists. }
  destruct Hb as [b Hb]. rewrite Hb, Hssh.
  unfold mbind, io_bind, io_modify, io_lift, mret, io_ret. cbv beta iota.
  destruct (directFile k) as [[|e|]|]; try done; eexists; (split; [reflexivity|]); split; cbn; by eexists.
Qed.
End Start_properties.

(** * Examples *)

#[local] Instance one_pair : Authenticator bytes := fun c up _ _ _ => bool_decide (up = c).
#[local] Instance no_class : HostClass := {| IsDomain := fun _ => false; IsIntranet := fun _ => false |}.
#[local] Existing Instance no_view.

(** A service without parents, and one that forwards to a parent *)
Definition direct_cfg : Config :=
  mkConfig [] [] (lit "tcp") (lit ":28080") [] [] [] false [] [] [] (0, 0) false (lit "0") [] false false [].
Definition parent_cfg : Config :=
  mkConfig (lit "tcp") [lit "1.2.3.4:80"] (lit "tcp") (lit ":28080") [] [] [] false (lit "proxy") []
    (lit "roundrobin") (0, 0) false (lit "0") [] false false [].

(** A client that asks to be connected to a:443 *)
Definition sample_state : hstate unit (gmap bytes) bytes :=
  mkH (set_auth (Some (lit "u:p")) (New direct_cfg)) (conn_of [Seg sample_raw]) None [].

Definition sample_run : outcome ended * hstate unit (gmap bytes) bytes :=
  handle Z.gcd (fun _ => None) id (lit "10.0.0.9:5000") (lit "10.0.0.1:28080") 7 0
    (fun _ => Ok []) (Ok []) [] (Ok (conn_of [Seg (lit "hello")])) sample_state.

Lemma dials_authorised_witness :
  exists up, credentials sample_raw = Some up /\ up = lit "u:p".
Proof.
  assert (E : sample_run = (sample_run.1, sample_run.2)) by (vm_compute; reflexivity).
  destruct (dials_authorised Z.gcd (fun _ => None) id (lit "10.0.0.9:5000") (lit "10.0.0.1:28080") 7 0
    (fun _ => Ok []) (Ok []) [] (Ok (conn_of [Seg (lit "hello")])) (lit "u:p") sample_state
    sample_run.1 sample_run.2 eq_refl eq_refl eq_refl E) as (raw & r0 & up & target & Hr & Hc & Hv).
  { vm_compute. discriminate. }
  vm_compute in Hr. injection Hr as <- _. exists up. split; [exact Hc|].
  vm_compute in Hc. injection Hc as <-. reflexivity.
Defined.

Lemma joins_witness :
  exists t, targetConn sample_run.2 = Some t /\ tx t = [] /\ dialed sample_run.2 <> [].
Proof.
  assert (E : sample_run = (Ok (Joined false []), sample_run.2)) by (vm_compute; reflexivity).
  destruct (joins Z.gcd (fun _ => None) id (lit "10.0.0.9:5000") (lit "10.0.0.1:28080") 7 0
    (fun _ => Ok []) (Ok []) [] (Ok (conn_of [Seg (lit "hello")])) sample_state false []
    sample_run.2 eq_refl eq_refl E) as (req & r0 & t0 & t & Hn & Hoff & Ht & _ & Hl & Hio).
  exists t. split; [exact Ht|].
  assert (Em : IsHTTPS req = true).
  { vm_compute in Hn. injection Hn as <- _. vm_compute. reflexivity. }
  cbv zeta in Hio. rewrite Em in Hio. destruct Hio as [_ ->]. injection Hoff as <-.
  split; [reflexivity|]. intros H0. rewrite H0 in Hl. discriminate Hl.
Defined.

Lemma target_left_open_witness :
  exists t, targetConn (over (lit "10.0.0.9:5000") sample_run.1 sample_run.2) = Some t /\ closed t = false.
Proof.
  assert (E : sample_run = (sample_run.1, sample_run.2)) by (vm_compute; reflexivity).
  destruct (target_left_open Z.gcd (fun _ => None) id (lit "10.0.0.9:5000") (lit "10.0.0.1:28080") 7 0
    (fun _ => Ok []) (Ok []) [] (Ok (conn_of [Seg (lit "hello")])) sample_state
    sample_run.1 sample_run.2) as (_ & Ho & Hj); [|reflexivity|reflexivity|exact E|].
  { intros [] t; cbn; [intros (? & H0%not_elem_of_nil); destruct H0|intros [= <-]; reflexivity]. }
  destruct (Hj false []) as [t Ht]; [vm_compute; reflexivity|].
  exists t. split; [exact Ht|]. apply Ho, Ht.
Defined.

Definition no_errors : checks := mkChecks None None None None None.
Definition plain_resources (direct : option (outcome bytes)) : resources :=
  mkResources (fun _ => tt) (fun _ => (None : option bytes, None)) None direct [] (fun _ => 0) (fun _ => Ok tt).

(** A parent without a type makes [Start] panic. *)
Lemma Start_fails_witness :
  let bad := mkConfig [] [lit "1.2.3.4:80"] [] [] [] [] [] false [] [] [] (0, 0) false [] [] false false [] in
  (Start (M := gmap bytes) Z.gcd no_errors (plain_resources None) (fun _ => Ok tt) (New bad)).1 = Panic.
Proof.
  intros bad.
  destruct (Start (M := gmap bytes) Z.gcd no_errors (plain_resources None) (fun _ => Ok tt) (New bad))
    as [o s'] eqn:E.
  destruct (Start_fails Z.gcd _ _ _ _ _ _ E) as [_ Hp].
  cbn [fst]. rewrite (Hp (ErrMsg "parent type required for %s") bad); [reflexivity|].
  vm_compute. reflexivity.
Defined.

Lemma InitService_tables_witness :
  (InitService Z.gcd (plain_resources (Some (Fail (ErrMsg "is a directory"))))
     (New (M := gmap bytes) parent_cfg)).1 = Fail (ErrMsg "is a directory").
Proof.
  destruct (InitService_tables Z.gcd (plain_resources (Some (Fail (ErrMsg "is a directory"))))
    (New (M := gmap bytes) parent_cfg)) as (s' & E & _); [done|vm_compute; reflexivity|done..|].
  rewrite E. reflexivity.
Defined.
