(* ===== verification/SocksSvc.v ===== *)
(** services/socks: a CONNECT through the SOCKS5 service, the choice of
    credentials for the parent, the keys of the UDP relay, and the configuration.
    The SOCKS5 server and client of github.com/thinkgos/go-socks5 and
    golang.org/x/net/proxy, AES, MD5 and the dials are inputs; connections are
    seen behind their encryption and compression. *)
From S2P Require Import Prelude GoStrings GoNet GoIO Iface BasicAuth Outil Filter LoadBalance Route.
Open Scope Z_scope.

(** Reply codes of statute, and the bytes of [SendReply(w, rep, bindAddr)] *)
Definition RepSuccess : byte := z2b 0.
Definition RepNetworkUnreachable : byte := z2b 3.
Definition RepHostUnreachable : byte := z2b 4.
Definition RepConnectionRefused : byte := z2b 5.

Class Socks5Lib := {
  reply_bytes : byte -> option bytes -> bytes;
  Error_ : error -> bytes;     (** [err.Error()] *)
}.

Record Auth := mkAuth { User : bytes; Password : bytes }.

Record Config := mkConfig {
  ParentType : bytes; Parent : list bytes; ParentKey : bytes; ParentAuth : bytes;
  LocalType : bytes; LocalKey : bytes; CaCertFile : bytes; KcpKey : bytes;
  Always : bool; DNSAddr : bytes; LbMethod : bytes; HashTarget : bool;
  RateLimit : bytes; LocalIPS : list bytes; BindListen : bool;
}.

(** What [SOCKS5] hands to the connect handler *)
Record Request := mkRequest {
  RemoteAddr : bytes; LocalAddr : bytes; DestAddr : bytes; AuthPayload : Auth;
}.

Section Socks.
Context {R : Type} `{!NameResolver R} {M : Type -> Type} `{!ConcurrentMap M} {HC : HostClass}.
Context `{!Socks5Lib} `{!Crypto} (gcdx : Z -> Z -> Z).

Record Socks := mkSocks {
  cfg : Config;
  tlsKey : bytes;                        (** [cfg.tlsConfig.Key] *)
  parentAuth : option Auth;
  filters : option (Filter M);
  basicAuthCenter : option (Center M R);
  lb : option (Balanced R);
  domainResolver : option R;
  userConns : gmap bytes nat;
  closed_ : list nat;                    (** connections closed through the table *)
  udpLocalKey : bytes;
  udpParentKey : bytes;
}.

Definition set_filters f s := mkSocks (cfg s) (tlsKey s) (parentAuth s) f (basicAuthCenter s) (lb s)
  (domainResolver s) (userConns s) (closed_ s) (udpLocalKey s) (udpParentKey s).
Definition set_lb b s := mkSocks (cfg s) (tlsKey s) (parentAuth s) (filters s) (basicAuthCenter s) b
  (domainResolver s) (userConns s) (closed_ s) (udpLocalKey s) (udpParentKey s).
Definition set_users u l s := mkSocks (cfg s) (tlsKey s) (parentAuth s) (filters s) (basicAuthCenter s)
  (lb s) (domainResolver s) u l (udpLocalKey s) (udpParentKey s).

(** [New] *)
Definition New (cfg : Config) : Socks := mkSocks cfg [] None None None None None ∅ [] [] [].

(** * Credentials *)

(** [Credential.Valid] asks the table alone. *)
Definition Valid (center : Center M R) (user password : bytes) : bool :=
  VerifyFromLocal user password center.

(** [proxyAuth]: the credentials for the parent *)
Definition proxyAuth (auth : Auth) (fromSS : bool) (s : Socks) : option Auth :=
  match parentAuth s with
  | Some a => Some a
  | None =>
      if negb fromSS && (match basicAuthCenter s with Some _ => true | None => false end)
         && negb (bool_decide (User auth = [])) && negb (bool_decide (Password auth = []))
      then Some auth else None
  end.

(** * Keys of the UDP relay (udp.go) *)

(** [[]byte(v)[:24]] of the MD5 sum, and of the TLS key *)
Definition parentUDPKey (s : Socks) : outcome bytes :=
  let c := cfg s in
  if bool_decide (ParentType c = lit "tcp") || bool_decide (ParentType c = lit "stcp") then
    if negb (bool_decide (ParentKey c = [])) then slice (md5hex (ParentKey c)) 0 24 else Ok []
  else if bool_decide (ParentType c = lit "tls") then slice (tlsKey s) 0 24
  else if bool_decide (ParentType c = lit "kcp") then slice (md5hex (KcpKey c)) 0 24
  else Ok [].

Definition localUDPKey (s : Socks) : outcome bytes :=
  let c := cfg s in
  if bool_decide (LocalType c = lit "tcp") || bool_decide (LocalType c = lit "stcp") then
    if negb (bool_decide (LocalKey c = [])) then slice (md5hex (LocalKey c)) 0 24 else Ok []
  else if bool_decide (LocalType c = lit "tls") then slice (tlsKey s) 0 24
  else if bool_decide (LocalType c = lit "kcp") then slice (md5hex (KcpKey c)) 0 24
  else Ok [].

Definition localData2Raw (b : bytes) (s : Socks) : outcome bytes :=
  if 0 <? len (udpLocalKey s) then DecryptCFB (udpLocalKey s) b else Ok b.
Definition raw2LocalData (b : bytes) (s : Socks) : outcome bytes :=
  if 0 <? len (udpLocalKey s) then EncryptCFB (udpLocalKey s) b else Ok b.
Definition parentData2Raw (b : bytes) (s : Socks) : outcome bytes :=
  if 0 <? len (udpParentKey s) then DecryptCFB (udpParentKey s) b else Ok b.
Definition raw2ParentData (b : bytes) (s : Socks) : outcome bytes :=
  if 0 <? len (udpParentKey s) then EncryptCFB (udpParentKey s) b else Ok b.

(** * Configuration *)

(** What [inspectConfig] is told: the key of the certificate, the CA file, the
    ssh configuration and the rate limit *)
Record checks := mkChecks {
  cert : outcome bytes; ca : option error; ssh : option error; rate : option error;
}.

Definition fail_if (e : option error) : outcome unit :=
  match e with Some e => Fail e | None => Ok tt end.

Definition drop_empty_parent (c : Config) : Config :=
  if bool_decide (Parent c = [[]])
  then mkConfig (ParentType c) [] (ParentKey c) (ParentAuth c) (LocalType c) (LocalKey c)
         (CaCertFile c) (KcpKey c) (Always c) (DNSAddr c) (LbMethod c) (HashTarget c)
         (RateLimit c) (LocalIPS c) (BindListen c)
  else c.

(** [inspectConfig] of a service that was just made *)
Definition inspectConfig (k : checks) (c : Config) : outcome Socks :=
  let c := drop_empty_parent c in
  let parents := 0 <? len (Parent c) in
  tls ← (if bool_decide (LocalType c = lit "tls") || (bool_decide (ParentType c = lit "tls") && parents) then
           key ← cert k;
           _ ← (if negb (bool_decide (CaCertFile c = [])) then fail_if (ca k) else Ok tt);
           Ok key
         else Ok []);
  _ ← (if parents then
         if bool_decide (ParentType c = []) then Fail (ErrMsg "parent type required for %s")
         else if negb (bool_decide (ParentType c ∈ map lit ["tcp"; "tls"; "stcp"; "kcp"; "ssh"]%string))
         then Fail (ErrMsg "parent type suport <tcp|tls|stcp|kcp|ssh>")
         else if bool_decide (ParentType c = lit "ssh") then fail_if (ssh k) else Ok tt
       else Ok tt);
  _ ← (if negb (bool_decide (RateLimit c = lit "0")) && negb (bool_decide (RateLimit c = []))
       then fail_if (rate k) else Ok tt);
  auth ← (if negb (bool_decide (ParentAuth c = [])) then
            match Split (ParentAuth c) (lit ":") with
            | [u; p] => Ok (Some (mkAuth u p))
            | _ => Fail (ErrMsg "parent auth data format invalid")
            end
          else Ok None);
  let s := mkSocks c tls auth None None None None ∅ [] [] [] in
  lkey ← localUDPKey s;
  pkey ← parentUDPKey s;
  Ok (mkSocks c tls auth None None None None ∅ [] lkey pkey).

(** * CONNECT *)

Inductive dial :=
  | DialSocks (proxy target : bytes) (auth : option Auth)  (** through a SOCKS5 proxy *)
  | DialDirect (addr : bytes) (local : option bytes).

(** [writer] is the client's connection. *)
Record sstate := mkS {
  srv : Socks; writer : conn; targetConn : option conn; dialed : list dial;
}.

Definition gets_srv {A} (f : Socks -> A) : io sstate A := io_gets (fun s => f (srv s)).
Definition on_srv (f : Socks -> Socks) : io sstate unit :=
  io_modify (fun s => mkS (f (srv s)) (writer s) (targetConn s) (dialed s)).
Definition on_writer {A} (m : io conn A) : io sstate A := fun s =>
  let '(o, c) := m (writer s) in (o, mkS (srv s) c (targetConn s) (dialed s)).
Definition log_dial (d : dial) : io sstate unit :=
  io_modify (fun s => mkS (srv s) (writer s) (targetConn s) (dialed s ++ [d])).
Definition on_filters {A} (m : io (Filter M) A) : io sstate A := fun s =>
  match filters (srv s) with
  | None => (Panic, s)
  | Some f => let '(o, f) := m f in
      (o, mkS (set_filters (Some f) (srv s)) (writer s) (targetConn s) (dialed s))
  end.
Definition on_lb {A} (m : io (Balanced R) A) : io sstate A := fun s =>
  match lb (srv s) with
  | None => (Panic, s)
  | Some b => let '(o, b) := m b in
      (o, mkS (set_lb (Some b) (srv s)) (writer s) (targetConn s) (dialed s))
  end.

Definition is_ssh (c : Config) : bool := bool_decide (ParentType c = lit "ssh").

Definition dialDirect (address localAddr : bytes) (result : outcome conn) : io sstate conn :=
  c ← gets_srv cfg;
  let localIP := host_of localAddr in
  log_dial (DialDirect address
    (if BindListen c && negb (IsIntranet localIP) then Some (localIP ++ lit ":0") else None));;
  io_lift result.

(** The retries of [dialForTcp] *)
Fixpoint dial_retry (n : nat) (attempts : list ((nat -> Z) * outcome conn)) (request : Request)
    (lbAddr : bytes) {struct attempts} : io sstate (conn * bytes) :=
  match attempts with
  | [] => io_fail ErrClosed
  | (rnd, result) :: rest =>
      c ← gets_srv cfg;
      realAuth ← gets_srv (proxyAuth (AuthPayload request) false);
      let targetAddr := DestAddr request in
      lbAddr ← (if is_ssh c then mret lbAddr
                else on_lb (Balanced_Select gcdx rnd
                       (select_addr (LbMethod c) (HashTarget c) (RemoteAddr request) targetAddr)));
      r ← io_try (log_dial (DialSocks (if is_ssh c then targetAddr else lbAddr) targetAddr realAuth);;
                  io_lift result);
      match r with
      | inl conn => mret (conn, lbAddr)
      | inr e => match n with O => io_fail e | S n => dial_retry n rest request lbAddr end
      end
  end.

Definition dialForTcp (now : Z) (lookup : bytes -> outcome (list IP)) (system : outcome (list IP))
    (attempts : list ((nat -> Z) * outcome conn)) (direct : outcome conn) (request : Request)
  : io sstate (conn * bytes) :=
  c ← gets_srv cfg;
  resolver ← gets_srv domainResolver;
  let targetAddr := DestAddr request in
  if IsDeadLoop (DNSAddr c) resolver (LocalIPS c) lookup system (LocalAddr request) targetAddr then
    io_fail (ErrMsg "dead loop")
  else
    useProxy ← (if 0 <? len (Parent c)
                then on_filters (socks_isUseProxy (Parent c) (Always c) now resolver targetAddr)
                else mret false);
    if useProxy : bool then dial_retry 5 attempts request []
    else conn ← dialDirect (Resolve resolver targetAddr) (LocalAddr request) direct; mret (conn, []).

(** [userConns.Upsert] closes the connection it replaces. *)
Definition upsert_user (srcAddr : bytes) (me : nat) (s : Socks) : Socks :=
  set_users (<[srcAddr := me]> (userConns s))
    (match userConns s !! srcAddr with Some j => closed_ s ++ [j] | None => closed_ s end) s.

Definition count_conn (f : bytes -> Balanced R -> Balanced R) (lbAddr : bytes) : io sstate unit :=
  c ← gets_srv cfg;
  if 0 <? len (Parent c) then on_lb (io_modify (f lbAddr)) else mret tt.

(** The reply to a failed dial *)
Definition fail_reply (err : error) : byte :=
  let msg := Error_ err in
  if Contains msg (lit "refused") then RepConnectionRefused
  else if Contains msg (lit "network is unreachable") then RepNetworkUnreachable
  else RepHostUnreachable.

Definition close_target : io sstate unit :=
  io_modify (fun s => mkS (srv s) (writer s) (option_map (fun t => (Close t).2) (targetConn s)) (dialed s)).

(** [proxyTCP] up to the copying; [bindAddr] is the local address of the
    target connection.  The result is the address to give back. *)
Definition proxyTCP_join (me : nat) (now : Z) (lookup : bytes -> outcome (list IP))
    (system : outcome (list IP)) (attempts : list ((nat -> Z) * outcome conn)) (direct : outcome conn)
    (bindAddr : bytes) (request : Request) : io sstate bytes :=
  d ← io_try (dialForTcp now lookup system attempts direct request);
  match d with
  | inr err =>
      io_wrap "failed to send reply, %v" (on_writer (Write (reply_bytes (fail_reply err) None)));;
      io_fail (ErrWrap "connect to %v failed, %v" err)
  | inl (conn, lbAddr) =>
      io_modify (fun s => mkS (srv s) (writer s) (Some conn) (dialed s));;
      io_wrap "failed to send reply, %v" (on_writer (Write (reply_bytes RepSuccess (Some bindAddr))));;
      on_srv (upsert_user (RemoteAddr request) me);;
      count_conn Balanced_ConnsIncrease lbAddr;;
      mret lbAddr
  end.

(** The copying is over, with an error or none *)
Definition proxyTCP_done (request : Request) (lbAddr : bytes) : io sstate unit :=
  on_srv (fun s => set_users (delete (RemoteAddr request) (userConns s)) (closed_ s) s);;
  count_conn Balanced_ConnsDecrease lbAddr.

(** [proxyTCP]: [copied] is how the copying ended; [defer targetConn.Close()] *)
Definition proxyTCP (me : nat) (now : Z) (lookup : bytes -> outcome (list IP))
    (system : outcome (list IP)) (attempts : list ((nat -> Z) * outcome conn)) (direct : outcome conn)
    (bindAddr : bytes) (copied : outcome unit) (request : Request) : io sstate unit := fun s =>
  match (lbAddr ← proxyTCP_join me now lookup system attempts direct bindAddr request;
         proxyTCP_done request lbAddr;; io_lift copied) s with
  | (o, s) => (o, (close_target s).2)
  end.

End Socks.
Arguments Socks : clear implicits.
Arguments sstate : clear implicits.

(** * Laws *)
Section Laws.
Context {R : Type} `{!NameResolver R} {M : Type -> Type} `{!ConcurrentMap M} {HC : HostClass}.
Context `{!Socks5Lib} (gcdx : Z -> Z -> Z).
Implicit Types (s : sstate R M).

Lemma on_lb_writer {A} (m : io (Balanced R) A) s o s' :
  on_lb m s = (o, s') -> writer s' = writer s /\ targetConn s' = targetConn s.
Proof.
  unfold on_lb. destruct (lb (srv s)) as [b|]; [|by intros [= <- <-]].
  destruct (m b). by intros [= <- <-].
Qed.

Lemma on_filters_writer {A} (m : io (Filter M) A) s o s' :
  on_filters m s = (o, s') -> writer s' = writer s /\ targetConn s' = targetConn s.
Proof.
  unfold on_filters. destruct (filters (srv s)) as [b|]; [|by intros [= <- <-]].
  destruct (m b). by intros [= <- <-].
Qed.

Lemma dial_retry_writer (attempts : list ((nat -> Z) * outcome conn)) (n : nat) (request : Request)
    (lbAddr : bytes) s o s' :
  dial_retry gcdx n attempts request lbAddr s = (o, s') ->
  writer s' = writer s /\ targetConn s' = targetConn s.
Proof.
  revert n lbAddr s. induction attempts as [|[rnd result] rest IH]; intros n lbAddr s Hr.
  { by injection Hr as <- <-. }
  cbn [dial_retry] in Hr. unfold gets_srv in Hr. rewrite !bind_gets in Hr. cbv zeta in Hr.
  set (c := cfg (srv s)) in *. set (realAuth := proxyAuth _ _ _) in *.
  set (sel := if is_ssh c then mret lbAddr else _) in Hr.
  destruct (sel s) as [x s1] eqn:Es.
  assert (H1 : writer s1 = writer s /\ targetConn s1 = targetConn s).
  { unfold sel in Es. destruct (is_ssh c); [by injection Es as <- <-|]. by apply on_lb_writer in Es. }
  destruct x as [a|e|].
  - erewrite bind_ok in Hr by exact Es. clear Es sel. unfold io_try, log_dial, mbind, io_bind, io_modify, io_lift in Hr.
    destruct result as [t|e|].
    + by injection Hr as <- <-.
    + destruct n as [|n]; [by injection Hr as <- <-|]. apply IH in Hr as [-> ->]. done.
    + by injection Hr as <- <-.
  - erewrite bind_fail in Hr by exact Es. by injection Hr as <- <-.
  - erewrite bind_panic in Hr by exact Es. by injection Hr as <- <-.
Qed.

Lemma dialForTcp_writer (now : Z) (lookup : bytes -> outcome (list IP)) (system : outcome (list IP))
    (attempts : list ((nat -> Z) * outcome conn)) (direct : outcome conn) (request : Request) s o s' :
  dialForTcp gcdx now lookup system attempts direct request s = (o, s') ->
  writer s' = writer s /\ targetConn s' = targetConn s.
Proof.
  unfold dialForTcp, gets_srv. rewrite !bind_gets. cbv zeta. destruct (IsDeadLoop _ _ _ _ _ _ _).
  { by intros [= <- <-]. }
  set (ask := if 0 <? _ then _ else _). destruct (ask s) as [x s1] eqn:Es.
  assert (H1 : writer s1 = writer s /\ targetConn s1 = targetConn s).
  { unfold ask in Es. destruct (0 <? _); [by apply on_filters_writer in Es|by injection Es as <- <-]. }
  intros Hr. destruct x as [p|e|].
  - erewrite bind_ok in Hr by exact Es. destruct p.
    + apply dial_retry_writer in Hr as [-> ->]. done.
    + clear ask Es. unfold dialDirect, gets_srv, log_dial, mbind, io_bind, io_gets, io_modify, io_lift in Hr.
      cbv beta iota zeta in Hr. by destruct direct; injection Hr as <- <-.
  - erewrite bind_fail in Hr by exact Es. by injection Hr as <- <-.
  - erewrite bind_panic in Hr by exact Es. by injection Hr as <- <-.
Qed.
End Laws.

(** * Properties *)
Section Properties.
Context {R : Type} `{!NameResolver R} {M : Type -> Type} `{!ConcurrentMap M} {HC : HostClass}.
Context `{!Socks5Lib} (gcdx : Z -> Z -> Z).

(** C8: one reply per CONNECT, and no connection left behind.  To a client that
    can be written to, the handler sends exactly one reply, after the dial ended:
    the code of the error when it failed, success with the bound address when it
    did not.  When the handler is over, however that came, the connection it
    dialed is closed. *)
Theorem proxyTCP_replies (me : nat) (now : Z) (lookup : bytes -> outcome (list IP))
    (system : outcome (list IP)) (attempts : list ((nat -> Z) * outcome conn)) (direct : outcome conn)
    (bindAddr : bytes) (copied : outcome unit) (request : Request) (s s' : sstate R M) (o : outcome unit) :
  targetConn s = None -> wres (writer s) = [] ->
  proxyTCP gcdx me now lookup system attempts direct bindAddr copied request s = (o, s') ->
  (forall t, targetConn s' = Some t -> closed t = true) /\
  match (dialForTcp gcdx now lookup system attempts direct request s).1 with
  | Fail e =>
      o = Fail (ErrWrap "connect to %v failed, %v" e) /\
      tx (writer s') = tx (writer s) ++ [reply_bytes (fail_reply e) None]
  | Ok (t, _) =>
      tx (writer s') = tx (writer s) ++ [reply_bytes RepSuccess (Some bindAddr)] /\
      targetConn s' = Some (Close t).2
  | Panic => tx (writer s') = tx (writer s)
  end.
Proof.
  intros Ht Hw. unfold proxyTCP, proxyTCP_join.
  destruct (dialForTcp gcdx now lookup system attempts direct request s) as [d s1] eqn:Ed.
  pose proof Ed as Hd. apply dialForTcp_writer in Hd as [Hwr Htg]. cbn [fst].
  set (join := (x ← io_try _; _)). destruct d as [[t a]|e|].
  - assert (Hj : exists x s2, (lbAddr ← join; proxyTCP_done request lbAddr;; io_lift copied) s = (x, s2) /\
      tx (writer s2) = tx (writer s) ++ [reply_bytes RepSuccess (Some bindAddr)] /\
      targetConn s2 = Some t).
    { unfold join, io_try, mbind, io_bind. rewrite Ed. unfold io_modify, io_wrap, on_writer.
      cbn [writer srv targetConn dialed]. rewrite Write_ok by (by rewrite Hwr).
      unfold on_srv, count_conn, gets_srv, io_modify, mbind, io_bind, io_gets, mret, io_ret.
      unfold proxyTCP_done, on_srv, count_conn, gets_srv, io_modify, mbind, io_bind, io_gets, io_lift.
      cbn [srv writer targetConn dialed cfg upsert_user set_users lb].
      destruct (0 <? len (Parent (cfg (srv s1)))) eqn:Ep; cbn.
      - unfold on_lb. cbn. destruct (lb (srv s1)) as [b|]; cbn; rewrite ?Ep; cbn; rewrite ?Hwr;
          (eexists _, _; split; [reflexivity|done]).
      - rewrite Ep. cbn. rewrite Hwr. eexists _, _; split; [reflexivity|done]. }
    destruct Hj as (x & s2 & -> & Htx & Ht2). intros [= <- <-]. cbn. rewrite Ht2. cbn.
    split; [by intros ? [= <-]|done].
  - assert (Hj : exists s2, (lbAddr ← join; proxyTCP_done request lbAddr;; io_lift copied) s =
        (Fail (ErrWrap "connect to %v failed, %v" e), s2) /\
      tx (writer s2) = tx (writer s) ++ [reply_bytes (fail_reply e) None] /\ targetConn s2 = None).
    { unfold join, io_try, mbind, io_bind. rewrite Ed. unfold io_wrap, on_writer.
      rewrite Write_ok by (by rewrite Hwr). rewrite Hwr. eexists. split; [reflexivity|].
      cbn. by rewrite Htg. }
    destruct Hj as (s2 & -> & Htx & Ht2). intros [= <- <-]. cbn. rewrite Ht2. done.
  - assert (Hj : (lbAddr ← join; proxyTCP_done request lbAddr;; io_lift copied) s = (Panic, s1)).
    { unfold join, io_try, mbind, io_bind. by rewrite Ed. }
    rewrite Hj. intros [= <- <-]. cbn. rewrite Htg, Ht, Hwr. done.
Qed.

(** A service whose only authentication is a remote one refuses everybody.
    The SOCKS5 service asks the table of its center and never the remote service
    it was configured with. *)
Theorem Valid_ignores_service `{!ConcurrentMapLaws M} (url : bytes) (timeout code retry : Z)
    (resolver : option R) (user password : bytes) :
  url <> [] ->
  exists center, init_auth (mkAuthConfig None [] url timeout code retry) resolver = (Some center, None) /\
    BasicAuth.url center = url /\ Valid center user password = false.
Proof.
  intros Hu. unfold init_auth. cbn [File UserPasses URL AuthTimeout OkCode Retry].
  rewrite (bool_decide_false (url = [])) by done. cbn [negb orb].
  eexists. split; [reflexivity|]. unfold Valid, VerifyFromLocal.
  destruct resolver; cbn; by rewrite cm_get_new.
Qed.

(** Credentials leave the service only on purpose.  A parent is given the
    configured credentials; without any it is given those of the client, when the
    service has a center to check them with, both are there and the client did
    not come through shadowsocks; otherwise it is given none. *)
Theorem proxyAuth_cases (auth : Auth) (fromSS : bool) (s : Socks R M) :
  match proxyAuth auth fromSS s with
  | Some a => parentAuth s = Some a \/
      (parentAuth s = None /\ a = auth /\ fromSS = false /\ is_Some (basicAuthCenter s) /\
       User auth <> [] /\ Password auth <> [])
  | None => parentAuth s = None /\
      (fromSS = true \/ basicAuthCenter s = None \/ User auth = [] \/ Password auth = [])
  end.
Proof.
  unfold proxyAuth. destruct (parentAuth s) as [a|]; [by left|].
  destruct fromSS; cbn [negb andb]; [by auto|].
  destruct (basicAuthCenter s); cbn [andb]; [|by auto].
  case_bool_decide; cbn [negb andb]; [by auto|]. case_bool_decide; cbn [negb andb]; [by auto|].
  right. split_and!; try done.
Qed.

(** A lone tls parent type crashes the service.  When the parent type is tls
    and there is no parent, and nothing else needs a certificate or is wrong, the
    configuration check panics on the key it never loaded. *)
Theorem inspectConfig_panics `{!Crypto} `{!CryptoLaws} (k : checks) (c : Config) :
  Parent c = [] \/ Parent c = [[]] -> ParentType c = lit "tls" -> LocalType c = lit "tcp" ->
  ParentAuth c = [] -> RateLimit c = [] ->
  inspectConfig (R := R) (M := M) k c = Panic.
Proof.
  intros Hp Hpt Hlt Hpa Hrl. unfold inspectConfig.
  assert (E : exists c', drop_empty_parent c = c' /\ Parent c' = [] /\ ParentType c' = lit "tls" /\
    LocalType c' = lit "tcp" /\ ParentAuth c' = [] /\ RateLimit c' = [] /\ LocalKey c' = LocalKey c).
  { eexists. split; [reflexivity|]. unfold drop_empty_parent.
    destruct Hp as [Hp|Hp]; rewrite Hp; cbn; by rewrite ?Hp. }
  destruct E as (c' & -> & Ep & Et & El & Ea & Er & _).
  rewrite Ep, Et, El, Ea, Er. change (0 <? len []) with false.
  unfold localUDPKey, parentUDPKey. cbn [cfg tlsKey]. rewrite Et, El. bdec. cbn [negb andb orb].
  unfold mbind, outcome_bind. destruct (bool_decide (LocalKey c' = [])); cbn [negb]; [done|].
  unfold slice. rewrite (proj2 (Z.leb_le 24 (len (md5hex (LocalKey c'))))) by (rewrite md5hex_length; lia).
  done.
Qed.

(** Two chained services agree on the encryption of UDP.  When the type and
    the keys one service has towards its parent are those the parent has towards
    its clients, what the first sends the second reads back, and what the second
    sends back the first reads. *)
Theorem udp_chain `{!Crypto} `{!CryptoLaws} (k1 k2 : checks) (c1 c2 : Config) (s1 s2 : Socks R M) (b d : bytes) :
  inspectConfig k1 c1 = Ok s1 -> inspectConfig k2 c2 = Ok s2 ->
  ParentType c1 = LocalType c2 -> ParentKey c1 = LocalKey c2 -> KcpKey c1 = KcpKey c2 ->
  tlsKey s1 = tlsKey s2 ->
  (raw2ParentData b s1 = Ok d -> localData2Raw d s2 = Ok b) /\
  (raw2LocalData b s2 = Ok d -> parentData2Raw d s1 = Ok b).
Proof.
  intros Ha1 Ha2 Ht Hk Hkcp Htls.
  assert (G : forall k c s, inspectConfig (R := R) (M := M) k c = Ok s ->
    localUDPKey s = Ok (udpLocalKey s) /\ parentUDPKey s = Ok (udpParentKey s) /\
    LocalType (cfg s) = LocalType c /\ LocalKey (cfg s) = LocalKey c /\ KcpKey (cfg s) = KcpKey c /\
    ParentType (cfg s) = ParentType c /\ ParentKey (cfg s) = ParentKey c).
  { clear. intros k c s. unfold inspectConfig. cbv zeta.
    rewrite outcome_bind_ok. intros (tls & _ & Hr). rewrite outcome_bind_ok in Hr. destruct Hr as ([] & _ & Hr).
    rewrite outcome_bind_ok in Hr. destruct Hr as ([] & _ & Hr).
    rewrite outcome_bind_ok in Hr. destruct Hr as (au & _ & Hr).
    rewrite outcome_bind_ok in Hr. destruct Hr as (lk & Hl & Hr).
    rewrite outcome_bind_ok in Hr. destruct Hr as (pk & Hpk & Hr). injection Hr as <-.
    cbn [udpLocalKey udpParentKey cfg]. split_and!; [exact Hl|exact Hpk|..];
      unfold drop_empty_parent; by case_bool_decide. }
  destruct (G _ _ _ Ha1) as (_ & Hpk & _ & _ & Hkc1 & Hpt & Hpkey).
  destruct (G _ _ _ Ha2) as (Hlk & _ & Hlt & Hlkey & Hkc2 & _).
  assert (E : udpParentKey s1 = udpLocalKey s2).
  { assert (parentUDPKey s1 = localUDPKey s2); [|congruence].
    unfold parentUDPKey, localUDPKey. by rewrite Hpt, Hlt, Hpkey, Hlkey, Hkc1, Hkc2, Ht, Hk, Hkcp, Htls. }
  unfold raw2ParentData, localData2Raw, raw2LocalData, parentData2Raw. rewrite E.
  destruct (0 <? len (udpLocalKey s2)); split; try (by intros [= ->]); apply Decrypt_EncryptCFB.
Qed.
End Properties.

(** * Examples *)

#[local] Existing Instance no_view.
#[local] Instance no_class : HostClass := {| IsDomain := fun _ => false; IsIntranet := fun _ => false |}.
#[local] Instance plain_replies : Socks5Lib := {|
  reply_bytes := fun rep _ => [z2b 5; rep; zero; z2b 1; zero; zero; zero; zero; zero; zero];
  Error_ := fun e => match e with ErrRefused => lit "connection refused" | _ => lit "i/o timeout" end;
|}.
#[local] Instance reverse : Crypto := {|
  EncryptCFB := fun _ b => Ok (rev b); DecryptCFB := fun _ b => Ok (rev b);
  md5hex := fun _ => repeat ("0"%char : byte) 32;
|}.
#[local] Instance reverse_laws : CryptoLaws.
Proof.
  split; [| |intros k; reflexivity]; [intros k b _; by eexists|].
  intros k b d [= <-]. cbn. by rewrite rev_involutive.
Qed.

(** Services between which a keyed tcp connection runs *)
Definition tcp_cfg (Parent : list bytes) (ParentKey LocalKey : bytes) : Config :=
  mkConfig (lit "tcp") Parent ParentKey [] (lit "tcp") LocalKey [] [] false [] [] false [] [] false.
Definition tls_cfg : Config :=
  mkConfig (lit "tls") [] [] [] (lit "tcp") [] [] [] false [] [] false [] [] false.
Definition no_errors : checks := mkChecks (Ok []) None None None.

Definition sample_req : Request :=
  mkRequest (lit "10.0.0.9:5000") (lit "10.0.0.1:1080") (lit "1.2.3.4:80") (mkAuth [] []).
Definition sample_s : sstate unit (gmap bytes) := mkS (New (tcp_cfg [] [] [])) (conn_of []) None [].
Definition sample_out (direct : outcome conn) : outcome unit * sstate unit (gmap bytes) :=
  proxyTCP Z.gcd 3 0 (fun _ => Ok []) (Ok []) [] direct (lit "10.0.0.1:40000") (Ok tt) sample_req sample_s.

(** A refused target, and one that is reached *)
Lemma proxyTCP_replies_witness :
  tx (writer (sample_out (Fail ErrRefused)).2) = [reply_bytes RepConnectionRefused None] /\
  exists t, targetConn (sample_out (Ok (conn_of []))).2 = Some t /\ closed t = true.
Proof.
  split.
  - destruct (sample_out (Fail ErrRefused)) as [o s'] eqn:E.
    destruct (proxyTCP_replies Z.gcd 3 0 (fun _ => Ok []) (Ok []) [] (Fail ErrRefused)
      (lit "10.0.0.1:40000") (Ok tt) sample_req sample_s s' o eq_refl eq_refl E) as [_ Hd].
    vm_compute in Hd. destruct Hd as [_ Hd]. exact Hd.
  - destruct (sample_out (Ok (conn_of []))) as [o s'] eqn:E.
    destruct (proxyTCP_replies Z.gcd 3 0 (fun _ => Ok []) (Ok []) [] (Ok (conn_of []))
      (lit "10.0.0.1:40000") (Ok tt) sample_req sample_s s' o eq_refl eq_refl E) as [Hc Hd].
    vm_compute in Hd. destruct Hd as [_ Ht]. cbn [snd].
    exists (Close (conn_of [])).2. split; [exact Ht|]. apply Hc, Ht.
Defined.

Lemma Valid_ignores_service_witness :
  exists center, init_auth (M := gmap bytes) (R := unit)
      (mkAuthConfig None [] (lit "http://auth/") 1 204 1) None = (Some center, None) /\
    Valid center (lit "bob") (lit "secret") = false.
Proof.
  destruct (Valid_ignores_service (M := gmap bytes) (R := unit) (lit "http://auth/") 1 204 1 None
    (lit "bob") (lit "secret")) as (center & Hc & _ & Hv); [discriminate|].
  exists center. split; [exact Hc|exact Hv].
Defined.

Lemma inspectConfig_panics_witness :
  inspectConfig (R := unit) (M := gmap bytes) no_errors tls_cfg = Panic.
Proof. apply inspectConfig_panics; [left|..]; reflexivity. Defined.

Lemma udp_chain_witness :
  exists s1 s2 : Socks unit (gmap bytes),
    inspectConfig no_errors (tcp_cfg [lit "1.2.3.4:1080"] (lit "k") []) = Ok s1 /\
    inspectConfig no_errors (tcp_cfg [] [] (lit "k")) = Ok s2 /\
    localData2Raw (rev (lit "hello")) s2 = Ok (lit "hello").
Proof.
  destruct (inspectConfig (R := unit) (M := gmap bytes) no_errors
    (tcp_cfg [lit "1.2.3.4:1080"] (lit "k") [])) as [s1| |] eqn:E1; [|vm_compute in E1; discriminate..].
  destruct (inspectConfig (R := unit) (M := gmap bytes) no_errors (tcp_cfg [] [] (lit "k")))
    as [s2| |] eqn:E2; [|vm_compute in E2; discriminate..].
  exists s1, s2. split; [reflexivity|]. split; [reflexivity|].
  apply (udp_chain no_errors no_errors _ _ s1 s2 (lit "hello") (rev (lit "hello")) E1 E2);
    [reflexivity..| |].
  - vm_compute in E1. injection E1 as <-. vm_compute in E2. injection E2 as <-. reflexivity.
  - vm_compute in E1. injection E1 as <-. reflexivity.
Defined.
