(* ===== verification/SocksStart.v ===== *)
(** services/socks/socks.go: the life of the SOCKS5 service, from its configuration
    to [Stop].  The files, the resolver, the ssh connection and the listener are
    inputs; the keep-alive loop of the ssh connection is left out. *)
From S2P Require Import Prelude GoStrings GoNet GoIO Iface BasicAuth Outil Filter LoadBalance Route SocksSvc.
Open Scope Z_scope.

Section Start.
Context {R : Type} `{!NameResolver R} {M : Type -> Type} `{!ConcurrentMap M} {CR : Crypto}.
Context (gcdx : Z -> Z -> Z).

(** The service with what [Start] and [Stop] work on: the listener and the ssh
    connection, whether they are open, the context, whether the filter was closed,
    and the sockets of UDP associations *)
Record service := mkService {
  base : Socks R M;
  channel : option bool;
  ssh_client : option bool;
  cancelled : bool;
  filter_closed : bool;
  packet_conns : gmap bytes nat;
  packets_closed : list nat;
}.

Definition new_service (c : Config) : service := mkService (New c) None None false false ∅ [].
Definition set_base b s := mkService b (channel s) (ssh_client s) (cancelled s) (filter_closed s) (packet_conns s) (packets_closed s).
Definition set_channel c s := mkService (base s) c (ssh_client s) (cancelled s) (filter_closed s) (packet_conns s) (packets_closed s).
Definition set_ssh c s := mkService (base s) (channel s) c (cancelled s) (filter_closed s) (packet_conns s) (packets_closed s).

Definition set_center c (s : Socks R M) := mkSocks (cfg s) (tlsKey s) (parentAuth s) (filters s) c (lb s)
  (domainResolver s) (userConns s) (closed_ s) (udpLocalKey s) (udpParentKey s).
Definition set_domain_resolver d (s : Socks R M) := mkSocks (cfg s) (tlsKey s) (parentAuth s) (filters s) (basicAuthCenter s)
  (lb s) d (userConns s) (closed_ s) (udpLocalKey s) (udpParentKey s).

(** What [initService] meets *)
Record resources := mkResources {
  resolver_of : bytes -> R;
  auth : AuthConfig;
  intelligent : bytes; filter_opts : list Filter.Option;
  proxyFile : option (outcome bytes); directFile : option (outcome bytes);
  lb_times : Z * Z; debug : bool;
  rnd0 : nat -> Z;
  dialSSH : bytes -> outcome unit;
}.

(** The resolver and the authentication center; an error of its file is logged. *)
Definition init_base (k : resources) (s : Socks R M) : Socks R M :=
  let s := if negb (bool_decide (DNSAddr (cfg s) = []))
           then set_domain_resolver (Some (resolver_of k (DNSAddr (cfg s)))) s else s in
  set_center (init_auth (auth k) (domainResolver s)).1 s.

(** The filter and the balancer; the error of the second table stays in the named
    result. *)
Definition init_parents (k : resources) (s : Socks R M) : outcome (option error * Socks R M) :=
  let '(r, f) := load_tables (proxyFile k) (directFile k) (Filter.New (intelligent k) (filter_opts k)) in
  err ← r;
  b ← new_lb std_registry (LbMethod (cfg s)) (lb_times k).1 (lb_times k).2 (debug k) (domainResolver s) (Parent (cfg s));
  Ok (err, set_lb (Some b) (set_filters (Some f) s)).

Definition uses_ssh (c : Config) : bool := bool_decide (ParentType c = lit "ssh").

Definition init_ssh (k : resources) : io service unit := fun s =>
  match lb (base s) with
  | None => (Panic, s)
  | Some b =>
      let '(a, b) := Balanced_Select gcdx (rnd0 k) [] b in
      (a ← io_lift a;
       io_wrap "dial ssh fail, %s" (io_lift (dialSSH k (Resolve (domainResolver (base s)) a)));;
       io_modify (set_ssh (Some true))) (set_base (set_lb (Some b) (base s)) s)
  end.

Definition initService (k : resources) : io service unit :=
  io_modify (fun s => set_base (init_base k (base s)) s);;
  b ← io_gets base;
  err ← (if 0 <? len (Parent (cfg b)) then
           r ← io_lift (init_parents k b);
           io_modify (set_base r.2);; mret r.1
         else mret None);
  (if uses_ssh (cfg b) then init_ssh k else mret tt);;
  match err with Some e => io_fail e | None => mret tt end.

Definition Stop : io service unit := fun s =>
  let b := base s in
  let b := match lb b with Some l => set_lb (Some (Balanced_Close l)) b | None => b end in
  let s := mkService b (option_map (fun _ => false) (channel s)) (ssh_client s) true
             (match filters b with Some _ => true | None => filter_closed s end) (packet_conns s) (packets_closed s) in
  match uses_ssh (cfg b), ssh_client s with
  | true, None => (Panic, s)
  | ssh, _ =>
      let s := if ssh then set_ssh (Some false) s else s in
      (Ok tt, mkService (set_users (userConns b) (closed_ b ++ (map_to_list (userConns b)).*2) b) (channel s) (ssh_client s)
                (cancelled s) (filter_closed s) (packet_conns s) (packets_closed s ++ (map_to_list (packet_conns s)).*2))
  end.

(** A configuration that is refused leaves the service as it was made, without the
    lone empty parent. *)
Definition Start_body (ck : checks) (k : resources) (listen : outcome unit) : io service unit :=
  (fun s => match inspectConfig ck (cfg (base s)) with
            | Ok b => (Ok tt, set_base b s)
            | Fail e => (Fail e, set_base (New (drop_empty_parent (cfg (base s)))) s)
            | Panic => (Panic, s)
            end);;
  initService k;;
  io_lift listen;;
  io_modify (set_channel (Some true)).

(** [Start]: the deferred function stops the service on an error. *)
Definition Start (ck : checks) (k : resources) (listen : outcome unit) : io service unit := fun s =>
  match Start_body ck k listen s with
  | (Fail e, s) => (Stop;; io_fail e) s
  | r => r
  end.

(** * Laws *)
Implicit Types (s : service).

Lemma inspectConfig_cfg (ck : checks) (c : Config) (b : Socks R M) :
  inspectConfig ck c = Ok b -> cfg b = drop_empty_parent c /\ filters b = None /\ lb b = None /\ userConns b = ∅ /\
    basicAuthCenter b = None /\ domainResolver b = None.
Proof.
  unfold inspectConfig. cbv zeta. rewrite outcome_bind_ok. intros (tls & _ & H). rewrite outcome_bind_ok in H.
  destruct H as ([] & _ & H). rewrite outcome_bind_ok in H. destruct H as ([] & _ & H).
  rewrite outcome_bind_ok in H. destruct H as (au & _ & H). rewrite outcome_bind_ok in H. destruct H as (lk & _ & H).
  rewrite outcome_bind_ok in H. destruct H as (pk & _ & H). by injection H as <-.
Qed.

Lemma init_base_keeps (k : resources) (b : Socks R M) :
  cfg (init_base k b) = cfg b /\ filters (init_base k b) = filters b /\ lb (init_base k b) = lb b.
Proof. unfold init_base. by destruct (negb _). Qed.

Lemma init_base_auth (k : resources) (b : Socks R M) :
  domainResolver b = None ->
  basicAuthCenter (init_base k b) = (init_auth (auth k)
    (if bool_decide (DNSAddr (cfg b) = []) then None else Some (resolver_of k (DNSAddr (cfg b))))).1.
Proof. intros Hd. unfold init_base. case_bool_decide; cbn; by rewrite ?Hd. Qed.

(** With parents: a filter, a balancer that selects among the parents with a port,
    and the error of the second table *)
Lemma init_parents_ok (k : resources) (b : Socks R M) :
  proxyFile k <> Some Panic -> directFile k <> Some Panic ->
  exists f l, init_parents k b =
      Ok (match directFile k with Some (Fail e) => Some e | _ => None end, set_lb (Some l) (set_filters (Some f) b)) /\
    LoadBalance.reachable gcdx l /\
    map Addr (upstreams l) = filter (fun a => is_ok (SplitHostPort a) = true) (map entry_addr (Parent (cfg b))).
Proof.
  intros Hp Hd. unfold init_parents.
  assert (Ht : exists f', load_tables (proxyFile k) (directFile k) (Filter.New (intelligent k) (filter_opts k)) =
    (Ok (match directFile k with Some (Fail e) => Some e | _ => None end), f')).
  { unfold load_tables, LoadProxyFile, LoadDirectFile, loadfile2ConcurrentMap, io_try, mbind, io_bind.
    destruct (proxyFile k) as [[pc|e|]|]; try done; [destruct (fold_left _ _ _)| |];
      (destruct (directFile k) as [[dc|e'|]|]; try done; [destruct (fold_left _ _ _)| |]); by eexists. }
  destruct Ht as [f Hf]. rewrite Hf. cbn [mbind outcome_bind].
  destruct (parent_configs_total (lb_times k).1 (lb_times k).2 (Parent (cfg b))) as (cs & E & Hc & Hm).
  unfold new_lb. rewrite E. cbn [mbind outcome_bind].
  destruct (New_pool gcdx (LbMethod (cfg b)) cs [WithDNSServer (domainResolver b); WithEnableDebug (debug k)] Hc)
    as (l & Hl & Hr & Hu). rewrite Hl. cbn [mbind outcome_bind]. exists f, l. rewrite <- Hm. by split_and!.
Qed.

Lemma Stop_outcome s : (Stop s).1 = if uses_ssh (cfg (base s)) && negb (bool_decide (is_Some (ssh_client s))) then Panic else Ok tt.
Proof.
  unfold Stop. cbv zeta. cbn [ssh_client]. assert (E : cfg (match lb (base s) with Some l => set_lb (Some (Balanced_Close l)) (base s) | None => base s end) = cfg (base s)).
  { by destruct (lb (base s)). }
  rewrite E. destruct (uses_ssh (cfg (base s))), (ssh_client s); done.
Qed.

Lemma Stop_closes_channel s s' : Stop s = (Ok tt, s') -> channel s' <> Some true /\ cancelled s' = true /\
  (is_Some (filters (base s)) -> filter_closed s' = true) /\
  (forall k i, userConns (base s) !! k = Some i -> i ∈ closed_ (base s')) /\
  (forall k i, packet_conns s !! k = Some i -> i ∈ packets_closed s').
Proof.
  unfold Stop. cbv zeta. set (b := match lb (base s) with Some _ => _ | None => _ end).
  assert (Eb : filters b = filters (base s) /\ userConns b = userConns (base s)) by (unfold b; by destruct (lb (base s))).
  destruct Eb as [Ef Eu]. cbn [ssh_client]. intros H.
  assert (H' : exists sc, s' = mkService (set_users (userConns b) (closed_ b ++ (map_to_list (userConns b)).*2) b)
    (option_map (fun _ => false) (channel s)) sc true (match filters b with Some _ => true | None => filter_closed s end)
    (packet_conns s) (packets_closed s ++ (map_to_list (packet_conns s)).*2)).
  { destruct (uses_ssh (cfg b)), (ssh_client s); first [discriminate H|injection H as <-; by eexists]. }
  destruct H' as [sc ->]. cbn. split_and!.
  - by destruct (channel s).
  - done.
  - rewrite Ef. by intros [f ->].
  - intros k i Hk. rewrite Eu. apply elem_of_app. right. apply list_elem_of_fmap. exists (k, i). split; [done|].
    by apply elem_of_map_to_list.
  - intros k i Hk. apply elem_of_app. right. apply list_elem_of_fmap. exists (k, i). split; [done|].
    by apply elem_of_map_to_list.
Qed.
End Start.

Section Body.
Context {R : Type} `{!NameResolver R} {M : Type -> Type} `{!ConcurrentMap M} {CR : Crypto}.
Context (gcdx : Z -> Z -> Z).

(** What [initService] comes to before the ssh connection *)
Lemma initService_run (k : resources (R := R)) (s : service (R := R) (M := M)) :
  proxyFile k <> Some Panic -> directFile k <> Some Panic ->
  filters (base s) = None -> lb (base s) = None ->
  let c := cfg (base s) in
  exists b, cfg b = c /\ basicAuthCenter b = basicAuthCenter (init_base k (base s)) /\
    (if 0 <? len (Parent c) then exists f l, filters b = Some f /\ lb b = Some l /\ LoadBalance.reachable gcdx l /\
        map Addr (upstreams l) = filter (fun a => is_ok (SplitHostPort a) = true) (map entry_addr (Parent c))
     else filters b = None /\ lb b = None) /\
    initService gcdx k s =
      ((if uses_ssh c then init_ssh gcdx k else mret tt);;
       match (if 0 <? len (Parent c) then match directFile k with Some (Fail e) => Some e | _ => None end else None) with
       | Some e => io_fail e | None => mret tt end) (set_base b s).
Proof.
  intros Hp Hd Hf Hl c. destruct (init_base_keeps k (base s)) as (Ec & Ef & El). unfold initService.
  rewrite bind_modify, bind_gets. cbn [base set_base]. rewrite Ec. fold c.
  destruct (0 <? len (Parent c)) eqn:E.
  - destruct (init_parents_ok gcdx k (init_base k (base s)) Hp Hd) as (f & l & Hi & Hr & Hu). rewrite Ec in Hu. fold c in Hu.
    exists (set_lb (Some l) (set_filters (Some f) (init_base k (base s)))). split_and!; [exact Ec|done|by exists f, l|].
    unfold mbind at 1, io_bind at 1. unfold mbind at 1, io_bind at 1, io_lift. rewrite Hi. reflexivity.
  - exists (init_base k (base s)). split_and!; [exact Ec|done|by rewrite Ef|by rewrite El|]. reflexivity.
Qed.

(** A service without ssh that starts to listen *)
Lemma Start_run (ck : checks) (k : resources (R := R)) (listen : outcome unit) (c : Config) (b0 : Socks R M) :
  proxyFile k <> Some Panic -> directFile k <> Some Panic ->
  inspectConfig ck c = Ok b0 ->
  let c' := drop_empty_parent c in
  exists b, cfg b = c' /\ basicAuthCenter b = basicAuthCenter (init_base k b0) /\
    (if 0 <? len (Parent c') then exists f l, filters b = Some f /\ lb b = Some l /\ LoadBalance.reachable gcdx l /\
        map Addr (upstreams l) = filter (fun a => is_ok (SplitHostPort a) = true) (map entry_addr (Parent c'))
     else filters b = None /\ lb b = None) /\
    Start_body gcdx ck k listen (new_service c) =
      ((if uses_ssh c' then init_ssh gcdx k else mret tt);;
       match (if 0 <? len (Parent c') then match directFile k with Some (Fail e) => Some e | _ => None end else None) with
       | Some e => io_fail e | None => mret tt end;;
       io_lift listen;; io_modify (set_channel (Some true))) (set_base b (new_service c)).
Proof.
  intros Hp Hd Hi c'. pose proof (inspectConfig_cfg ck c b0 Hi) as (Ec & Ef & El & _).
  destruct (initService_run k (set_base b0 (new_service c)) Hp Hd Ef El) as (b & Eb & Eau & Hb & Hr).
  cbn [base set_base] in *. rewrite Ec in Eb, Hb, Hr. fold c' in Eb, Hb, Hr.
  exists b. split_and!; [done|done|done|]. unfold Start_body.
  unfold mbind at 1, io_bind at 1. cbn [base new_service New cfg]. rewrite Hi.
  unfold mbind at 1, io_bind at 1. rewrite Hr. change (set_base b (set_base b0 (new_service c))) with (set_base b (new_service c)).
  unfold mbind, io_bind.
  generalize (set_base b (new_service c)). intros s0.
  generalize (if 0 <? len (Parent c') then match directFile k with Some (Fail e) => Some e | _ => None end else None). intros err.
  generalize (if uses_ssh c' then init_ssh (M := M) gcdx k else mret tt). intros m.
  destruct (m s0) as [[[]|e|] s1]; [|done..]. by destruct err.
Qed.
End Body.

Lemma init_ssh_fails {R : Type} `{!NameResolver R} {M : Type -> Type} `{!ConcurrentMap M}
    (gcdx : Z -> Z -> Z) (k : resources (R := R)) (s : service (R := R) (M := M)) :
  (forall a, is_ok (dialSSH k a) = false) ->
  match init_ssh gcdx k s with
  | (Ok _, _) => False
  | (_, s2) => ssh_client s2 = ssh_client s /\ cfg (base s2) = cfg (base s)
  end.
Proof.
  intros Hd. unfold init_ssh. destruct (lb (base s)) as [b|]; [|done].
  destruct (Balanced_Select gcdx (rnd0 k) [] b) as [[a|e|] b']; [|done..].
  unfold mbind, io_bind, io_lift, io_wrap. specialize (Hd (Resolve (domainResolver (base s)) a)).
  by destruct (dialSSH k _).
Qed.

(** * Properties *)

(** What [Start] of the SOCKS5 service comes to.  Without ssh: the error of the
    configuration or of the listener is returned, and so is that of the direct
    table, which is only logged; an unreadable proxy table or file of users stops
    nothing.  With ssh every such error is a panic, in the [Stop] that [Start]
    defers, until an ssh connection is made; without a parent there never is one.
    A service that has started listens, has the authentication center of its
    configuration, and, with parents, a filter and a balancer; one that has
    returned an error does not listen and its context is cancelled. *)
Theorem Start_outcome {R : Type} `{!NameResolver R} {M : Type -> Type} `{!ConcurrentMap M} {CR : Crypto}
    (gcdx : Z -> Z -> Z) (ck : checks) (k : resources (R := R)) (listen : outcome unit) (c : Config)
    (o : outcome unit) (s' : service (R := R) (M := M)) :
  proxyFile k <> Some Panic -> directFile k <> Some Panic -> listen <> Panic ->
  Start gcdx ck k listen (new_service c) = (o, s') ->
  let c' := drop_empty_parent c in
  let table_error := if 0 <? len (Parent c') then match directFile k with Some (Fail e) => Some e | _ => None end else None in
  (match inspectConfig (R := R) (M := M) ck c with
   | Panic => o = Panic
   | Fail e => o = if uses_ssh c' then Panic else Fail e
   | Ok b =>
       if uses_ssh c' then Parent c' = [] \/ (forall a, is_ok (dialSSH k a) = false) -> o = Panic
       else o = match table_error with Some e => Fail e | None => listen end /\
         (o = Ok tt -> basicAuthCenter (base s') = (init_auth (auth k)
            (if bool_decide (DNSAddr c' = []) then None else Some (resolver_of k (DNSAddr c')))).1 /\
          (Parent c' <> [] -> exists f l, filters (base s') = Some f /\ lb (base s') = Some l /\
             LoadBalance.reachable gcdx l /\
             map Addr (upstreams l) = filter (fun a => is_ok (SplitHostPort a) = true) (map entry_addr (Parent c'))))
   end) /\
  (o = Ok tt -> channel s' = Some true) /\
  (forall e, o = Fail e -> channel s' <> Some true /\ cancelled s' = true).
Proof.
  intros Hp Hd Hls Hr c' table_error. unfold Start in Hr.
  assert (Hfail : forall e s1, (Stop;; io_fail e) s1 = (o, s') ->
    o = (if uses_ssh (cfg (base s1)) && negb (bool_decide (is_Some (ssh_client s1))) then Panic else Fail e) /\
    (forall e', o = Fail e' -> channel s' <> Some true /\ cancelled s' = true)).
  { intros e s1 H. pose proof (Stop_outcome s1) as E. unfold mbind, io_bind in H.
    destruct (Stop s1) as [[[]|e'|] s2] eqn:Es; cbn [fst] in E; injection H as <- <-;
      destruct (uses_ssh (cfg (base s1)) && negb (bool_decide (is_Some (ssh_client s1)))); try done.
    split; [done|]. intros _ _. by apply Stop_closes_channel in Es as (H1 & H2 & _). }
  destruct (inspectConfig ck c) as [b0|e|] eqn:Ei.
  2: { unfold Start_body in Hr. unfold mbind at 1, io_bind at 1 in Hr. cbn [base new_service New cfg] in Hr. rewrite Ei in Hr.
       apply Hfail in Hr as [-> H]. cbn [base set_base New cfg ssh_client new_service]. fold c'.
       split_and!; [by destruct (uses_ssh c')|by destruct (uses_ssh c')|exact H]. }
  2: { unfold Start_body in Hr. unfold mbind at 1, io_bind at 1 in Hr. cbn [base new_service New cfg] in Hr. rewrite Ei in Hr.
       injection Hr as <- <-. by split_and!. }
  destruct (Start_run gcdx ck k listen c b0 Hp Hd Ei) as (b & Eb & Eau & Hb & E). fold c' in Eb, Hb, E. fold table_error in E.
  rewrite E in Hr. clear E.
  pose proof (inspectConfig_cfg ck c b0 Ei) as (Ec & _ & _ & _ & _ & Edr).
  set (m := if uses_ssh c' then init_ssh gcdx k else mret tt) in Hr.
  set (s0 := set_base b (new_service c)) in *.
  set (body := (m;; _) s0) in Hr.
  assert (Hok : forall s1, body = (Ok tt, s1) -> channel s1 = Some true).
  { intros s1 H. unfold body in H. apply bind_inv in H as (x1 & y1 & _ & H). apply bind_inv in H as (x2 & y2 & _ & H).
    apply bind_inv in H as (x3 & y3 & _ & H). by injection H as <-. }
  assert (Hend : (o = Ok tt -> channel s' = Some true) /\ (forall e, o = Fail e -> channel s' <> Some true /\ cancelled s' = true)).
  { destruct body as [[[]|e|] s1] eqn:E; [| |by injection Hr as <- <-].
    - injection Hr as <- <-. split; [by intros _; apply Hok|done].
    - apply Hfail in Hr as [Ho Hc]. split; [|exact Hc]. destruct (_ && _); congruence. }
  destruct Hend as [Hend1 Hend2]. split_and!; [|exact Hend1|exact Hend2]. clear Hend1 Hend2 Hok.
  destruct (uses_ssh c') eqn:Essh.
  - intros [Hp0|Hssh].
    + assert (Em : m s0 = (Panic, s0)).
      { unfold m, init_ssh. unfold s0 at 1. cbn [base set_base]. rewrite Hp0 in Hb. cbn in Hb. by rewrite (proj2 Hb). }
      assert (E : body = (Panic, s0)) by (unfold body; by rewrite (bind_panic _ _ _ _ Em)). rewrite E in Hr. by injection Hr as <- _.
    + pose proof (init_ssh_fails gcdx k s0 Hssh) as Hx. change (init_ssh gcdx k) with m in Hx.
      destruct (m s0) as [[[]|e|] s1] eqn:Em; [done| |].
      * assert (E : body = (Fail e, s1)) by (unfold body; by rewrite (bind_fail _ _ _ _ _ Em)). rewrite E in Hr.
        apply Hfail in Hr as [-> _]. destruct Hx as [Hx1 Hx2]. rewrite Hx1, Hx2. cbn. by rewrite Eb, Essh.
      * assert (E : body = (Panic, s1)) by (unfold body; by rewrite (bind_panic _ _ _ _ Em)). rewrite E in Hr. by injection Hr as <- _.
  - assert (Eauth : basicAuthCenter b = (init_auth (auth k)
      (if bool_decide (DNSAddr c' = []) then None else Some (resolver_of k (DNSAddr c')))).1).
    { rewrite Eau, init_base_auth by done. by rewrite Ec. }
    assert (Hpar : Parent c' <> [] -> exists f l, filters b = Some f /\ lb b = Some l /\ LoadBalance.reachable gcdx l /\
      map Addr (upstreams l) = filter (fun a => is_ok (SplitHostPort a) = true) (map entry_addr (Parent c'))).
    { intros Hne. destruct (Parent c'); [done|exact Hb]. }
    assert (Hnossh : forall e s1, uses_ssh (cfg (base s1)) = false -> (Stop;; io_fail e) s1 = (o, s') -> o = Fail e).
    { intros e s1 H1 H2. apply Hfail in H2 as [-> _]. by rewrite H1. }
    assert (Hs0 : uses_ssh (cfg (base s0)) = false) by (cbn; by rewrite Eb).
    destruct table_error as [e|].
    + assert (E : body = (Fail e, s0)) by done. rewrite E in Hr. apply Hnossh in Hr as ->; [|done]. by split.
    + destruct listen as [[]|e|]; [|assert (E : body = (Fail e, s0)) by done; rewrite E in Hr; apply Hnossh in Hr as ->; [by split|done]|done].
      assert (E : body = (Ok tt, set_channel (Some true) s0)) by done. rewrite E in Hr. injection Hr as <- <-. split; [done|].
      intros _. by split.
Qed.

(** * Example *)

#[local] Existing Instances no_view SocksSvc.reverse.

Definition missing_direct : resources (R := unit) :=
  mkResources (fun _ => tt) (mkAuthConfig None [] [] 0 0 0) [] [] None (Some (Fail (ErrMsg "is a directory"))) (0, 0) false
    (fun _ => 0) (fun _ => Ok tt).

(** A direct table that is a directory keeps the service from starting. *)
Lemma Start_outcome_witness :
  (Start (M := gmap bytes) Z.gcd SocksSvc.no_errors missing_direct (Ok tt)
    (new_service (tcp_cfg [lit "1.2.3.4:1080"] [] []))).1 = Fail (ErrMsg "is a directory").
Proof.
  destruct (Start (M := gmap bytes) Z.gcd SocksSvc.no_errors missing_direct (Ok tt)
    (new_service (tcp_cfg [lit "1.2.3.4:1080"] [] []))) as [o s'] eqn:E.
  destruct (Start_outcome Z.gcd SocksSvc.no_errors missing_direct (Ok tt) (tcp_cfg [lit "1.2.3.4:1080"] [] []) o s')
    as [H _]; [discriminate|discriminate|discriminate|exact E|].
  destruct (inspectConfig (R := unit) (M := gmap bytes) SocksSvc.no_errors (tcp_cfg [lit "1.2.3.4:1080"] [] [])) as [b| |] eqn:Ei;
    [|vm_compute in Ei; discriminate Ei..].
  exact (proj1 H).
Defined.
