(* ===== verification/SocksUdp.v ===== *)
(** services/socks/udp.go: a UDP association of the SOCKS5 service, from the
    request to its relay.  The datagrams of github.com/thinkgos/go-socks5 are
    operations of a class; the relay is a state that its goroutines change in
    steps, each read of a socket being one.  The bytes written to the client to
    keep its connection alive are left out. *)
From S2P Require Import Prelude GoStrings GoNet GoIO Iface Binding BasicAuth Outil Filter LoadBalance Socks5 Route SocksSvc.
Open Scope Z_scope.

(** [statute.ParseDatagram], its user data, and the bytes of
    [statute.NewDatagram(addr, data)] *)
Class Datagrams := {
  ParseDatagram : bytes -> outcome bytes;
  NewDatagram : bytes -> bytes -> outcome bytes;
}.

Definition RepServerFailure : byte := z2b 1.

(** * Setting up *)
Section Open.
Context {R : Type} `{!NameResolver R} {M : Type -> Type} `{!ConcurrentMap M} {HC : HostClass}.
Context `{!Socks5Lib} (gcdx : Z -> Z -> Z).

(** The exchange with a parent over [targetConn] *)
Definition HandshakeSocksParent (net : network) (dstAddr : bytes) (auth : Auth) (fromSS : bool)
  : io (sstate R M) Client := fun s =>
  match targetConn s with
  | None => (Panic, s)
  | Some t =>
      let a := option_map (fun a => Socks5.mkAuth (User a) (Password a)) (proxyAuth auth fromSS (srv s)) in
      let '(o, t) := Client_Handshake (NewClient net dstAddr a []) t in
      (o, mkS (srv s) (writer s) (Some t) (dialed s))
  end.

(** [dialForUdp]: [parent] is how the dial of the parent ends, [dial_udp] that of
    the UDP dial; [targetConn] is its first result. *)
Definition dialForUdp (rnd : nat -> Z) (parent : outcome conn) (dial_udp : bytes -> outcome nat)
    (useProxy : bool) (request : Request) : io (sstate R M) nat :=
  target ← (if useProxy then
      lbAddr ← on_lb (Balanced_Select gcdx rnd (RemoteAddr request));
      log_dial (DialDirect lbAddr None);;
      t ← io_lift parent;
      io_modify (fun s => mkS (srv s) (writer s) (Some t) (dialed s));;
      client ← HandshakeSocksParent udp (DestAddr request) (AuthPayload request) false;
      mret (UDPAddr client)
    else mret (DestAddr request));
  io_lift (dial_udp target).

Definition set_user (a : bytes) (id : nat) : io (sstate R M) unit :=
  on_srv (fun s => set_users (<[a := id]> (userConns s)) (closed_ s) s).
Definition drop_user (a : bytes) : io (sstate R M) unit :=
  on_srv (fun s => set_users (delete a (userConns s)) (closed_ s) s).

(** [proxyUDP] up to its goroutines; [local] is the local address of the
    connection to the parent, [bind] what the UDP listener gets.  The result is
    the UDP connection to the target and whether it is the parent's. *)
Definition proxyUDP_open (me parent_id : nat) (now : Z) (rnd : nat -> Z) (parent : outcome conn) (local : bytes)
    (dial_udp : bytes -> outcome nat) (bind : outcome bytes) (request : Request) : io (sstate R M) (nat * bool) :=
  c ← gets_srv cfg;
  if is_ssh c then io_fail (ErrMsg "ssh not support udp")
  else
    resolver ← gets_srv domainResolver;
    useProxy ← (if 0 <? len (Parent c)
                then on_filters (socks_isUseProxy (Parent c) (Always c) now resolver (DestAddr request))
                else mret false);
    d ← io_try (dialForUdp rnd parent dial_udp useProxy request);
    match d with
    | inr err =>
        io_wrap "failed to send reply, %v" (on_writer (Write (reply_bytes (fail_reply err) None)));;
        io_fail (ErrWrap "connect to %v failed, %v" err)
    | inl target =>
        t ← io_gets targetConn;
        match t with
        | None => io_panic                (** [outConn.LocalAddr()] of nil *)
        | Some _ =>
            set_user local parent_id;;
            let clean {A} (m : io (sstate R M) A) : io (sstate R M) A :=
              r ← io_try m;
              match r with
              | inl a => mret a
              | inr e => drop_user local;; close_target;; io_fail e
              end in
            clean (match bind with
              | Fail e =>
                  io_wrap "failed to send reply, %v" (on_writer (Write (reply_bytes RepServerFailure None)));;
                  io_fail (ErrWrap "listen udp failed, %v" e)
              | Panic => io_panic
              | Ok addr =>
                  io_wrap "failed to send reply, %v" (on_writer (Write (reply_bytes RepSuccess (Some addr))));;
                  set_user (RemoteAddr request) me;;
                  mret (target, useProxy)
              end)
        end
    end.

End Open.

(** The last loop of [proxyUDP], which reads the client's connection a byte at a
    time; [None] when it goes on after [fuel] reads *)
Fixpoint watch (fuel : nat) (r : reader) : option error :=
  match fuel with
  | O => None
  | S fuel =>
      match Read 1 r with
      | (Fail ErrClosed, _) => Some ErrClosed
      | (_, r) => watch fuel r
      end
  end.

(** * The relay *)
Section Relay.
Context `{!Crypto} `{!Datagrams} {R : Type} `{!NameResolver R} {M : Type -> Type} `{!ConcurrentMap M}.
Context (sv : Socks R M) (useProxy : bool) (srcIP targetAddr : bytes).

(** [known] are the keys of [udpRelatedPacketConns], which all associations of the
    service share; [copiers] the sources of the
    goroutines that copy from the target; [to_target] and [to_client] what was
    written to either socket. *)
Record assoc := mkAssoc {
  known : gset bytes;
  copiers : list bytes;
  to_target : list bytes;
  to_client : list (bytes * bytes);
  target_closed : bool;
  bind_closed : bool;
  reading : bool;                (** the loop on the clients' socket *)
}.

(** A new association finds the table as the others have left it. *)
Definition assoc_init (known0 : gset bytes) : assoc := mkAssoc known0 [] [] [] false false true.

(** The loop returns: both sockets are closed. *)
Definition stop_reading (s : assoc) : assoc :=
  mkAssoc (known s) (copiers s) (to_target s) (to_client s) true true false.

(** [SetIfAbsent] reports whether it set the value: the copier is started when it
    did not. *)
Definition register (src : bytes) (s : assoc) : assoc :=
  if bool_decide (src ∈ known s)
  then mkAssoc (known s) (copiers s ++ [src]) (to_target s) (to_client s) (target_closed s) (bind_closed s) (reading s)
  else mkAssoc ({[src]} ∪ known s) (copiers s) (to_target s) (to_client s) (target_closed s) (bind_closed s) (reading s).

Definition send_target (b : bytes) (s : assoc) : assoc :=
  mkAssoc (known s) (copiers s) (to_target s ++ [b]) (to_client s) (target_closed s) (bind_closed s) (reading s).
Definition send_client (p : bytes * bytes) (s : assoc) : assoc :=
  mkAssoc (known s) (copiers s) (to_target s) (to_client s ++ [p]) (target_closed s) (bind_closed s) (reading s).

(** A datagram of a client, its user data when it is one *)
Definition local_data (data : bytes) : outcome (bytes * bytes) :=
  raw ← localData2Raw data sv;
  pk ← ParseDatagram raw;
  Ok (raw, pk).

(** One turn of the loop on the clients' socket; [w] is how the write ends. *)
Definition from_client (src data : bytes) (w : option error) (s : assoc) : outcome assoc :=
  if negb (bool_decide (host_of src = srcIP)) then Ok s
  else
    match local_data (take 4096 data) with
    | Panic => Panic
    | Fail _ => Ok s
    | Ok (raw, pk) =>
        let s := register src s in
        match (if useProxy then raw2ParentData raw sv else Ok pk) with
        | Panic => Panic
        | Fail _ => Ok s
        | Ok out =>
            match (if target_closed s then Some ErrClosed else w) with
            | None => Ok (send_target out s)
            | Some e => Ok (if bool_decide (e = ErrClosed) then stop_reading s else s)
            end
        end
    end.

(** What a copier makes of a datagram of the target *)
Definition for_client (data : bytes) : outcome bytes :=
  raw ← (if useProxy then parentData2Raw data sv else NewDatagram targetAddr data);
  raw2LocalData raw sv.

(** One turn of the copier [i] *)
Definition copier_ends (i : nat) (src : bytes) (s : assoc) : assoc :=
  mkAssoc (known s ∖ {[src]}) (delete i (copiers s)) (to_target s) (to_client s) true true (reading s).

Definition from_target (i : nat) (src : bytes) (r : bytes + error) (w : option error) (s : assoc) : outcome assoc :=
  match (if target_closed s then inr ErrClosed else r) with
  | inr e => Ok (if bool_decide (e = ErrClosed) then copier_ends i src s else s)
  | inl data =>
      match for_client (take 4096 data) with
      | Panic => Panic
      | Fail _ => Ok s
      | Ok d =>
          match (if bind_closed s then Some ErrClosed else w) with
          | None => Ok (send_client (src, d) s)
          | Some e => Ok (if bool_decide (e = ErrClosed) then copier_ends i src s else s)
          end
      end
  end.

Inductive event :=
  | Client (src data : bytes) (w : option error)
  | ClientError (e : error)
  | Target (i : nat) (r : bytes + error) (w : option error)
  | Elsewhere (src : bytes) (entered : bool).   (** another association enters or removes [src] *)

(** A panic of a goroutine ends the process: there is no step. *)
Definition to_option {A} (o : outcome A) : option A := match o with Ok a => Some a | _ => None end.

Definition step (e : event) (s : assoc) : option assoc :=
  match e with
  | Client src data w => if reading s then to_option (from_client src data w s) else None
  | ClientError e =>
      if reading s then Some (if bool_decide (e = ErrClosed) then stop_reading s else s) else None
  | Target i r w => src ← copiers s !! i; to_option (from_target i src r w s)
  | Elsewhere src entered =>
      Some (mkAssoc (if entered then {[src]} ∪ known s else known s ∖ {[src]}) (copiers s) (to_target s) (to_client s)
              (target_closed s) (bind_closed s) (reading s))
  end.

Fixpoint run (es : list event) (s : assoc) : option assoc :=
  match es with [] => Some s | e :: es => s ← step e s; run es s end.

End Relay.

(** * Laws *)
Section Laws.
Context {CR : Crypto} {DG : Datagrams} {R : Type} `{!NameResolver R} {M : Type -> Type} `{!ConcurrentMap M}.
Context (sv : Socks R M) (useProxy : bool) (srcIP targetAddr : bytes).
Implicit Types (s : assoc).

(** The datagrams of a source in a run *)
Definition sent_by (src : bytes) (es : list event) : nat :=
  length (List.filter (fun e => match e with Client a _ _ => bool_decide (a = src) | _ => false end) es).

Lemma sent_by_app (src : bytes) (es es' : list event) : sent_by src (es ++ es') = (sent_by src es + sent_by src es')%nat.
Proof. unfold sent_by. by rewrite List.filter_app, length_app. Qed.

(** Another association has entered a source. *)
Definition foreign (known0 : gset bytes) (src : bytes) (es : list event) : Prop :=
  src ∈ known0 \/ Elsewhere src true ∈ es.

Lemma foreign_app (known0 : gset bytes) (src : bytes) (es es' : list event) :
  foreign known0 src es -> foreign known0 src (es ++ es').
Proof. intros [H|H]; [by left|right; apply elem_of_app; by left]. Qed.

(** A copier of a source is started by its second datagram at the earliest, unless
    another association has entered the source. *)
Definition enough (known0 : gset bytes) (es : list event) (src : bytes) : Prop :=
  (1 <= sent_by src es)%nat /\ ((2 <= sent_by src es)%nat \/ foreign known0 src es).
Record late (known0 : gset bytes) (es : list event) s : Prop := {
  late_known : forall src, src ∈ known s -> (1 <= sent_by src es)%nat \/ foreign known0 src es;
  late_copiers : forall src, src ∈ copiers s -> enough known0 es src;
  late_client : forall src d, (src, d) ∈ to_client s -> enough known0 es src;
}.

Lemma enough_app (known0 : gset bytes) (es es' : list event) (src : bytes) :
  enough known0 es src -> enough known0 (es ++ es') src.
Proof.
  intros [H1 H2]. unfold enough. rewrite sent_by_app. split; [lia|].
  destruct H2 as [H2|H2]; [left; lia|right; by apply foreign_app].
Qed.

Lemma late_mono (known0 : gset bytes) (es es' : list event) s : late known0 es s -> late known0 (es ++ es') s.
Proof.
  intros [H1 H2 H3]. split.
  - intros src [H|H]%H1; [left; rewrite sent_by_app; lia|right; by apply foreign_app].
  - intros src H%H2. by apply enough_app.
  - intros src d H%H3. by apply enough_app.
Qed.

Lemma sent_by_self (src data : bytes) (w : option error) (es : list event) :
  sent_by src (es ++ [Client src data w]) = S (sent_by src es).
Proof. rewrite sent_by_app. unfold sent_by at 2. cbn. rewrite bool_decide_true by done. cbn. lia. Qed.

Lemma late_register (known0 : gset bytes) (src data : bytes) (w : option error) (es : list event) s :
  late known0 es s -> late known0 (es ++ [Client src data w]) (register src s).
Proof.
  intros Hi. pose proof (late_mono _ _ [Client src data w] _ Hi) as [H1 H2 H3].
  unfold register. case_bool_decide as Hk; split; cbn; try done.
  - intros a [Ha|Ha]%elem_of_app; [by apply H2|]. apply list_elem_of_singleton in Ha as ->.
    unfold enough. rewrite sent_by_self. split; [lia|].
    apply (late_known _ _ _ Hi) in Hk as [Hk|Hk]; [left; lia|right; by apply foreign_app].
  - intros a [Ha|Ha]%elem_of_union; [|by apply H1]. apply elem_of_singleton in Ha as ->.
    left. rewrite sent_by_self. lia.
Qed.

Lemma late_from_client (known0 : gset bytes) (src data : bytes) (w : option error) (es : list event) s s' :
  late known0 es s -> from_client sv useProxy srcIP src data w s = Ok s' -> late known0 (es ++ [Client src data w]) s'.
Proof.
  intros Hi. pose proof (late_mono _ _ [Client src data w] _ Hi) as Hm.
  pose proof (late_register known0 src data w _ _ Hi) as Hr. unfold from_client.
  case_bool_decide; cbn [negb]; [|by intros [= <-]].
  destruct (local_data _ _) as [[raw pk]| |]; [|by intros [= <-]|done]. cbv zeta.
  destruct (if useProxy then _ else _) as [out| |]; [|by intros [= <-]|done].
  destruct (if target_closed _ then _ else _) as [e|]; intros [= <-]; [case_bool_decide|];
    by destruct Hr as [H1 H2 H3].
Qed.

Lemma delete_incl {A} (l : list A) (i : nat) x : x ∈ delete i l -> x ∈ l.
Proof. intros Hx. eapply elem_of_submseteq; [exact Hx|]. apply sublist_submseteq, sublist_delete. Qed.

Lemma late_ends (known0 : gset bytes) (es : list event) (i : nat) (src : bytes) s :
  late known0 es s -> late known0 es (copier_ends i src s).
Proof. intros [H1 H2 H3]. split; cbn; [set_solver| |done]. intros a Ha%delete_incl. by apply H2. Qed.

Lemma late_from_target (known0 : gset bytes) (es : list event) (i : nat) (src : bytes) (r : bytes + error) (w : option error) s s' :
  late known0 es s -> src ∈ copiers s -> from_target sv useProxy targetAddr i src r w s = Ok s' -> late known0 es s'.
Proof.
  intros Hi Hs. unfold from_target.
  destruct (if target_closed s then _ else _) as [data|e].
  - destruct (for_client _ _ _ _) as [d| |]; [|by intros [= <-]|done].
    destruct (if bind_closed s then _ else _) as [e|]; intros [= <-].
    + case_bool_decide; [by apply late_ends|done].
    + destruct Hi as [H1 H2 H3]. split; cbn; [done|done|]. intros a d' [Ha|Ha]%elem_of_app; [by eapply H3|].
      apply list_elem_of_singleton in Ha. injection Ha as -> ->. by apply H2.
  - intros [= <-]. case_bool_decide; [by apply late_ends|done].
Qed.

Lemma late_step (known0 : gset bytes) (e : event) (es : list event) s s' :
  late known0 es s -> step sv useProxy srcIP targetAddr e s = Some s' -> late known0 (es ++ [e]) s'.
Proof.
  intros Hi Hs. destruct e as [src data w|e|i r w|src b]; cbn [step] in Hs.
  - destruct (reading s); [|done]. destruct (from_client _ _ _ _ _ _ _) as [x| |] eqn:E; [|done..].
    injection Hs as <-. by eapply late_from_client.
  - destruct (reading s); [|done]. injection Hs as <-. apply (late_mono _ _ [ClientError e]) in Hi.
    case_bool_decide; [|done]. by destruct Hi as [H1 H2 H3].
  - destruct (copiers s !! i) as [src|] eqn:Ec; [|done]. cbn [mbind option_bind] in Hs.
    destruct (from_target _ _ _ _ _ _ _ _) as [x| |] eqn:E; [|done..]. injection Hs as <-.
    apply late_mono. eapply late_from_target; [done| |exact E]. by eapply list_elem_of_lookup_2.
  - injection Hs as <-. apply (late_mono _ _ [Elsewhere src b]) in Hi as [H1 H2 H3]. split; [|done..]. cbn.
    destruct b; [|set_solver]. intros a [Ha|Ha]%elem_of_union; [|by apply H1]. apply elem_of_singleton in Ha as ->.
    right. right. set_solver.
Qed.

Lemma late_run (known0 : gset bytes) (es0 es : list event) s s' :
  late known0 es0 s -> run sv useProxy srcIP targetAddr es s = Some s' -> late known0 (es0 ++ es) s'.
Proof.
  revert es0 s. induction es as [|e es IH]; intros es0 s Hi Hr; cbn [run] in Hr.
  { injection Hr as <-. by rewrite app_nil_r. }
  destruct (step _ _ _ _ e s) as [s1|] eqn:E; [|done].
  rewrite cons_middle, app_assoc. eapply IH; [|exact Hr]. by eapply late_step.
Qed.

(** A datagram that is accepted and goes out as [out] *)
Definition passes_as (data out : bytes) : Prop :=
  exists raw pk, local_data sv (take 4096 data) = Ok (raw, pk) /\
    (if useProxy then raw2ParentData raw sv else Ok pk) = Ok out.

Lemma from_client_passes (src data out : bytes) s :
  host_of src = srcIP -> passes_as data out -> target_closed s = false ->
  from_client sv useProxy srcIP src data None s = Ok (send_target out (register src s)).
Proof.
  intros Hs (raw & pk & Hl & Ho) Ht. unfold from_client. rewrite bool_decide_true by done. cbn [negb].
  rewrite Hl, Ho. assert (E : target_closed (register src s) = target_closed s) by (unfold register; by case_bool_decide).
  by rewrite E, Ht.
Qed.

(** The datagrams of one source pile up copiers. *)
Lemma run_one_source (src : bytes) (ps : list (bytes * bytes)) s :
  host_of src = srcIP -> Forall (fun p => passes_as p.1 p.2) ps ->
  target_closed s = false -> reading s = true -> src ∈ known s ->
  run sv useProxy srcIP targetAddr (map (fun p => Client src p.1 None) ps) s =
    Some (mkAssoc (known s) (copiers s ++ replicate (length ps) src) (to_target s ++ map snd ps) (to_client s)
            false (bind_closed s) true).
Proof.
  intros Hs. revert s. induction ps as [|[d o] ps IH]; intros s Hp Ht Hr Hk; cbn [map run length replicate].
  { rewrite !app_nil_r. destruct s. cbn in *. by subst. }
  apply Forall_cons in Hp as [Hd Hp]. cbn [step fst snd] in *. rewrite Hr.
  rewrite (from_client_passes src d o s) by done. cbn [to_option mbind option_bind].
  unfold register. rewrite bool_decide_true by done. rewrite IH by done.
  cbn. by rewrite <- !app_assoc.
Qed.
End Laws.

(** * Properties *)

(** C38: the first datagram is not answered.  Unless another association has left a
    client in the table that they share, it gets nothing back before it has sent a
    second datagram, because only that one starts a copier; and every further one
    starts another: after [n] datagrams of one source [n - 1] of them read from the
    target, or [n] when the source was in the table already.  That happens: only
    copiers remove entries, so the entry of a source that sent one datagram is still
    there when the association has ended, with nothing left in it that would remove
    it, and the next association finds it. *)
Theorem copier_starts_late {CR : Crypto} {DG : Datagrams} {R : Type} `{!NameResolver R} {M : Type -> Type}
    `{!ConcurrentMap M} (sv : Socks R M) (useProxy : bool) (srcIP targetAddr src : bytes) (known0 : gset bytes)
    (es : list event) (s : assoc) (ps : list (bytes * bytes)) :
  run sv useProxy srcIP targetAddr es (assoc_init known0) = Some s ->
  host_of src = srcIP -> Forall (fun p => passes_as sv useProxy p.1 p.2) ps ->
  (forall a d, (a, d) ∈ to_client s ->
     (1 <= sent_by a es)%nat /\ ((2 <= sent_by a es)%nat \/ a ∈ known0 \/ Elsewhere a true ∈ es)) /\
  exists s', run sv useProxy srcIP targetAddr (map (fun p => Client src p.1 None) ps) (assoc_init known0) = Some s' /\
    to_target s' = map snd ps /\ to_client s' = [] /\
    copiers s' = replicate (if bool_decide (src ∈ known0) then length ps else pred (length ps)) src /\
    (src ∉ known0 -> length ps = 1%nat -> exists s2, step sv useProxy srcIP targetAddr (ClientError ErrClosed) s' = Some s2 /\
       target_closed s2 = true /\ reading s2 = false /\ copiers s2 = [] /\ src ∈ known s2).
Proof.
  intros Hr Hs Hp. split.
  - refine (late_client _ _ _ (late_run sv useProxy srcIP targetAddr known0 [] es (assoc_init known0) s _ Hr)).
    split; cbn; [|set_solver..]. intros a Ha. by right; left.
  - destruct (decide (src ∈ known0)) as [Hk|Hk].
    + rewrite bool_decide_true by done. eexists. split; [by apply run_one_source|]. split_and!; try done.
    + rewrite bool_decide_false by done. destruct ps as [|[d o] ps]; [by eexists|].
      apply Forall_cons in Hp as [Hd Hp]. cbn [fst snd] in Hd. eexists. split.
      * cbn [map run step assoc_init reading fst snd].
        rewrite (from_client_passes sv useProxy srcIP src d o) by done. cbn [to_option mbind option_bind].
        unfold register. rewrite bool_decide_false by done.
        rewrite run_one_source; [reflexivity|done..|cbn; set_solver].
      * split_and!; try done. intros _ Hl. destruct ps; [|done]. cbn. eexists. split_and!; [done..|]. cbn. set_solver.
Qed.

(** C39: an association outlives its client.  The loop that waits for the client's
    connection ends only when the service itself has closed that connection: the
    client may hang up, or its connection fail in any other way. *)
Theorem watch_ends_iff (r : reader) :
  (exists fuel e, watch fuel r = Some e) <-> RErr ErrClosed ∈ r.
Proof.
  split.
  - intros (fuel & e & H). revert r H. induction fuel as [|fuel IH]; intros r H; cbn [watch] in H; [done|].
    destruct r as [|[b|e'] r]; cbn [Read] in H.
    + by apply IH in H.
    + destruct (Nat.leb (length b) 1).
      * apply IH in H. set_solver.
      * apply IH in H. apply elem_of_cons in H as [?|H]; [done|]. set_solver.
    + destruct e'; try (apply IH in H; set_solver). set_solver.
  - induction r as [|[b|e] r IH]; intros H; [by apply not_elem_of_nil in H| |].
    + apply elem_of_cons in H as [?|H]; [done|]. destruct (IH H) as (fuel & e & E).
      revert b. assert (G : forall n b, (length b <= n)%nat -> exists fuel e, watch fuel (Seg b :: r) = Some e).
      { induction n as [|n IHn]; intros b Hb.
        - exists (S fuel), e. cbn [watch Read]. by rewrite (proj2 (Nat.leb_le (length b) 1)) by lia.
        - destruct (Nat.leb_spec (length b) 1) as [Hl|Hl].
          + exists (S fuel), e. cbn [watch Read]. by rewrite (proj2 (Nat.leb_le (length b) 1)) by lia.
          + destruct (IHn (drop 1 b)) as (f & e' & E'); [rewrite length_drop; lia|].
            exists (S f), e'. cbn [watch Read]. by rewrite (proj2 (Nat.leb_gt (length b) 1)) by lia. }
      intros b. by apply (G (length b)).
    + apply elem_of_cons in H as [[= <-]|H]; [by exists 1%nat, ErrClosed|].
      destruct (IH H) as (fuel & e' & E). destruct (decide (e = ErrClosed)) as [->|He]; [by exists 1%nat, ErrClosed|].
      exists (S fuel), e'. cbn [watch Read]. by destruct e.
Qed.

(** Without a parent there is no UDP.  An association that is not sent
    through a parent crashes its handler as soon as the target is dialed: the
    address of a connection that was never made is asked for. *)
Theorem direct_panics {R : Type} `{!NameResolver R} {M : Type -> Type} `{!ConcurrentMap M} {HC : HostClass}
    `{!Socks5Lib} (gcdx : Z -> Z -> Z) (me parent_id k : nat) (now : Z) (rnd : nat -> Z) (parent : outcome conn)
    (local : bytes) (dial_udp : bytes -> outcome nat) (bind : outcome bytes) (request : Request) (s : sstate R M) :
  Parent (cfg (srv s)) = [] -> is_ssh (cfg (srv s)) = false -> targetConn s = None ->
  dial_udp (DestAddr request) = Ok k ->
  proxyUDP_open gcdx me parent_id now rnd parent local dial_udp bind request s = (Panic, s).
Proof.
  intros Hp Hs Ht Hd. unfold proxyUDP_open, gets_srv. rewrite bind_gets, Hs, bind_gets, Hp. cbn [length Z.of_nat Z.ltb Z.compare].
  rewrite (bind_ok _ _ s s false) by done.
  rewrite (bind_ok _ _ s s (inl k)).
  2: { unfold io_try, dialForUdp, mbind, io_bind, io_lift. cbn. by rewrite Hd. }
  rewrite bind_gets, Ht. done.
Qed.

(** * Examples *)

#[local] Existing Instances no_view no_class plain_replies reverse.
(** Datagrams without a header *)
#[local] Instance bare : Datagrams := {| ParseDatagram := fun b => Ok b; NewDatagram := fun _ b => Ok b |}.

Definition sample_socks : Socks unit (gmap bytes) := New (tcp_cfg [lit "1.2.3.4:1080"] [] []).
Definition sample_events : list event :=
  [Client (lit "10.0.0.9:5000") (lit "a") None; Client (lit "10.0.0.9:5000") (lit "b") None;
   Target 0 (inl (lit "c")) None].
Definition sample_assoc : assoc :=
  default (assoc_init ∅) (run sample_socks true (lit "10.0.0.9") (lit "1.2.3.4:9000") sample_events (assoc_init ∅)).

Lemma copier_starts_late_witness :
  (lit "10.0.0.9:5000", lit "c") ∈ to_client sample_assoc /\
  (2 <= sent_by (lit "10.0.0.9:5000") sample_events)%nat.
Proof.
  assert (Hr : run sample_socks true (lit "10.0.0.9") (lit "1.2.3.4:9000") sample_events (assoc_init ∅) = Some sample_assoc)
    by (vm_compute; reflexivity).
  assert (Hin : (lit "10.0.0.9:5000", lit "c") ∈ to_client sample_assoc)
    by (apply (bool_decide_eq_true_1 _); vm_compute; reflexivity).
  split; [exact Hin|].
  destruct (copier_starts_late sample_socks true (lit "10.0.0.9") (lit "1.2.3.4:9000") (lit "10.0.0.9:5000")
    ∅ sample_events sample_assoc [(lit "a", lit "a")] Hr) as [H _].
  - vm_compute. reflexivity.
  - constructor; [|constructor]. exists (lit "a"), (lit "a"). split; vm_compute; reflexivity.
  - destruct (H _ _ Hin) as [_ [H2|[H2|H2]]]; [exact H2| |].
    + apply not_elem_of_empty in H2. destruct H2.
    + repeat (apply elem_of_cons in H2 as [H2|H2]; [discriminate H2|]). by apply not_elem_of_nil in H2.
Defined.

Lemma direct_panics_witness :
  proxyUDP_open Z.gcd 1 2 0 (fun _ => 0) (Ok (conn_of [])) (lit "10.0.0.1:40000") (fun _ => Ok 5%nat)
    (Ok (lit "0.0.0.0:7000")) sample_req sample_s = (Panic, sample_s).
Proof.
  apply (direct_panics Z.gcd 1 2 5 0 (fun _ => 0) (Ok (conn_of [])) (lit "10.0.0.1:40000") (fun _ => Ok 5%nat)
    (Ok (lit "0.0.0.0:7000")) sample_req sample_s); reflexivity.
Defined.
