(* ===== verification/Sps.v ===== *)
(** services/sps: the service that takes HTTP, SOCKS5 and shadowsocks clients on
    one port and sends them all through parents of one kind.  The parts it puts
    together are modelled in Httpc, Socks5, Shadowsocks, Enet, Sni and
    LoadBalance.  Connections are seen behind their own encryption and
    compression; dials, certificates, listeners, MD5 and AES are inputs; the
    copying of the joined connections is left out.  The UDP relays of the service
    are in SpsUdp. *)
From S2P Require Import Prelude GoStrings GoNet GoIO GoBase64 Iface Outil Enet Sni Shadowsocks LoadBalance Httpc Cs Socks5 Route.
Open Scope Z_scope.

(** The entries of [Config] the model uses *)
Record Config := mkConfig {
  ParentType : bytes; Parent : list bytes; ParentKey : bytes; ParentAuth : bytes;
  ParentTLSSingle : bool;
  LocalType : bytes; Local : bytes; LocalKey : bytes; CaCertFile : bytes; KcpKey : bytes;
  DNSAddr : bytes;
  LbMethod : bytes; LbTimes : Z * Z; HashTarget : bool;
  ParentServiceType : bytes; ParentSSMethod : bytes; ParentSSKey : bytes;
  SSMethod : bytes; SSKey : bytes;
  DisableHTTP : bool; DisableSocks5 : bool; DisableSS : bool;
  RateLimit : bytes; LocalIPS : list bytes; RawProxyURL : bytes; Debug : bool;
}.

(** A connection, plain or wrapped by shadowsocks *)
Inductive wire `{Encrypt} := Plain (c : conn) | Ss (s : Shadowsocks.Conn).

Definition wire_conn `{Encrypt} (w : wire) : conn :=
  match w with Plain c => c | Ss s => inner s end.

Definition wire_Write `{Encrypt} (b : bytes) : io wire unit := fun w =>
  match w with
  | Plain c => let '(o, c) := Write b c in (o, Plain c)
  | Ss s =>
      let '(o, s) := Conn_Write b s in
      (match o with Ok _ => Ok tt | Fail e => Fail e | Panic => Panic end, Ss s)
  end.

Definition wire_Close `{Encrypt} (w : wire) : wire :=
  match w with
  | Plain c => Plain (Close c).2
  | Ss s => Ss (Conn_Close s).2
  end.

(** What the tables of the service hold and [Stop] closes: a listener, a
    connection, a pointer to a connection variable, a UDP socket *)
Inductive handle_ := HListener (addr : bytes) | HConn (id : nat) | HPtr (id : nat) | HUdp (id : nat).

Section Sps.
Context {R : Type} `{!NameResolver R} {C : Type} `{!Authenticator C} {EN : Encrypt} {CR : Crypto}.
Context (gcdx : Z -> Z -> Z) (url_host : bytes -> option bytes) (rune_cap : Z -> Z).

Record SPS := mkSPS {
  cfg : Config;
  tlsKey : option bytes;                    (** [cfg.tcpTlsConfig.Key] *)
  domainResolver : option R;
  basicAuthCenter : option C;
  serverChannels : list bytes;
  userConns : gmap bytes handle_;
  localCipher : option Cipher;
  parentCipher : option Cipher;
  udpRelatedPacketConns : gmap bytes nat;
  lb : option (Balanced R);
  udpLocalKey : bytes;
  udpParentKey : bytes;
  parentAuthData : gmap bytes bytes;
  parentCipherData : gmap bytes Cipher;
  closed_ : list handle_;                   (** closed by [Stop] or through a table *)
}.

Definition New (cfg : Config) : SPS :=
  mkSPS cfg None None None [] ∅ None None ∅ None [] [] ∅ ∅ [].

Definition set_cfg c s := mkSPS c (tlsKey s) (domainResolver s) (basicAuthCenter s) (serverChannels s)
  (userConns s) (localCipher s) (parentCipher s) (udpRelatedPacketConns s) (lb s) (udpLocalKey s)
  (udpParentKey s) (parentAuthData s) (parentCipherData s) (closed_ s).
Definition set_tlsKey k s := mkSPS (cfg s) k (domainResolver s) (basicAuthCenter s) (serverChannels s)
  (userConns s) (localCipher s) (parentCipher s) (udpRelatedPacketConns s) (lb s) (udpLocalKey s)
  (udpParentKey s) (parentAuthData s) (parentCipherData s) (closed_ s).
Definition set_services d a s := mkSPS (cfg s) (tlsKey s) d a (serverChannels s)
  (userConns s) (localCipher s) (parentCipher s) (udpRelatedPacketConns s) (lb s) (udpLocalKey s)
  (udpParentKey s) (parentAuthData s) (parentCipherData s) (closed_ s).
Definition set_channels l s := mkSPS (cfg s) (tlsKey s) (domainResolver s) (basicAuthCenter s) l
  (userConns s) (localCipher s) (parentCipher s) (udpRelatedPacketConns s) (lb s) (udpLocalKey s)
  (udpParentKey s) (parentAuthData s) (parentCipherData s) (closed_ s).
Definition set_users u l s := mkSPS (cfg s) (tlsKey s) (domainResolver s) (basicAuthCenter s)
  (serverChannels s) u (localCipher s) (parentCipher s) (udpRelatedPacketConns s) (lb s)
  (udpLocalKey s) (udpParentKey s) (parentAuthData s) (parentCipherData s) l.
Definition set_ciphers l p s := mkSPS (cfg s) (tlsKey s) (domainResolver s) (basicAuthCenter s)
  (serverChannels s) (userConns s) l p (udpRelatedPacketConns s) (lb s)
  (udpLocalKey s) (udpParentKey s) (parentAuthData s) (parentCipherData s) (closed_ s).
Definition set_udp u s := mkSPS (cfg s) (tlsKey s) (domainResolver s) (basicAuthCenter s)
  (serverChannels s) (userConns s) (localCipher s) (parentCipher s) u (lb s)
  (udpLocalKey s) (udpParentKey s) (parentAuthData s) (parentCipherData s) (closed_ s).
Definition set_lb b s := mkSPS (cfg s) (tlsKey s) (domainResolver s) (basicAuthCenter s)
  (serverChannels s) (userConns s) (localCipher s) (parentCipher s) (udpRelatedPacketConns s) b
  (udpLocalKey s) (udpParentKey s) (parentAuthData s) (parentCipherData s) (closed_ s).
Definition set_keys l p s := mkSPS (cfg s) (tlsKey s) (domainResolver s) (basicAuthCenter s)
  (serverChannels s) (userConns s) (localCipher s) (parentCipher s) (udpRelatedPacketConns s) (lb s)
  l p (parentAuthData s) (parentCipherData s) (closed_ s).
Definition set_data a c s := mkSPS (cfg s) (tlsKey s) (domainResolver s) (basicAuthCenter s)
  (serverChannels s) (userConns s) (localCipher s) (parentCipher s) (udpRelatedPacketConns s) (lb s)
  (udpLocalKey s) (udpParentKey s) a c (closed_ s).

(** * Configuration *)

(** What [InspectConfig] is told: the key of the certificate, the CA file, the
    rate limit and the proxy URL *)
Record checks := mkChecks {
  cert : outcome bytes; ca : option error; rate : option error; proxy : option error;
}.

Definition fail_if (e : option error) : outcome unit :=
  match e with Some e => Fail e | None => Ok tt end.

(** The key of the parent's UDP data; a nil TLS key gives none. *)
Definition ParentUDPKey (s : SPS) : outcome bytes :=
  let c := cfg s in
  if bool_decide (ParentType c = lit "tcp") then
    if negb (bool_decide (ParentKey c = [])) then slice (md5hex (ParentKey c)) 0 24 else Ok []
  else if bool_decide (ParentType c = lit "tls") then
    match tlsKey s with Some k => slice k 0 24 | None => Ok [] end
  else if bool_decide (ParentType c = lit "kcp") then slice (md5hex (KcpKey c)) 0 24
  else Ok [].

(** The key of the clients' UDP data *)
Definition LocalUDPKey (s : SPS) : outcome bytes :=
  let c := cfg s in
  if bool_decide (LocalType c = lit "tcp") then
    if negb (bool_decide (LocalKey c = [])) then slice (md5hex (LocalKey c)) 0 24 else Ok []
  else if bool_decide (LocalType c = lit "tls") then slice (default [] (tlsKey s)) 0 24
  else if bool_decide (LocalType c = lit "kcp") then slice (md5hex (KcpKey c)) 0 24
  else Ok [].

Definition drop_empty_parent (c : Config) : Config :=
  if bool_decide (Parent c = [[]])
  then mkConfig (ParentType c) [] (ParentKey c) (ParentAuth c) (ParentTLSSingle c) (LocalType c)
         (Local c) (LocalKey c) (CaCertFile c) (KcpKey c) (DNSAddr c) (LbMethod c) (LbTimes c)
         (HashTarget c) (ParentServiceType c) (ParentSSMethod c) (ParentSSKey c) (SSMethod c)
         (SSKey c) (DisableHTTP c) (DisableSocks5 c) (DisableSS c) (RateLimit c) (LocalIPS c)
         (RawProxyURL c) (Debug c)
  else c.

Definition InspectConfig (k : checks) : io SPS unit :=
  io_modify (fun s => set_cfg (drop_empty_parent (cfg s)) s);;
  c ← io_gets cfg;
  if bool_decide (Parent c = []) then io_fail (ErrMsg "parent required for %s %s")
  else if bool_decide (ParentType c = []) then io_fail (ErrMsg "parent type unkown,use -T <tls|tcp|kcp>")
  else if bool_decide (ParentType c = lit "ss")
          && (bool_decide (ParentSSKey c = []) || bool_decide (ParentSSMethod c = []))
  then io_fail (ErrMsg "ss parent need a ss key, set it by : -J <sskey>")
  else
    (if bool_decide (ParentType c = lit "tls") || bool_decide (LocalType c = lit "tls") then
       (if negb (ParentTLSSingle c) then
          key ← io_lift (cert k);
          io_modify (set_tlsKey (Some key))
        else mret tt);;
       (if negb (bool_decide (CaCertFile c = [])) then io_lift (fail_if (ca k)) else mret tt)
     else mret tt);;
    (if negb (bool_decide (RateLimit c = lit "0")) && negb (bool_decide (RateLimit c = []))
     then io_lift (fail_if (rate k)) else mret tt);;
    lkey ← (s ← io_gets id; io_lift (LocalUDPKey s));
    io_modify (fun s => set_keys lkey (udpParentKey s) s);;
    pkey ← (s ← io_gets id; io_lift (ParentUDPKey s));
    io_modify (fun s => set_keys (udpLocalKey s) pkey s);;
    if negb (bool_decide (RawProxyURL c = [])) then
      if negb (bool_decide (ParentType c = lit "tls")) && negb (bool_decide (ParentType c = lit "tcp"))
      then io_fail (ErrMsg "proxyURL only worked of -T is tls or tcp")
      else io_lift (fail_if (proxy k))
    else mret tt.

(** * Parents *)

(** The credentials in front of a parent: base64 of user:password, or of
    method:key for shadowsocks parents *)
Inductive parent_data := NoData | AuthData (a : bytes) | CipherData (c : Cipher).

(** One entry of the parent list: what stands before the # and what follows it *)
Definition parent_entry (c : Config) (addr : bytes) : outcome (parent_data * bytes) :=
  match cut (lit "#") addr with
  | None => Ok (NoData, addr)
  | Some (s, rest) =>
      b ← DecodeString s;
      if bool_decide (ParentServiceType c = lit "ss") then
        let p := Split b (lit ":") in
        m ← idx p 0;
        k ← idx p 1;
        cipher ← NewCipher (if bool_decide (m = []) then ParentSSMethod c else m)
                           (if bool_decide (k = []) then ParentSSKey c else k);
        Ok (CipherData cipher, rest)
      else Ok (AuthData b, rest)
  end.

Definition store_data (addr : bytes) (d : parent_data) (s : SPS) : SPS :=
  match d with
  | NoData => s
  | AuthData a => set_data (<[addr := a]> (parentAuthData s)) (parentCipherData s) s
  | CipherData c => set_data (parentAuthData s) (<[addr := c]> (parentCipherData s)) s
  end.

(** The parents of the list; the configuration of each is made as by the other
    services. *)
Fixpoint init_parents (c : Config) (addrs : list bytes) : io SPS (list LoadBalance.Config) :=
  match addrs with
  | [] => mret []
  | addr :: rest =>
      '(d, info) ← io_lift (parent_entry c addr);
      a ← io_lift (idx (Split info (lit "@")) 0);
      io_modify (store_data a d);;
      config ← io_lift (parent_config (LbTimes c).1 (LbTimes c).2 info);
      configs ← init_parents c rest;
      mret (config :: configs)
  end.

(** What [InitService] is told: the resolver, and the authentication center;
    an error of its file is only logged. *)
Record resources := mkResources {
  resolver_of : bytes -> R;
  auth_of : option R -> option C;
}.

Definition InitService (k : resources) : io SPS unit :=
  c ← io_gets cfg;
  let resolver := if negb (bool_decide (DNSAddr c = [])) then Some (resolver_of k (DNSAddr c)) else None in
  io_modify (set_services resolver (auth_of k resolver));;
  (if 0 <? len (Parent c) then
     configs ← init_parents c (Parent c);
     b ← io_lift (LoadBalance.New std_registry (LbMethod c) configs
                    [WithDNSServer resolver; WithEnableDebug (Debug c)]);
     io_modify (set_lb (Some b))
   else mret tt);;
  (if negb (bool_decide (SSMethod c = [])) && negb (bool_decide (SSKey c = [])) then
     cipher ← io_lift (NewCipher (SSMethod c) (SSKey c));
     io_modify (fun s => set_ciphers (Some cipher) (parentCipher s) s)
   else mret tt);;
  if bool_decide (ParentServiceType c = lit "ss") then
    cipher ← io_lift (NewCipher (ParentSSMethod c) (ParentSSKey c));
    io_modify (fun s => set_ciphers (localCipher s) (Some cipher) s)
  else mret tt.

(** * Starting and stopping *)

(** [RunSSUDP(addr)] up to its loop; [bind] gives the socket. *)
Definition RunSSUDP (bind : bytes -> outcome nat) (addr : bytes) : io SPS unit :=
  id ← io_lift (bind addr);
  io_modify (fun s => set_udp (<[addr := id]> (udpRelatedPacketConns s)) s).

Fixpoint listen_all (listen : bytes -> outcome unit) (bind : bytes -> outcome nat)
    (addrs : list bytes) : io SPS unit :=
  match addrs with
  | [] => mret tt
  | addr :: rest =>
      (if bool_decide (addr = []) then mret tt
       else
         io_lift (listen addr);;
         io_modify (fun s => set_channels (serverChannels s ++ [addr]) s);;
         c ← io_gets cfg;
         if bool_decide (ParentServiceType c = lit "socks") then RunSSUDP bind addr else mret tt);;
      listen_all listen bind rest
  end.

Definition Start (ck : checks) (k : resources) (listen : bytes -> outcome unit)
    (bind : bytes -> outcome nat) : io SPS unit :=
  InspectConfig ck;;
  InitService k;;
  c ← io_gets cfg;
  listen_all listen bind (Split (Local c) (lit ",")).

(** [Stop] closes the connections of the table, but not what a pointer refers to. *)
Definition is_conn (h : handle_) : bool := match h with HConn _ => true | _ => false end.

Definition Stop (s : SPS) : SPS :=
  let s := set_users (userConns s)
    (closed_ s ++ map HListener (serverChannels s)
       ++ List.filter is_conn (map_to_list (userConns s)).*2) s in
  let s := match lb s with Some b => set_lb (Some (Balanced_Close b)) s | None => s end in
  set_users (userConns s)
    (closed_ s ++ map HUdp (map_to_list (udpRelatedPacketConns s)).*2) s.

(** * One connection ([proxyTCP]) *)

(** [rout] is the entropy of the cipher towards the parent. *)
Record pstate := mkP {
  srv : SPS; inConn : wire; outConn : option wire; dialed : list bytes;
}.

Definition gets_srv {A} (f : SPS -> A) : io pstate A := io_gets (fun s => f (srv s)).
Definition on_in {A} (m : io conn A) : io pstate A := fun s =>
  match inConn s with
  | Plain c => let '(o, c) := m c in (o, mkP (srv s) (Plain c) (outConn s) (dialed s))
  | Ss t => let '(o, c) := m (inner t) in
      (o, mkP (srv s) (Ss (mkSConn c (cs t))) (outConn s) (dialed s))
  end.
Definition on_out {A} (m : io wire A) : io pstate A := fun s =>
  match outConn s with
  | None => (Panic, s)
  | Some w => let '(o, w) := m w in (o, mkP (srv s) (inConn s) (Some w) (dialed s))
  end.
Definition set_out (w : wire) : io pstate unit :=
  io_modify (fun s => mkP (srv s) (inConn s) (Some w) (dialed s)).
Definition log_dial (a : bytes) : io pstate unit :=
  io_modify (fun s => mkP (srv s) (inConn s) (outConn s) (dialed s ++ [a])).
Definition on_lb {A} (m : io (Balanced R) A) : io pstate A := fun s =>
  match lb (srv s) with
  | None => (Panic, s)
  | Some b => let '(o, b) := m b in
      (o, mkP (set_lb (Some b) (srv s)) (inConn s) (outConn s) (dialed s))
  end.

(** A computation of [conn] on the plain connection to the parent *)
Definition plain_wire {A} (m : io conn A) : io wire A := fun w =>
  match w with
  | Plain c => let '(o, c) := m c in (o, Plain c)
  | Ss t => let '(o, c) := m (inner t) in (o, Ss (mkSConn c (cs t)))
  end.

(** ** What the client asks for *)

(** Segments as a [bufio.Reader] of the default size delivers them to reads that
    are smaller than its buffer *)
Fixpoint chunk (fuel : nat) (b : bytes) : list event :=
  match fuel with
  | O => [Seg b]
  | S fuel =>
      if Nat.leb (length b) defaultBufSize then [Seg b]
      else Seg (take defaultBufSize b) :: chunk fuel (drop defaultBufSize b)
  end.
Definition chunks (r : reader) : reader :=
  concat (map (fun e => match e with Seg b => chunk (length b) b | RErr e => [RErr e] end) r).

(** [cbuffered.New], [ReadByte], [UnreadByte] and [Peek] of what is buffered, at
    most 2048 bytes: the first read of the connection, its error dropped *)
Definition first_bytes : io conn bytes := fun c =>
  let b := (fill 1 0 [] (rx c)).2 in
  (Ok (take 2048 (buffered b)),
   mkConn ((match buffered b with [] => [] | x => [Seg x] end) ++ chunks (under b))
     (tx c) (wres c) (closed c)).

(** What the request is, the credentials that came with it, and the bytes that
    go to the parent after the exchange with it *)
Inductive asked :=
  | Disabled
  | Associate (server : Socks5.Server C)
  | Target (address : bytes) (auth : Auth) (forwardBytes : bytes).

Definition no_auth : Auth := mkAuth [] [].

(** The handshake of a new SOCKS5 server on the connection *)
Definition serve_socks (server : Socks5.Server C) (remote local : bytes) (listen : outcome bytes)
  : io conn (Socks5.Server C) := fun c =>
  let '(o, (server, c)) := Handshake remote local listen (server, c) in
  (match o with Ok _ => Ok server | Fail e => Fail e | Panic => Panic end, c).

Definition accept_socks (remote local : bytes) (listen : outcome bytes) : io pstate asked :=
  c ← gets_srv cfg;
  center ← gets_srv basicAuthCenter;
  let enableUDP := bool_decide (ParentServiceType c = lit "socks") in
  let udpIP := match LocalIPS c with ip :: _ => ip | [] => host_of local end in
  server ← on_in (serve_socks (NewServer center enableUDP udpIP []) remote local listen);
  mret (if IsUDP server then Associate server else Target (target server) (pAuth server) []).

Definition accept_http (h remote local : bytes) : io pstate asked :=
  center ← gets_srv basicAuthCenter;
  request ← on_in (Httpc.New url_host rune_cap remote local 1024 center);
  forwardBytes ← (if (7 <=? len h) && bool_decide (ToLower (take 7 h) = lit "connect")
                  then _ ← io_try (on_in HTTPSReply); mret []
                  else mret (RawHeader request));
  auth ← (match center with
          | None => mret no_auth
          | Some _ =>
              userpass ← on_in (GetProxyAuthUserPassPair request);
              mret (match Split userpass (lit ":") with [u; p] => mkAuth u p | _ => no_auth end)
          end);
  mret (Target (Host request) auth forwardBytes).

(** [shadowsocks.New(inConn, sf.localCipher.Clone())]: cloning nil panics. *)
Definition accept_ss (entropy : reader) : io pstate asked :=
  cipher ← gets_srv localCipher;
  match cipher with
  | None => io_panic
  | Some c =>
      io_modify (fun s => mkP (srv s) (Ss (mkSConn (wire_conn (inConn s)) (mkCstate (Clone c) entropy)))
                            (outConn s) (dialed s));;
      address ← (fun s =>
        match inConn s with
        | Ss t => let '(o, t) := ParseRequest_on Conn_ReadFull t in
            (o, mkP (srv s) (Ss t) (outConn s) (dialed s))
        | Plain _ => (Panic, s)
        end);
      if bool_decide (zero ∈ address) then io_fail (ErrMsg "invalid domain name")
      else mret (Target address no_auth [])
  end.

(** The protocol of a client by its first bytes *)
Definition dispatch (remote local : bytes) (listen : outcome bytes) (entropy : reader) (h : bytes)
  : io pstate asked :=
  isSNI ← io_lift (match ServerNameFromBytes h with
                   | Ok n => Ok n | Fail _ => Ok [] | Panic => Panic
                   end);
  c ← gets_srv cfg;
  if IsSocks5 h then
    if DisableSocks5 c then mret Disabled else accept_socks remote local listen
  else if IsHTTP h || negb (bool_decide (isSNI = [])) then
    if DisableHTTP c then mret Disabled else accept_http h remote local
  else if DisableSS c then mret Disabled else accept_ss entropy.

Definition accept (remote local : bytes) (listen : outcome bytes) (entropy : reader) : io pstate asked :=
  h ← on_in first_bytes;
  dispatch remote local listen entropy h.

(** ** The exchange with the parent *)

Definition getParentAuth (lbAddr : bytes) (s : SPS) : bytes :=
  match parentAuthData s !! lbAddr with Some a => a | None => ParentAuth (cfg s) end.

(** [getParentCipher]: cloning nil panics. *)
Definition getParentCipher (lbAddr : bytes) (s : SPS) : outcome Cipher :=
  match parentCipherData s !! lbAddr with
  | Some c => Ok (Clone c)
  | None => match parentCipher s with Some c => Ok (Clone c) | None => Panic end
  end.

(** user:password of a configured pair *)
Definition split_auth (parentAuth : bytes) : outcome Auth :=
  match Split parentAuth (lit ":") with
  | [u; p] => Ok (mkAuth u p)
  | _ => Fail (ErrMsg "parent auth data format error")
  end.

(** The credentials a parent is given: the configured ones, or without any those
    of the client, when the service has no center to check them with *)
Definition real_auth (parentAuth : bytes) (auth : Auth) (fromSS : bool) (s : SPS) : outcome (option Auth) :=
  if negb (bool_decide (parentAuth = [])) then a ← split_auth parentAuth; Ok (Some a)
  else if negb fromSS && (match basicAuthCenter s with None => true | Some _ => false end)
          && negb (bool_decide (Password auth = [])) && negb (bool_decide (User auth = []))
  then Ok (Some auth) else Ok None.

Definition HandshakeSocksParent (parentAuth : bytes) (net : network) (dstAddr : bytes) (auth : Auth)
    (fromSS : bool) : io pstate Client :=
  a ← (s ← io_gets srv; io_lift (real_auth parentAuth auth fromSS s));
  on_out (plain_wire (Client_Handshake (NewClient net dstAddr a []))).

(** The request to an HTTP parent: a CONNECT of its own when there is nothing to
    forward, otherwise headers for what is forwarded *)
Definition http_headers (address : bytes) (auth : option Auth) : bytes :=
  lit "Host: " ++ address ++ CRLF
    ++ lit "Proxy-Host: " ++ address ++ CRLF
    ++ lit "Proxy-Connection: Keep-Alive" ++ CRLF
    ++ lit "Connection: Keep-Alive" ++ CRLF
    ++ (match auth with
        | Some a => lit "Proxy-Authorization: Basic " ++ b64_encode (Format (User a) (Password a)) ++ CRLF
        | None => []
        end).

(** On an error the connection to the parent is closed. *)
Definition or_close {A} (m : io wire A) : io wire A := fun w =>
  match m w with
  | (Fail e, w) => (Fail e, wire_Close w)
  | r => r
  end.

Definition ask_http (parentAuth address : bytes) (auth : Auth) (forwardBytes : bytes) : io pstate unit :=
  a ← (s ← io_gets srv; io_lift (real_auth parentAuth auth false s));
  let isHTTPS := bool_decide (forwardBytes = []) in
  let pb := (if isHTTPS then lit "CONNECT " ++ address ++ lit " HTTP/1.1" ++ CRLF else [])
              ++ http_headers address a in
  on_out (or_close (wire_Write (if isHTTPS then pb ++ CRLF else InsertProxyHeaders forwardBytes pb)));;
  if isHTTPS then on_out (or_close (plain_wire (on_rx (Read 1024))));; mret tt else mret tt.

Definition ask_ss (lbAddr address : bytes) (entropy : reader) : io pstate unit :=
  ra ← io_wrap "build ss raw addr fail, err: %s" (io_lift (Shadowsocks.ParseAddrSpec address));
  cipher ← (s ← io_gets srv; io_lift (getParentCipher lbAddr s));
  io_wrap "dial ss parent fail, err : %s" (on_out (fun w =>
    let '(o, t) := NewConnWithRawAddr ra (mkSConn (wire_conn w) (mkCstate cipher entropy)) in
    (o, Ss t))).

(** What is there to forward: the proxy headers are taken out when there are
    credentials for the parent or a center that has read them. *)
Definition stripped (parentAuth : bytes) (c : Config) (center : option C) (forwardBytes : bytes) : bytes :=
  if negb (bool_decide (parentAuth = [])) || negb (bool_decide (ParentSSKey c = []))
     || (match center with Some _ => true | None => false end)
  then RemoveProxyHeaders forwardBytes else forwardBytes.

(** Ask the parent for the target; the result is what is left to forward. *)
Definition ask_parent (lbAddr address : bytes) (auth : Auth) (forwardBytes : bytes) (entropy : reader)
  : io pstate bytes :=
  c ← gets_srv cfg;
  parentAuth ← gets_srv (getParentAuth lbAddr);
  center ← gets_srv basicAuthCenter;
  let forwardBytes := stripped parentAuth c center forwardBytes in
  if bool_decide (ParentServiceType c = lit "http") then
    ask_http parentAuth address auth forwardBytes;; mret []
  else if bool_decide (ParentServiceType c = lit "socks") then
    HandshakeSocksParent parentAuth tcp address auth false;; mret forwardBytes
  else if bool_decide (ParentServiceType c = lit "ss") then
    ask_ss lbAddr address entropy;; mret forwardBytes
  else io_fail (ErrMsg "not support").

(** [userConns.Upsert] closes the connection it replaces; a pointer is none. *)
Definition upsert_user (addr : bytes) (me : nat) (s : SPS) : outcome SPS :=
  let u := <[addr := HConn me]> (userConns s) in
  match userConns s !! addr with
  | None => Ok (set_users u (closed_ s) s)
  | Some (HConn j) => Ok (set_users u (closed_ s ++ [HConn j]) s)
  | Some _ => Panic
  end.

(** How [proxyTCP] ends, or that it goes on copying *)
Inductive ended := Ignored | Associated (server : Socks5.Server C) | Joined (lbAddr : bytes).

(** Through a parent to [address]; [dial] is how the dials end, [rnd] are the
    random numbers of the selection. *)
Definition connect (remote : bytes) (me : nat) (rnd : nat -> Z) (dial : bytes -> outcome conn)
    (entropy : reader) (address : bytes) (auth : Auth) (forwardBytes : bytes) : io pstate ended :=
  c ← gets_srv cfg;
  lbAddr ← on_lb (Balanced_Select gcdx rnd (select_addr (LbMethod c) (HashTarget c) remote address));
  log_dial lbAddr;;
  t ← io_lift (dial lbAddr);
  set_out (Plain t);;
  rest ← ask_parent lbAddr address auth forwardBytes entropy;
  (if 0 <? len rest then _ ← io_try (on_out (wire_Write rest)); mret tt else mret tt);;
  s ← io_gets srv;
  s ← io_lift (upsert_user remote me s);
  io_modify (fun p => mkP s (inConn p) (outConn p) (dialed p));;
  on_lb (io_modify (Balanced_ConnsIncrease lbAddr));;
  mret (Joined lbAddr).

Definition proxyTCP (remote local : bytes) (me : nat) (listen : outcome bytes) (rnd : nat -> Z)
    (dial : bytes -> outcome conn) (rin rout : reader) : io pstate ended :=
  a ← accept remote local listen rin;
  match a with
  | Disabled => mret Ignored
  | Associate server => mret (Associated server)
  | Target address auth forwardBytes =>
      if bool_decide (address = []) then io_fail (ErrMsg "unknown request")
      else connect remote me rnd dial rout address auth forwardBytes
  end.

Definition close_in (s : pstate) : pstate := mkP (srv s) (wire_Close (inConn s)) (outConn s) (dialed s).

(** [handle]: [defer inConn.Close()], unless the connections are joined or the
    connection keeps a UDP association *)
Definition handle (remote local : bytes) (me : nat) (listen : outcome bytes) (rnd : nat -> Z)
    (dial : bytes -> outcome conn) (rin rout : reader) : io pstate ended := fun s =>
  if bool_decide (ParentType (cfg (srv s)) ∈ map lit ["tcp"; "stcp"; "tls"; "kcp"]%string) then
    match proxyTCP remote local me listen rnd dial rin rout s with
    | (Ok (Joined a), s) => (Ok (Joined a), s)
    | (Ok (Associated v), s) => (Ok (Associated v), s)
    | (o, s) => (o, close_in s)
    end
  else (Fail (ErrMsg "unkown parent type %s"), close_in s).

(** The copying is over: the deferred functions of [proxyTCP] and [handle] *)
Definition handle_done (remote lbAddr : bytes) : io pstate unit := fun s =>
  let '(o, s) := on_lb (io_modify (Balanced_ConnsDecrease lbAddr))
    (mkP (set_users (delete remote (userConns (srv s))) (closed_ (srv s)) (srv s))
       (inConn s) (outConn s) (dialed s)) in
  (o, close_in s).

End Sps.
Arguments SPS _ _ {_}.
Arguments pstate _ _ {_}.
Arguments asked : clear implicits.
Arguments ended : clear implicits.

(** * Laws *)
Section Laws.
Context {R : Type} `{!NameResolver R} {C : Type} `{!Authenticator C} {EN : Encrypt} {CR : Crypto}.
Context (gcdx : Z -> Z -> Z) (url_host : bytes -> option bytes) (rune_cap : Z -> Z).
Implicit Types (s : pstate R C).

Lemma bind_sps {A B} (f : SPS R C -> A) (g : A -> io (pstate R C) B) s :
  (gets_srv f ≫= g) s = g (f (srv s)) s.
Proof. done. Qed.

(** ** What accepting a client leaves alone *)

Definition same_out s s' : Prop :=
  srv s' = srv s /\ outConn s' = outConn s /\ dialed s' = dialed s.

Definition framed {A} (m : io (pstate R C) A) : Prop := forall s o s', m s = (o, s') -> same_out s s'.

Lemma framed_ret {A} (a : A) : framed (mret a).
Proof. by intros s o s' [= <- <-]. Qed.
Lemma framed_fail {A} (e : error) : framed (io_fail (A := A) e).
Proof. by intros s o s' [= <- <-]. Qed.
Lemma framed_panic {A} : framed (io_panic (A := A)).
Proof. by intros s o s' [= <- <-]. Qed.
Lemma framed_lift {A} (m : outcome A) : framed (io_lift m).
Proof. by intros s o s' [= <- <-]. Qed.
Lemma framed_gets {A} (f : SPS R C -> A) : framed (gets_srv f).
Proof. by intros s o s' [= <- <-]. Qed.
Lemma framed_in {A} (m : io conn A) : framed (on_in m).
Proof.
  intros s o s'. unfold on_in. destruct (inConn s) as [c|t].
  - destruct (m c). by intros [= <- <-].
  - destruct (m (inner t)). by intros [= <- <-].
Qed.
Lemma framed_bind {A B} (m : io (pstate R C) A) (f : A -> io (pstate R C) B) :
  framed m -> (forall a, framed (f a)) -> framed (m ≫= f).
Proof.
  intros Hm Hf s o s'. unfold mbind, io_bind. destruct (m s) as [[a|e|] s1] eqn:E.
  - intros H. destruct (Hm _ _ _ E) as (H1 & H2 & H3), (Hf a _ _ _ H) as (H4 & H5 & H6).
    unfold same_out. split_and!; congruence.
  - intros [= <- <-]. by eapply Hm.
  - intros [= <- <-]. by eapply Hm.
Qed.
Lemma framed_try {A} (m : io (pstate R C) A) : framed m -> framed (io_try m).
Proof.
  intros Hm s o s'. unfold io_try. destruct (m s) as [[a|e|] s1] eqn:E; intros [= <- <-]; by eapply Hm.
Qed.

Lemma framed_accept (remote local : bytes) (listen : outcome bytes) (entropy : reader) :
  framed (accept url_host rune_cap remote local listen entropy).
Proof.
  unfold accept, dispatch, accept_socks, accept_http, accept_ss.
  repeat first
    [ apply framed_ret | apply framed_fail | apply framed_panic | apply framed_lift
    | apply framed_gets | apply framed_in | apply framed_try | apply framed_bind; [|intro]
    | progress cbv zeta
    | match goal with |- framed (match ?x with _ => _ end) => destruct x end ].
  - by intros s o s' [= <- <-].
  - intros s o s'. destruct (inConn s) as [?|t]; [by intros [= <- <-]|].
    destruct (ParseRequest_on _ t). by intros [= <- <-].
Qed.

(** Dialing and what follows it does not touch the client's connection. *)
Lemma proxyTCP_split (remote local : bytes) (me : nat) (listen : outcome bytes) (rnd : nat -> Z)
    (dial : bytes -> outcome conn) (rin rout : reader) s o s' :
  proxyTCP gcdx url_host rune_cap remote local me listen rnd dial rin rout s = (o, s') ->
  dialed s = [] -> dialed s' <> [] ->
  exists address auth fwd s1, accept url_host rune_cap remote local listen rin s = (Ok (Target address auth fwd), s1) /\
    same_out s s1 /\ address <> [].
Proof.
  intros H Hd Hn. unfold proxyTCP in H. unfold mbind, io_bind in H.
  destruct (accept _ _ _ _ _ _ _) as [[a|e|] s1] eqn:E; pose proof (framed_accept _ _ _ _ _ _ _ E) as Hs.
  2,3: injection H as <- <-; destruct Hs as (_ & _ & Hs); congruence.
  destruct a as [|v|address auth fwd].
  1,2: injection H as <- <-; destruct Hs as (_ & _ & Hs); congruence.
  case_bool_decide as Ha.
  - injection H as <- <-; destruct Hs as (_ & _ & Hs); congruence.
  - by exists address, auth, fwd, s1.
Qed.

(** The bytes the service tells the protocols apart by *)
Definition first_of s : bytes := match first_bytes (wire_conn (inConn s)) with (Ok h, _) => h | _ => [] end.

(** Is this the first segment of an HTTP client, a TLS hello included? *)
Definition http_like (h : bytes) : bool :=
  IsHTTP h || match ServerNameFromBytes h with Ok n => negb (bool_decide (n = [])) | _ => false end.

Lemma accept_cases (remote local : bytes) (listen : outcome bytes) (entropy : reader) s address auth fwd s1 :
  accept url_host rune_cap remote local listen entropy s = (Ok (Target address auth fwd), s1) ->
  let h := first_of s in let c := cfg (srv s) in
  exists s0, on_in first_bytes s = (Ok h, s0) /\ same_out s s0 /\
  ((IsSocks5 h = true /\ DisableSocks5 c = false /\
    accept_socks remote local listen s0 = (Ok (Target address auth fwd), s1)) \/
   (IsSocks5 h = false /\ http_like h = true /\ DisableHTTP c = false /\
    accept_http url_host rune_cap h remote local s0 = (Ok (Target address auth fwd), s1)) \/
   (IsSocks5 h = false /\ http_like h = false /\ DisableSS c = false /\
    accept_ss entropy s0 = (Ok (Target address auth fwd), s1))).
Proof.
  intros H h c. unfold accept, dispatch in H. io_inv H. pose proof (framed_in _ _ _ _ H0) as Hs0.
  assert (a = h) as ->.
  { unfold h, first_of. unfold on_in in H0. destruct (inConn s); cbn [wire_conn];
      destruct (first_bytes _) as [[b|e|] c1]; try done; by injection H0. }
  exists s0. split; [done|]. split; [done|].
  io_inv H. injection H1 as Hsni <-. rewrite bind_sps in H.
  assert (cfg (srv s0) = c) as Ec by (unfold c; destruct Hs0 as [-> _]; done). rewrite Ec in H.
  assert (Hl : http_like h = IsHTTP h || negb (bool_decide (a = []))).
  { unfold http_like. destruct (ServerNameFromBytes h); [|by injection Hsni as <-|done].
    by injection Hsni as <-. }
  rewrite Hl. destruct (IsSocks5 h); [left|right].
  - by destruct (DisableSocks5 c).
  - destruct (IsHTTP h || _); [left; by destruct (DisableHTTP c)|right; by destruct (DisableSS c)].
Qed.

(** A connection that is accepted as a SOCKS5 or an HTTP client's satisfied the
    center, the former with the server's own empty credentials. *)
Lemma accept_socks_inv (remote local : bytes) (listen : outcome bytes) s x s' (c : C) :
  accept_socks remote local listen s = (Ok x, s') -> basicAuthCenter (srv s) = Some c ->
  auth_verify c (Format [] []) (host_part remote) (host_part local) [] = true.
Proof.
  intros H Hc. unfold accept_socks in H. rewrite !bind_sps, Hc in H. io_inv H. clear H.
  assert (G : exists v cn st', serve_socks v remote local listen cn = (Ok a, st') /\
    Socks5.basicAuthCenter v = Some c /\ user v = [] /\ password v = []).
  { unfold on_in in H0. destruct (inConn s) as [cn|t].
    - destruct (serve_socks _ _ _ _ cn) as [o x0] eqn:E. injection H0 as -> _.
      eexists _, _, _. split; [exact E|done].
    - destruct (serve_socks _ _ _ _ (inner t)) as [o x0] eqn:E. injection H0 as -> _.
      eexists _, _, _. split; [exact E|done]. }
  clear H0. destruct G as (v & cn & st' & G & Hv & Hu & Hp). unfold serve_socks in G.
  destruct (Handshake _ _ _ _) as [[[]|e|] [v' c']] eqn:E; try done.
  apply Handshake_accepts in E. unfold decision in E. rewrite Hv, Hu, Hp in E.
  change (addr_head remote) with (idx (Split remote (lit ":")) 0) in E.
  change (addr_head local) with (idx (Split local (lit ":")) 0) in E.
  by rewrite !split_host in E.
Qed.

Lemma accept_http_inv (h remote local : bytes) s x s' (c : C) :
  accept_http url_host rune_cap h remote local s = (Ok x, s') -> basicAuthCenter (srv s) = Some c ->
  exists raw r0 up target, Read 1024 (rx (wire_conn (inConn s))) = (Ok raw, r0) /\
    credentials raw = Some up /\
    auth_verify c up (host_part remote) (host_part local) target = true.
Proof.
  intros H Hc. unfold accept_http in H. rewrite bind_sps, Hc in H. io_inv H. clear H.
  assert (G : exists c', Httpc.New url_host rune_cap remote local 1024 (Some c) (wire_conn (inConn s)) = (Ok a, c')).
  { unfold on_in in H0. destruct (inConn s) as [cn|t]; cbn [wire_conn];
      destruct (Httpc.New _ _ _ _ _ _ _) as [o x0]; injection H0 as -> _; by eexists. }
  destruct G as [c' G]. pose proof G as G2. apply New_authorised_inv in G2 as (r0 & req0 & s2 & Hr & -> & Hraw & Hc2 & _ & _ & _ & Hb & _).
  eapply BasicAuth_inv in Hb as (up & Hp & Hv & _); [|done].
  eexists _, r0, up, _. split; [exact Hr|]. rewrite <- Hraw. split; [done|exact Hv].
Qed.

(** ** The exchange with the parent *)

(** A single line without a colon, which is no HTTP request line, does not
    survive the removal of the proxy headers. *)
Lemma RemoveProxyHeaders_line (h : bytes) :
  line_free h -> colon ∉ h -> IsHTTP h = false -> RemoveProxyHeaders h = [].
Proof.
  intros Hl Hc Hh. unfold RemoveProxyHeaders.
  assert (E : Split h CRLF = [h]).
  { unfold Split. destruct (length h) as [|n] eqn:En.
    - destruct h; [done|done].
    - cbn [split_go]. unfold line_free in Hl. by rewrite Hl. }
  rewrite E. destruct h as [|x h]; [done|]. cbn [remove_go].
  rewrite (bool_decide_false (x :: h = [])) by done. cbn [orb]. rewrite Hh, andb_false_r.
  unfold SplitN2. change (lit ":") with [colon]. by rewrite (proj2 (cut_byte_None colon (x :: h)) Hc).
Qed.

Definition auth_pair (a : Auth) : bytes * bytes := (User a, Password a).

(** The request to an HTTP parent with nothing to forward is the CONNECT request
    of the proxy clients of package cs; one reply is read. *)
Lemma ask_http_connect (pa address : bytes) (auth : Auth) (a : option Auth) (c : conn) s :
  real_auth pa auth false (srv s) = Ok a -> outConn s = Some (Plain c) -> wres c = [] ->
  let wrote r cl := mkP (srv s) (inConn s)
    (Some (Plain (mkConn r (tx c ++ [connect_request address (option_map auth_pair a)]) [] cl))) (dialed s) in
  ask_http pa address auth [] s =
    match Read 1024 (rx c) with
    | (Ok _, r) => (Ok tt, wrote r (closed c))
    | (Fail e, r) => (Fail e, wrote r true)
    | (Panic, r) => (Panic, wrote r (closed c))
    end.
Proof.
  intros Ha Ho Hw wrote. unfold ask_http.
  erewrite bind_ok; [|unfold mbind, io_bind, io_gets, io_lift; by rewrite Ha].
  cbv zeta. rewrite bool_decide_true by done.
  assert (Er : (lit "CONNECT " ++ address ++ lit " HTTP/1.1" ++ CRLF ++ http_headers address a) ++ CRLF =
    connect_request address (option_map auth_pair a)).
  { unfold connect_request, http_headers. rewrite <- !app_assoc. by destruct a. }
  unfold mbind at 1, io_bind at 1. unfold on_out at 1. rewrite Ho.
  unfold or_close at 1, wire_Write. rewrite Write_ok by done.
  rewrite <- !app_assoc in *. rewrite Er.
  unfold mbind, io_bind, on_out. cbn [outConn]. unfold or_close, plain_wire, on_rx. cbn [rx tx wres closed].
  unfold wrote. by destruct (Read 1024 (rx c)) as [[x|e|] r].
Qed.

(** What is forwarded gets the headers, and no reply is read. *)
Lemma ask_http_forward (pa address fb : bytes) (auth : Auth) (a : option Auth) (c : conn) s :
  real_auth pa auth false (srv s) = Ok a -> outConn s = Some (Plain c) -> wres c = [] -> fb <> [] ->
  ask_http pa address auth fb s =
    (Ok tt, mkP (srv s) (inConn s)
      (Some (Plain (mkConn (rx c) (tx c ++ [InsertProxyHeaders fb (http_headers address a)]) [] (closed c)))) (dialed s)).
Proof.
  intros Ha Ho Hw Hf. unfold ask_http.
  erewrite bind_ok; [|unfold mbind, io_bind, io_gets, io_lift; by rewrite Ha].
  cbv zeta. rewrite bool_decide_false by done. unfold mbind at 1, io_bind at 1. unfold on_out at 1. rewrite Ho.
  unfold or_close at 1, wire_Write. by rewrite Write_ok.
Qed.

(** ** What is peeked stays to be read *)

Lemma chunk_flat (fuel : nat) (b : bytes) : flat (chunk fuel b) = map inl b.
Proof.
  revert b. induction fuel as [|fuel IH]; intros b; cbn [chunk].
  - rewrite flat_cons. cbn. by rewrite app_nil_r.
  - destruct (Nat.leb _ _); rewrite flat_cons; cbn [flat_ev]; [by rewrite app_nil_r|].
    by rewrite IH, <- map_app, take_drop.
Qed.

Lemma chunks_flat (r : reader) : flat (chunks r) = flat r.
Proof.
  induction r as [|[b|e] r IH]; [done|..]; unfold chunks in *; cbn [map concat];
    rewrite flat_app, IH, flat_cons; [by rewrite chunk_flat|done].
Qed.

Lemma fill_flat (n empty : nat) (buf : bytes) (r : reader) (bs : bytes) :
  flat r = map inl bs ->
  map inl (buffered (fill n empty buf r).2) ++ flat (under (fill n empty buf r).2) =
    map inl (buf ++ bs).
Proof.
  revert empty buf bs. induction r as [|[b|e] r IH]; intros empty buf bs Hf.
  - destruct bs; [|done]. cbn [fill]. destruct (_ || _); cbn; by rewrite ?app_nil_r.
  - rewrite flat_cons in Hf. cbn [flat_ev] in Hf.
    assert (exists c, bs = b ++ c /\ flat r = map inl c) as (c & -> & Hc).
    { clear IH. revert bs Hf. induction b as [|x b IHb]; intros bs Hf; [by exists bs|].
      destruct bs as [|y bs]; [done|]. cbn in Hf. injection Hf as -> Hf.
      destruct (IHb bs Hf) as (c & -> & Hc). by exists c. }
    cbn [fill]. destruct (_ || _); [cbn [snd buffered under]; rewrite flat_cons, Hc, !map_app; done|].
    destruct b as [|x b].
    + destruct (Nat.eqb _ _); [cbn [snd buffered under]; by rewrite Hc, map_app|by apply IH].
    + destruct (Nat.leb _ _).
      * rewrite (IH 0%nat _ c) by done. by rewrite <- app_assoc.
      * cbn [snd buffered under]. rewrite flat_cons. cbn [flat_ev]. rewrite Hc.
        rewrite !map_app, app_assoc, <- (app_assoc (map inl buf)), <- map_app, take_drop.
        by rewrite app_assoc.
  - destruct bs; discriminate Hf.
Qed.

Lemma first_bytes_flat (c : conn) (bs : bytes) :
  flat (rx c) = map inl bs -> flat (rx (first_bytes c).2) = map inl bs.
Proof.
  intros Hf. pose proof (fill_flat 1 0 [] (rx c) bs Hf) as E. unfold first_bytes. cbn [snd rx].
  rewrite flat_app, chunks_flat. cbn [app] in E. rewrite <- E. f_equal.
  destruct (buffered _); [done|]. unfold flat. cbn [map concat flat_ev]. by rewrite app_nil_r.
Qed.

Lemma on_in_first s (c : conn) :
  inConn s = Plain c ->
  on_in first_bytes s = (Ok (first_of s), mkP (srv s) (Plain (first_bytes c).2) (outConn s) (dialed s)).
Proof. intros Hi. unfold on_in, first_of. by rewrite Hi. Qed.

Lemma dispatch_other (remote local : bytes) (listen : outcome bytes) (entropy : reader) (h : bytes) s :
  IsSocks5 h = false -> http_like h = false -> ServerNameFromBytes h <> Panic -> DisableSS (cfg (srv s)) = false ->
  dispatch url_host rune_cap remote local listen entropy h s = accept_ss entropy s.
Proof.
  intros H5 Hh Hs Hd. unfold dispatch.
  unfold http_like in Hh. apply orb_false_iff in Hh as [Hh Hn]. rewrite H5, Hh.
  destruct (ServerNameFromBytes h) as [n|e|]; [| |done].
  - rewrite (bind_lift _ _ _ n) by done. rewrite bind_sps. cbn [orb]. by rewrite Hn, Hd.
  - rewrite (bind_lift _ _ _ []) by done. rewrite bind_sps. by rewrite Hd.
Qed.

(** A connection that is neither a SOCKS5 nor an HTTP client's is handed to the
    shadowsocks branch. *)
Lemma accept_other (remote local : bytes) (listen : outcome bytes) (entropy : reader) s (c : conn) :
  inConn s = Plain c -> IsSocks5 (first_of s) = false -> http_like (first_of s) = false ->
  ServerNameFromBytes (first_of s) <> Panic -> DisableSS (cfg (srv s)) = false ->
  accept url_host rune_cap remote local listen entropy s =
    accept_ss entropy (mkP (srv s) (Plain (first_bytes c).2) (outConn s) (dialed s)).
Proof.
  intros Hi H5 Hh Hs Hd. unfold accept. erewrite bind_ok by by apply on_in_first.
  by apply dispatch_other.
Qed.

End Laws.

(** * Laws of the configuration *)
Section Init_laws.
Context {R : Type} `{!NameResolver R} {C : Type} {EN : Encrypt}.
Implicit Types (s : SPS R C).

(** The credentials an entry gives to its address, if it gives some *)
Definition auth_for (a : bytes) (e : parent_data * bytes) : option bytes :=
  match e.1 with AuthData d => if decide (entry_addr e.2 = a) then Some d else None | _ => None end.
Definition cipher_for (a : bytes) (e : parent_data * bytes) : option Cipher :=
  match e.1 with CipherData c => if decide (entry_addr e.2 = a) then Some c else None | _ => None end.

(** The last entry of a list that gives something, or what was there before *)
Fixpoint last_of {A B} (f : A -> option B) (l : list A) (before : option B) : option B :=
  match l with
  | [] => before
  | x :: t => last_of f t (match f x with Some b => Some b | None => before end)
  end.

Lemma store_data_auth (addr a : bytes) (info : bytes) (d : parent_data) s :
  entry_addr info = addr ->
  parentAuthData (store_data addr d s) !! a =
    (match auth_for a (d, info) with Some b => Some b | None => parentAuthData s !! a end) /\
  parentCipherData (store_data addr d s) !! a =
    (match cipher_for a (d, info) with Some b => Some b | None => parentCipherData s !! a end).
Proof.
  intros <-. unfold auth_for, cipher_for, store_data. destruct d; cbn [fst snd]; [done|..];
    cbn; rewrite lookup_insert; by case_decide.
Qed.

Lemma init_parents_spec (c : Config) (addrs : list bytes) s s' configs :
  init_parents c addrs s = (Ok configs, s') ->
  exists es, mapM (parent_entry c) addrs = Ok es /\
    map CAddr configs = map (fun e => entry_addr e.2) es /\ Forall config_ok configs /\
    (forall a, parentAuthData s' !! a = last_of (auth_for a) es (parentAuthData s !! a)) /\
    (forall a, parentCipherData s' !! a = last_of (cipher_for a) es (parentCipherData s !! a)) /\
    cfg s' = cfg s /\ domainResolver s' = domainResolver s /\ basicAuthCenter s' = basicAuthCenter s.
Proof.
  revert s configs. induction addrs as [|addr addrs IH]; intros s configs H.
  - injection H as <- <-. by exists [].
  - cbn [init_parents] in H. io_inv H. injection H0 as He <-. destruct a as [d info].
    io_inv H. injection H0 as Ha <-. io_inv H. injection H0 as _ <-.
    io_inv H. injection H0 as Hp <-. io_inv H. injection H as <- <-.
    apply IH in H0 as (es & Hes & Hm & Hok & Hau & Hci & Hcfg & Hr & Hc).
    apply parent_config_addr in Hp as [Hp1 Hp2].
    assert (Hin : entry_addr info = a).
    { revert Ha. unfold entry_addr. change (lit "@") with ["@"%char].
      destruct (Split info _); [discriminate|]. intros Ha. by injection Ha. }
    exists ((d, info) :: es). cbn [mapM map]. rewrite He. unfold mbind, outcome_bind at 1. rewrite Hes.
    split; [done|]. split; [rewrite Hm, Hp1; done|]. split; [by constructor|]. split_and!.
    + intros x. rewrite Hau. by destruct (store_data_auth a x info d s Hin) as [-> _].
    + intros x. rewrite Hci. by destruct (store_data_auth a x info d s Hin) as [_ ->].
    + rewrite Hcfg. by destruct d.
    + rewrite Hr. by destruct d.
    + rewrite Hc. by destruct d.
Qed.

(** Starting closes nothing. *)
Definition quiet {A} (m : io (SPS R C) A) : Prop := forall s o s', m s = (o, s') -> closed_ s' = closed_ s.

Lemma quiet_ret {A} (a : A) : quiet (mret a).
Proof. by intros s o s' [= <- <-]. Qed.
Lemma quiet_fail {A} (e : error) : quiet (io_fail (A := A) e).
Proof. by intros s o s' [= <- <-]. Qed.
Lemma quiet_lift {A} (m : outcome A) : quiet (io_lift m).
Proof. by intros s o s' [= <- <-]. Qed.
Lemma quiet_gets {A} (f : SPS R C -> A) : quiet (io_gets f).
Proof. by intros s o s' [= <- <-]. Qed.
Lemma quiet_modify (f : SPS R C -> SPS R C) : (forall s, closed_ (f s) = closed_ s) -> quiet (io_modify f).
Proof. by intros H s o s' [= <- <-]. Qed.
Lemma quiet_bind {A B} (m : io (SPS R C) A) (f : A -> io (SPS R C) B) :
  quiet m -> (forall a, quiet (f a)) -> quiet (m ≫= f).
Proof.
  intros Hm Hf s o s'. unfold mbind, io_bind. destruct (m s) as [[a|e|] s1] eqn:E.
  - intros H. rewrite (Hf a _ _ _ H). by eapply Hm.
  - intros [= <- <-]. by eapply Hm.
  - intros [= <- <-]. by eapply Hm.
Qed.

Ltac solve_quiet :=
  repeat first
    [ apply quiet_ret | apply quiet_fail | apply quiet_lift | apply quiet_gets
    | apply quiet_modify; intros; done | apply quiet_bind; [|intro] | progress cbv zeta
    | match goal with |- quiet (match ?x with _ => _ end) => destruct x end ].

Lemma quiet_parents (c : Config) (addrs : list bytes) : quiet (init_parents c addrs).
Proof.
  induction addrs as [|addr addrs IH]; cbn [init_parents]; solve_quiet; [|exact IH].
  apply quiet_modify. intros s. by destruct p.
Qed.

Lemma quiet_listen (listen : bytes -> outcome unit) (bind : bytes -> outcome nat) (addrs : list bytes) :
  quiet (listen_all listen bind addrs).
Proof.
  induction addrs as [|addr addrs IH]; cbn [listen_all]; unfold RunSSUDP; solve_quiet; exact IH.
Qed.

Lemma quiet_Start {CR : Crypto} (ck : checks) (k : resources) (listen : bytes -> outcome unit)
    (bind : bytes -> outcome nat) : quiet (Start ck k listen bind).
Proof.
  unfold Start, InspectConfig, InitService. solve_quiet; [apply quiet_parents|apply quiet_listen].
Qed.

End Init_laws.

Section Properties.
Context {R : Type} `{!NameResolver R} {C : Type} `{!Authenticator C} {EN : Encrypt} {CR : Crypto}.
Context (gcdx : Z -> Z -> Z) (url_host : bytes -> option bytes) (rune_cap : Z -> Z).
Implicit Types (s : pstate R C).

(** C5: which clients a center admits.  With an authentication center, a parent
    is dialed for a SOCKS5 client only if the center accepts the empty pair, for
    an HTTP client only if its first segment carries credentials the center
    accepts, and for any other client without the center being asked at all, as
    long as there is a shadowsocks cipher. *)
Theorem admission (remote local : bytes) (me : nat) (listen : outcome bytes) (rnd : nat -> Z)
    (dial : bytes -> outcome conn) (rin rout : reader) s o s' (c : C) (cn : conn) :
  basicAuthCenter (srv s) = Some c -> inConn s = Plain cn -> dialed s = [] ->
  handle gcdx url_host rune_cap remote local me listen rnd dial rin rout s = (o, s') ->
  dialed s' <> [] ->
  let h := first_of s in
  if IsSocks5 h then
    auth_verify c (Format [] []) (host_part remote) (host_part local) [] = true
  else if http_like h then
    exists raw r0 up target, Read 1024 (rx (first_bytes cn).2) = (Ok raw, r0) /\
      credentials raw = Some up /\
      auth_verify c up (host_part remote) (host_part local) target = true
  else is_Some (localCipher (srv s)).
Proof.
  intros Hc Hi Hd H Hn h. unfold handle in H. case_bool_decide as Hp.
  2: { injection H as <- <-. by destruct Hn. }
  destruct (proxyTCP _ _ _ _ _ _ _ _ _ _ _ s) as [x s1] eqn:E.
  assert (Hn1 : dialed s1 <> []).
  { destruct x as [[| |]|e|]; injection H as <- <-; done. }
  clear H Hn. apply proxyTCP_split in E as (address & auth & fwd & s2 & Ha & _ & _); [|done|done].
  apply accept_cases in Ha as (s0 & H0 & (Hs & _) & Ha). fold h in Ha.
  rewrite <- Hs in Hc. rewrite (on_in_first s cn Hi) in H0. injection H0 as <-.
  destruct Ha as [(-> & _ & Ha)|[(-> & -> & _ & Ha)|(-> & -> & _ & Ha)]].
  - by eapply accept_socks_inv.
  - by apply (accept_http_inv _ _ h remote local _ _ _ c) in Ha.
  - unfold accept_ss in Ha. rewrite bind_sps in Ha. cbn [srv] in Ha.
    by destruct (localCipher (srv s)).
Qed.

(** C32: shadowsocks clients are understood.  A client that dials [host:port] and
    writes through a shadowsocks client with the method and password of the
    service is accepted, however the network cuts its bytes, with the target it
    named (an address as it prints), and what it wrote is what the service reads
    next; unless its first bytes look like another protocol's. *)
Theorem ss_accepts `{!EncryptLaws} (meth pw host v : bytes) (port : Z) (c : Cipher)
    (g : reader) (gtl : list (byte + error)) (ws : list bytes) :
  NewCipher meth pw = Ok c -> length v = ivLen c -> flat g = map inl v ++ gtl ->
  plain_host host -> 0 <= port < 65536 ->
  ((host_addr host).1 = typeDomain -> len host <= 255) ->
  let address := JoinHostPort (canon_host host) (Itoa port) in
  zero ∉ address ->
  exists cl cl', Dial (JoinHostPort host (Itoa port)) (Ok (conn_of [])) c g = Ok cl /\
    write_all ws cl = (Ok tt, cl') /\
    forall (remote local : bytes) (listen : outcome bytes) (entropy : reader) s (cn : conn),
      inConn s = Plain cn -> flat (rx cn) = map inl (concat (tx (inner cl'))) ->
      localCipher (srv s) = Some c -> DisableSS (cfg (srv s)) = false ->
      IsSocks5 (first_of s) = false -> http_like (first_of s) = false ->
      ServerNameFromBytes (first_of s) <> Panic ->
      exists s' t q, accept url_host rune_cap remote local listen entropy s =
          (Ok (Target address no_auth []), s') /\
        inConn s' = Ss t /\ plain t = Some q /\ flat q = map inl (concat ws).
Proof.
  intros Hc Hv Hg Hh Hp Hd address Hz.
  destruct (Dial_served meth pw host v port c (conn_of []) g gtl ws)
    as (cl & cl' & H1 & H2 & H3); [done..|]. exists cl, cl'. split; [done|]. split; [done|].
  intros remote local listen entropy s cn Hi Hf Hl Hds H5 Hht Hsni.
  rewrite (accept_other url_host rune_cap remote local listen entropy s cn) by done.
  unfold accept_ss. rewrite bind_sps. cbn [srv]. rewrite Hl, bind_modify. cbn [inConn wire_conn].
  assert (Ec : Clone c = c).
  { unfold NewCipher in Hc. case_bool_decide; [done|].
    destruct (GetCipher meth) as [[il kl]|]; [|done]. by injection Hc as <-. }
  rewrite Ec. apply (first_bytes_flat cn) in Hf.
  destruct (H3 (mkSConn (first_bytes cn).2 (mkCstate c entropy)) eq_refl Hf)
    as (srv1 & q & q' & Hr & Hq & Hlen & Hreq & Fq).
  destruct (ParseRequest_first _ _ _ Hr Hq Hlen) as (t & Et & Ht & _).
  rewrite Hreq in Et, Ht. cbn [fst snd] in Et, Ht.
  erewrite bind_ok; [|cbn [inConn]; by rewrite Et].
  rewrite bool_decide_false by done. by eexists _, t, q'.
Qed.

(** A TLS client's hello is lost on the way.  When the parent has configured
    credentials, a shadowsocks key is configured for parents, or the service has
    a center, a first segment that is one line without a colon and no HTTP request
    is treated as if there were nothing to forward: the parent never sees it. *)
Theorem hello_lost (remote : bytes) (me : nat) (rnd : nat -> Z) (dial : bytes -> outcome conn)
    (entropy : reader) (address : bytes) (auth : Auth) (h : bytes) s :
  line_free h -> colon ∉ h -> IsHTTP h = false ->
  (forall a, getParentAuth a (srv s) <> []) \/ ParentSSKey (cfg (srv s)) <> [] \/
    is_Some (basicAuthCenter (srv s)) ->
  connect gcdx remote me rnd dial entropy address auth h s =
    connect gcdx remote me rnd dial entropy address auth [] s.
Proof.
  intros Hl Hc Hh Hk. unfold connect. rewrite !bind_sps.
  apply bind_congr. intros lbAddr s1 E1.
  assert (Hs1 : cfg (srv s1) = cfg (srv s) /\ basicAuthCenter (srv s1) = basicAuthCenter (srv s) /\
    forall a, getParentAuth a (srv s1) = getParentAuth a (srv s)).
  { unfold on_lb in E1. destruct (lb (srv s)) as [b|]; [|done].
    destruct (Balanced_Select _ _ _ b). by injection E1 as _ <-. }
  destruct Hs1 as (Hs1 & Hs2 & Hs3).
  apply bind_congr. intros [] s2 [= <-]. apply bind_congr. intros t s2 E2. injection E2 as _ <-.
  apply bind_congr. intros [] s2 [= <-].
  unfold mbind at 1 3, io_bind at 1 3. set (s2 := mkP _ _ _ _).
  assert (Ea : ask_parent lbAddr address auth h entropy s2 = ask_parent lbAddr address auth [] entropy s2);
    [|by rewrite Ea].
  unfold ask_parent, stripped. rewrite !bind_sps.
  assert (G : (negb (bool_decide (getParentAuth lbAddr (srv s2) = []))
     || negb (bool_decide (ParentSSKey (cfg (srv s2)) = []))
     || match basicAuthCenter (srv s2) with Some _ => true | None => false end) = true).
  { cbn [s2 srv]. rewrite Hs1, Hs2, Hs3. destruct Hk as [Hk|[Hk|[c Hk]]].
    - by rewrite bool_decide_false by apply Hk.
    - rewrite (bool_decide_false (ParentSSKey _ = [])) by done. by rewrite orb_true_r.
    - by rewrite Hk, orb_true_r. }
  by rewrite G, RemoveProxyHeaders_line.
Qed.

(** C7: what is said to an HTTP parent, and that its refusal goes unnoticed.  When
    there is something to forward, possibly without its proxy headers, the service
    writes it with the headers for the parent put in and reads no reply.  Otherwise
    it writes one CONNECT request and reads once: whatever the parent answers, the
    service goes on in the same way; only an error of that read ends it and closes
    the connection.  From the CONNECT request the decoder of an HTTP proxy of this
    repository, when its center lets the credentials through, decodes the client's
    target, and otherwise answers with a refusal and closes. *)
Theorem http_parent (lbAddr address forwardBytes : bytes) (auth : Auth) (a : option Auth) (entropy : reader)
    (center : option C) (premote plocal : bytes) (srx : reader) (c : conn) s :
  ParentServiceType (cfg (srv s)) = lit "http" ->
  real_auth (getParentAuth lbAddr (srv s)) auth false (srv s) = Ok a ->
  outConn s = Some (Plain c) -> wres c = [] ->
  let fb := stripped (getParentAuth lbAddr (srv s)) (cfg (srv s)) (basicAuthCenter (srv s)) forwardBytes in
  let raw := connect_request address (option_map auth_pair a) in
  let wrote m r cl := mkP (srv s) (inConn s) (Some (Plain (mkConn r (tx c ++ [m]) [] cl))) (dialed s) in
  (fb <> [] ->
     ask_parent lbAddr address auth forwardBytes entropy s =
       (Ok [], wrote (InsertProxyHeaders fb (http_headers address a)) (rx c) (closed c))) /\
  (fb = [] -> forall r,
     (forall reply, Read 1024 (rx c) = (Ok reply, r) ->
        ask_parent lbAddr address auth forwardBytes entropy s = (Ok [], wrote raw r (closed c))) /\
     (forall e, Read 1024 (rx c) = (Fail e, r) ->
        ask_parent lbAddr address auth forwardBytes entropy s = (Fail e, wrote raw r true))) /\
  (target_ok address -> (length raw <= 4096)%nat ->
     exists e reply, Contains reply (lit "200") = false /\
       Httpc.New url_host rune_cap premote plocal 4096 center (conn_of (Seg raw :: srx)) =
         if allowed center premote plocal (option_map auth_pair a)
         then (Ok (Httpc.mkRequest raw address (lit "CONNECT") [] address center false), conn_of srx)
         else (Fail e, mkConn srx [reply] [] true)).
Proof.
  intros Hk Ha Ho Hw fb raw wrote.
  assert (Hp : ask_parent lbAddr address auth forwardBytes entropy s =
    (ask_http (getParentAuth lbAddr (srv s)) address auth fb;; mret []) s).
  { unfold ask_parent. rewrite !bind_sps, Hk. fold fb. by bdec. }
  split_and!.
  - intros Hf. rewrite Hp. erewrite bind_ok; [done|]. by apply (ask_http_forward _ _ _ _ a c).
  - intros Hf r. rewrite Hp, Hf. unfold mbind, io_bind. rewrite (ask_http_connect _ _ _ a c) by done.
    split; [intros reply Hr|intros e Hr]; by rewrite Hr.
  - intros Ht Hl. destruct (proxy_decodes url_host rune_cap address (option_map auth_pair a) center premote plocal
      4096 srx Ht Hl) as (e & reply & E & Hn & _). by exists e, reply.
Qed.

(** Without a shadowsocks cipher other clients crash their handler.  A
    connection that is neither a SOCKS5 nor an HTTP client's, one that sends
    nothing among them, makes the handler panic. *)
Theorem no_cipher_panics (remote local : bytes) (me : nat) (listen : outcome bytes) (rnd : nat -> Z)
    (dial : bytes -> outcome conn) (rin rout : reader) s (cn : conn) :
  inConn s = Plain cn -> localCipher (srv s) = None -> DisableSS (cfg (srv s)) = false ->
  ParentType (cfg (srv s)) = lit "tcp" ->
  rx cn = [] \/ (IsSocks5 (first_of s) = false /\ http_like (first_of s) = false) ->
  (handle gcdx url_host rune_cap remote local me listen rnd dial rin rout s).1 = Panic.
Proof.
  intros Hi Hl Hd Hp Hcase. unfold handle. rewrite Hp. bdec.
  assert (G : exists s1, proxyTCP gcdx url_host rune_cap remote local me listen rnd dial rin rout s = (Panic, s1)).
  { assert (H : IsSocks5 (first_of s) = false /\ http_like (first_of s) = false).
    { destruct Hcase as [Hr|H]; [|exact H]. unfold first_of. rewrite Hi. cbn [wire_conn].
      unfold first_bytes. by rewrite Hr. }
    destruct H as [H5 Hh].
    destruct (ServerNameFromBytes (first_of s)) as [n|e|] eqn:Es.
    1,2: eexists; unfold proxyTCP; apply bind_panic;
      rewrite (accept_other _ _ _ _ _ _ s cn) by congruence;
      unfold accept_ss; rewrite bind_sps; cbn [srv]; rewrite Hl; done.
    eexists. unfold proxyTCP. apply bind_panic. unfold accept, dispatch.
    erewrite bind_ok by (by apply on_in_first). rewrite Es. by apply bind_lift_panic. }
  destruct G as [s1 ->]. done.
Qed.

(** C35: what the service knows of its parents once it is initialised.  The
    balancer is one its own operations can reach and has the entries with a port;
    the credentials of a parent are those in front of the last entry with its
    address, or else the configured ones; with shadowsocks parents every parent
    has a cipher. *)
Theorem InitService_ready (k : resources) (s s' : SPS R C) :
  Parent (cfg s) <> [] -> parentAuthData s = ∅ -> InitService k s = (Ok tt, s') ->
  exists es b, mapM (parent_entry (cfg s)) (Parent (cfg s)) = Ok es /\
    lb s' = Some b /\ LoadBalance.reachable gcdx b /\
    map Addr (upstreams b) =
      filter (fun a => is_ok (SplitHostPort a) = true) (map (fun e => entry_addr e.2) es) /\
    (forall a, getParentAuth a s' = default (ParentAuth (cfg s)) (last_of (auth_for a) es None)) /\
    (ParentServiceType (cfg s) = lit "ss" -> forall a, is_ok (getParentCipher a s') = true).
Proof.
  intros Hp Ha H. unfold InitService in H. rewrite bind_gets, bind_modify in H.
  rewrite (proj2 (Z.ltb_lt 0 (len (Parent (cfg s))))) in H.
  2: { destruct (Parent (cfg s)); [done|]. cbn [length]. lia. }
  io_inv H. io_inv H0. apply init_parents_spec in H1 as (es & Hes & Hm & Hok & Hau & _ & Hcfg & _).
  io_inv H0. injection H1 as Hb <-. injection H0 as _ <-.
  match type of Hb with LoadBalance.New _ ?m _ ?o = _ =>
    destruct (New_pool gcdx m _ o Hok) as (b & Eb & Hr & Hu) end.
  rewrite Hb in Eb. injection Eb as <-. exists es, a1.
  assert (G : lb s' = Some a1 /\ parentAuthData s' = parentAuthData s1 /\ cfg s' = cfg s1 /\
    (ParentServiceType (cfg s) = lit "ss" -> is_Some (parentCipher s'))).
  { io_inv H. assert (E : exists l p, s0 = set_ciphers l p (set_lb (Some a1) s1)).
    { destruct (_ && _).
      - io_inv H0. injection H1 as _ <-. injection H0 as <-. by eexists _, _.
      - injection H0 as _ <-. exists (localCipher s1), (parentCipher s1). by destruct s1. }
    destruct E as (l & p & ->). destruct (decide (ParentServiceType (cfg s) = lit "ss")) as [Hss|Hss].
    - rewrite bool_decide_true in H by done. io_inv H. injection H1 as _ <-. injection H as <-.
      split_and!; [done|done|done|]. intros _. by eexists.
    - rewrite bool_decide_false in H by done. injection H as <-. by split_and!. }
  destruct G as (G1 & G2 & G3 & G4). split_and!; [done|done|done|by rewrite Hu, Hm| |].
  - intros x. unfold getParentAuth. rewrite G2, G3, Hau, Hcfg. cbn [parentAuthData set_services cfg].
    rewrite Ha, lookup_empty. by destruct (last_of _ _ _).
  - intros Hss x. unfold getParentCipher. destruct (parentCipherData s' !! x); [done|].
    by destruct (G4 Hss) as [p ->].
Qed.

(** Starting and stopping.  A start that fails leaves open the listeners and
    sockets it has opened; [Stop] closes every listener, every connection and
    every socket of the tables, but nothing that is in the table as a pointer. *)
Theorem Start_Stop (ck : checks) (k : resources) (listen : bytes -> outcome unit)
    (bind : bytes -> outcome nat) (c0 : Config) (o : outcome unit) (s' s : SPS R C) :
  (Start ck k listen bind (New c0) = (o, s') -> closed_ s' = []) /\
  (forall a, a ∈ serverChannels s -> HListener a ∈ closed_ (Stop s)) /\
  (forall key id, userConns s !! key = Some (HConn id) -> HConn id ∈ closed_ (Stop s)) /\
  (forall key id, udpRelatedPacketConns s !! key = Some id -> HUdp id ∈ closed_ (Stop s)) /\
  (forall id, HPtr id ∈ closed_ (Stop s) <-> HPtr id ∈ closed_ s).
Proof.
  split; [intros H; by apply quiet_Start in H|].
  assert (E : closed_ (Stop s) = (closed_ s ++ map HListener (serverChannels s)
       ++ List.filter is_conn (map_to_list (userConns s)).*2) ++ map HUdp (map_to_list (udpRelatedPacketConns s)).*2).
  { unfold Stop. cbn [lb set_users]. by destruct (lb s). }
  rewrite E. split_and!.
  - intros a Ha. rewrite !elem_of_app. left. right. left. apply list_elem_of_fmap. by exists a.
  - intros key id Hk. rewrite !elem_of_app. left. right. right.
    apply list_elem_of_In, filter_In. split; [|done]. apply list_elem_of_In, list_elem_of_fmap.
    exists (key, HConn id). split; [done|]. by apply elem_of_map_to_list.
  - intros key id Hk. rewrite !elem_of_app. right. apply list_elem_of_fmap. exists id. split; [done|].
    apply list_elem_of_fmap. exists (key, id). split; [done|]. by apply elem_of_map_to_list.
  - intros id. rewrite !elem_of_app. split; [|by auto].
    intros [[H|[H|H]]|H]; [done|..].
    + by apply list_elem_of_fmap in H as (? & ? & _).
    + apply list_elem_of_In, filter_In in H as [_ H]. done.
    + by apply list_elem_of_fmap in H as (? & ? & _).
Qed.

End Properties.

(** * Examples *)

#[local] Existing Instances Sample.sample Sample.sample_laws.
#[local] Instance no_names : NameResolver unit := {| public_dns_addr := fun _ => []; must_resolve := fun _ a => a |}.
#[local] Instance one_pair : Authenticator bytes := fun c up _ _ _ => bool_decide (up = c).
#[local] Instance no_crypto : Crypto := {|
  EncryptCFB := fun _ b => Ok b; DecryptCFB := fun _ b => Ok b; md5hex := fun _ => repeat ("0"%char : byte) 32;
|}.

(** A service with a parent of the given kind, entered as [parent] *)
Definition sample_cfg (kind parent : bytes) : Config :=
  mkConfig (lit "tcp") [parent] [] [] false (lit "tcp") (lit ":28080") [] [] [] [] (lit "roundrobin") (0, 0)
    false kind (lit "feedback") (lit "secret") (lit "feedback") (lit "secret") false false false
    (lit "0") [] [] false.
Definition sample_start (kind parent : bytes) (center : option bytes) : outcome unit * SPS unit bytes :=
  InitService (mkResources (fun _ => tt) (fun _ => center)) (New (sample_cfg kind parent)).
Definition sample_pstate (kind : bytes) (center : option bytes) (r : reader) : pstate unit bytes :=
  mkP (sample_start kind (lit "1.2.3.4:80") center).2 (Plain (conn_of r)) None [].

(** An HTTP client of a service with a center and an HTTP parent *)
Definition http_run : outcome (ended bytes) * pstate unit bytes :=
  handle Z.gcd (fun _ => None) id (lit "10.0.0.9:5000") (lit "10.0.0.1:28080") 7 (Ok []) (fun _ => 0)
    (fun _ => Ok (conn_of [Seg (lit "HTTP/1.1 403")])) [] []
    (sample_pstate (lit "http") (Some (lit "u:p")) [Seg sample_raw]).

(** The refusal of the parent is not noticed.  (No check has found the parent
    healthy yet, so the address dialed is the empty one.) *)
Example refused_joins : http_run.1 = Ok (Joined []).
Proof. vm_compute. reflexivity. Qed.

Lemma admission_witness :
  exists raw up, credentials raw = Some up /\ bool_decide (up = lit "u:p") = true.
Proof.
  pose proof (surjective_pairing http_run) as E.
  pose proof (admission Z.gcd (fun _ => None) id (lit "10.0.0.9:5000") (lit "10.0.0.1:28080") 7 (Ok [])
    (fun _ => 0) (fun _ => Ok (conn_of [Seg (lit "HTTP/1.1 403")])) [] []
    (sample_pstate (lit "http") (Some (lit "u:p")) [Seg sample_raw]) http_run.1 http_run.2 (lit "u:p")
    (conn_of [Seg sample_raw])) as A.
  assert (A' := A ltac:(vm_compute; reflexivity) eq_refl eq_refl E ltac:(vm_compute; discriminate)).
  clear A. cbv zeta in A'.
  assert (H5 : IsSocks5 (first_of (sample_pstate (lit "http") (Some (lit "u:p")) [Seg sample_raw])) = false)
    by (vm_compute; reflexivity).
  assert (Hh : http_like (first_of (sample_pstate (lit "http") (Some (lit "u:p")) [Seg sample_raw])) = true)
    by (vm_compute; reflexivity).
  rewrite H5, Hh in A'. destruct A' as (raw & r0 & up & target & _ & Hc & Hv).
  exists raw, up. exact (conj Hc Hv).
Defined.

Lemma sample_start_cipher (center : option bytes) :
  localCipher (sample_start (lit "socks") (lit "1.2.3.4:80") center).2 = Some Sample.sample_cipher.
Proof. reflexivity. Qed.

(** What a shadowsocks client of the service sends *)
Definition sample_bytes : bytes :=
  match Dial (lit "example.com:443") (Ok (conn_of [])) Sample.sample_cipher [Seg (lit "iv")] with
  | Ok cl => concat (tx (inner (write_all [lit "GET"; lit "/"] cl).2))
  | _ => []
  end.

Lemma ss_accepts_witness :
  exists cl cl', Dial (lit "example.com:443") (Ok (conn_of [])) Sample.sample_cipher [Seg (lit "iv")] = Ok cl /\
    write_all [lit "GET"; lit "/"] cl = (Ok tt, cl') /\
    exists s' t, accept (fun _ => None) id (lit "10.0.0.9:5000") (lit "10.0.0.1:28080") (Ok []) []
        (sample_pstate (lit "socks") None [Seg (concat (tx (inner cl')))]) =
        (Ok (Target (lit "example.com:443") no_auth []), s') /\ inConn s' = Ss t.
Proof.
  assert (H1 : NewCipher (lit "feedback") (lit "secret") = Ok Sample.sample_cipher) by reflexivity.
  assert (H2 : plain_host (lit "example.com")) by (apply (bool_decide_eq_true_1 _); reflexivity).
  assert (H3 : (host_addr (lit "example.com")).1 = typeDomain -> len (lit "example.com") <= 255)
    by (intros _; apply Z.leb_le; reflexivity).
  assert (H4 : zero ∉ JoinHostPort (canon_host (lit "example.com")) (Itoa 443))
    by (apply (bool_decide_eq_true_1 _); vm_compute; reflexivity).
  destruct (ss_accepts (R := unit) (C := bytes) (fun _ => None) id (lit "feedback") (lit "secret")
    (lit "example.com") (lit "iv") 443 Sample.sample_cipher [Seg (lit "iv")] [] [lit "GET"; lit "/"]
    H1 eq_refl eq_refl H2 ltac:(lia) H3 H4) as (cl & cl' & D & W & A).
  exists cl, cl'. split; [exact D|]. split; [exact W|].
  assert (B : concat (tx (inner cl')) = sample_bytes) by
    (unfold sample_bytes; rewrite (D : Dial (lit "example.com:443") _ _ _ = _), W; reflexivity).
  rewrite B. clear D W.
  destruct (A (lit "10.0.0.9:5000") (lit "10.0.0.1:28080") (Ok []) []
      (sample_pstate (lit "socks") None [Seg sample_bytes]) (conn_of [Seg sample_bytes])) as (s' & t & q & H & Hi & _);
    [reflexivity| |apply sample_start_cipher|vm_compute; reflexivity..|vm_compute; discriminate|].
  { rewrite B. unfold flat, conn_of. cbn [rx map flat_ev concat]. apply app_nil_r. }
  exists s', t. split; [exact H|exact Hi].
Defined.

Lemma hello_lost_witness :
  let s := sample_pstate (lit "socks") None [] in let h := repeat (z2b 22) 40 in
  connect Z.gcd (lit "10.0.0.9:5000") 7 (fun _ => 0) (fun _ => Ok (conn_of [])) [] (lit "a.b:443") no_auth h s =
  connect Z.gcd (lit "10.0.0.9:5000") 7 (fun _ => 0) (fun _ => Ok (conn_of [])) [] (lit "a.b:443") no_auth [] s.
Proof.
  intros s h. apply hello_lost; [vm_compute; reflexivity| |vm_compute; reflexivity|].
  - apply (bool_decide_eq_true_1 _). vm_compute. reflexivity.
  - right. left. vm_compute. discriminate.
Defined.

Lemma http_parent_witness :
  let s := mkP (sample_start (lit "http") (lit "1.2.3.4:80") None).2 (Plain (conn_of []))
             (Some (Plain (conn_of [Seg (lit "HTTP/1.1 403")]))) [] in
  (exists s', ask_parent (lit "1.2.3.4:80") (lit "a.b:443") (mkAuth (lit "u") (lit "p")) [] [] s = (Ok [], s') /\
     outConn s' = Some (Plain (mkConn [] [connect_request (lit "a.b:443") (Some (lit "u", lit "p"))] [] false))) /\
  exists s', ask_parent (lit "1.2.3.4:80") (lit "a.b:443") (mkAuth (lit "u") (lit "p")) (lit "GET / HTTP/1.1") [] s = (Ok [], s') /\
     outConn s' = Some (Plain (mkConn [Seg (lit "HTTP/1.1 403")]
       [InsertProxyHeaders (lit "GET / HTTP/1.1") (http_headers (lit "a.b:443") (Some (mkAuth (lit "u") (lit "p"))))] [] false)).
Proof.
  intros s. split.
  - destruct (http_parent (fun _ => None) id (lit "1.2.3.4:80") (lit "a.b:443") [] (mkAuth (lit "u") (lit "p"))
      (Some (mkAuth (lit "u") (lit "p"))) [] (None : option bytes) [] [] [] (conn_of [Seg (lit "HTTP/1.1 403")]) s)
      as (_ & H & _); [vm_compute; reflexivity..|].
    destruct (H eq_refl []) as [H2 _].
    eexists. split; [exact (H2 (lit "HTTP/1.1 403") eq_refl)|vm_compute; reflexivity].
  - destruct (http_parent (fun _ => None) id (lit "1.2.3.4:80") (lit "a.b:443") (lit "GET / HTTP/1.1")
      (mkAuth (lit "u") (lit "p")) (Some (mkAuth (lit "u") (lit "p"))) [] (None : option bytes) [] [] []
      (conn_of [Seg (lit "HTTP/1.1 403")]) s) as (H & _); [vm_compute; reflexivity..|].
    eexists. split; [exact (H ltac:(vm_compute; discriminate))|vm_compute; reflexivity].
Defined.

(** A client that connects and closes *)
Lemma no_cipher_panics_witness :
  let cfg := mkConfig (lit "tcp") [lit "1.2.3.4:80"] [] [] false (lit "tcp") [] [] [] [] [] [] (0, 0) false
    (lit "http") [] [] [] [] false false false [] [] [] false in
  (handle Z.gcd (fun _ => None) id [] [] 7 (Ok []) (fun _ => 0) (fun _ => Panic) [] []
     (mkP (New (R := unit) (C := bytes) cfg) (Plain (conn_of [])) None [])).1 = Panic.
Proof.
  intros cfg. apply (no_cipher_panics _ _ _ _ _ _ _ _ _ _ _ _ (conn_of [])); try reflexivity. by left.
Defined.

Lemma InitService_ready_witness :
  let entry := b64_encode (lit "u:p") ++ lit "#1.2.3.4:80@3" in
  exists es b, mapM (parent_entry (sample_cfg (lit "http") entry)) [entry] = Ok es /\
    lb (sample_start (lit "http") entry None).2 = Some b /\
    getParentAuth (lit "1.2.3.4:80") (sample_start (lit "http") entry None).2 = lit "u:p".
Proof.
  intros entry.
  destruct (InitService_ready (C := bytes) Z.gcd (mkResources (fun _ => tt) (fun _ => None))
    (New (sample_cfg (lit "http") entry)) (sample_start (lit "http") entry None).2)
    as (es & b & H1 & H2 & _ & _ & H3 & _).
  - discriminate.
  - reflexivity.
  - assert (Ho : (sample_start (lit "http") entry None).1 = Ok tt) by (vm_compute; reflexivity).
    unfold sample_start in *. destruct (InitService _ _) as [o s']. cbn [fst snd] in *. by rewrite Ho.
  - exists es, b. split; [exact H1|]. split; [exact H2|]. rewrite H3.
    assert (Ee : last_of (auth_for (lit "1.2.3.4:80")) match mapM (parent_entry (sample_cfg (lit "http") entry)) [entry] with
                 | Ok x => x | _ => [] end None = Some (lit "u:p")) by (vm_compute; reflexivity).
    rewrite (H1 : mapM (parent_entry (sample_cfg (lit "http") entry)) [entry] = _) in Ee. by rewrite Ee.
Defined.
