(* ===== verification/SpsUdp.v ===== *)
(** services/sps, the UDP relays: that of a SOCKS5 association (socksudp.go) and
    that of the shadowsocks clients (ssudp.go).  A relay is a state that its
    goroutines change in steps: a datagram from a client, the start of a copier,
    a datagram from the parent.  The TCP connections that keep an association
    alive are kept by their owners; that one of them ends is an event. *)
From S2P Require Import Prelude GoStrings GoNet GoIO Iface Binding LoadBalance Shadowsocks Socks5 Route Sps.
Open Scope Z_scope.

(** * Datagrams *)

(** The capacity of the buffers of [sword.Binding] *)
Definition BindingSize : nat := 4096.

Section Data.
Context {CR : Crypto}.

Definition udp_to_raw (k b : bytes) : outcome bytes :=
  if 0 <? len k then DecryptCFB k b else Ok b.

(** The error of [EncryptCFB] is dropped; its result is nil then. *)
Definition raw_to_udp (k b : bytes) : outcome bytes :=
  if 0 <? len k then match EncryptCFB k b with Fail _ => Ok [] | o => o end else Ok b.

(** [p := socks5.NewPacketUDP()], [p.Parse(v)] *)
Definition parse_packet (v : bytes) : outcome PacketUDP :=
  match Parse v NewPacketUDP with
  | (Ok _, p) => Ok p
  | (Fail e, _) => Fail e
  | (Panic, _) => Panic
  end.

(** The parent's datagram for a SOCKS5 client *)
Definition socks_reply (lkey pkey data : bytes) : outcome bytes :=
  match udp_to_raw pkey data with
  | Fail _ => Ok []
  | Panic => Panic
  | Ok v => raw_to_udp lkey v
  end.

(** The parent's datagram for a shadowsocks client *)
Definition ss_reply {EN : Encrypt} (c : option Cipher) (entropy : reader) (pkey data : bytes) : outcome bytes :=
  match udp_to_raw pkey data with
  | Fail _ => Ok []
  | Panic => Panic
  | Ok v =>
      w ← slice_from v 3;
      match c with
      | None => Panic
      | Some c => match (Encrypt_ w (mkCstate c entropy)).1 with Fail _ => Ok [] | o => o end
      end
  end.

End Data.

(** * The relay of an association ([proxyUDP]) *)
Section Relay.
Context {CR : Crypto} (lkey pkey srcIP : bytes).

(** [table] is [udpRelatedPacketConns], which all associations and the relay of the
    shadowsocks clients share; [sockets] are the UDP connections dialed, by this
    association or by one of the others, each for its source and with what this
    association has written to it; [outUDPConn] is the variable of that name, which
    a copier reads when it starts. *)
Record relay := mkRelay {
  table : gmap bytes nat;
  sockets : list (bytes * list bytes);
  outUDPConn : option nat;
  pending : list bytes;                  (** copiers that have not started *)
  copiers : list (bytes * option nat);   (** source and socket of the others *)
  replies : list (bytes * nat * bytes);  (** datagrams to the clients: destination, socket, data *)
  sk_closed : list nat;
  is_done : bool;
}.

(** The start of the service, when no association has put anything in the table *)
Definition relay_init : relay := mkRelay ∅ [] None [] [] [] [] false.

Definition set_table t s := mkRelay t (sockets s) (outUDPConn s) (pending s) (copiers s) (replies s) (sk_closed s) (is_done s).
Definition set_sockets l s := mkRelay (table s) l (outUDPConn s) (pending s) (copiers s) (replies s) (sk_closed s) (is_done s).
Definition set_outUDP o s := mkRelay (table s) (sockets s) o (pending s) (copiers s) (replies s) (sk_closed s) (is_done s).
Definition set_copiers p c s := mkRelay (table s) (sockets s) (outUDPConn s) p c (replies s) (sk_closed s) (is_done s).
Definition add_reply r s := mkRelay (table s) (sockets s) (outUDPConn s) (pending s) (copiers s) (replies s ++ [r]) (sk_closed s) (is_done s).

(** [clean]: of the UDP connections only that of the variable is closed. *)
Definition clean (s : relay) : relay :=
  mkRelay (table s) (sockets s) (outUDPConn s) (pending s) (copiers s) (replies s)
    (match outUDPConn s with Some k => sk_closed s ++ [k] | None => sk_closed s end) true.

Definition write_socket (k : nat) (b : bytes) (s : relay) : relay :=
  set_sockets (alter (fun x => (x.1, x.2 ++ [b])) k (sockets s)) s.

(** The connection of a source: that of the table, or a new one, if it can be
    dialed *)
Definition out_conn (src : bytes) (dialed : bool) : io relay (option nat) := fun s =>
  match table s !! src with
  | Some k => (Ok (Some k), set_outUDP (Some k) s)
  | None =>
      if dialed then
        let k := length (sockets s) in
        (Ok (Some k),
         set_copiers (pending s ++ [src]) (copiers s)
           (set_table (<[src := k]> (table s))
              (set_sockets (sockets s ++ [(src, [])]) (set_outUDP (Some k) s))))
      else (Ok None, set_outUDP None s)
  end.

(** One turn of the loop: a datagram of a client; [w] is how the write ends. *)
Definition client_packet (src data : bytes) (dialed : bool) (w : option error) : io relay flow :=
  if negb (bool_decide (host_of src = srcIP)) then mret Continue
  else
    p ← io_try (v ← io_lift (udp_to_raw lkey (take BindingSize data)); io_lift (parse_packet v));
    match p with
    | inr _ => mret Continue
    | inl p =>
        k ← out_conn src dialed;
        match k with
        | None => mret Continue
        | Some k =>
            b ← io_lift (PacketUDP_Bytes p);
            v ← io_lift (raw_to_udp pkey b);
            match w with
            | None => io_modify (write_socket k v);; mret Continue
            | Some e => mret (if bool_decide (e = ErrClosed) then Return else Continue)
            end
        end
    end.

Inductive event :=
  | Packet (src data : bytes) (dialed : bool) (w : option error)
  | CopierStart (i : nat)
  | Answer (i : nat) (r : bytes + error) (w : option error)  (** a turn of a copier *)
  | Gone                                   (** a TCP connection of the association ends *)
  | Joined (src : bytes)                   (** another relay dials for [src] and enters it in the table *)
  | Left (src : bytes)                     (** a copier of another relay ends and removes its source *)
  | Shut (k : nat).                        (** another relay closes the UDP connection [k] *)

(** A panic of the loop is recovered; every way out of it runs [clean]. *)
Definition after (r : outcome flow * relay) : relay :=
  match r with (Ok Continue, s) => s | (_, s) => clean s end.

Definition step (e : event) (s : relay) : option relay :=
  match e with
  | Packet src data dialed w =>
      if is_done s then None else Some (after (client_packet src data dialed w s))
  | CopierStart i =>
      src ← pending s !! i;
      Some (set_copiers (delete i (pending s)) (copiers s ++ [(src, outUDPConn s)]) s)
  | Answer i r w =>
      '(src, o) ← copiers s !! i;
      match o with
      | None => Some s                     (** reading from nil fails for ever *)
      | Some k =>
          let r := if bool_decide (k ∈ sk_closed s) then inr ErrClosed else r in
          let w := if is_done s then Some ErrClosed else w in
          match udp_copy_step BindingSize (socks_reply lkey pkey) r w with
          | Ok (d, Continue) =>
              Some (match d with Some d => add_reply (src, k, d) s | None => s end)
          | _ => Some (set_copiers (pending s) (delete i (copiers s)) (set_table (delete src (table s)) s))
          end
      end
  | Gone => Some (clean s)
  | Joined src => Some (set_table (<[src := length (sockets s)]> (table s)) (set_sockets (sockets s ++ [(src, [])]) s))
  | Left src => Some (set_table (delete src (table s)) s)
  | Shut k => Some (mkRelay (table s) (sockets s) (outUDPConn s) (pending s) (copiers s) (replies s) (sk_closed s ++ [k]) (is_done s))
  end.

Fixpoint run (es : list event) (s : relay) : option relay :=
  match es with [] => Some s | e :: es => s ← step e s; run es s end.

(** Every copier starts before the next datagram is read. *)
Fixpoint prompt (es : list event) (s : relay) : Prop :=
  match es with
  | [] => True
  | e :: es =>
      match e with Packet _ _ _ _ => pending s = [] | _ => True end /\
      forall s', step e s = Some s' -> prompt es s'
  end.

End Relay.

(** ** Its TCP connections *)
Section Associate.
Context {R : Type} `{!NameResolver R} {C : Type} `{!Authenticator C} {EN : Encrypt} {CR : Crypto}.
Context (gcdx : Z -> Z -> Z).

(** [clean] on the TCP connections; [local] is the key of the connection to the
    parent, if it has one. *)
Definition clean_tcp (remote local : bytes) : io (pstate R C) unit :=
  io_modify (fun s =>
    let u := delete remote (userConns (srv s)) in
    mkP (set_users (if negb (bool_decide (local = [])) then delete local u else u) (closed_ (srv s)) (srv s))
      (wire_Close (inConn s)) (option_map wire_Close (outConn s)) (dialed s)).

(** [proxyUDP] up to its loop: the address of the parent's UDP socket, or nothing,
    when the association is over *)
Definition associate_run (remote local : bytes) (me parent : nat) (rnd : nat -> Z) (dial : bytes -> outcome conn)
    (server : Socks5.Server C) : io (pstate R C) (option bytes) :=
  c ← gets_srv cfg;
  if bool_decide (ParentType c = lit "ssh") then io_modify close_in;; mret None
  else
    io_modify (fun s => mkP (set_users (<[remote := HConn me]> (userConns (srv s))) (closed_ (srv s)) (srv s))
                          (inConn s) (outConn s) (dialed s));;
    lbAddr ← on_lb (Balanced_Select gcdx rnd remote);
    log_dial lbAddr;;
    t ← io_try (io_lift (dial lbAddr));
    match t with
    | inr _ => clean_tcp remote [];; mret None
    | inl t =>
        set_out (Plain t);;
        parentAuth ← gets_srv (getParentAuth lbAddr);
        client ← io_try (HandshakeSocksParent parentAuth udp (target server) (pAuth server) false);
        match client with
        | inr _ => clean_tcp remote [];; mret None
        | inl client =>
            io_modify (fun s => mkP (set_users (<[local := HPtr parent]> (userConns (srv s))) (closed_ (srv s)) (srv s))
                                  (inConn s) (outConn s) (dialed s));;
            mret (Some (UDPAddr client))
        end
    end.

(** A panic is recovered, after the deferred [clean]. *)
Definition associate (remote local : bytes) (me parent : nat) (rnd : nat -> Z) (dial : bytes -> outcome conn)
    (server : Socks5.Server C) : io (pstate R C) (option bytes) := fun s =>
  match associate_run remote local me parent rnd dial server s with
  | (Panic, s) => (clean_tcp remote [];; mret None) s
  | r => r
  end.
End Associate.

(** * The relay of the shadowsocks clients ([RunSSUDP]) *)
Section SS.
Context {R : Type} `{!NameResolver R} {C : Type} `{!Authenticator C} {EN : Encrypt} {CR : Crypto}.
Context (gcdx : Z -> Z -> Z).

(** What the [clean] of one turn refers to; its [outconn] stays nil, because the
    connection to the parent is a variable of the inner block. *)
Record cleaner := mkClean { cl_remote : bytes; cl_udp : option nat; cl_local : bytes }.

(** [parents] are the TCP connections to the parents; [usockets] the UDP
    connections, with their destination and what was written to them. *)
Record ss_relay := mkSS {
  sps : SPS R C;
  parents : list conn;
  usockets : gmap nat (bytes * list bytes);
  ucopiers : list (bytes * nat);
  to_clients : list (bytes * bytes);
  deferred : list cleaner;
  u_closed : list nat;
  running : bool;
}.

Definition ss_init (s : SPS R C) : ss_relay := mkSS s [] ∅ [] [] [] [] true.

Definition set_sps x s := mkSS x (parents s) (usockets s) (ucopiers s) (to_clients s) (deferred s) (u_closed s) (running s).
Definition set_parents x s := mkSS (sps s) x (usockets s) (ucopiers s) (to_clients s) (deferred s) (u_closed s) (running s).
Definition set_usockets x s := mkSS (sps s) (parents s) x (ucopiers s) (to_clients s) (deferred s) (u_closed s) (running s).
Definition set_ucopiers x s := mkSS (sps s) (parents s) (usockets s) x (to_clients s) (deferred s) (u_closed s) (running s).
Definition add_to_client x s := mkSS (sps s) (parents s) (usockets s) (ucopiers s) (to_clients s ++ [x]) (deferred s) (u_closed s) (running s).
Definition set_deferred x s := mkSS (sps s) (parents s) (usockets s) (ucopiers s) (to_clients s) x (u_closed s) (running s).
Definition set_uclosed x s := mkSS (sps s) (parents s) (usockets s) (ucopiers s) (to_clients s) (deferred s) x (running s).
Definition set_running x s := mkSS (sps s) (parents s) (usockets s) (ucopiers s) (to_clients s) (deferred s) (u_closed s) x.

Definition drop_user (a : bytes) (s : ss_relay) : ss_relay :=
  set_sps (set_users (delete a (userConns (sps s))) (closed_ (sps s)) (sps s)) s.
Definition set_table_udp (f : gmap bytes nat -> gmap bytes nat) (s : ss_relay) : ss_relay :=
  set_sps (set_udp (f (udpRelatedPacketConns (sps s))) (sps s)) s.

Definition ss_clean (c : cleaner) (s : ss_relay) : ss_relay :=
  let s := match cl_udp c with Some k => set_uclosed (u_closed s ++ [k]) s | None => s end in
  let s := drop_user (cl_remote c) s in
  if negb (bool_decide (cl_local c = [])) then drop_user (cl_local c) s else s.

(** The variables of the turn that is running are those of the last cleaner. *)
Definition upd_cleaner (f : cleaner -> cleaner) (s : ss_relay) : ss_relay :=
  set_deferred (alter f (pred (length (deferred s))) (deferred s)) s.
Definition clean_now (s : ss_relay) : ss_relay :=
  match last (deferred s) with Some c => ss_clean c s | None => s end.
Definition set_cl_udp (o : option nat) (c : cleaner) : cleaner := mkClean (cl_remote c) o (cl_local c).
Definition set_cl_local (a : bytes) (c : cleaner) : cleaner := mkClean (cl_remote c) (cl_udp c) a.

(** The datagram of a client: [localCipher.Decrypt], and the packet behind three
    zero bytes *)
Definition ss_decode (c : option Cipher) (data : bytes) : outcome PacketUDP :=
  match c with
  | None => Panic
  | Some c =>
      d ← (Decrypt_ data (mkCstate c [])).1;
      parse_packet ([zero; zero; zero] ++ d)
  end.

Definition on_sps_lb {A} (m : io (Balanced R) A) : io ss_relay A := fun s =>
  match lb (sps s) with
  | None => (Panic, s)
  | Some b => let '(o, b) := m b in (o, set_sps (set_lb (Some b) (sps s)) s)
  end.

(** The handshake with a parent, on the connection dialed last *)
Definition ss_handshake (lbAddr dst : bytes) : io ss_relay Client := fun s =>
  match last (parents s) with
  | None => (Panic, s)
  | Some t =>
      let '(o, q) := HandshakeSocksParent (getParentAuth lbAddr (sps s)) udp dst no_auth true
                       (mkP (sps s) (Plain (conn_of [])) (Some (Plain t)) []) in
      (o, set_parents (take (pred (length (parents s))) (parents s) ++
            [match outConn q with Some w => wire_conn w | None => t end]) s)
  end.

(** The association with a parent whose connection is there; [local] is the local
    address of that connection, [dial_udp] how the UDP dial ends. *)
Definition join_parent (lbAddr src dst local : bytes) (dial_udp : bytes -> outcome nat) : io ss_relay (option nat) :=
  client ← io_try (ss_handshake lbAddr dst);
  match client with
  | inr _ => io_modify clean_now;; mret None
  | inl client =>
      io_modify (upd_cleaner (set_cl_local local));;
      io_modify (fun s => set_sps (set_users (<[local := HPtr (pred (length (parents s)))]> (userConns (sps s)))
                                    (closed_ (sps s)) (sps s)) s);;
      k ← io_try (io_lift (dial_udp (UDPAddr client)));
      match k with
      | inr _ => mret None
      | inl k =>
          io_modify (upd_cleaner (set_cl_udp (Some k)));;
          io_modify (fun s => set_usockets (<[k := (UDPAddr client, [])]> (usockets s)) s);;
          io_modify (set_table_udp <[src := k]>);;
          io_modify (fun s => set_ucopiers (ucopiers s ++ [(src, k)]) s);;
          mret (Some k)
      end
  end.

(** A UDP connection for a client without one; [dial] is how the dial ends. *)
Definition open_parent (src dst : bytes) (rnd : nat -> Z) (dial : bytes -> outcome conn) (local : bytes)
    (dial_udp : bytes -> outcome nat) : io ss_relay (option nat) :=
  lbAddr ← on_sps_lb (Balanced_Select gcdx rnd src);
  t ← io_try (io_lift (dial lbAddr));
  match t with
  | inr _ => io_modify clean_now;; mret None
  | inl t =>
      io_modify (fun s => set_parents (parents s ++ [t]) s);;
      join_parent lbAddr src dst local dial_udp
  end.

Definition write_usocket (k : nat) (b : bytes) (s : ss_relay) : ss_relay :=
  set_usockets (alter (fun x => (x.1, x.2 ++ [b])) k (usockets s)) s.

(** One turn of the loop *)
Definition ss_packet (src data : bytes) (rnd : nat -> Z) (dial : bytes -> outcome conn) (local : bytes)
    (dial_udp : bytes -> outcome nat) (w : option error) : io ss_relay flow :=
  io_modify (fun s => set_deferred (deferred s ++ [mkClean src None []]) s);;
  p ← io_try (c ← io_gets (fun s => localCipher (sps s)); io_lift (ss_decode c (take BindingSize data)));
  match p with
  | inr _ => mret Return
  | inl p =>
      t ← io_gets (fun s => udpRelatedPacketConns (sps s));
      k ← (match t !! src with
           | Some k => io_modify (upd_cleaner (set_cl_udp (Some k)));; mret (Some k)
           | None => open_parent src (PacketUDP_Addr p) rnd dial local dial_udp
           end);
      match k with
      | None => mret Return
      | Some k =>
          b ← io_lift (PacketUDP_Bytes p);
          key ← io_gets (fun s => udpParentKey (sps s));
          v ← io_lift (raw_to_udp key b);
          match w with
          | None => io_modify (write_usocket k v);; mret Continue
          | Some e => mret (if bool_decide (e = ErrClosed) then Return else Continue)
          end
      end
  end.

Inductive ss_event :=
  | SPacket (src data : bytes) (rnd : nat -> Z) (dial : bytes -> outcome conn) (local : bytes)
      (dial_udp : bytes -> outcome nat) (w : option error)
  | SListenError (e : error)
  | SAnswer (i : nat) (r : bytes + error) (w : option error) (entropy : reader)
  | SParentGone (j : nat).               (** the TCP connection of the turn [j] ends *)

(** The loop ends, by a return or a panic: the deferred cleaners run, the last
    first. *)
Definition ss_finish (s : ss_relay) : ss_relay :=
  set_running false (foldr ss_clean s (deferred s)).

Definition ss_after (r : outcome flow * ss_relay) : ss_relay :=
  match r with (Ok Continue, s) => s | (_, s) => ss_finish s end.

Definition ss_step (e : ss_event) (s : ss_relay) : option ss_relay :=
  match e with
  | SPacket src data rnd dial local dial_udp w =>
      if running s then Some (ss_after (ss_packet src data rnd dial local dial_udp w s)) else None
  | SListenError e =>
      if running s then Some (if bool_decide (e = ErrClosed) then ss_finish s else s) else None
  | SAnswer i r w entropy =>
      '(src, k) ← ucopiers s !! i;
      let r := if bool_decide (k ∈ u_closed s) then inr ErrClosed else r in
      match udp_copy_step BindingSize (ss_reply (localCipher (sps s)) entropy (udpParentKey (sps s))) r w with
      | Ok (d, Continue) =>
          Some (match d with Some d => add_to_client (src, d) s | None => s end)
      | _ => Some (set_ucopiers (delete i (ucopiers s)) (set_table_udp (delete src) s))
      end
  | SParentGone j =>
      c ← deferred s !! j;
      if bool_decide (cl_local c = []) then None else Some (ss_clean c s)
  end.

Fixpoint ss_run (es : list ss_event) (s : ss_relay) : option ss_relay :=
  match es with [] => Some s | e :: es => s ← ss_step e s; ss_run es s end.

End SS.

(** * Laws *)

Lemma crypt_back {CR : Crypto} `{!CryptoLaws} (k b : bytes) :
  k = [] \/ length k = 24%nat -> exists d, raw_to_udp k b = Ok d /\ udp_to_raw k d = Ok b.
Proof.
  unfold raw_to_udp, udp_to_raw. intros [->|Hk]; [by exists b|].
  rewrite (proj2 (Z.ltb_lt 0 (len k))) by lia.
  destruct (Encrypt_total k b Hk) as [d Hd]. exists d. rewrite Hd. split; [done|].
  by apply Decrypt_EncryptCFB.
Qed.

(** What a relay passes on unchanged: a nonempty datagram to a name of at most 250
    bytes or to an IPv4 address *)
Record passes (host data : bytes) : Prop := {
  pass_host : host <> [];
  pass_data : data <> [];
  pass_name : is_name host = true -> len host <= 250;
  pass_v4 : (udp_wire host).1 <> ATYP_IPV6;
}.

Lemma udp_wire_canon (host : bytes) :
  (udp_wire host).1 <> ATYP_IPV6 -> udp_wire (canon host) = udp_wire host.
Proof.
  intros Hv. destruct (udp_wire_cases host) as [(_ & -> & _)|[(_ & a & b & c & d & Ei & -> & ->)|
    (_ & _ & _ & _ & E)]]; [done| |by rewrite E in Hv].
  unfold udp_wire. rewrite ip_String_IPv4, ParseIP_dotted. reflexivity.
Qed.

Lemma packet_passes (host data : bytes) (port : Z) :
  passes host data -> 0 <= port < 65536 ->
  exists p, parse_packet (udp_packet host port data) = Ok p /\
    PacketUDP_Bytes p = Ok (udp_packet host port data) /\
    PacketUDP_Addr p = JoinHostPort (canon host) (Itoa port).
Proof.
  intros [Hh Hd Hn Hv] Hp.
  assert (Hl : len host <= 255 \/ is_name host = false) by (destruct (is_name host); [left; lia|by right]).
  assert (H9 : 9 <= len (udp_packet host port data)).
  { unfold udp_packet. rewrite !length_app. destruct data as [|x data]; [done|]. cbn [length].
    destruct (udp_wire_cases host) as [(_ & _ & ->)|[(_ & a & b & c & d & _ & _ & ->)|
      (_ & _ & _ & _ & E)]]; [|cbn; lia|by rewrite E in Hv].
    destruct host as [|y host]; [done|]. cbn. lia. }
  pose proof (Parse_packet host port data NewPacketUDP Hp Hl H9) as HP. cbv zeta in HP.
  rewrite bool_decide_false in HP by (by intros [_ ->]).
  assert (E : is_name host && (251 <=? len host) = false).
  { destruct (is_name host); [|done]. apply Z.leb_gt. specialize (Hn eq_refl). lia. }
  rewrite E in HP. eexists. unfold parse_packet. rewrite HP. split; [reflexivity|]. split; [|done].
  cbn [p_rsv NewPacketUDP]. rewrite <- (udp_wire_canon host Hv) at 1.
  rewrite PacketUDP_Bytes_eq by done. unfold udp_packet. by rewrite (udp_wire_canon host Hv).
Qed.

(** ** The relay of an association *)
Section RelayLaws.
Context {CR : Crypto} (lkey pkey srcIP : bytes).
Implicit Types (s : relay).

(** [d] is the parent's form of the client's datagram [data]. *)
Definition forwards (data d : bytes) : Prop :=
  exists v p b, udp_to_raw lkey (take BindingSize data) = Ok v /\ parse_packet v = Ok p /\
    PacketUDP_Bytes p = Ok b /\ raw_to_udp pkey b = Ok d.

Definition owner s (k : nat) : option bytes := fst <$> sockets s !! k.

(** What one datagram of a client does to the state *)
Lemma client_packet_cases (src data : bytes) (dialed : bool) (w : option error) s :
  let r := client_packet lkey pkey srcIP src data dialed w s in
  r.2 = s \/
  host_of src = srcIP /\ exists o s1, out_conn src dialed s = (Ok o, s1) /\
    (r.2 = s1 \/ exists k d, o = Some k /\ forwards data d /\ r.2 = write_socket k d s1).
Proof.
  cbv zeta. unfold client_packet. destruct (decide (host_of src = srcIP)) as [Hs|Hs].
  2: { rewrite bool_decide_false by done. by left. }
  rewrite bool_decide_true by done. cbn [negb].
  destruct (udp_to_raw lkey (take BindingSize data)) as [v|e|] eqn:Ev.
  2,3: left; unfold io_try, mbind, io_bind, io_lift; by rewrite ?Ev.
  destruct (parse_packet v) as [p|e|] eqn:Ep.
  2,3: left; unfold io_try, mbind, io_bind, io_lift; by rewrite ?Ev, ?Ep.
  right. split; [done|].
  rewrite (bind_ok _ _ s s (inl p)) by (unfold io_try, mbind, io_bind, io_lift; by rewrite ?Ev, ?Ep).
  destruct (out_conn src dialed s) as [x s1] eqn:Eo.
  assert (exists o, x = Ok o) as [o ->].
  { unfold out_conn in Eo. destruct (table s !! src), dialed; injection Eo as <- _; by eexists. }
  exists o, s1. split; [done|]. erewrite bind_ok by exact Eo. destruct o as [k|]; [|by left].
  destruct (PacketUDP_Bytes p) as [b|e|] eqn:Eb; [|by left..].
  erewrite bind_lift by done. destruct (raw_to_udp pkey b) as [d|e|] eqn:Ed; [|by left..].
  erewrite bind_lift by done. destruct w as [e|]; [by left|]. right.
  exists k, d. split_and!; [done| |done]. by exists v, p, b.
Qed.

(** What holds of every run [es] *)
Record relay_ok (es : list event) s : Prop := {
  ok_table : forall src k, table s !! src = Some k -> owner s k = Some src;
  ok_written : forall k src l d, sockets s !! k = Some (src, l) -> d ∈ l -> host_of src = srcIP /\
    exists data dialed w, Packet src data dialed w ∈ es /\ forwards data d;
}.

(** What holds of a prompt one *)
Record prompt_ok s : Prop := {
  ok_pending : pending s = [] \/
    exists src k, pending s = [src] /\ outUDPConn s = Some k /\ owner s k = Some src;
  ok_copiers : forall src o, (src, o) ∈ copiers s -> exists k, o = Some k /\ owner s k = Some src;
  ok_replies : forall src k d, (src, k, d) ∈ replies s -> owner s k = Some src;
}.

Lemma owner_write (k j : nat) (d : bytes) s : owner (write_socket k d s) j = owner s j.
Proof.
  unfold owner, write_socket. cbn [sockets set_sockets].
  destruct (decide (j = k)) as [->|Hj].
  - rewrite list_lookup_alter_eq. by destruct (sockets s !! k).
  - by rewrite list_lookup_alter_ne.
Qed.

Lemma owner_app (k : nat) (src : bytes) (l : list bytes) (b : bytes) s x :
  sockets x = sockets s ++ [(b, l)] -> owner s k = Some src -> owner x k = Some src.
Proof.
  unfold owner. intros ->. destruct (sockets s !! k) as [y|] eqn:E; [|done].
  rewrite lookup_app_l by (apply lookup_lt_is_Some; by eexists). by rewrite E.
Qed.

Lemma out_conn_cases (src : bytes) (dialed : bool) s :
  (exists k, table s !! src = Some k /\ out_conn src dialed s = (Ok (Some k), set_outUDP (Some k) s)) \/
  (table s !! src = None /\ dialed = false /\ out_conn src dialed s = (Ok None, set_outUDP None s)) \/
  (table s !! src = None /\ dialed = true /\ exists s1, out_conn src dialed s = (Ok (Some (length (sockets s))), s1) /\
     table s1 = <[src := length (sockets s)]> (table s) /\ sockets s1 = sockets s ++ [(src, [])] /\
     outUDPConn s1 = Some (length (sockets s)) /\ pending s1 = pending s ++ [src] /\
     copiers s1 = copiers s /\ replies s1 = replies s /\ sk_closed s1 = sk_closed s /\ is_done s1 = is_done s).
Proof.
  unfold out_conn. destruct (table s !! src) as [k|]; [by left; exists k|].
  destruct dialed; [|by right; left]. right; right. split_and!; [done..|]. by eexists.
Qed.

Lemma owner_new (src : bytes) (l : list bytes) s x :
  sockets x = sockets s ++ [(src, l)] -> owner x (length (sockets s)) = Some src.
Proof. unfold owner. intros ->. by rewrite list_lookup_middle. Qed.

(** [clean] changes nothing the invariants speak of. *)
Lemma relay_ok_clean (es : list event) s : relay_ok es s -> relay_ok es (clean s).
Proof. by intros [H1 H2]; split. Qed.
Lemma prompt_ok_clean s : prompt_ok s -> prompt_ok (clean s).
Proof. by intros [H1 H2 H3]; split. Qed.
Lemma after_either (P : relay -> Prop) r : P r.2 -> P (clean r.2) -> P (after r).
Proof. by destruct r as [[[]| |] s]. Qed.

Lemma relay_ok_mono (es es' : list event) s : es ⊆ es' -> relay_ok es s -> relay_ok es' s.
Proof.
  intros He [H1 H2]. split; [done|]. intros k src l d Hk Hd.
  destruct (H2 k src l d Hk Hd) as (Hs & data & dl & w & Hp & Hf). split; [done|]. exists data, dl, w. auto.
Qed.

Lemma relay_ok_packet (es : list event) (src data : bytes) (dialed : bool) (w : option error) s :
  relay_ok es s -> Packet src data dialed w ∈ es ->
  relay_ok es (client_packet lkey pkey srcIP src data dialed w s).2.
Proof.
  intros Hi He. destruct (client_packet_cases src data dialed w s) as [->|(Hs & o & s1 & Ho & Hr)]; [done|].
  assert (H1 : relay_ok es s1 /\ forall k, o = Some k -> owner s1 k = Some src).
  { destruct Hi as [Ht Hw].
    destruct (out_conn_cases src dialed s) as [(k & Hk & E)|[(Hk & _ & E)|(Hk & _ & s2 & E & Et & Es & _)]];
      rewrite Ho in E; injection E; intros; subst o s1.
    - split; [by split|]. intros ? [= <-]. by apply Ht.
    - by split.
    - split; [|intros ? [= <-]; by eapply owner_new]. split.
      + intros src' k. rewrite Et. destruct (decide (src = src')) as [<-|Hn].
        * rewrite lookup_insert_eq. intros [= <-]. by eapply owner_new.
        * rewrite lookup_insert_ne by done. intros ?%Ht. by eapply owner_app.
      + intros k src' l d. rewrite Es. intros [H|[_ [_ [= <- <-]]%list_lookup_singleton_Some]]%lookup_app_Some.
        * by apply (Hw k src' l d H).
        * by intros ?%not_elem_of_nil. }
  destruct H1 as [[Ht Hw] Hk]. destruct Hr as [->|(k & d & -> & Hf & ->)]; [done|].
  split; [intros; rewrite owner_write; by apply Ht|].
  intros j src' l d'. unfold write_socket. cbn [sockets set_sockets]. destruct (decide (j = k)) as [->|Hj].
  - rewrite list_lookup_alter_eq. specialize (Hk k eq_refl). unfold owner in Hk.
    destruct (sockets s1 !! k) as [[b l0]|] eqn:E; [|done]. injection Hk as ->.
    intros [= <- <-] [Hd|Hd]%elem_of_app.
    + by apply (Hw k src l0 d' E).
    + apply list_elem_of_singleton in Hd as ->. split; [done|]. by exists data, dialed, w.
  - rewrite list_lookup_alter_ne by done. apply Hw.
Qed.

Lemma relay_ok_join (es : list event) (src : bytes) s :
  relay_ok es s -> relay_ok es (set_table (<[src := length (sockets s)]> (table s)) (set_sockets (sockets s ++ [(src, [])]) s)).
Proof.
  intros [Ht Hw]. split.
  - cbn [table set_table]. intros src' k [[<- <-]|[_ H]]%lookup_insert_Some; [by eapply owner_new|].
    eapply owner_app; [reflexivity|by apply Ht].
  - cbn [sockets set_table set_sockets]. intros k src' l d [H|[_ [_ [= <- <-]]%list_lookup_singleton_Some]]%lookup_app_Some;
      [by apply (Hw k src' l d H)|by intros ?%not_elem_of_nil].
Qed.

Lemma relay_ok_step (es : list event) (e : event) s s' :
  relay_ok es s -> step lkey pkey srcIP e s = Some s' -> relay_ok (es ++ [e]) s'.
Proof.
  intros Hi Hs. apply (relay_ok_mono es (es ++ [e])) in Hi; [|set_solver].
  destruct e as [src data dialed w|i|i r w| |src|src|k]; cbn [step] in Hs.
  - destruct (is_done s); [done|]. injection Hs as <-.
    apply after_either; [|apply relay_ok_clean]; apply relay_ok_packet; set_solver.
  - destruct (pending s !! i); [|done]. injection Hs as <-. by destruct Hi; split.
  - destruct (copiers s !! i) as [[src [k|]]|]; [|by injection Hs as <-|done]. cbn [mbind option_bind] in Hs.
    destruct (udp_copy_step _ _ _ _) as [[[d|] []]| |]; injection Hs as <-; destruct Hi as [H1 H2]; split;
      try done; cbn [table set_copiers set_table]; intros a b [_ H]%lookup_delete_Some; by apply H1.
  - injection Hs as <-. by apply relay_ok_clean.
  - injection Hs as <-. by apply relay_ok_join.
  - injection Hs as <-. destruct Hi as [H1 H2]. split; [|done].
    cbn [table set_table]. intros a b [_ H]%lookup_delete_Some. by apply H1.
  - injection Hs as <-. by destruct Hi; split.
Qed.

Lemma run_ok (es0 es : list event) s s' :
  relay_ok es0 s -> run lkey pkey srcIP es s = Some s' -> relay_ok (es0 ++ es) s'.
Proof.
  revert es0 s. induction es as [|e es IH]; intros es0 s Hi Hr; cbn [run] in Hr.
  { injection Hr as <-. by rewrite app_nil_r. }
  destruct (step _ _ _ e s) as [s1|] eqn:E; [|done].
  rewrite cons_middle, app_assoc. eapply IH; [|exact Hr]. by eapply relay_ok_step.
Qed.

Lemma init_ok : relay_ok [] relay_init.
Proof. split; by intros. Qed.

Lemma prompt_ok_packet (src data : bytes) (dialed : bool) (w : option error) s :
  prompt_ok s -> pending s = [] -> prompt_ok (client_packet lkey pkey srcIP src data dialed w s).2.
Proof.
  intros [_ Hc Hr] Hp. destruct (client_packet_cases src data dialed w s) as [->|(Hs & o & s1 & Ho & Hx)].
  { split; [by left|done..]. }
  assert (H1 : prompt_ok s1).
  { destruct (out_conn_cases src dialed s) as [(k & Hk & E)|[(Hk & _ & E)|(Hk & _ & s2 & E & Et & Es & Eo & Ep & Ec & Er & _)]];
      rewrite Ho in E; injection E; intros; subst o s1.
    - split; [by left|done..].
    - split; [by left|done..].
    - split.
      + right. exists src, (length (sockets s)). rewrite Ep, Hp. split_and!; [done..|]. by eapply owner_new.
      + rewrite Ec. intros src' o' H. destruct (Hc src' o' H) as (k & -> & Hk'). exists k.
        split; [done|]. by eapply owner_app.
      + rewrite Er. intros src' k d H%Hr. by eapply owner_app. }
  destruct Hx as [->|(k & d & -> & _ & ->)]; [done|].
  destruct H1 as [H1 H2 H3]. split.
  - destruct H1 as [H1|(a & j & H4 & H5 & H6)]; [by left|]. right. exists a, j. by rewrite owner_write.
  - intros a o' H. destruct (H2 a o' H) as (j & -> & H4). exists j. by rewrite owner_write.
  - intros a j d' H. rewrite owner_write. by eapply H3.
Qed.

Lemma prompt_ok_step (e : event) s s' :
  prompt_ok s -> match e with Packet _ _ _ _ => pending s = [] | _ => True end ->
  step lkey pkey srcIP e s = Some s' -> prompt_ok s'.
Proof.
  intros Hi He Hs. destruct e as [src data dialed w|i|i r w| |src|src|k]; cbn [step] in Hs.
  - destruct (is_done s); [done|]. injection Hs as <-.
    apply after_either; [|apply prompt_ok_clean]; by apply prompt_ok_packet.
  - destruct (pending s !! i) as [src|] eqn:Ep; [|done]. injection Hs as <-.
    destruct Hi as [H1 H2 H3]. destruct H1 as [H1|(a & k & H1 & Ho & Hk)]; [by rewrite H1 in Ep|].
    rewrite H1 in Ep. apply list_lookup_singleton_Some in Ep as [-> <-]. split; cbn.
    + left. by rewrite H1.
    + intros b o [Hb|Hb]%elem_of_app; [by apply H2|]. apply list_elem_of_singleton in Hb.
      injection Hb as -> ->. by exists k.
    + exact H3.
  - destruct (copiers s !! i) as [[src [k|]]|] eqn:Ec; [|by injection Hs as <-|done]. cbn [mbind option_bind] in Hs.
    destruct Hi as [H1 H2 H3]. apply list_elem_of_lookup_2 in Ec. destruct (H2 _ _ Ec) as (j & [= <-] & Hk).
    assert (Hd : forall x, x ∈ delete i (copiers s) -> x ∈ copiers s).
    { intros x Hx. eapply elem_of_submseteq; [exact Hx|]. apply sublist_submseteq, sublist_delete. }
    destruct (udp_copy_step _ _ _ _) as [[[d|] []]| |]; injection Hs as <-; split; try done;
      try (intros a o H%Hd; by apply H2).
    intros a j d' [H|H]%elem_of_app; [by eapply H3|]. apply list_elem_of_singleton in H. by injection H as -> -> ->.
  - injection Hs as <-. by apply prompt_ok_clean.
  - injection Hs as <-. destruct Hi as [H1 H2 H3].
    assert (Ho : forall k a, owner s k = Some a -> owner (set_table (<[src := length (sockets s)]> (table s))
      (set_sockets (sockets s ++ [(src, [])]) s)) k = Some a) by (intros k a; by apply (owner_app k a [] src)).
    split.
    + destruct H1 as [H1|(a & k & P & O & K)]; [by left|right]. exists a, k. split_and!; [done..|by apply Ho].
    + intros a o H. destruct (H2 a o H) as (k & -> & K). exists k. split; [done|by apply Ho].
    + intros a k d H. apply Ho. by eapply H3.
  - injection Hs as <-. destruct Hi as [H1 H2 H3]. by split.
  - injection Hs as <-. destruct Hi as [H1 H2 H3]. by split.
Qed.

Lemma prompt_run_ok (es : list event) s s' :
  prompt_ok s -> prompt lkey pkey srcIP es s -> run lkey pkey srcIP es s = Some s' -> prompt_ok s'.
Proof.
  revert s. induction es as [|e es IH]; intros s Hi Hp Hr; cbn [run prompt] in *.
  { by injection Hr as <-. }
  destruct Hp as [He Hp]. destruct (step _ _ _ e s) as [s1|] eqn:E; [|done].
  apply (IH s1); [by eapply prompt_ok_step|by apply Hp|done].
Qed.

Lemma init_prompt : prompt_ok relay_init.
Proof. split; [by left|by intros ? ? ?%not_elem_of_nil|by intros ? ? ? ?%not_elem_of_nil]. Qed.

Lemma client_packet_run (src data d : bytes) (dialed : bool) (k : nat) s s1 :
  host_of src = srcIP -> forwards data d -> out_conn src dialed s = (Ok (Some k), s1) ->
  client_packet lkey pkey srcIP src data dialed None s = (Ok Continue, write_socket k d s1).
Proof.
  intros Hs (v & p & b & Hv & Hp & Hb & Hd) Ho. unfold client_packet.
  rewrite bool_decide_true by done. cbn [negb].
  rewrite (bind_ok _ _ s s (inl p)) by (unfold io_try, mbind, io_bind, io_lift; by rewrite Hv, Hp).
  erewrite bind_ok by exact Ho. cbv beta iota.
  rewrite (bind_lift _ _ s1 b) by done. by rewrite (bind_lift _ _ s1 d) by done.
Qed.

Lemma out_conn_new (src : bytes) s :
  table s !! src = None ->
  exists s1, out_conn src true s = (Ok (Some (length (sockets s))), s1) /\
    table s1 = <[src := length (sockets s)]> (table s) /\ sockets s1 = sockets s ++ [(src, [])] /\
    pending s1 = pending s ++ [src] /\ copiers s1 = copiers s /\
    outUDPConn s1 = Some (length (sockets s)) /\ sk_closed s1 = sk_closed s /\
    (is_done s1 = is_done s /\ replies s1 = replies s).
Proof. intros H. unfold out_conn. rewrite H. by eexists. Qed.

Lemma run_cons (e : event) (es : list event) s s1 :
  step lkey pkey srcIP e s = Some s1 -> run lkey pkey srcIP (e :: es) s = run lkey pkey srcIP es s1.
Proof. intros H. cbn [run]. by rewrite H. Qed.
Lemma step_packet (src data : bytes) (dialed : bool) (w : option error) s s1 :
  is_done s = false -> client_packet lkey pkey srcIP src data dialed w s = (Ok Continue, s1) ->
  step lkey pkey srcIP (Packet src data dialed w) s = Some s1.
Proof. intros Hd H. cbn [step]. by rewrite Hd, H. Qed.
Lemma step_start (i : nat) (src : bytes) s :
  pending s !! i = Some src ->
  step lkey pkey srcIP (CopierStart i) s =
    Some (set_copiers (delete i (pending s)) (copiers s ++ [(src, outUDPConn s)]) s).
Proof. intros H. cbn [step]. by rewrite H. Qed.
Lemma step_answer (i : nat) (b : bytes) (src : bytes) (k : nat) (d : bytes) s :
  copiers s !! i = Some (src, Some k) -> k ∉ sk_closed s -> is_done s = false ->
  socks_reply lkey pkey (take BindingSize b) = Ok d ->
  step lkey pkey srcIP (Answer i (inl b) None) s = Some (add_reply (src, k, d) s).
Proof.
  intros Hc Hk Hd H. cbn [step]. rewrite Hc. cbn [mbind option_bind]. cbv beta iota.
  by rewrite bool_decide_false, Hd, (udp_copy_ok _ _ _ d).
Qed.

(** * Properties *)

(** C6: the relay of an association.  Whatever its goroutines and the other relays of
    the service do, which share its table: an entry of the table is a UDP connection
    dialed for its source; what the association writes to a UDP connection comes
    from datagrams of the one source that was dialed for, whose host is the
    client's; and if every copier starts before the next datagram is read, the
    association sends a client only what arrives on a connection dialed for it. *)
Theorem assoc_sound (es : list event) s :
  run lkey pkey srcIP es relay_init = Some s ->
  (forall src k, table s !! src = Some k -> owner s k = Some src) /\
  (forall k src l d, sockets s !! k = Some (src, l) -> d ∈ l -> host_of src = srcIP /\
     exists data dialed w, Packet src data dialed w ∈ es /\ forwards data d) /\
  (prompt lkey pkey srcIP es relay_init ->
     forall src k d, (src, k, d) ∈ replies s -> owner s k = Some src).
Proof.
  intros Hr. pose proof (run_ok [] es _ _ init_ok Hr) as [Ht Hw]. split_and!; [exact Ht|exact Hw|].
  intros Hp. by destruct (prompt_run_ok es _ _ init_prompt Hp Hr).
Qed.

(** A source that the table has from elsewhere.  When another relay has entered a
    source, say an earlier association whose UDP connection nobody closed, a
    datagram of that source is written to that connection, to the parent of the
    other association, and no copier is started for it here. *)
Theorem foreign_entry (a da va : bytes) :
  host_of a = srcIP -> forwards da va ->
  exists s, run lkey pkey srcIP [Joined a; Packet a da true None] relay_init = Some s /\
    sockets s = [(a, [va])] /\ pending s = [] /\ copiers s = [].
Proof.
  intros Ha Hf. set (s0 := set_table (<[a := 0%nat]> ∅) (set_sockets [(a, [])] relay_init)).
  rewrite (run_cons _ _ _ s0) by reflexivity.
  rewrite (run_cons _ _ _ (write_socket 0 va (set_outUDP (Some 0%nat) s0))).
  - cbn [run]. eexists. by split_and!.
  - apply step_packet; [done|]. apply (client_packet_run a da va true 0 _ _ Ha Hf). unfold out_conn, s0.
    cbn [table set_table]. by rewrite lookup_insert_eq.
Qed.

(** And when they do not.  A copier reads the variable of its connection when
    it starts; if the first datagrams of two sources arrive before that, both copy
    from the connection of the second: the first source gets the answers meant for
    the second, and nobody reads its own. *)
Theorem replies_cross (a b da db va vb answer y : bytes) :
  a <> b -> host_of a = srcIP -> host_of b = srcIP -> forwards da va -> forwards db vb ->
  socks_reply lkey pkey (take BindingSize answer) = Ok y ->
  exists s, run lkey pkey srcIP
      [Packet a da true None; Packet b db true None; CopierStart 0; CopierStart 0; Answer 0 (inl answer) None]
      relay_init = Some s /\
    sockets s = [(a, [va]); (b, [vb])] /\ table s !! a = Some 0%nat /\
    copiers s = [(a, Some 1%nat); (b, Some 1%nat)] /\ replies s = [(a, 1%nat, y)].
Proof.
  intros Hab Ha Hb Hfa Hfb Hy.
  destruct (out_conn_new a relay_init) as (x1 & O1 & T1 & S1 & P1 & C1 & _ & K1 & D1 & R1); [done|].
  erewrite run_cons by (apply step_packet; [done|by apply (client_packet_run a da va _ _ _ _ Ha Hfa O1)]).
  set (y1 := write_socket _ va x1).
  destruct (out_conn_new b y1) as (x2 & O2 & T2 & S2 & P2 & C2 & V2 & K2 & D2 & R2).
  { unfold y1. cbn [table write_socket set_sockets]. by rewrite T1, lookup_insert_ne. }
  erewrite run_cons by (apply step_packet; [unfold y1; cbn; by rewrite D1|by apply (client_packet_run b db vb _ _ _ _ Hb Hfb O2)]).
  assert (Y1 : sockets y1 = [(a, [va])]) by (unfold y1; cbn [sockets write_socket set_sockets]; by rewrite S1).
  rewrite Y1 in *. cbn [length] in *. set (y2 := write_socket 1 vb x2).
  assert (Y2 : pending y2 = [a; b] /\ copiers y2 = [] /\ outUDPConn y2 = Some 1%nat /\ replies y2 = [] /\
    sk_closed y2 = [] /\ is_done y2 = false /\ sockets y2 = [(a, [va]); (b, [vb])] /\ table y2 !! a = Some 0%nat).
  { unfold y2. cbn [pending copiers outUDPConn replies sk_closed is_done sockets table write_socket set_sockets].
    rewrite P2, C2, V2, K2, D2, S2, T2, R2. unfold y1. cbn [pending copiers replies sk_closed is_done table write_socket set_sockets].
    rewrite P1, C1, K1, D1, T1, R1. split_and!; [done..|by rewrite lookup_insert_ne, lookup_insert_eq]. }
  clearbody y2. destruct Y2 as (Q1 & Q2 & Q3 & Q4 & Q5 & Q6 & Q7 & Q8).
  erewrite run_cons by (apply step_start; by rewrite Q1). rewrite Q1, Q2, Q3. cbn [delete list_delete app].
  erewrite run_cons by (apply step_start; done). cbn [delete list_delete app pending copiers outUDPConn set_copiers].
  erewrite run_cons by (apply (step_answer _ _ a 1 y); cbn [copiers sk_closed is_done set_copiers]; rewrite ?Q3, ?Q5; done || by intros ?%not_elem_of_nil).
  cbn [run]. eexists. split; [done|]. cbn. by rewrite Q3, Q4.
Qed.

(** C33: datagrams pass.  A SOCKS5 datagram for a name of at most 250 bytes or an
    IPv4 address, encrypted with the key of the clients, is written to the connection
    that the table has for its source, or to a new one, as the same datagram under
    the key of the parents; and the client decrypts
    from the reply what the parent encrypted, whatever it is. *)
Theorem datagrams_pass `{!CryptoLaws} (es : list event) s (src host data raw : bytes) (port : Z) :
  run lkey pkey srcIP es relay_init = Some s -> is_done s = false ->
  (lkey = [] \/ length lkey = 24%nat) -> (pkey = [] \/ length pkey = 24%nat) ->
  host_of src = srcIP -> passes host data -> 0 <= port < 65536 ->
  (exists c, raw_to_udp lkey (udp_packet host port data) = Ok c /\
     ((length c <= BindingSize)%nat ->
      exists s' k l v, step lkey pkey srcIP (Packet src c true None) s = Some s' /\
        sockets s' !! k = Some (src, l ++ [v]) /\ udp_to_raw pkey v = Ok (udp_packet host port data))) /\
  (exists answer d, raw_to_udp pkey raw = Ok answer /\ socks_reply lkey pkey answer = Ok d /\
     udp_to_raw lkey d = Ok raw).
Proof.
  intros Hr Hn Hl Hk Hs Hh Hp. split.
  - destruct (crypt_back lkey (udp_packet host port data) Hl) as (c & Hc & Hd). exists c. split; [done|].
    intros Hlen. destruct (packet_passes host data port Hh Hp) as (p & P1 & P2 & _).
    destruct (crypt_back pkey (udp_packet host port data) Hk) as (v & Hv & Hw).
    assert (Hf : forwards c v).
    { exists (udp_packet host port data), p, (udp_packet host port data). by rewrite take_ge. }
    pose proof (run_ok [] es _ _ init_ok Hr) as [Ht _].
    cbn [step]. rewrite Hn.
    destruct (out_conn_cases src true s) as [(k & Hk' & E)|[(_ & ? & _)|(_ & _ & s1 & E & _ & Es & _)]]; [|done|].
    + rewrite (client_packet_run src c v true k _ _ Hs Hf E). specialize (Ht _ _ Hk'). unfold owner in Ht.
      destruct (sockets s !! k) as [[x l]|] eqn:El; [|done]. injection Ht as ->.
      eexists _, k, l, v. split; [reflexivity|]. split; [|done].
      cbn. rewrite list_lookup_alter_eq. cbn. by rewrite El.
    + rewrite (client_packet_run src c v true _ _ _ Hs Hf E).
      eexists _, (length (sockets s)), [], v. split; [reflexivity|]. split; [|done].
      cbn. rewrite list_lookup_alter_eq, Es, list_lookup_middle by done. done.
  - destruct (crypt_back pkey raw Hk) as (a & Ha & Hb). destruct (crypt_back lkey raw Hl) as (d & Hd & He).
    exists a, d. split_and!; [done| |done]. unfold socks_reply. by rewrite Hb.
Qed.
End RelayLaws.

(** ** The relay of the shadowsocks clients *)

(** Computations on a connection that do not close it *)
Definition keeps_open {A} (m : io conn A) : Prop := forall c, closed (m c).2 = closed c.

Lemma keeps_ret {A} (a : A) : keeps_open (mret a).
Proof. done. Qed.
Lemma keeps_fail {A} (e : error) : keeps_open (io_fail (A := A) e).
Proof. done. Qed.
Lemma keeps_lift {A} (m : outcome A) : keeps_open (io_lift m).
Proof. done. Qed.
Lemma keeps_rx {A} (m : io reader A) : keeps_open (on_rx m).
Proof. intros c. unfold on_rx. by destruct (m (rx c)). Qed.
Lemma keeps_Write (b : bytes) : keeps_open (Write b).
Proof. intros c. unfold Write. by destruct (wres c) as [|[]]. Qed.
Lemma keeps_bind {A B} (m : io conn A) (f : A -> io conn B) :
  keeps_open m -> (forall a, keeps_open (f a)) -> keeps_open (m ≫= f).
Proof.
  intros Hm Hf c. unfold mbind, io_bind. specialize (Hm c). destruct (m c) as [[a| |] c'];
    [by rewrite (Hf a c')|done..].
Qed.
Lemma keeps_wrap {A} (msg : string) (m : io conn A) : keeps_open m -> keeps_open (io_wrap msg m).
Proof. intros Hm c. unfold io_wrap. specialize (Hm c). by destruct (m c) as [[]]. Qed.

Lemma keeps_Client_Handshake (cl : Client) : keeps_open (Client_Handshake cl).
Proof.
  unfold Client_Handshake, client_greet, client_reply, reply_addr_len.
  repeat first
    [ apply keeps_ret | apply keeps_fail | apply keeps_lift | apply keeps_rx | apply keeps_Write
    | apply keeps_wrap | apply keeps_bind; [|intro]
    | progress cbv zeta
    | match goal with |- keeps_open (match ?x with _ => _ end) => destruct x end ].
Qed.

Section SSLaws.
Context {R : Type} `{!NameResolver R} {C : Type} `{!Authenticator C} {EN : Encrypt} {CR : Crypto}.
Context (gcdx : Z -> Z -> Z).
Implicit Types (s : ss_relay (R := R) (C := C)).

Definition parents_open s : Prop := Forall (fun t => closed t = false) (parents s).

(** The parents are dialed: their connections are open. *)
Definition dials_open (e : ss_event) : Prop :=
  match e with
  | SPacket _ _ _ dial _ _ _ => forall a t, dial a = Ok t -> closed t = false
  | _ => True
  end.

Lemma ss_clean_parents (c : cleaner) s : parents (ss_clean c s) = parents s /\ running (ss_clean c s) = running s.
Proof. unfold ss_clean. by destruct (cl_udp c), (negb _). Qed.
Lemma clean_now_parents s : parents (clean_now s) = parents s.
Proof. unfold clean_now. destruct (last (deferred s)); [|done]. apply ss_clean_parents. Qed.
Lemma foldr_clean (l : list cleaner) s : parents (foldr ss_clean s l) = parents s.
Proof. induction l as [|c l IH]; [done|]. cbn [foldr]. by rewrite (proj1 (ss_clean_parents c _)). Qed.

(** Computations of the relay that leave the connections to the parents open *)
Definition keeps_parents {A} (m : io (ss_relay (R := R) (C := C)) A) : Prop :=
  forall s, parents_open s -> parents_open (m s).2.

Lemma kp_ret {A} (a : A) : keeps_parents (mret a).
Proof. by intros s H. Qed.
Lemma kp_lift {A} (m : outcome A) : keeps_parents (io_lift m).
Proof. by intros s H. Qed.
Lemma kp_gets {A} (f : ss_relay (R := R) (C := C) -> A) : keeps_parents (io_gets f).
Proof. by intros s H. Qed.
Lemma kp_modify (f : ss_relay (R := R) (C := C) -> ss_relay (R := R) (C := C)) :
  (forall s, parents (f s) = parents s) -> keeps_parents (io_modify f).
Proof. intros Hf s H. unfold parents_open, io_modify. cbn [snd]. by rewrite Hf. Qed.
Lemma kp_bind {A B} (m : io (ss_relay (R := R) (C := C)) A) (f : A -> io (ss_relay (R := R) (C := C)) B) :
  keeps_parents m -> (forall a, keeps_parents (f a)) -> keeps_parents (m ≫= f).
Proof.
  intros Hm Hf s H. unfold mbind, io_bind. specialize (Hm s H).
  destruct (m s) as [[a| |] s']; [by apply Hf|done..].
Qed.
Lemma kp_try {A} (m : io (ss_relay (R := R) (C := C)) A) : keeps_parents m -> keeps_parents (io_try m).
Proof. intros Hm s H. unfold io_try. specialize (Hm s H). by destruct (m s) as [[]]. Qed.

Lemma kp_lb {A} (m : io (Balanced R) A) : keeps_parents (on_sps_lb m).
Proof. intros s H. unfold on_sps_lb. destruct (lb (sps s)) as [b|]; [|done]. by destruct (m b). Qed.

Lemma kp_push (t : conn) : closed t = false -> keeps_parents (io_modify (fun s => set_parents (parents s ++ [t]) s)).
Proof. intros Ht s H. unfold parents_open. cbn. apply Forall_app. split; [done|]. by constructor. Qed.

Lemma kp_handshake (lbAddr dst : bytes) : keeps_parents (ss_handshake lbAddr dst).
Proof.
  intros s H. unfold ss_handshake. destruct (last (parents s)) as [t|] eqn:El; [|done].
  assert (Ht : closed t = false).
  { apply last_Some in El as [l E]. unfold parents_open in H. rewrite E in H.
    apply Forall_app in H as [_ H]. by inversion H. }
  set (p := mkP _ _ _ _).
  assert (G : match outConn (HandshakeSocksParent (getParentAuth lbAddr (sps s)) udp dst no_auth true p).2 with
              | Some w => closed (wire_conn w) = false | None => True end).
  { unfold HandshakeSocksParent, mbind, io_bind, io_lift, io_gets. cbn [fst snd].
    destruct (real_auth _ _ _ _) as [a| |]; [|exact Ht..].
    unfold on_out, plain_wire. subst p. cbn [outConn srv inConn dialed].
    pose proof (keeps_Client_Handshake (NewClient udp dst a []) t) as Hk.
    destruct (Client_Handshake _ t) as [o t']. cbn in *. by rewrite Hk. }
  destruct (HandshakeSocksParent _ _ _ _ _ p) as [o q]. cbn [snd] in *. unfold parents_open. cbn.
  apply Forall_app. split; [by apply Forall_take|]. constructor; [|done].
  by destruct (outConn q).
Qed.

Lemma kp_bind_lift {A B} (m : outcome A) (f : A + error -> io (ss_relay (R := R) (C := C)) B) :
  (forall a, m = Ok a -> keeps_parents (f (inl a))) -> (forall e, keeps_parents (f (inr e))) ->
  keeps_parents (io_try (io_lift m) ≫= f).
Proof.
  intros Ha He s H. unfold mbind, io_bind, io_try, io_lift. destruct m as [a|e|]; [by apply Ha|by apply He|done].
Qed.

Lemma kp_clean_now : keeps_parents (io_modify clean_now;; mret (None : option nat)).
Proof. apply kp_bind; [|intros; apply kp_ret]. apply kp_modify, clean_now_parents. Qed.

Lemma kp_open_parent (src dst : bytes) (rnd : nat -> Z) (dial : bytes -> outcome conn) (local : bytes)
    (dial_udp : bytes -> outcome nat) :
  (forall a t, dial a = Ok t -> closed t = false) ->
  keeps_parents (open_parent gcdx src dst rnd dial local dial_udp).
Proof.
  intros Hd. unfold open_parent. apply kp_bind; [apply kp_lb|]. intros lbAddr.
  apply kp_bind_lift; [|intros; apply kp_clean_now]. intros t Ht.
  apply kp_bind; [by apply kp_push, (Hd lbAddr)|]. intros _. unfold join_parent.
  apply kp_bind; [apply kp_try, kp_handshake|]. intros [cl|e]; [|apply kp_clean_now].
  repeat first [ apply kp_ret | apply kp_modify; by intros | apply kp_try, kp_lift
               | apply kp_bind; [|intro]
               | match goal with |- keeps_parents (match ?x with _ => _ end) => destruct x end ].
Qed.

Lemma kp_packet (src data : bytes) (rnd : nat -> Z) (dial : bytes -> outcome conn) (local : bytes)
    (dial_udp : bytes -> outcome nat) (w : option error) :
  (forall a t, dial a = Ok t -> closed t = false) ->
  keeps_parents (ss_packet gcdx src data rnd dial local dial_udp w).
Proof.
  intros Hd. unfold ss_packet.
  repeat first [ apply kp_ret | apply kp_lift | apply kp_gets | by apply kp_open_parent
               | apply kp_modify; by intros | apply kp_try | apply kp_bind; [|intro]
               | match goal with |- keeps_parents (match ?x with _ => _ end) => destruct x end ].
Qed.

Lemma ss_step_parents (e : ss_event) s s' :
  parents_open s -> dials_open e -> ss_step gcdx e s = Some s' -> parents_open s'.
Proof.
  intros H Hd Hs.
  assert (Hf : forall x, parents_open x -> parents_open (ss_finish x)).
  { intros x Hx. unfold parents_open, ss_finish. cbn. by rewrite foldr_clean. }
  destruct e as [src data rnd dial local dial_udp w|e|i r w entropy|j]; cbn [ss_step] in Hs.
  - destruct (running s); [|done]. injection Hs as <-.
    pose proof (kp_packet src data rnd dial local dial_udp w Hd s H) as G.
    destruct (ss_packet _ _ _ _ _ _ _ _ s) as [[[]| |] x]; cbn [ss_after snd] in *; auto.
  - destruct (running s); [|done]. injection Hs as <-. case_bool_decide; auto.
  - destruct (ucopiers s !! i) as [[src k]|]; [|done]. cbn [mbind option_bind] in Hs.
    destruct (udp_copy_step _ _ _ _) as [[[d|] []]| |]; by injection Hs as <-.
  - destruct (deferred s !! j) as [c|]; [|done]. cbn [mbind option_bind] in Hs. case_bool_decide; [done|].
    injection Hs as <-. unfold parents_open. by rewrite (proj1 (ss_clean_parents c s)).
Qed.

Lemma ss_run_parents (es : list ss_event) s s' :
  parents_open s -> Forall dials_open es -> ss_run gcdx es s = Some s' -> parents_open s'.
Proof.
  revert s. induction es as [|e es IH]; intros s H Hd Hr; cbn [ss_run] in Hr.
  { by injection Hr as <-. }
  apply Forall_cons in Hd as [Hd Hds]. destruct (ss_step gcdx e s) as [s1|] eqn:E; [|done].
  apply (IH s1); [by eapply ss_step_parents|done|done].
Qed.

Lemma ss_clean_closed (c : cleaner) s k : k ∈ u_closed s -> k ∈ u_closed (ss_clean c s).
Proof. intros H. unfold ss_clean. destruct (cl_udp c), (negb _); cbn; set_solver. Qed.
Lemma foldr_clean_closed (l : list cleaner) (c : cleaner) (k : nat) s :
  c ∈ l -> cl_udp c = Some k -> k ∈ u_closed (foldr ss_clean s l).
Proof.
  intros Hc Hk. induction l as [|x l IH]; [by apply not_elem_of_nil in Hc|].
  cbn [foldr]. apply elem_of_cons in Hc as [<-|Hc]; [|by apply ss_clean_closed, IH].
  unfold ss_clean. rewrite Hk. destruct (negb _); cbn; set_solver.
Qed.

(** The turn of a source with a connection *)
Lemma ss_packet_known (src data b v : bytes) (rnd : nat -> Z) (dial : bytes -> outcome conn) (local : bytes)
    (dial_udp : bytes -> outcome nat) (p : PacketUDP) (k : nat) s :
  ss_decode (localCipher (sps s)) (take BindingSize data) = Ok p -> udpRelatedPacketConns (sps s) !! src = Some k ->
  PacketUDP_Bytes p = Ok b -> raw_to_udp (udpParentKey (sps s)) b = Ok v ->
  exists s1, ss_packet gcdx src data rnd dial local dial_udp None s = (Ok Continue, write_usocket k v s1) /\
    usockets s1 = usockets s.
Proof.
  intros Hp Hk Hb Hv. unfold ss_packet. rewrite bind_modify.
  rewrite (bind_ok _ _ _ (set_deferred (deferred s ++ [mkClean src None []]) s) (inl p)).
  2: { unfold io_try, mbind, io_bind, io_lift, io_gets. cbn [sps set_deferred]. by rewrite Hp. }
  rewrite bind_gets. cbn [sps set_deferred]. rewrite Hk.
  erewrite bind_ok by (rewrite bind_modify; reflexivity). cbv beta iota.
  rewrite (bind_lift _ _ _ b), bind_gets by done. cbn [sps set_deferred upd_cleaner].
  rewrite (bind_lift _ _ _ v), bind_modify by done. eexists. split; reflexivity.
Qed.
End SSLaws.

(** * Properties of the shadowsocks relay *)
Section SSProperties.
Context {R : Type} `{!NameResolver R} {C : Type} `{!Authenticator C} {EN : Encrypt} {CR : Crypto}.
Context (gcdx : Z -> Z -> Z).
Implicit Types (s : ss_relay (R := R) (C := C)).

(** The connections to the parents are never closed.  The shadowsocks relay
    closes no TCP connection it has opened to a parent, neither while it runs, nor
    when the handshake or the UDP dial fails, nor when it ends. *)
Theorem parents_leak (es : list ss_event) (s0 : SPS R C) s :
  ss_run gcdx es (ss_init s0) = Some s -> Forall dials_open es ->
  Forall (fun t => closed t = false) (parents s).
Proof. intros Hr Hd. by apply (ss_run_parents gcdx es (ss_init s0) s); [constructor|..]. Qed.

(** C34: one bad datagram.  To a SOCKS5 association a datagram that cannot be
    decrypted or parsed is nothing; the shadowsocks relay it ends for all clients:
    no datagram is taken any more, and every UDP connection is closed. *)
Theorem bad_datagram (lkey pkey srcIP src data : bytes) (dialed : bool) (w : option error) (r : relay)
    (rnd : nat -> Z) (dial : bytes -> outcome conn) (local : bytes) (dial_udp : bytes -> outcome nat) (e e' : error) s :
  (host_of src = srcIP -> (v ← udp_to_raw lkey (take BindingSize data); parse_packet v) = Fail e') ->
  is_done r = false ->
  ss_decode (localCipher (sps s)) (take BindingSize data) = Fail e -> running s = true ->
  step lkey pkey srcIP (Packet src data dialed w) r = Some r /\
  exists s', ss_step gcdx (SPacket src data rnd dial local dial_udp w) s = Some s' /\
    (forall src2 data2 rnd2 dial2 local2 dial_udp2 w2,
       ss_step gcdx (SPacket src2 data2 rnd2 dial2 local2 dial_udp2 w2) s' = None) /\
    (forall c k, c ∈ deferred s -> cl_udp c = Some k -> k ∈ u_closed s').
Proof.
  intros Hv Hn Hd Hr. split.
  - cbn [step]. rewrite Hn. f_equal. unfold client_packet.
    destruct (decide (host_of src = srcIP)) as [Hs|Hs]; [|by rewrite bool_decide_false].
    rewrite bool_decide_true by done. specialize (Hv Hs). cbn [negb].
    rewrite (bind_ok _ _ r r (inr e')); [done|]. unfold io_try, mbind, io_bind, io_lift.
    destruct (udp_to_raw _ _) as [v|x|]; cbn in Hv; [by rewrite Hv|by injection Hv as ->|done].
  - assert (E : ss_packet gcdx src data rnd dial local dial_udp w s =
                (Ok Return, set_deferred (deferred s ++ [mkClean src None []]) s)).
    { unfold ss_packet. rewrite bind_modify.
      rewrite (bind_ok _ _ _ (set_deferred (deferred s ++ [mkClean src None []]) s) (inr e)); [done|].
      unfold io_try, mbind, io_bind, io_lift, io_gets. cbn [sps set_deferred]. by rewrite Hd. }
    eexists. split; [|split].
    + cbn [ss_step]. rewrite Hr, E. reflexivity.
    + done.
    + intros c k Hc Hk. cbn [ss_after ss_finish u_closed set_running deferred set_deferred].
      apply (foldr_clean_closed _ c); [|done]. apply elem_of_app. by left.
Qed.

(** Datagrams pass, encrypted by shadowsocks.  What a client sends for a
    name of at most 250 bytes or an IPv4 address is written to the parent as the
    SOCKS5 datagram for that target, under the key of the parents; what the parent
    answers the client decrypts without the three bytes in front of it, and a
    shorter answer makes the copier panic. *)
Theorem ss_datagrams_pass `{!EncryptLaws} `{!CryptoLaws} (meth pw iv host data src raw : bytes) (port : Z)
    (c : Cipher) (g : reader) (gtl : list (byte + error)) (k : nat) (dst : bytes) (l : list bytes)
    (rnd : nat -> Z) (dial : bytes -> outcome conn) (local : bytes) (dial_udp : bytes -> outcome nat) s :
  NewCipher meth pw = Ok c -> length iv = ivLen c -> flat g = map inl iv ++ gtl ->
  localCipher (sps s) = Some c -> running s = true ->
  (udpParentKey (sps s) = [] \/ length (udpParentKey (sps s)) = 24%nat) ->
  udpRelatedPacketConns (sps s) !! src = Some k -> usockets s !! k = Some (dst, l) ->
  passes host data -> 0 <= port < 65536 ->
  (exists d, (Encrypt_ (drop 3 (udp_packet host port data)) (mkCstate c g)).1 = Ok d /\
     ((length d <= BindingSize)%nat ->
      exists s' v, ss_step gcdx (SPacket src d rnd dial local dial_udp None) s = Some s' /\
        usockets s' !! k = Some (dst, l ++ [v]) /\
        udp_to_raw (udpParentKey (sps s)) v = Ok (udp_packet host port data))) /\
  (exists answer, raw_to_udp (udpParentKey (sps s)) raw = Ok answer /\
     if len raw <? 3 then ss_reply (Some c) g (udpParentKey (sps s)) answer = Panic
     else exists d, ss_reply (Some c) g (udpParentKey (sps s)) answer = Ok d /\
       (Decrypt_ d (mkCstate c [])).1 = Ok (drop 3 raw)).
Proof.
  intros Hc Hv Hg Hl Hr Hk Ht Hu Hh Hp. split.
  - destruct (Encrypt_Decrypt meth pw iv (drop 3 (udp_packet host port data)) c g gtl Hc Hv Hg)
      as (ct & s1 & He & _ & _ & Hd & _).
    exists (iv ++ ct). rewrite He. split; [done|]. intros Hlen.
    destruct (packet_passes host data port Hh Hp) as (p & P1 & P2 & _).
    destruct (crypt_back (udpParentKey (sps s)) (udp_packet host port data) Hk) as (v & Hv1 & Hv2).
    destruct (ss_packet_known gcdx src (iv ++ ct) (udp_packet host port data) v rnd dial local dial_udp p k s)
      as (s2 & E & Eu); [|done..|].
    { rewrite take_ge, Hl by done. unfold ss_decode. rewrite Hd by done. cbn [fst mbind outcome_bind].
      change ([zero; zero; zero] ++ drop 3 (udp_packet host port data)) with (udp_packet host port data). done. }
    eexists _, v. split; [cbn [ss_step]; rewrite Hr, E; reflexivity|]. split; [|done].
    cbn [ss_after write_usocket usockets set_usockets]. by rewrite lookup_alter_eq, Eu, Hu.
  - destruct (crypt_back (udpParentKey (sps s)) raw Hk) as (a & Ha & Hb). exists a. split; [done|].
    unfold ss_reply. rewrite Hb. destruct (Z.ltb_spec (len raw) 3) as [H3|H3].
    + unfold slice_from. by rewrite slice_panic by lia.
    + assert (Es : slice_from raw 3 = Ok (drop 3 raw)).
      { rewrite <- (take_drop 3 raw) at 1. apply slice_from_app. rewrite length_take. lia. }
      rewrite Es. cbn [mbind outcome_bind].
      destruct (Encrypt_Decrypt meth pw iv (drop 3 raw) c g gtl Hc Hv Hg) as (ct & s1 & He & _ & _ & Hd & _).
      exists (iv ++ ct). rewrite He. cbn [fst]. split; [done|]. by rewrite Hd.
Qed.

(** A selection gives an address or panics. *)
Lemma Select_no_fail (sel : SelectorState) (rnd : nat -> Z) (pool : UpstreamPool) (src : bytes) e :
  (LoadBalance.Select gcdx sel rnd pool src).1 <> Fail e.
Proof.
  assert (Hi : forall i, idx pool i <> Fail e) by (intros i; unfold idx; by destruct (0 <=? i), (pool !! Z.to_nat i)).
  assert (Hh : forall s : bytes, hashing pool s <> Fail e).
  { intros s. unfold hashing. destruct (_ =? 0); [done|]. generalize (Z.to_nat (u32 (len pool))) (hash s mod u32 (len pool)).
    intros k. induction k as [|k IH]; intros i; cbn [hashing_go]; [done|].
    specialize (Hi (i mod u32 (len pool))). destruct (idx pool _) as [u| |]; cbn; [|congruence|done].
    destruct (Available u); [done|apply IH]. }
  destruct sel as [|r| | | |st|]; cbn [LoadBalance.Select fst]; try done.
  - assert (G : forall k r, (RoundRobin_go k r pool).1 <> Fail e).
    { intros k. induction k as [|k IH]; intros r'; cbn [RoundRobin_go]; [done|].
      destruct (idx pool _); [|done..]. destruct (Available _); [done|apply IH]. }
    unfold RoundRobin_Select. specialize (G (Z.to_nat (u32 (len pool))) r). by destruct (RoundRobin_go _ r pool).
  - unfold IPHash_Select. case_bool_decide; [done|apply Hh].
  - unfold AddrHash_Select. case_bool_decide; [done|apply Hh].
  - assert (G : forall m g k st, (Weight_go k pool m g st).1 <> Fail e).
    { intros m g k. induction k as [|k IH]; intros st'; cbn [Weight_go]; [done|].
      destruct (idx pool _); [|done..]. destruct (_ && _); [done|apply IH]. }
    unfold Weight_Select. destruct pool as [|u [|u' pool]]; [done..|].
    destruct (getMaxWeightAndGCD _ _) as [[m g]| |]; [|done..].
    specialize (G m g (length (u :: u' :: pool)) st). by destruct (Weight_go _ _ _ _ st).
Qed.

Lemma Balanced_Select_no_fail (rnd : nat -> Z) (src : bytes) (s s' : pstate R C) e :
  on_lb (Balanced_Select gcdx rnd src) s <> (Fail e, s').
Proof.
  unfold on_lb. destruct (lb (srv s)) as [b|]; [|done].
  destruct (Balanced_Select gcdx rnd src b) as [o b'] eqn:E. intros [= -> _]. revert E.
  unfold Balanced_Select. destruct (LoadBalance.Select _ _ _ _ _) as [x sel] eqn:Es.
  pose proof (Select_no_fail (selector b) rnd (upstreams b) src) as Hx. rewrite Es in Hx.
  destruct x as [[i|]|e'|]; [|done| |done]; [|by intros _; destruct (Hx e')].
  cbn [upstreams set_pool]. by destruct (upstreams b !! i).
Qed.

Lemma on_lb_frame {A} (m : io (Balanced R) A) (s s' : pstate R C) o :
  on_lb m s = (o, s') ->
  userConns (srv s') = userConns (srv s) /\ inConn s' = inConn s /\ outConn s' = outConn s.
Proof.
  unfold on_lb. destruct (lb (srv s)) as [b|]; [|by intros [= <- <-]]. destruct (m b). by intros [= <- <-].
Qed.

(** An association that cannot be set up is cleaned up.  When no parent can
    be dialed or its handshake fails, the client's connection and the one to the
    parent are closed and the table is as it was without the client; otherwise the
    table has both connections, that of the parent as a pointer. *)
Theorem associate_clean (remote local : bytes) (me parent : nat) (rnd : nat -> Z) (dial : bytes -> outcome conn)
    (server : Socks5.Server C) (s s' : pstate R C) o :
  ParentType (cfg (srv s)) <> lit "ssh" -> outConn s = None -> local <> remote ->
  associate gcdx remote local me parent rnd dial server s = (o, s') ->
  match o with
  | Ok None => closed (wire_conn (inConn s')) = true /\
      (forall w, outConn s' = Some w -> closed (wire_conn w) = true) /\
      userConns (srv s') = delete remote (userConns (srv s))
  | Ok (Some _) => inConn s' = inConn s /\ is_Some (outConn s') /\
      userConns (srv s') = <[local := HPtr parent]> (<[remote := HConn me]> (userConns (srv s)))
  | _ => False
  end.
Proof.
  intros Hs Ho Hl. unfold associate, associate_run. rewrite bind_sps, bool_decide_false, bind_modify by done.
  set (s1 := mkP _ _ _ _).
  assert (Hclean : forall (x : pstate R C) o x', userConns (srv x) = <[remote := HConn me]> (userConns (srv s)) ->
    (clean_tcp remote [];; mret (None : option bytes)) x = (o, x') -> o = Ok None /\
    closed (wire_conn (inConn x')) = true /\ (forall w, outConn x' = Some w -> closed (wire_conn w) = true) /\
    userConns (srv x') = delete remote (userConns (srv s))).
  { intros x o' x' Hu. unfold clean_tcp. rewrite bind_modify. intros [= <- <-]. split; [done|]. cbn. split_and!.
    - by destruct (inConn x).
    - intros w. by destruct (outConn x) as [[]|]; intros [= <-].
    - rewrite Hu. by rewrite delete_insert_eq. }
  assert (H1 : userConns (srv s1) = <[remote := HConn me]> (userConns (srv s)) /\ inConn s1 = inConn s /\ outConn s1 = None)
    by (unfold s1; by rewrite <- Ho).
  clearbody s1. clear Ho. unfold mbind at 1, io_bind at 1.
  destruct (on_lb _ s1) as [x s2] eqn:E1. pose proof (on_lb_frame _ _ _ _ E1) as (U2 & I2 & O2).
  destruct H1 as (U1 & I1 & O1). rewrite U1 in U2. rewrite I1 in I2. rewrite O1 in O2. clear U1 I1 O1.
  destruct x as [lbAddr|e|].
  2: { apply Balanced_Select_no_fail in E1. done. }
  2: { intros H. apply Hclean in H as (-> & H); [done|exact U2]. }
  unfold log_dial. rewrite bind_modify. set (s3 := mkP _ _ _ _).
  assert (U3 : userConns (srv s3) = <[remote := HConn me]> (userConns (srv s))) by exact U2.
  assert (I3 : inConn s3 = inConn s) by exact I2.
  clearbody s3. clear U2 I2 O2. destruct (dial lbAddr) as [t|e|] eqn:Ed.
  3: { intros H. apply Hclean in H as (-> & H); [done|exact U3]. }
  2: { intros H.
       change (match (clean_tcp remote [];; mret (None : option bytes)) s3 with
               | (Panic, x) => (clean_tcp remote [];; mret (None : option bytes)) x | r => r end = (o, s')) in H.
       destruct ((clean_tcp remote [];; mret (None : option bytes)) s3) as [o' x] eqn:E.
       apply Hclean in E as (-> & E); [|exact U3]. by injection H as <- <-. }
  rewrite (bind_ok _ _ s3 s3 (inl t)) by done. cbv beta iota.
  set (s4 := mkP (srv s3) (inConn s3) (Some (Plain t)) (dialed s3)).
  rewrite (bind_ok _ _ s3 s4 tt) by done. rewrite bind_sps.
  destruct (HandshakeSocksParent (getParentAuth lbAddr (srv s4)) udp (target server) (pAuth server) false s4)
    as [x s5] eqn:E5.
  assert (G : srv s5 = srv s4 /\ inConn s5 = inConn s4 /\ is_Some (outConn s5)).
  { unfold HandshakeSocksParent, mbind, io_bind, io_lift, io_gets in E5. cbn [fst snd] in E5.
    destruct (real_auth _ _ _ _) as [a| |]; [|by injection E5 as <- <-; eauto..].
    unfold on_out, plain_wire, s4 in E5. cbn [outConn srv inConn dialed] in E5.
    destruct (Client_Handshake _ t) as [y t']. by injection E5 as <- <-; cbn; eauto. }
  destruct G as (G1 & G2 & G3).
  assert (U5 : userConns (srv s5) = <[remote := HConn me]> (userConns (srv s))) by (by rewrite G1).
  destruct x as [client|e|].
  - rewrite (bind_ok _ _ s4 s5 (inl client)) by (unfold io_try; by rewrite E5). cbv beta iota.
    rewrite bind_modify. intros [= <- <-]. cbn. rewrite U5, G2. by split_and!.
  - rewrite (bind_ok _ _ s4 s5 (inr e)) by (unfold io_try; by rewrite E5). cbv beta iota.
    destruct ((clean_tcp remote [];; mret (None : option bytes)) s5) as [o' x] eqn:E.
    apply Hclean in E as (-> & E); [|exact U5]. by intros [= <- <-].
  - rewrite (bind_panic _ _ s4 s5) by (unfold io_try; by rewrite E5).
    intros H. apply Hclean in H as (-> & H); [done|exact U5].
Qed.
End SSProperties.

(** * Examples *)

#[local] Existing Instances Sample.sample Sample.sample_laws no_names one_pair no_crypto.
#[local] Instance no_crypto_laws : CryptoLaws.
Proof. split; [by intros k b _; eexists|by intros k b d [= <-]|done]. Qed.

Definition client_a : bytes := lit "10.0.0.9:5000".
Definition client_b : bytes := lit "10.0.0.9:5001".
Definition query (x : bytes) : bytes := udp_packet (lit "a.b") 53 x.

Lemma query_passes (x : bytes) : x <> [] -> passes (lit "a.b") x.
Proof.
  intros Hx. split; [done|exact Hx| |].
  - intros _. apply Z.leb_le. reflexivity.
  - apply (bool_decide_eq_true_1 _). vm_compute. reflexivity.
Qed.

Definition sample_events : list event :=
  [Joined (lit "10.0.0.8:77"); Packet client_a (query (lit "x")) true None; CopierStart 0;
   Packet client_b (query (lit "y")) true None; CopierStart 0; Answer 0 (inl (lit "z")) None].
Definition sample_relay : relay := default relay_init (run [] [] (lit "10.0.0.9") sample_events relay_init).
Lemma sample_relay_run : run [] [] (lit "10.0.0.9") sample_events relay_init = Some sample_relay.
Proof. vm_compute. reflexivity. Qed.

Lemma assoc_sound_witness : (client_a, 1%nat, lit "z") ∈ replies sample_relay /\ owner sample_relay 1 = Some client_a.
Proof.
  assert (Hin : (client_a, 1%nat, lit "z") ∈ replies sample_relay)
    by (apply (bool_decide_eq_true_1 _); vm_compute; reflexivity).
  split; [exact Hin|].
  destruct (assoc_sound [] [] (lit "10.0.0.9") sample_events sample_relay sample_relay_run) as (_ & _ & H).
  refine (H _ client_a 1%nat (lit "z") Hin). clear.
  unfold sample_events. cbn [prompt].
  repeat (split; [first [exact I | vm_compute; reflexivity | shelve]|intros ? E; vm_compute in E; injection E as <-]).
  exact I.
  Unshelve. all: vm_compute; reflexivity.
Defined.

Lemma forwards_query (x : bytes) : (length (query x) <= BindingSize)%nat -> passes (lit "a.b") x ->
  forwards [] [] (query x) (query x).
Proof.
  intros Hl Hx. destruct (packet_passes (lit "a.b") x 53 Hx ltac:(lia)) as (p & H1 & H2 & _).
  exists (query x), p, (query x). split_and!; [by rewrite take_ge|done..].
Qed.

Lemma foreign_entry_witness :
  exists s, run [] [] (lit "10.0.0.9") [Joined client_a; Packet client_a (query (lit "x")) true None] relay_init = Some s /\
    sockets s = [(client_a, [query (lit "x")])] /\ copiers s = [].
Proof.
  destruct (foreign_entry [] [] (lit "10.0.0.9") client_a (query (lit "x")) (query (lit "x")))
    as (s & H1 & H2 & _ & H3).
  - vm_compute. reflexivity.
  - apply forwards_query; [apply Nat.leb_le; vm_compute; reflexivity|by apply query_passes].
  - exists s. exact (conj H1 (conj H2 H3)).
Defined.

Lemma replies_cross_witness :
  exists s, run [] [] (lit "10.0.0.9")
      [Packet client_a (query (lit "x")) true None; Packet client_b (query (lit "y")) true None;
       CopierStart 0; CopierStart 0; Answer 0 (inl (lit "for b")) None] relay_init = Some s /\
    replies s = [(client_a, 1%nat, lit "for b")].
Proof.
  destruct (replies_cross [] [] (lit "10.0.0.9") client_a client_b (query (lit "x")) (query (lit "y"))
    (query (lit "x")) (query (lit "y")) (lit "for b") (lit "for b")) as (s & H1 & _ & _ & _ & H2).
  - discriminate.
  - vm_compute. reflexivity.
  - vm_compute. reflexivity.
  - apply forwards_query; [apply Nat.leb_le; vm_compute; reflexivity|by apply query_passes].
  - apply forwards_query; [apply Nat.leb_le; vm_compute; reflexivity|by apply query_passes].
  - vm_compute. reflexivity.
  - exists s. exact (conj H1 H2).
Defined.

Lemma datagrams_pass_witness :
  exists s' k l v, step [] [] (lit "10.0.0.9") (Packet client_a (query (lit "w")) true None) sample_relay = Some s' /\
    sockets s' !! k = Some (client_a, l ++ [v]) /\ udp_to_raw [] v = Ok (query (lit "w")).
Proof.
  destruct (datagrams_pass [] [] (lit "10.0.0.9") sample_events sample_relay client_a (lit "a.b") (lit "w") (lit "r") 53)
    as [(c & Hc & H) _].
  - exact sample_relay_run.
  - vm_compute. reflexivity.
  - left. reflexivity.
  - left. reflexivity.
  - vm_compute. reflexivity.
  - apply query_passes. discriminate.
  - lia.
  - assert (E : c = query (lit "w")) by (vm_compute in Hc; injection Hc as <-; vm_compute; reflexivity).
    subst c. destruct (H ltac:(apply Nat.leb_le; vm_compute; reflexivity)) as (s' & k & l & v & H1 & H2 & H3).
    exists s', k, l, v. exact (conj H1 (conj H2 H3)).
Defined.

(** A service with one SOCKS5 parent, and a source its relay knows *)
Definition sample_sps : SPS unit bytes :=
  set_udp {[client_a := 7%nat]} (sample_start (lit "socks") (lit "1.2.3.4:1080") None).2.
Definition sample_ss : ss_relay :=
  set_usockets {[7%nat := (lit "1.2.3.4:9000", [])]} (ss_init sample_sps).

Lemma sample_sps_cipher : localCipher sample_sps = Some Sample.sample_cipher.
Proof. reflexivity. Qed.

(** The first datagram of a source with a parent that refuses *)
Definition sample_ss_packet (src data : bytes) : ss_event :=
  SPacket src data (fun _ => 0) (fun _ => Ok (conn_of [])) (lit "10.0.0.1:40000") (fun _ => Ok 8%nat) None.

Lemma parents_leak_witness :
  exists s, ss_run Z.gcd [sample_ss_packet client_b (lit "short")] (ss_init sample_sps) = Some s /\
    Forall (fun t => closed t = false) (parents s).
Proof.
  destruct (ss_run Z.gcd [sample_ss_packet client_b (lit "short")] (ss_init sample_sps)) as [s|] eqn:E.
  - exists s. split; [reflexivity|].
    apply (parents_leak Z.gcd [sample_ss_packet client_b (lit "short")] sample_sps s E).
    constructor; [|constructor]. intros a t [= <-]. reflexivity.
  - exfalso. cbn [ss_run ss_step sample_ss_packet running ss_init mbind option_bind] in E. discriminate.
Defined.

Lemma bad_datagram_witness :
  step [] [] (lit "10.0.0.9") (Packet client_b (lit "!") true None) relay_init = Some relay_init /\
  exists s', ss_step Z.gcd (sample_ss_packet client_b (lit "!")) sample_ss = Some s' /\
    ss_step Z.gcd (sample_ss_packet client_a (lit "more")) s' = None.
Proof.
  destruct (bad_datagram Z.gcd [] [] (lit "10.0.0.9") client_b (lit "!") true None relay_init
    (fun _ => 0) (fun _ => Ok (conn_of [])) (lit "10.0.0.1:40000") (fun _ => Ok 8%nat)
    (ErrMsg "invalid input data") (ErrMsg "too short packet") sample_ss) as [H0 (s' & H1 & H2 & _)].
  - intros _. vm_compute. reflexivity.
  - reflexivity.
  - vm_compute. reflexivity.
  - reflexivity.
  - split; [exact H0|]. exists s'. split; [exact H1|]. apply H2.
Defined.

Lemma ss_datagrams_pass_witness :
  exists d, (Encrypt_ (drop 3 (query (lit "q"))) (mkCstate Sample.sample_cipher [Seg (lit "iv")])).1 = Ok d /\
    exists s' v, ss_step Z.gcd (sample_ss_packet client_a d) sample_ss = Some s' /\
      usockets s' !! 7%nat = Some (lit "1.2.3.4:9000", [v]) /\
      udp_to_raw (udpParentKey sample_sps) v = Ok (query (lit "q")).
Proof.
  destruct (ss_datagrams_pass Z.gcd (lit "feedback") (lit "secret") (lit "iv") (lit "a.b") (lit "q") client_a []
    53 Sample.sample_cipher [Seg (lit "iv")] [] 7%nat (lit "1.2.3.4:9000") [] (fun _ => 0)
    (fun _ => Ok (conn_of [])) (lit "10.0.0.1:40000") (fun _ => Ok 8%nat) sample_ss) as [(d & Hd & H) _].
  - reflexivity.
  - reflexivity.
  - reflexivity.
  - exact sample_sps_cipher.
  - reflexivity.
  - left. reflexivity.
  - vm_compute. reflexivity.
  - vm_compute. reflexivity.
  - apply query_passes. discriminate.
  - lia.
  - exists d. split; [exact Hd|].
    assert (El : Nat.leb (match (Encrypt_ (drop 3 (query (lit "q"))) (mkCstate Sample.sample_cipher [Seg (lit "iv")])).1 with
                 | Ok d => length d | _ => BindingSize end) BindingSize = true) by (vm_compute; reflexivity).
    rewrite (Hd : (Encrypt_ (drop 3 (query (lit "q"))) _).1 = _) in El.
    destruct (H (proj1 (Nat.leb_le _ _) El)) as (s' & v & H1 & H2 & H3). exists s', v.
    exact (conj H1 (conj H2 H3)).
Defined.

(** A client whose parent cannot be dialed *)
Lemma associate_clean_witness :
  let s := mkP sample_sps (Plain (conn_of [])) None [] in
  let r := associate Z.gcd client_a (lit "10.0.0.1:40000") 1 2 (fun _ => 0) (fun _ => Fail ErrRefused)
             (NewServer (None : option bytes) true (lit "10.0.0.1") []) s in
  r.1 = Ok None /\ closed (wire_conn (inConn r.2)) = true.
Proof.
  intros s r. assert (E : r = (r.1, r.2)) by apply surjective_pairing.
  pose proof (associate_clean Z.gcd client_a (lit "10.0.0.1:40000") 1 2 (fun _ => 0) (fun _ => Fail ErrRefused)
    (NewServer (None : option bytes) true (lit "10.0.0.1") []) s r.2 r.1
    ltac:(apply (bool_decide_eq_true_1 _); vm_compute; reflexivity) eq_refl ltac:(discriminate) E) as A.
  assert (H : match r.1 with Ok None => true | _ => false end = true) by (vm_compute; reflexivity).
  destruct r.1 as [[u|]|e|]; [discriminate H| |discriminate H..].
  split; [reflexivity|]. exact (proj1 A).
Defined.
